(** * Skyforge urban-climate simulator: the simulation core in Rocq

    A shallow embedding of [simulation.py] (class [ClimateSimulator]) and
    [relief_data.py] (class [ReliefDataProvider]).

    - Python [float] and [np.float64] are IEEE-754 binary64: they are Rocq's
      primitive [float], whose operations round to nearest, ties to even,
      exactly as CPython and NumPy do.
    - Python [int] is [Z].
    - NumPy arrays are mutable objects reached through references: the
      simulator's fields hold locations into a heap of arrays, and
      [ndarray.copy] allocates.
    - A Python exception ends the call but keeps every mutation made before
      it: operations are functions [world -> result A * world]. *)

From Stdlib Require Import ZArith QArith Qabs List Floats Lia String.
From stdpp Require Import gmap list strings.

Set Warnings "-inexact-float".
#[local] Open Scope Z_scope.

(** ** Python exceptions and results *)

Inductive exn : Set :=
  | OverflowError
  | ValueError
  | IndexError
  | ZeroDivisionError.

Inductive result (A : Type) : Type :=
  | Ok (a : A)
  | Raise (e : exn).
Arguments Ok {A} a.
Arguments Raise {A} e.

#[global] Instance result_ret : MRet result := @Ok.
#[global] Instance result_bind : MBind result :=
  fun A B k r => match r with Ok a => k a | Raise e => Raise e end.

(** ** Binary64 arithmetic as Python exposes it *)
Module PyFloat.

(** [float(z)] for a Python int: the nearest binary64 (exact for
    [|z| <= 2^53], which every grid size and index is). *)
Definition of_int (z : Z) : float :=
  SF2Prim (binary_normalize prec emax z 0 false).

Definition is_finite (f : float) : bool :=
  match Prim2SF f with
  | S754_zero _ | S754_finite _ _ _ => true
  | S754_infinity _ | S754_nan => false
  end.

(** [int(f)]: truncation toward zero; [OverflowError] on an infinity,
    [ValueError] on a NaN. *)
Definition to_int (f : float) : result Z :=
  match Prim2SF f with
  | S754_zero _ => Ok 0
  | S754_finite s m e =>
      let a := match e with
               | Zneg k => Z.shiftr (Zpos m) (Zpos k)
               | _ => Z.shiftl (Zpos m) e
               end in
      Ok (if s then - a else a)
  | S754_infinity _ => Raise OverflowError
  | S754_nan => Raise ValueError
  end.

(** [int(np.round(f))]: NumPy rounds half to even ([rint]); the
    conversion then raises as [int] does. *)
Definition round_to_int (f : float) : result Z :=
  match Prim2SF f with
  | S754_zero _ => Ok 0
  | S754_finite s m e =>
      let a := match e with
               | Zneg k =>
                   let q := Z.shiftr (Zpos m) (Zpos k) in
                   let r := Zpos m - Z.shiftl q (Zpos k) in
                   let half := Z.shiftl 1 (Zpos k - 1) in
                   match r ?= half with
                   | Lt => q
                   | Gt => q + 1
                   | Eq => if Z.even q then q else q + 1
                   end
               | _ => Z.shiftl (Zpos m) e
               end in
      Ok (if s then - a else a)
  | S754_infinity _ => Raise OverflowError
  | S754_nan => Raise ValueError
  end.

(** [a / b] on two Python ints (true division): the quotient rounded to
    binary64, [ZeroDivisionError] when [b = 0]. For operands of magnitude
    up to [2^53] it is the binary64 quotient of the converted operands. *)
Definition int_truediv (a b : Z) : result float :=
  if b =? 0 then Raise ZeroDivisionError
  else Ok (of_int a / of_int b)%float.

(** [a / b] on two Python floats: [ZeroDivisionError] on a zero divisor
    (NumPy scalars do not raise, they are plain [/]). *)
Definition truediv (a b : float) : result float :=
  if (b =? 0)%float then Raise ZeroDivisionError else Ok (a / b)%float.

(** [x ** 2] on a Python float: the rounded square; [OverflowError] when
    a finite operand overflows. *)
Definition pow2 (x : float) : result float :=
  let r := (x * x)%float in
  if is_finite x && negb (is_finite r) then Raise OverflowError else Ok r.

(** [x ** 2] on an [np.float64]: the rounded square, never an exception. *)
Definition np_pow2 (x : float) : float := (x * x)%float.

End PyFloat.

(** ** The NumPy functions the embedding does not compute *)

(** [np.radians] and [np.cos] are evaluated by the platform's C library, and
    [np.mean] sums pairwise in an order that depends on the array layout:
    the model is parametric in them. *)
Class NumPy : Type := {
  np_radians : float -> float;
  np_cos : float -> float;
  np_mean : list (list float) -> float
}.

(** ** NumPy arrays *)

(** A 2-D [float64] array of shape (n, m) is a list of [n] rows of [m]
    entries; [a[i, j]] is entry [j] of row [i]. *)
Abbreviation ndarray := (list (list float)).

Module Nd.

(** NumPy index normalisation on an axis of length [n]: [-n <= i < 0]
    counts from the end, anything outside [-n .. n-1] is an
    [IndexError]. *)
Definition index (n : nat) (i : Z) : result nat :=
  if (0 <=? i) && (i <? Z.of_nat n) then Ok (Z.to_nat i)
  else if (- Z.of_nat n <=? i) && (i <? 0) then Ok (Z.to_nat (i + Z.of_nat n))
  else Raise IndexError.

(** [np.full((w, h), v)]; a negative dimension is a [ValueError]. *)
Definition full (shape : Z * Z) (v : float) : result ndarray :=
  let '(w, h) := shape in
  if (w <? 0) || (h <? 0) then Raise ValueError
  else Ok (replicate (Z.to_nat w) (replicate (Z.to_nat h) v)).

(** [a[i, j]] *)
Definition getitem (a : ndarray) (i j : Z) : result float :=
  i' ← index (length a) i;
  match a !! i' with
  | Some row =>
      j' ← index (length row) j;
      match row !! j' with
      | Some v => Ok v
      | None => Raise IndexError
      end
  | None => Raise IndexError
  end.

(** [a[i, j] = v] *)
Definition setitem (a : ndarray) (i j : Z) (v : float) : result ndarray :=
  i' ← index (length a) i;
  match a !! i' with
  | Some row =>
      j' ← index (length row) j;
      Ok (<[i' := <[j' := v]> row]> a)
  | None => Raise IndexError
  end.

(** The entries in C order, as [np.argmax] and the reductions see them. *)
Definition flatten (a : ndarray) : list float := concat a.

(** [np.argmax(a)]: the flat index of the first maximum; a NaN counts
    as the maximum and stops the scan. [ValueError] on an empty array. *)
Fixpoint argmax_from (best : float) (besti : nat) (i : nat) (l : list float) : nat :=
  match l with
  | [] => besti
  | v :: l' =>
      if is_nan best then besti
      else if (v <=? best)%float then argmax_from best besti (S i) l'
      else argmax_from v i (S i) l'
  end.

Definition argmax (a : ndarray) : result nat :=
  match flatten a with
  | [] => Raise ValueError
  | v :: l => Ok (argmax_from v 0%nat 1%nat l)
  end.

(** [np.unravel_index(k, a.shape)] for a 2-D shape (n, m). *)
Definition unravel_index (k : nat) (a : ndarray) : Z * Z :=
  let m := match a with [] => 0%nat | row :: _ => length row end in
  (Z.of_nat (k / m), Z.of_nat (k mod m)).

(** [shape a w h]: the array has [w] rows of [h] entries. *)
Definition shape (w h : Z) (a : ndarray) : Prop :=
  length a = Z.to_nat w /\ Forall (fun row => length row = Z.to_nat h) a.

(** Element-wise reading by natural indices, for statements. *)
Definition at_ (a : ndarray) (i j : nat) : option float :=
  a !! i ≫= fun row => row !! j.

End Nd.

(** [range(start, stop, step)] for a positive step. *)
Definition py_range (start stop step : Z) : list Z :=
  map (fun k => start + step * Z.of_nat k)
      (seq 0 (Z.to_nat ((stop - start + step - 1) / step))).

(** [range(start, stop, step)] for any step: [ValueError] on a zero
    step, a descending range on a negative one. *)
Definition py_range_step (start stop step : Z) : result (list Z) :=
  if step =? 0 then Raise ValueError
  else if 0 <? step then Ok (py_range start stop step)
  else Ok (map (fun k => start + step * Z.of_nat k)
               (seq 0 (Z.to_nat ((start - stop - step - 1) / (- step))))).

(** ** The climate simulator ([simulation.py]) *)

Abbreviation loc := positive.

(** One entry of the intervention history: the dict
    [{'type', 'lat', 'lon', 'x', 'y'}]. *)
Record Intervention : Type := {
  i_type : string;
  i_lat : float;
  i_lon : float;
  i_x : Z;
  i_y : Z
}.

(** The attributes of a [ClimateSimulator] object. The six arrays are
    references; the history list is kept by value (it is only appended to
    and replaced). *)
Record ClimateSimulator : Type := {
  grid_width : Z;
  grid_height : Z;
  base_lat : float;
  base_lon : float;
  base_temp : loc;
  base_wind_u : loc;
  base_wind_v : loc;
  current_temp : loc;
  current_wind_u : loc;
  current_wind_v : loc;
  interventions : list Intervention
}.

(** The object together with the arrays it can reach. *)
Record world : Type := {
  self : ClimateSimulator;
  heap : gmap loc ndarray
}.

(** The dict returned by [get_state]. *)
Record Snapshot : Type := {
  snap_temperature_data : list (float * float * float);
  snap_wind_data : list (float * float * float * float * float);
  snap_hotspot : float * float * float;
  snap_base_temp : float;
  snap_current_avg_temp : float;
  snap_interventions : list Intervention
}.

(** [self.TEMP_COEFFICIENTS] *)
Definition TEMP_COEFFICIENTS : gmap string float :=
  list_to_map
    [("ADD_PARK"%string, (-2.0)%float);
     ("ADD_WATER"%string, (-3.0)%float);
     ("REMOVE_ASPHALT"%string, 1.0%float);
     ("ADD_ASPHALT"%string, 2.5%float);
     ("ADD_BUILDING"%string, 1.5%float)].

(** *** Stateful operations *)

Definition M (A : Type) : Type := world -> result A * world.

#[global] Instance M_ret : MRet M := fun A a w => (Ok a, w).
#[global] Instance M_bind : MBind M :=
  fun A B k m w =>
    match m w with
    | (Ok a, w') => k a w'
    | (Raise e, w') => (Raise e, w')
    end.

Definition lift {A} (r : result A) : M A := fun w => (r, w).
Definition get_self : M ClimateSimulator := fun w => (Ok (self w), w).
Definition set_self (s : ClimateSimulator) : M unit :=
  fun w => (Ok tt, {| self := s; heap := heap w |}).
Definition load (l : loc) : M ndarray := fun w => (Ok (heap w !!! l), w).
Definition store (l : loc) (a : ndarray) : M unit :=
  fun w => (Ok tt, {| self := self w; heap := <[l := a]> (heap w) |}).

(** A new array object: a location not yet in the heap. *)
Definition new_array (a : ndarray) : M loc :=
  fun w => let l := fresh (dom (heap w)) in
           (Ok l, {| self := self w; heap := <[l := a]> (heap w) |}).

(** [arr.copy()] *)
Definition copy (l : loc) : M loc := a ← load l; new_array a.

(** [arr[i, j]], [arr[i, j] = v], [arr[i, j] += v], [arr[i, j] *= v] *)
Definition getitem (l : loc) (i j : Z) : M float :=
  a ← load l; lift (Nd.getitem a i j).
Definition setitem (l : loc) (i j : Z) (v : float) : M unit :=
  a ← load l; a' ← lift (Nd.setitem a i j v); store l a'.
Definition iadd (l : loc) (i j : Z) (v : float) : M unit :=
  t ← getitem l i j; setitem l i j (t + v)%float.
Definition imul (l : loc) (i j : Z) (v : float) : M unit :=
  t ← getitem l i j; setitem l i j (t * v)%float.

(** A [for] loop whose body returns nothing. *)
Fixpoint for_ {A} (l : list A) (body : A -> M unit) : M unit :=
  match l with
  | [] => mret tt
  | a :: l' => body a ;; for_ l' body
  end.

(** A loop that collects one value per iteration. *)
Fixpoint collect {A B} (l : list A) (body : A -> M B) : M (list B) :=
  match l with
  | [] => mret []
  | a :: l' => b ← body a; bs ← collect l' body; mret (b :: bs)
  end.

Section Simulation.
Context {np : NumPy}.

(** [__init__]: three uniform base arrays, a copy of each as the current
    state, an empty history. *)
Definition ClimateSimulator_init (grid_size : Z * Z) (base_lat base_lon : float)
    (h : gmap loc ndarray) : result world :=
  bt ← Nd.full grid_size 30.0%float;
  bu ← Nd.full grid_size 2.0%float;
  bv ← Nd.full grid_size 1.0%float;
  let l1 := fresh (dom h) in let h1 := <[l1 := bt]> h in
  let l2 := fresh (dom h1) in let h2 := <[l2 := bu]> h1 in
  let l3 := fresh (dom h2) in let h3 := <[l3 := bv]> h2 in
  let l4 := fresh (dom h3) in let h4 := <[l4 := bt]> h3 in
  let l5 := fresh (dom h4) in let h5 := <[l5 := bu]> h4 in
  let l6 := fresh (dom h5) in let h6 := <[l6 := bv]> h5 in
  Ok {| self := {| grid_width := fst grid_size; grid_height := snd grid_size;
                   base_lat := base_lat; base_lon := base_lon;
                   base_temp := l1; base_wind_u := l2; base_wind_v := l3;
                   current_temp := l4; current_wind_u := l5; current_wind_v := l6;
                   interventions := [] |};
        heap := h6 |}.

(** [latlon_to_grid] *)
Definition latlon_to_grid (s : ClimateSimulator) (lat lon : float) : result (Z * Z) :=
  let lat_offset := ((lat - base_lat s) * 111000)%float in
  let lon_offset :=
    ((lon - base_lon s) * 111000 * np_cos (np_radians (base_lat s)))%float in
  x ← PyFloat.to_int (PyFloat.of_int (grid_width s) / 2 + lon_offset / 100)%float;
  y ← PyFloat.to_int (PyFloat.of_int (grid_height s) / 2 + lat_offset / 100)%float;
  Ok (Z.max 0 (Z.min x (grid_width s - 1)), Z.max 0 (Z.min y (grid_height s - 1))).

(** [grid_to_latlon] *)
Definition grid_to_latlon (s : ClimateSimulator) (x y : Z) : float * float :=
  let lon_offset :=
    ((PyFloat.of_int x - PyFloat.of_int (grid_width s) / 2) * 100
     / (111000 * np_cos (np_radians (base_lat s))))%float in
  let lat_offset :=
    ((PyFloat.of_int y - PyFloat.of_int (grid_height s) / 2) * 100 / 111000)%float in
  ((base_lat s + lat_offset)%float, (base_lon s + lon_offset)%float).

Definition in_grid (s : ClimateSimulator) (nx ny : Z) : bool :=
  (0 <=? nx) && (nx <? grid_width s) && (0 <=? ny) && (ny <? grid_height s).

(** The offsets of the two nested loops [for dx in range(-2, 3): for dy
    in range(-2, 3)], in iteration order. *)
Definition neighbourhood : list (Z * Z) :=
  dx ← py_range (-2) 3 1; dy ← py_range (-2) 3 1; [(dx, dy)].

(** [propagate_heat_effect] *)
Definition propagate_heat_effect (s : ClimateSimulator) (grid : loc)
    (cx cy : Z) (impact : float) : M unit :=
  for_ neighbourhood (fun '(dx, dy) =>
    if (dx =? 0) && (dy =? 0) then mret tt
    else
      let distance_sq := dx ^ 2 + dy ^ 2 in
      let damping := (1 / PyFloat.of_int (1 + distance_sq))%float in
      let nx := cx + dx in
      let ny := cy + dy in
      if in_grid s nx ny then iadd grid nx ny (impact * damping * 0.5)%float
      else mret tt).

(** [get_wind_shadow_cells] *)
Definition get_wind_shadow_cells (u v : float) : result (list (Z * Z)) :=
  let wind_magnitude := sqrt (PyFloat.np_pow2 u + PyFloat.np_pow2 v)%float in
  if (wind_magnitude <? 0.1)%float then Ok []
  else
    let dir_x := (- u / wind_magnitude)%float in
    let dir_y := (- v / wind_magnitude)%float in
    mapM (fun dist =>
            dx ← PyFloat.round_to_int (dir_x * PyFloat.of_int dist)%float;
            dy ← PyFloat.round_to_int (dir_y * PyFloat.of_int dist)%float;
            Ok (dx, dy))
         (py_range 1 4 1).

(** [get_wind_channel_cells] *)
Definition get_wind_channel_cells (u v : float) : result (list (Z * Z)) :=
  let wind_magnitude := sqrt (PyFloat.np_pow2 u + PyFloat.np_pow2 v)%float in
  if (wind_magnitude <? 0.1)%float then Ok []
  else
    let perp_x1 := (- v / wind_magnitude)%float in
    let perp_y1 := (u / wind_magnitude)%float in
    let perp_x2 := (v / wind_magnitude)%float in
    let perp_y2 := (- u / wind_magnitude)%float in
    cells ← mapM (fun dist =>
            a ← PyFloat.round_to_int (perp_x1 * PyFloat.of_int dist)%float;
            b ← PyFloat.round_to_int (perp_y1 * PyFloat.of_int dist)%float;
            c ← PyFloat.round_to_int (perp_x2 * PyFloat.of_int dist)%float;
            d ← PyFloat.round_to_int (perp_y2 * PyFloat.of_int dist)%float;
            Ok [(a, b); (c, d)])
         (py_range 1 3 1);
    Ok (concat cells).

(** [get_state]: a read of the current fields. *)
Definition get_state : M Snapshot :=
  s ← get_self;
  let sample_rate := 2 in
  samples ← collect
    (x ← py_range 0 (grid_width s) sample_rate;
     y ← py_range 0 (grid_height s) sample_rate; [(x, y)])
    (fun '(x, y) =>
       let '(lat, lon) := grid_to_latlon s x y in
       t ← getitem (current_temp s) x y;
       u ← getitem (current_wind_u s) x y;
       v ← getitem (current_wind_v s) x y;
       uu ← lift (PyFloat.pow2 u);
       vv ← lift (PyFloat.pow2 v);
       let wind_magnitude := sqrt (uu + vv)%float in
       mret ((lat, lon, t), (lat, lon, u, v, wind_magnitude)));
  ct ← load (current_temp s);
  k ← lift (Nd.argmax ct);
  let max_idx := Nd.unravel_index k ct in
  let '(hotspot_lat, hotspot_lon) := grid_to_latlon s (fst max_idx) (snd max_idx) in
  hotspot_temp ← lift (Nd.getitem ct (fst max_idx) (snd max_idx));
  bt ← load (base_temp s);
  mret {| snap_temperature_data := map fst samples;
          snap_wind_data := map snd samples;
          snap_hotspot := (hotspot_lat, hotspot_lon, hotspot_temp);
          snap_base_temp := np_mean bt;
          snap_current_avg_temp := np_mean ct;
          snap_interventions := interventions s |}.

(** [self.interventions.append(intervention)] *)
Definition append_intervention (i : Intervention) : M unit :=
  s ← get_self;
  set_self {| grid_width := grid_width s; grid_height := grid_height s;
              base_lat := base_lat s; base_lon := base_lon s;
              base_temp := base_temp s; base_wind_u := base_wind_u s;
              base_wind_v := base_wind_v s;
              current_temp := current_temp s;
              current_wind_u := current_wind_u s;
              current_wind_v := current_wind_v s;
              interventions := interventions s ++ [i] |}.

(** The wind branch of [apply_intervention]. *)
Definition apply_wind_effect (s : ClimateSimulator) (action_type : string)
    (x y : Z) : M unit :=
  if String.eqb action_type "ADD_BUILDING" then
    u ← getitem (current_wind_u s) x y;
    v ← getitem (current_wind_v s) x y;
    shadow ← lift (get_wind_shadow_cells u v);
    for_ shadow (fun '(dx, dy) =>
      let nx := x + dx in
      let ny := y + dy in
      if in_grid s nx ny then
        imul (current_wind_u s) nx ny 0.5%float;;
        imul (current_wind_v s) nx ny 0.5%float
      else mret tt);;
    channel ← lift (get_wind_channel_cells u v);
    for_ channel (fun '(dx, dy) =>
      let nx := x + dx in
      let ny := y + dy in
      if in_grid s nx ny then
        imul (current_wind_u s) nx ny 1.3%float;;
        imul (current_wind_v s) nx ny 1.3%float
      else mret tt)
  else if String.eqb action_type "REMOVE_BUILDING" then
    u ← getitem (base_wind_u s) x y;
    v ← getitem (base_wind_v s) x y;
    shadow ← lift (get_wind_shadow_cells u v);
    for_ shadow (fun '(dx, dy) =>
      let nx := x + dx in
      let ny := y + dy in
      if in_grid s nx ny then
        bu ← getitem (base_wind_u s) nx ny;
        setitem (current_wind_u s) nx ny bu;;
        bv ← getitem (base_wind_v s) nx ny;
        setitem (current_wind_v s) nx ny bv
      else mret tt)
  else mret tt.

(** The temperature branch of [apply_intervention]. *)
Definition apply_temperature_effect (s : ClimateSimulator) (action_type : string)
    (x y : Z) : M unit :=
  match TEMP_COEFFICIENTS !! action_type with
  | Some impact =>
      iadd (current_temp s) x y impact;;
      propagate_heat_effect s (current_temp s) x y impact
  | None => mret tt
  end.

(** [apply_intervention] *)
Definition apply_intervention (action_type : string) (lat lon : float) : M Snapshot :=
  s ← get_self;
  '(x, y) ← lift (latlon_to_grid s lat lon);
  append_intervention
    {| i_type := action_type; i_lat := lat; i_lon := lon; i_x := x; i_y := y |};;
  apply_temperature_effect s action_type x y;;
  apply_wind_effect s action_type x y;;
  get_state.

(** [reset] *)
Definition reset : M Snapshot :=
  s ← get_self;
  ct ← copy (base_temp s);
  cu ← copy (base_wind_u s);
  cv ← copy (base_wind_v s);
  set_self {| grid_width := grid_width s; grid_height := grid_height s;
              base_lat := base_lat s; base_lon := base_lon s;
              base_temp := base_temp s; base_wind_u := base_wind_u s;
              base_wind_v := base_wind_v s;
              current_temp := ct; current_wind_u := cu; current_wind_v := cv;
              interventions := [] |};;
  get_state.

End Simulation.

(** ** The relief provider ([relief_data.py]) *)

(** NumPy reductions and [np.linspace], as NumPy computes them on
    [float64] data. *)
Module Np.

(** [np.minimum] / [np.maximum] on two scalars: a NaN wins. *)
Definition minimum (x y : float) : float :=
  if is_nan x then x else if is_nan y then y
  else if (y <? x)%float then y else x.
Definition maximum (x y : float) : float :=
  if is_nan x then x else if is_nan y then y
  else if (x <? y)%float then y else x.

(** [np.min(a)], [np.max(a)]: [ValueError] on an empty array. *)
Definition min (a : ndarray) : result float :=
  match Nd.flatten a with
  | [] => Raise ValueError
  | v :: l => Ok (fold_left minimum l v)
  end.
Definition max (a : ndarray) : result float :=
  match Nd.flatten a with
  | [] => Raise ValueError
  | v :: l => Ok (fold_left maximum l v)
  end.

(** [np.linspace(start, stop, num).tolist()] for [num >= 2] (endpoint
    included): [arange(num) * step + start] with [step = (stop - start) /
    (num - 1)], the last entry overwritten by [stop]; when the step
    underflows to zero the index is divided first. *)
Definition linspace (start stop : float) (num : nat) : list float :=
  let div := PyFloat.of_int (Z.of_nat (num - 1)) in
  let delta := (stop - start)%float in
  let step := (delta / div)%float in
  let entry (i : nat) : float :=
    let y := PyFloat.of_int (Z.of_nat i) in
    if (step =? 0)%float then (y / div * delta + start)%float
    else (y * step + start)%float in
  map entry (seq 0 (num - 1)) ++ [stop].

End Np.

Module Relief.

(** The attributes of a [ReliefDataProvider]. [elevation_grid] has shape
    (grid_height, grid_width) and is never written after construction. *)
Record ReliefDataProvider : Type := {
  base_lat : float;
  base_lon : float;
  grid_width : Z;
  grid_height : Z;
  lat_bounds : float * float;
  lon_bounds : float * float;
  elevation_grid : ndarray
}.

(** One entry of the list returned by [get_contour_lines]. *)
Record ContourGroup : Type := {
  elevation : float;
  points : list (float * float)
}.

(** [_generate_mock_elevation]. The sum of the base elevation, slope,
    river, canals, hills and plateau (NumPy's seeded generator, [np.exp],
    [np.convolve]) is not computed here: it is the argument [raw], of
    shape (grid_height, grid_width). The method's last step,
    [np.maximum(elevation, 25.0)], is applied to it entry by entry. *)
Definition _generate_mock_elevation (raw : ndarray) : ndarray :=
  map (map (fun e => Np.maximum e 25.0%float)) raw.

(** [__init__] *)
Definition init (base_lat base_lon : float) (grid_size : Z * Z)
    (raw : ndarray) : ReliefDataProvider :=
  {| base_lat := base_lat; base_lon := base_lon;
     grid_width := fst grid_size; grid_height := snd grid_size;
     lat_bounds := (52.45, 52.51)%float;
     lon_bounds := (13.38, 13.48)%float;
     elevation_grid := _generate_mock_elevation raw |}.

(** [grid_to_latlon] *)
Definition grid_to_latlon (r : ReliefDataProvider) (x y : Z) : result (float * float) :=
  fy ← PyFloat.int_truediv y (grid_height r);
  let lat := (fst (lat_bounds r) + fy * (snd (lat_bounds r) - fst (lat_bounds r)))%float in
  fx ← PyFloat.int_truediv x (grid_width r);
  let lon := (fst (lon_bounds r) + fx * (snd (lon_bounds r) - fst (lon_bounds r)))%float in
  Ok (lat, lon).

(** [latlon_to_grid] *)
Definition latlon_to_grid (r : ReliefDataProvider) (lat lon : float) : result (Z * Z) :=
  qy ← PyFloat.truediv (lat - fst (lat_bounds r))%float
                       (snd (lat_bounds r) - fst (lat_bounds r))%float;
  y ← PyFloat.to_int (qy * PyFloat.of_int (grid_height r))%float;
  qx ← PyFloat.truediv (lon - fst (lon_bounds r))%float
                       (snd (lon_bounds r) - fst (lon_bounds r))%float;
  x ← PyFloat.to_int (qx * PyFloat.of_int (grid_width r))%float;
  Ok (Z.max 0 (Z.min x (grid_width r - 1)), Z.max 0 (Z.min y (grid_height r - 1))).

(** [get_elevation_at] *)
Definition get_elevation_at (r : ReliefDataProvider) (lat lon : float) : result float :=
  '(x, y) ← latlon_to_grid r lat lon;
  Nd.getitem (elevation_grid r) y x.

(** [get_elevation_data]: one [lat, lon, elevation] entry per sampled
    cell, rows [y] outermost. *)
Definition get_elevation_data (r : ReliefDataProvider) (sample_rate : Z)
    : result (list (float * float * float)) :=
  ys ← py_range_step 0 (grid_height r) sample_rate;
  rows ← mapM (fun y =>
            xs ← py_range_step 0 (grid_width r) sample_rate;
            mapM (fun x =>
                    p ← grid_to_latlon r x y;
                    elevation ← Nd.getitem (elevation_grid r) y x;
                    Ok (fst p, snd p, elevation))
                 xs)
          ys;
  Ok (concat rows).

(** [get_bounds] *)
Record Bounds : Type := {
  north : float; south : float; east : float; west : float;
  min_elevation : float; max_elevation : float
}.

Definition get_bounds (r : ReliefDataProvider) : result Bounds :=
  lo ← Np.min (elevation_grid r);
  hi ← Np.max (elevation_grid r);
  Ok {| north := snd (lat_bounds r); south := fst (lat_bounds r);
        east := snd (lon_bounds r); west := fst (lon_bounds r);
        min_elevation := lo; max_elevation := hi |}.

(** The cells within the threshold of [level], in scan order (rows
    [y], then columns [x]), as [lat, lon] points. *)
Definition contour_points (r : ReliefDataProvider) (level : float)
    : result (list (float * float)) :=
  let threshold := 1.0%float in
  found ← mapM (fun '(y, x) =>
              elev ← Nd.getitem (elevation_grid r) y x;
              if (abs (elev - level) <? threshold)%float
              then p ← grid_to_latlon r x y; Ok (Some p)
              else Ok None)
           (y ← py_range 0 (grid_height r) 1;
            x ← py_range 0 (grid_width r) 1; [(y, x)]);
  Ok (omap id found).

(** The inner [for i, point in enumerate(remaining)] loop: the smallest
    squared distance to [last_point] and the first index reaching it. *)
Fixpoint closest (last_point : float * float) (remaining : list (float * float))
    (i : nat) (min_dist : float) (min_idx : nat) : result (float * nat) :=
  match remaining with
  | [] => Ok (min_dist, min_idx)
  | point :: rest =>
      a ← PyFloat.pow2 (fst point - fst last_point)%float;
      b ← PyFloat.pow2 (snd point - snd last_point)%float;
      let dist := (a + b)%float in
      if (dist <? min_dist)%float then closest last_point rest (S i) dist i
      else closest last_point rest (S i) min_dist min_idx
  end.

(** The [while remaining:] loop. Every iteration removes one point from
    [remaining] or leaves the loop, so [length remaining] iterations are
    enough; [fuel] counts them. *)
Fixpoint chain (fuel : nat) (sorted_points remaining : list (float * float))
    : result (list (float * float)) :=
  match fuel, remaining with
  | _, [] => Ok sorted_points
  | O, _ => Ok sorted_points
  | S fuel', first :: rest =>
      '(min_dist, min_idx) ← closest (List.last sorted_points first) remaining
                                     0%nat infinity 0%nat;
      if (min_dist <? 0.01)%float then
        chain fuel' (sorted_points ++ [nth min_idx remaining first])
              (delete min_idx remaining)
      else if (5 <? length sorted_points)%nat then Ok sorted_points
      else chain fuel' [first] rest
  end.

(** The body of [for level in levels]: at most one group. *)
Definition contour_for_level (r : ReliefDataProvider) (level : float)
    : result (option ContourGroup) :=
  contour_points ← contour_points r level;
  if (5 <? length contour_points)%nat then
    match contour_points with
    | [] => Ok None
    | first :: remaining =>
        sorted_points ← chain (length remaining) [first] remaining;
        if (5 <? length sorted_points)%nat
        then Ok (Some {| elevation := level; points := sorted_points |})
        else Ok None
    end
  else Ok None.

(** [get_contour_lines]; [levels = None] asks for five levels from the
    lowest to the highest elevation. *)
Definition get_contour_lines (r : ReliefDataProvider) (levels : option (list float))
    : result (list ContourGroup) :=
  levels ← match levels with
           | None =>
               min_elev ← Np.min (elevation_grid r);
               max_elev ← Np.max (elevation_grid r);
               Ok (Np.linspace min_elev max_elev 5)
           | Some l => Ok l
           end;
  groups ← mapM (contour_for_level r) levels;
  Ok (omap id groups).

End Relief.

(** ** Vocabulary of the statements *)

(** [Nd.getitem] succeeds on every index of the shape; the entry-wise
    image of an array under a function of the position and the old
    entry describes the in-place updates. *)
Definition mapi (F : Z -> Z -> float -> float) (a : ndarray) : ndarray :=
  imap (fun i row => imap (fun j t => F (Z.of_nat i) (Z.of_nat j) t) row) a.

(** Change the entry at [(i, j)] by [g], leave the others. *)
Definition point (i j : Z) (g : float -> float) : Z -> Z -> float -> float :=
  fun i' j' t => if (i' =? i) && (j' =? j) then g t else t.

(** An entry-wise change of the arrays of the heap. *)
Definition transform (Phi : loc -> Z -> Z -> float -> float) (w : world) : world :=
  {| self := self w;
     heap := map_imap (fun l a => Some (mapi (Phi l) a)) (heap w) |}.

(** Change the array at [l] only. *)
Definition on (l : loc) (F : Z -> Z -> float -> float) : loc -> Z -> Z -> float -> float :=
  fun l' => if decide (l' = l) then F else fun _ _ t => t.

(** The changes of a list of steps, first step innermost. *)
Fixpoint compose {A} (F : A -> loc -> Z -> Z -> float -> float) (cells : list A)
    : loc -> Z -> Z -> float -> float :=
  match cells with
  | [] => fun _ _ _ t => t
  | c :: cells' => fun l i j t => compose F cells' l i j (F c l i j t)
  end.

(** [arr[i, j]] for the array object at [l]. *)
Definition array_at (w : world) (l : loc) (i j : Z) : result float :=
  Nd.getitem (heap w !!! l) i j.

Definition array_locs (s : ClimateSimulator) : list loc :=
  [base_temp s; base_wind_u s; base_wind_v s;
   current_temp s; current_wind_u s; current_wind_v s].

(** A well-formed simulator: six distinct array objects, each of shape
    (grid_width, grid_height). *)
Record wf (w : world) : Prop := {
  wf_distinct : NoDup (array_locs (self w));
  wf_shape : forall l, l ∈ array_locs (self w) ->
      exists a, heap w !! l = Some a /\
                Nd.shape (grid_width (self w)) (grid_height (self w)) a
}.

(** [w'] differs from [w] at most in the arrays at the locations in [L],
    and no array changes its shape. *)
Definition modifies (L : list loc) (w w' : world) : Prop :=
  (forall l, l ∉ L -> heap w' !! l = heap w !! l) /\
  (forall l a, heap w !! l = Some a ->
     exists a', heap w' !! l = Some a' /\
                forall W H, Nd.shape W H a -> Nd.shape W H a').

(** An operation that, whatever it returns or raises, keeps the object's
    attributes and writes only to the arrays in [L]. *)
Definition frame {A} (L : list loc) (m : M A) : Prop :=
  forall w, self (snd (m w)) = self w /\ modifies L w (snd (m w)).

(** An operation that only reads. *)
Definition pure {A} (m : M A) : Prop := forall w, snd (m w) = w.

(** The amount [propagate_heat_effect] adds at offset [(dx, dy)], as the
    code computes it: [impact * damping * 0.5]. *)
Definition heat_amount (impact : float) (dx dy : Z) : float :=
  (impact * (1 / PyFloat.of_int (1 + (dx ^ 2 + dy ^ 2))) * 0.5)%float.

(** The entry-wise change made by one iteration of
    [propagate_heat_effect]. *)
Definition heat_change (s : ClimateSimulator) (cx cy : Z) (impact : float)
    (c : Z * Z) : loc -> Z -> Z -> float -> float :=
  if (fst c =? 0) && (snd c =? 0) then fun _ _ _ t => t
  else if in_grid s (cx + fst c) (cy + snd c)
       then on (current_temp s)
               (point (cx + fst c) (cy + snd c)
                      (fun t => (t + heat_amount impact (fst c) (snd c))%float))
       else fun _ _ _ t => t.

(** The entry-wise change of the whole temperature branch. *)
Definition temperature_change (s : ClimateSimulator) (x y : Z) (impact : float)
    : loc -> Z -> Z -> float -> float :=
  fun l i j t =>
    compose (heat_change s x y impact) neighbourhood l i j
            (on (current_temp s) (point x y (fun t => (t + impact)%float)) l i j t).

(** The record [apply_intervention] appends. *)
Definition record_of (action_type : string) (lat lon : float) (x y : Z) : Intervention :=
  {| i_type := action_type; i_lat := lat; i_lon := lon; i_x := x; i_y := y |}.

(** [s] with one more entry in its history. *)
Definition with_intervention (s : ClimateSimulator) (i : Intervention) : ClimateSimulator :=
  {| grid_width := grid_width s; grid_height := grid_height s;
     base_lat := base_lat s; base_lon := base_lon s;
     base_temp := base_temp s; base_wind_u := base_wind_u s;
     base_wind_v := base_wind_v s;
     current_temp := current_temp s;
     current_wind_u := current_wind_u s;
     current_wind_v := current_wind_v s;
     interventions := interventions s ++ [i] |}.

(** The arrays of [s] have their shape in [w]. *)
Definition shaped (s : ClimateSimulator) (w : world) : Prop :=
  forall l, l ∈ array_locs s ->
    exists a, heap w !! l = Some a /\ Nd.shape (grid_width s) (grid_height s) a.

(** The entry-wise change of the temperature branch for [action_type]:
    none when the type has no coefficient. *)
Definition temperature_change_of (s : ClimateSimulator) (action_type : string)
    (x y : Z) : loc -> Z -> Z -> float -> float :=
  match TEMP_COEFFICIENTS !! action_type with
  | Some impact => temperature_change s x y impact
  | None => fun _ _ _ t => t
  end.

(** The world in which the wind branch of a call starts: the record is
    appended and the temperature branch is done. *)
Definition after_temperature (w : world) (action_type : string) (lat lon : float)
    (x y : Z) : world :=
  transform (temperature_change_of (self w) action_type x y)
    {| self := with_intervention (self w) (record_of action_type lat lon x y);
       heap := heap w |}.

(** [sim.current_temp[i, j]], [sim.current_wind_u[i, j]], ... *)
Definition temperature (w : world) (i j : Z) : result float :=
  array_at w (current_temp (self w)) i j.
Definition wind_u (w : world) (i j : Z) : result float :=
  array_at w (current_wind_u (self w)) i j.
Definition wind_v (w : world) (i j : Z) : result float :=
  array_at w (current_wind_v (self w)) i j.

(** The array [np.full((w, h), v)] builds. *)
Definition uniform (w h : Z) (v : float) : ndarray :=
  replicate (Z.to_nat w) (replicate (Z.to_nat h) v).

(** The value of a finite binary64 number as a rational. *)
Definition exact (f : float) : option Q :=
  match Prim2SF f with
  | S754_zero _ => Some 0%Q
  | S754_finite s m e =>
      let v := match e with
               | Zneg k => Qmake (Zpos m) (2 ^ k)
               | _ => inject_Z (Zpos m * 2 ^ e)
               end in
      Some (if s then Qopp v else v)
  | _ => None
  end.

(** [f] is within relative error [2^-52] of the rational [q]. *)
Definition close_to (f : float) (q : Q) : bool :=
  match exact f with
  | Some v => Qle_bool (Qabs (v - q) * inject_Z (2 ^ 52)) (Qabs q)
  | None => false
  end.

(** The amount of the claim, [d * 0.5 / (1 + dx^2 + dy^2)], over the
    rationals. *)
Definition ideal_amount (d : float) (dx dy : Z) : option Q :=
  match exact d with
  | Some q => Some (q * (1 # 2) / inject_Z (1 + dx ^ 2 + dy ^ 2))%Q
  | None => None
  end.

(** The calls a client can make on the shared simulator, one after the
    other; a call that raises keeps what it had written. *)
Inductive step {np : NumPy} : world -> world -> Prop :=
  | step_apply_intervention (action_type : string) (lat lon : float) (w : world) :
      step w (snd (apply_intervention action_type lat lon w))
  | step_get_state (w : world) :
      step w (snd (get_state w))
  | step_reset (w : world) :
      step w (snd (reset w)).

(** The states reachable from [w0]. *)
Definition reachable {np : NumPy} (w0 : world) : world -> Prop := rtc step w0.

(** An executable instance of the NumPy functions, to run the model:
    radians by the constant pi/180, the cosine by its Taylor polynomial
    of degree 16, the mean by summing left to right. The theorems are
    stated for every instance. *)
Definition cos_taylor (x : float) : float :=
  let y := (x * x)%float in
  fold_right (fun c acc => (c + y * acc)%float) 0%float
    [1; -1 / 2; 1 / 24; -1 / 720; 1 / 40320; -1 / 3628800; 1 / 479001600;
     -1 / 87178291200; 1 / 20922789888000]%float.

Definition sample_numpy : NumPy :=
  {| np_radians := fun d => (d * 0x1.1df46a2529d39p-6)%float;
     np_cos := cos_taylor;
     np_mean := fun a =>
       (fold_left PrimFloat.add (concat a) 0
        / PyFloat.of_int (Z.of_nat (length (concat a))))%float |}.

(** The simulator built by [server.py], in an empty heap. *)
Definition server_simulator : result world :=
  ClimateSimulator_init (50, 50) 52.48%float 13.43%float ∅.

(** The arrays a call may write. *)
Definition current_locs (s : ClimateSimulator) : list loc :=
  [current_temp s; current_wind_u s; current_wind_v s].

(** The world [reset] leaves: three new arrays, copies of the base
    arrays, become the current arrays, and the history is empty. *)
Definition reset_world (w : world) : world :=
  let s := self w in
  let l1 := fresh (dom (heap w)) in
  let h1 := <[l1 := heap w !!! base_temp s]> (heap w) in
  let l2 := fresh (dom h1) in
  let h2 := <[l2 := h1 !!! base_wind_u s]> h1 in
  let l3 := fresh (dom h2) in
  let h3 := <[l3 := h2 !!! base_wind_v s]> h2 in
  {| self := {| grid_width := grid_width s; grid_height := grid_height s;
                base_lat := base_lat s; base_lon := base_lon s;
                base_temp := base_temp s; base_wind_u := base_wind_u s;
                base_wind_v := base_wind_v s;
                current_temp := l1; current_wind_u := l2; current_wind_v := l3;
                interventions := [] |};
     heap := h3 |}.

(** What no call changes: the grid, the base coordinates, the base array
    objects and their contents. *)
Definition same_base (w0 w : world) : Prop :=
  grid_width (self w) = grid_width (self w0) /\
  grid_height (self w) = grid_height (self w0) /\
  base_lat (self w) = base_lat (self w0) /\
  base_lon (self w) = base_lon (self w0) /\
  base_temp (self w) = base_temp (self w0) /\
  base_wind_u (self w) = base_wind_u (self w0) /\
  base_wind_v (self w) = base_wind_v (self w0) /\
  heap w !! base_temp (self w0) = heap w0 !! base_temp (self w0) /\
  heap w !! base_wind_u (self w0) = heap w0 !! base_wind_u (self w0) /\
  heap w !! base_wind_v (self w0) = heap w0 !! base_wind_v (self w0).

(** The entry [a[i, j]] of an array that has it. *)
Definition entry (a : ndarray) (i j : Z) : float :=
  match Nd.getitem a i j with
  | Ok v => v
  | Raise _ => 0%float
  end.

(** The entry-wise change made by one iteration of the REMOVE_BUILDING
    loop, [bu] and [bv] being the base wind arrays. *)
Definition restore_change (s : ClimateSimulator) (bu bv : ndarray) (x y : Z)
    (c : Z * Z) : loc -> Z -> Z -> float -> float :=
  let nx := x + fst c in
  let ny := y + snd c in
  if in_grid s nx ny then
    fun l i j t =>
      on (current_wind_v s) (point nx ny (fun _ => entry bv nx ny)) l i j
        (on (current_wind_u s) (point nx ny (fun _ => entry bu nx ny)) l i j t)
  else fun _ _ _ t => t.

(** What the REMOVE_BUILDING loop needs of a world: the arrays keep their
    shapes and the base wind arrays are [bu] and [bv]. *)
Definition restoring (s : ClimateSimulator) (bu bv : ndarray) (w : world) : Prop :=
  shaped s w /\ heap w !! base_wind_u s = Some bu /\ heap w !! base_wind_v s = Some bv.

(** The iteration at offset [c] from [(x, y)] writes the cell [(i, j)]. *)
Definition hits (s : ClimateSimulator) (x y i j : Z) (c : Z * Z) : bool :=
  in_grid s (x + fst c) (y + snd c) && (i =? x + fst c) && (j =? y + snd c).

(** The world of [server_simulator] (the constructor does not raise on a
    50x50 grid). *)
Definition server_world : world :=
  match server_simulator with
  | Ok w => w
  | Raise _ =>
      {| self := {| grid_width := 0; grid_height := 0;
                    base_lat := 0%float; base_lon := 0%float;
                    base_temp := 1%positive; base_wind_u := 1%positive;
                    base_wind_v := 1%positive; current_temp := 1%positive;
                    current_wind_u := 1%positive; current_wind_v := 1%positive;
                    interventions := [] |};
         heap := ∅ |}
  end.

(** The provider built by [server.py], from a given surface before the
    25 m floor. *)
Definition relief_provider (raw : ndarray) : Relief.ReliefDataProvider :=
  Relief.init 52.48%float 13.43%float (100, 100) raw.


(** ** Binary64 magnitudes as scaled integers *)

(** The magnitude [m * 2^e] of a binary64, counted in units of
    [2^-3000] so that every finite float and every product of two of
    them is an integer. *)
Definition scale (e : Z) : Z := 2 ^ (e + 3000).

(** [W] is a faithful rounding of the non-negative quantity [X]: no
    binary64 magnitude lies strictly between them. *)
Definition rounds_to (X W : Z) : Prop :=
  0 <= W /\
  (forall mv ev, 0 <= mv < 2 ^ 53 -> -1074 <= ev -> X <= mv * scale ev -> W <= mv * scale ev) /\
  (forall mv ev, 0 <= mv < 2 ^ 53 -> -1074 <= ev -> mv * scale ev <= X -> mv * scale ev <= W).

(** The float [r] carries the sign [sx] and the magnitude [W], an
    infinity standing for every magnitude past the largest binary64. *)
Definition result_is (sx : bool) (W : Z) (r : spec_float) : Prop :=
  match r with
  | S754_zero s => s = sx /\ W = 0
  | S754_finite s m e => s = sx /\ W = Zpos m * scale e /\ bounded prec emax m e = true
  | S754_infinity s => s = sx /\ 2 ^ 53 * scale 971 <= W
  | S754_nan => False
  end.

(** [x] is a positive finite binary64 of magnitude [v]. *)
Definition pos_float (x : spec_float) (v : Z) : Prop :=
  exists m e, x = S754_finite false m e /\ bounded prec emax m e = true /\
              v = Zpos m * scale e.


(** ** Contour levels *)

(** [x] is a positive finite float of magnitude [v]. *)
Definition fvalue (x : float) (v : Z) : Prop := pos_float (Prim2SF x) v.

(** What [np.maximum(elevation, 25.0)] leaves of a finite elevation: a
    finite value of at least 25 m. *)
Definition floored (e : float) : bool :=
  PyFloat.is_finite e && (25 <=? e)%float.

Definition elevations_floored (a : ndarray) : bool := forallb floored (Nd.flatten a).

(** A surface without NaN or infinite entries. *)
Definition finite_surface (raw : ndarray) : bool :=
  forallb PyFloat.is_finite (Nd.flatten raw).

(** The latitudes and longitudes of the cells of the server's 100x100
    relief grid, as [grid_to_latlon] computes them. *)
Definition grid_lats : list float :=
  map (fun y => (52.45 + PyFloat.of_int y / PyFloat.of_int 100 * (52.51 - 52.45))%float)
      (py_range 0 100 1).
Definition grid_lons : list float :=
  map (fun x => (13.38 + PyFloat.of_int x / PyFloat.of_int 100 * (13.48 - 13.38))%float)
      (py_range 0 100 1).

Definition on_grid (p : float * float) : Prop := p.1 ∈ grid_lats /\ p.2 ∈ grid_lons.

(** No difference of two coordinates of the list overflows when
    squared. *)
Definition squares_finite (l : list float) : bool :=
  forallb (fun a => forallb (fun b =>
    match PyFloat.pow2 (a - b) with Ok _ => true | Raise _ => false end) l) l.

(** A 3x3 provider whose raw surface dips to -5 m in one corner. *)
Definition sample_relief : Relief.ReliefDataProvider :=
  Relief.init 52.48%float 13.43%float (3, 3)
    [[-5; 30; 30]; [30; 30; 30]; [30; 30.5; 31]]%float.

(** ** Vocabulary of the further properties *)

(** The position of a float on the number line, in units of [2^-3000];
    the infinities lie beyond every finite float, the zeros coincide. *)
Definition SFord (x : spec_float) : Z :=
  match x with
  | S754_zero _ => 0
  | S754_finite s m e => cond_Zopp s (Zpos m * scale e)
  | S754_infinity s => cond_Zopp s (2 ^ 54 * scale 971)
  | S754_nan => 0
  end.

Definition ford (x : float) : Z := SFord (Prim2SF x).

(** No entry of the array is a NaN. *)
Definition no_nan (a : ndarray) : bool :=
  forallb (fun t => negb (is_nan t)) (Nd.flatten a).

(** The cells [get_state] samples, in the order of its two loops. *)
Definition sample_cells (s : ClimateSimulator) : list (Z * Z) :=
  x ← py_range 0 (grid_width s) 2; y ← py_range 0 (grid_height s) 2; [(x, y)].

(** The two entries [get_state] appends for the cell [(x, y)]. *)
Definition sample_at {np : NumPy} (s : ClimateSimulator) (x y : Z) (t u v : float)
    : (float * float * float) * (float * float * float * float * float) :=
  let '(lat, lon) := grid_to_latlon s x y in
  ((lat, lon, t), (lat, lon, u, v, sqrt (u * u + v * v)%float)).

(** The entry-wise change made by one iteration of an ADD_BUILDING loop:
    both wind components of the cell at offset [c] are multiplied by
    [k]. *)
Definition scale_change (s : ClimateSimulator) (k : float) (x y : Z)
    (c : Z * Z) : loc -> Z -> Z -> float -> float :=
  let nx := x + fst c in
  let ny := y + snd c in
  if in_grid s nx ny then
    fun l i j t =>
      on (current_wind_v s) (point nx ny (fun t => (t * k)%float)) l i j
        (on (current_wind_u s) (point nx ny (fun t => (t * k)%float)) l i j t)
  else fun _ _ _ t => t.

(** [t] multiplied [n] times by [k], one rounding each. *)
Definition times (k : float) (n : nat) (t : float) : float :=
  Nat.iter n (fun t => (t * k)%float) t.

(** How often the offset [c] occurs in [cells]. *)
Definition occurrences (c : Z * Z) (cells : list (Z * Z)) : nat :=
  length (List.filter (fun c' => bool_decide (c' = c)) cells).

(** The square of a wind component of the cell [c] overflows:
    [u**2] or [v**2] raises in [get_state]. *)
Definition overflowing (w : world) (c : Z * Z) : bool :=
  match wind_u w (fst c) (snd c), wind_v w (fst c) (snd c) with
  | Ok u, Ok v =>
      match PyFloat.pow2 u, PyFloat.pow2 v with
      | Ok _, Ok _ => false
      | _, _ => true
      end
  | _, _ => false
  end.

(** The cells [get_elevation_data] visits, in the order of its two
    loops: rows outermost. *)
Definition elevation_cells (r : Relief.ReliefDataProvider) (sample_rate : Z)
    : list (Z * Z) :=
  y ← py_range 0 (Relief.grid_height r) sample_rate;
  x ← py_range 0 (Relief.grid_width r) sample_rate; [(x, y)].

(** The cell [(x, y)] of the server's relief grid has its coordinate
    inside the bounding box, and the coordinate maps back to the cell or
    to its neighbour one step down on either axis. *)
Definition round_trip_near (x y : Z) : bool :=
  match Relief.grid_to_latlon (relief_provider []) x y with
  | Ok (lat, lon) =>
      (52.45 <=? lat)%float && (lat <? 52.51)%float &&
      (13.38 <=? lon)%float && (lon <? 13.48)%float &&
      match Relief.latlon_to_grid (relief_provider []) lat lon with
      | Ok (x', y') => (x - 1 <=? x') && (x' <=? x) && (y - 1 <=? y') && (y' <=? y)
      | Raise _ => false
      end
  | Raise _ => false
  end.

(** The temperature a heating call of coefficient [d] leaves at offset
    [(dx, dy)] from its site on a field that was uniformly 30.0. *)
Definition heated (d : float) (dx dy : Z) : float :=
  if (dx =? 0) && (dy =? 0) then (30 + d)%float
  else if (-2 <=? dx) && (dx <=? 2) && (-2 <=? dy) && (dy <=? 2)
       then (30 + heat_amount d dx dy)%float
       else 30%float.

(** Around the site every cell is a number and stays below the site. *)
Definition site_is_hottest (d : float) : bool :=
  negb (is_nan (30 + d)) &&
  forallb (fun c =>
    negb (is_nan (heated d (fst c) (snd c))) &&
    ((fst c =? 0) && (snd c =? 0) || (heated d (fst c) (snd c) <? 30 + d)%float))
    ((3, 3) :: neighbourhood).

(** A zero of either sign. *)
Definition is_zero (z : float) : Prop := exists s, Prim2SF z = S754_zero s.

(** The server's simulator after five buildings at the centre: the wind
    in the cell behind them, (24, 25), has dropped to (0.0625, 0.03125),
    below the 0.1 threshold. *)
Definition calm_world : world :=
  Nat.iter 5 (fun w => snd (apply_intervention (np := sample_numpy)
                              "ADD_BUILDING" 52.48 13.43 w)) server_world.

(** The server's simulator with an infinite west-east wind at the
    centre. *)
Definition storm_world : world :=
  transform (on (current_wind_u (self server_world))
                (point 25 25 (fun _ => infinity)))
            server_world.

(** The server's simulator after ADD_ASPHALT at the centre. *)
Definition heated_world : world :=
  snd (apply_intervention (np := sample_numpy) "ADD_ASPHALT" 52.48 13.43 server_world).

(** The snapshot of a world, when [get_state] returns one. *)
Definition snapshot_of (w : world) : Snapshot :=
  match fst (get_state (np := sample_numpy) w) with
  | Ok snap => snap
  | Raise _ =>
      {| snap_temperature_data := []; snap_wind_data := [];
         snap_hotspot := (0, 0, 0)%float; snap_base_temp := 0%float;
         snap_current_avg_temp := 0%float; snap_interventions := [] |}
  end.

(** ** Lemmas on arrays *)

Section NdLemmas.

Lemma index_in_range (n : nat) (i : Z) :
  0 <= i < Z.of_nat n -> Nd.index n i = Ok (Z.to_nat i).
Proof.
  intros Hi. unfold Nd.index.
  destruct (0 <=? i) eqn:E1; [|lia].
  destruct (i <? Z.of_nat n) eqn:E2; [reflexivity|lia].
Qed.

Lemma shape_row (w h : Z) (a : ndarray) (i : nat) (row : list float) :
  Nd.shape w h a -> a !! i = Some row -> length row = Z.to_nat h.
Proof.
  intros [_ Hrows] Hi.
  rewrite Forall_lookup in Hrows. exact (Hrows i row Hi).
Qed.

Lemma shape_lookup (w h : Z) (a : ndarray) (i j : Z) :
  Nd.shape w h a -> 0 <= i < w -> 0 <= j < h ->
  exists row t, a !! Z.to_nat i = Some row /\ row !! Z.to_nat j = Some t.
Proof.
  intros Hs Hi Hj.
  destruct (lookup_lt_is_Some_2 a (Z.to_nat i)) as [row Hrow].
  { destruct Hs as [Hl _]. rewrite Hl. lia. }
  destruct (lookup_lt_is_Some_2 row (Z.to_nat j)) as [t Ht].
  { rewrite (shape_row _ _ _ _ _ Hs Hrow). lia. }
  eauto.
Qed.

Lemma getitem_lookup (w h : Z) (a : ndarray) (i j : Z) :
  Nd.shape w h a -> 0 <= i < w -> 0 <= j < h ->
  exists t, Nd.getitem a i j = Ok t /\
            Nd.at_ a (Z.to_nat i) (Z.to_nat j) = Some t.
Proof.
  intros Hs Hi Hj.
  destruct (shape_lookup _ _ _ _ _ Hs Hi Hj) as (row & t & Hrow & Ht).
  exists t. unfold Nd.getitem, Nd.at_.
  rewrite index_in_range by (destruct Hs as [-> _]; lia).
  cbn. rewrite Hrow. cbn.
  rewrite index_in_range by (rewrite (shape_row _ _ _ _ _ Hs Hrow); lia).
  cbn. rewrite Ht. auto.
Qed.

Lemma shape_mapi (w h : Z) (F : Z -> Z -> float -> float) (a : ndarray) :
  Nd.shape w h a -> Nd.shape w h (mapi F a).
Proof.
  intros [Hl Hrows]. split.
  - unfold mapi. now rewrite length_imap.
  - rewrite Forall_lookup in *. intros i row. unfold mapi.
    rewrite list_lookup_imap.
    destruct (a !! i) as [row0|] eqn:E; simpl; [|discriminate].
    intros [= <-]. rewrite length_imap. eauto.
Qed.

Lemma at_mapi (F : Z -> Z -> float -> float) (a : ndarray) (i j : nat) :
  Nd.at_ (mapi F a) i j = F (Z.of_nat i) (Z.of_nat j) <$> Nd.at_ a i j.
Proof.
  unfold Nd.at_, mapi. rewrite list_lookup_imap.
  destruct (a !! i) as [row|]; simpl; [|reflexivity].
  now rewrite list_lookup_imap.
Qed.

Lemma getitem_mapi (w h : Z) (F : Z -> Z -> float -> float) (a : ndarray)
    (i j : Z) (t : float) :
  Nd.shape w h a -> 0 <= i < w -> 0 <= j < h ->
  Nd.getitem a i j = Ok t ->
  Nd.getitem (mapi F a) i j = Ok (F i j t).
Proof.
  intros Hs Hi Hj Hg.
  destruct (getitem_lookup _ _ _ _ _ Hs Hi Hj) as (t' & Hg' & Hat).
  rewrite Hg in Hg'. injection Hg' as <-.
  destruct (getitem_lookup _ _ _ _ _ (shape_mapi _ _ F _ Hs) Hi Hj)
    as (t2 & Hg2 & Hat2).
  rewrite Hg2. rewrite at_mapi, Hat in Hat2. cbn in Hat2.
  rewrite !Z2Nat.id in Hat2 by lia. congruence.
Qed.

Lemma mapi_ext_in (F G : Z -> Z -> float -> float) (a : ndarray) :
  (forall i j t, Nd.at_ a i j = Some t ->
                 F (Z.of_nat i) (Z.of_nat j) t = G (Z.of_nat i) (Z.of_nat j) t) ->
  mapi F a = mapi G a.
Proof.
  intros Hext. unfold mapi. apply list_eq. intros i.
  rewrite !list_lookup_imap.
  destruct (a !! i) as [row|] eqn:Hrow; simpl; [|reflexivity].
  f_equal. apply list_eq. intros j. rewrite !list_lookup_imap.
  destruct (row !! j) as [t|] eqn:Ht; cbn; [|reflexivity].
  f_equal. apply Hext. unfold Nd.at_. rewrite Hrow. cbn. exact Ht.
Qed.

Lemma mapi_id (a : ndarray) : mapi (fun _ _ t => t) a = a.
Proof.
  unfold mapi. apply list_eq. intros i. rewrite list_lookup_imap.
  destruct (a !! i) as [row|]; simpl; [|reflexivity].
  f_equal. apply list_eq. intros j. rewrite list_lookup_imap.
  now destruct (row !! j).
Qed.

Lemma mapi_mapi (F G : Z -> Z -> float -> float) (a : ndarray) :
  mapi G (mapi F a) = mapi (fun i j t => G i j (F i j t)) a.
Proof.
  unfold mapi. apply list_eq. intros i. rewrite !list_lookup_imap.
  destruct (a !! i) as [row|]; simpl; [|reflexivity].
  f_equal. apply list_eq. intros j. rewrite !list_lookup_imap.
  now destruct (row !! j).
Qed.

Lemma setitem_mapi (w h : Z) (a : ndarray) (i j : Z) (v : float) :
  Nd.shape w h a -> 0 <= i < w -> 0 <= j < h ->
  Nd.setitem a i j v = Ok (mapi (point i j (fun _ => v)) a).
Proof.
  intros Hs Hi Hj.
  destruct (shape_lookup _ _ _ _ _ Hs Hi Hj) as (row & t & Hrow & Ht).
  unfold Nd.setitem.
  rewrite index_in_range by (destruct Hs as [-> _]; lia).
  cbn. rewrite Hrow. cbn.
  rewrite index_in_range by (rewrite (shape_row _ _ _ _ _ Hs Hrow); lia).
  cbn. f_equal. unfold mapi, point. apply list_eq. intros i'.
  rewrite list_lookup_imap, list_lookup_insert.
  case_decide as Hc.
  - destruct Hc as [<- Hlt]. rewrite Hrow. simpl. f_equal.
    apply list_eq. intros j'.
    rewrite list_lookup_imap, list_lookup_insert.
    rewrite Z2Nat.id, Z.eqb_refl by lia. simpl.
    case_decide as Hc'.
    + destruct Hc' as [<- Hlt']. rewrite Ht. simpl.
      rewrite Z2Nat.id, Z.eqb_refl by lia. reflexivity.
    + destruct (row !! j') as [t'|] eqn:Ht'; simpl; [|reflexivity].
      destruct (Z.eqb_spec (Z.of_nat j') j) as [Heq|]; [|reflexivity].
      exfalso. apply Hc'. split; [lia|].
      apply lookup_lt_is_Some. eauto.
  - destruct (a !! i') as [row'|] eqn:Hrow'; simpl; [|reflexivity].
    f_equal.
    destruct (Z.eqb_spec (Z.of_nat i') i) as [Heq|].
    + exfalso. apply Hc. split; [lia|]. apply lookup_lt_is_Some. eauto.
    + simpl. apply list_eq. intros j'. rewrite list_lookup_imap.
      now destruct (row' !! j').
Qed.

End NdLemmas.

(** ** Lemmas on worlds: in-place updates as entry-wise changes *)

Section WorldLemmas.

Lemma world_eta (w : world) : {| self := self w; heap := heap w |} = w.
Proof. now destruct w. Qed.

Lemma heap_transform Phi (w : world) (l : loc) :
  heap (transform Phi w) !! l = mapi (Phi l) <$> heap w !! l.
Proof.
  unfold transform. simpl. rewrite map_lookup_imap.
  now destruct (heap w !! l).
Qed.

Lemma transform_id (w : world) : transform (fun _ _ _ t => t) w = w.
Proof.
  rewrite <- (world_eta w) at 2. unfold transform. f_equal.
  apply map_eq. intros l. rewrite map_lookup_imap.
  destruct (heap w !! l) as [a|]; simpl; [|reflexivity].
  now rewrite mapi_id.
Qed.

Lemma transform_transform Phi Psi (w : world) :
  transform Psi (transform Phi w)
  = transform (fun l i j t => Psi l i j (Phi l i j t)) w.
Proof.
  unfold transform. simpl. f_equal.
  apply map_eq. intros l. rewrite !map_lookup_imap.
  destruct (heap w !! l) as [a|]; simpl; [|reflexivity].
  now rewrite mapi_mapi.
Qed.

Lemma store_transform (w : world) (l : loc) (a : ndarray) F :
  heap w !! l = Some a ->
  store l (mapi F a) w = (Ok tt, transform (on l F) w).
Proof.
  intros Hl. unfold store, transform. do 2 f_equal.
  apply map_eq. intros l'. rewrite map_lookup_imap, lookup_insert.
  unfold on. case_decide as Hd.
  - subst l'. rewrite Hl. simpl. rewrite decide_True; auto.
  - destruct (heap w !! l') as [a'|]; simpl; [|reflexivity].
    rewrite decide_False by congruence. now rewrite mapi_id.
Qed.

Lemma array_at_lookup (w : world) (l : loc) (a : ndarray) (i j : Z) :
  heap w !! l = Some a -> array_at w l i j = Nd.getitem a i j.
Proof.
  intros Hl. unfold array_at. now rewrite (lookup_total_correct _ _ _ Hl).
Qed.

Lemma getitem_eq (w : world) (l : loc) (i j : Z) :
  getitem l i j w = (array_at w l i j, w).
Proof. reflexivity. Qed.

(** Reading an entry and writing back a function of it. *)
Lemma modify_transform (W H : Z) (w : world) (l : loc) (a : ndarray)
    (i j : Z) (g : float -> float) :
  heap w !! l = Some a -> Nd.shape W H a -> 0 <= i < W -> 0 <= j < H ->
  (t ← getitem l i j; setitem l i j (g t)) w
  = (Ok tt, transform (on l (point i j g)) w).
Proof.
  intros Hl Hs Hi Hj.
  destruct (getitem_lookup _ _ _ _ _ Hs Hi Hj) as (t & Hg & Hat).
  unfold mbind, M_bind. rewrite getitem_eq, (array_at_lookup _ _ _ _ _ Hl), Hg.
  unfold setitem, mbind, M_bind, load, lift.
  rewrite (lookup_total_correct _ _ _ Hl).
  rewrite (setitem_mapi _ _ _ _ _ (g t) Hs Hi Hj).
  replace (mapi (point i j (fun _ => g t)) a) with (mapi (point i j g) a).
  - now apply store_transform.
  - apply mapi_ext_in. intros i' j' t' Hat'. unfold point.
    destruct (Z.eqb_spec (Z.of_nat i') i) as [Hi'|]; [|reflexivity].
    destruct (Z.eqb_spec (Z.of_nat j') j) as [Hj'|]; [|reflexivity].
    simpl. f_equal.
    assert (i' = Z.to_nat i) as -> by lia.
    assert (j' = Z.to_nat j) as -> by lia. congruence.
Qed.

Lemma iadd_transform (W H : Z) (w : world) (l : loc) (a : ndarray)
    (i j : Z) (v : float) :
  heap w !! l = Some a -> Nd.shape W H a -> 0 <= i < W -> 0 <= j < H ->
  iadd l i j v w = (Ok tt, transform (on l (point i j (fun t => (t + v)%float))) w).
Proof. apply modify_transform. Qed.

Lemma imul_transform (W H : Z) (w : world) (l : loc) (a : ndarray)
    (i j : Z) (v : float) :
  heap w !! l = Some a -> Nd.shape W H a -> 0 <= i < W -> 0 <= j < H ->
  imul l i j v w = (Ok tt, transform (on l (point i j (fun t => (t * v)%float))) w).
Proof. apply modify_transform. Qed.

Lemma setitem_transform (W H : Z) (w : world) (l : loc) (a : ndarray)
    (i j : Z) (v : float) :
  heap w !! l = Some a -> Nd.shape W H a -> 0 <= i < W -> 0 <= j < H ->
  setitem l i j v w = (Ok tt, transform (on l (point i j (fun _ => v))) w).
Proof.
  intros Hl Hs Hi Hj. unfold setitem, mbind, M_bind, load, lift.
  rewrite (lookup_total_correct _ _ _ Hl).
  rewrite (setitem_mapi _ _ _ _ _ v Hs Hi Hj).
  now apply store_transform.
Qed.

Lemma array_at_transform (W H : Z) Phi (w : world) (l : loc) (a : ndarray)
    (i j : Z) (t : float) :
  heap w !! l = Some a -> Nd.shape W H a -> 0 <= i < W -> 0 <= j < H ->
  array_at w l i j = Ok t ->
  array_at (transform Phi w) l i j = Ok (Phi l i j t).
Proof.
  intros Hl Hs Hi Hj Ht.
  rewrite (array_at_lookup _ _ _ _ _ Hl) in Ht.
  assert (heap (transform Phi w) !! l = Some (mapi (Phi l) a)) as Hl'.
  { rewrite heap_transform, Hl. reflexivity. }
  rewrite (array_at_lookup _ _ _ _ _ Hl').
  eapply getitem_mapi; eauto.
Qed.

Lemma wf_transform Phi (w : world) : wf w -> wf (transform Phi w).
Proof.
  intros [Hd Hs]. split; [exact Hd|].
  intros l Hl. destruct (Hs l Hl) as (a & Ha & Hsh).
  exists (mapi (Phi l) a). split.
  - rewrite heap_transform, Ha. reflexivity.
  - now apply shape_mapi.
Qed.

(** A loop of entry-wise changes is their composition. *)
Lemma for_transform {A} (cells : list A) (body : A -> M unit)
    (F : A -> loc -> Z -> Z -> float -> float) (P : world -> Prop) :
  (forall c w, c ∈ cells -> P w -> body c w = (Ok tt, transform (F c) w)) ->
  (forall c w, c ∈ cells -> P w -> P (transform (F c) w)) ->
  forall w, P w -> for_ cells body w = (Ok tt, transform (compose F cells) w).
Proof.
  induction cells as [|c cells IH]; intros Hbody HP w Hw; simpl.
  - now rewrite transform_id.
  - unfold mbind, M_bind. rewrite Hbody by (auto; left).
    rewrite IH.
    + now rewrite transform_transform.
    + intros c' w' Hc'. apply Hbody. now right.
    + intros c' w' Hc'. apply HP. now right.
    + apply HP; auto. left.
Qed.

Lemma compose_miss {A} (F : A -> loc -> Z -> Z -> float -> float)
    (cells : list A) (l : loc) (i j : Z) (t : float) :
  (forall c t', c ∈ cells -> F c l i j t' = t') ->
  compose F cells l i j t = t.
Proof.
  induction cells as [|c cells IH]; intros Hmiss; simpl; [reflexivity|].
  rewrite Hmiss by left. apply IH. intros c' t' Hc'. apply Hmiss. now right.
Qed.

Lemma compose_hit {A} `{EqDecision A} (F : A -> loc -> Z -> Z -> float -> float)
    (cells : list A) (c0 : A) (l : loc) (i j : Z) (t : float) :
  NoDup cells -> c0 ∈ cells ->
  (forall c t', c ∈ cells -> c <> c0 -> F c l i j t' = t') ->
  compose F cells l i j t = F c0 l i j t.
Proof.
  induction cells as [|c cells IH]; intros Hnd Hin Hmiss; simpl.
  - inversion Hin.
  - apply NoDup_cons in Hnd as [Hnotin Hnd].
    destruct (decide (c = c0)) as [->|Hne].
    + apply compose_miss. intros c' t' Hc'. apply Hmiss; [now right|].
      intros ->. contradiction.
    + rewrite Hmiss by (auto; left). apply IH; auto.
      * apply elem_of_cons in Hin as [->|]; [contradiction|assumption].
      * intros c' t' Hc'. apply Hmiss. now right.
Qed.

End WorldLemmas.

(** ** Footprints: what an operation may write, whatever its outcome *)

Section Footprints.

Lemma modifies_refl L (w : world) : modifies L w w.
Proof. split; [reflexivity|]. intros l a Ha. exists a. auto. Qed.

Lemma modifies_trans L (w1 w2 w3 : world) :
  modifies L w1 w2 -> modifies L w2 w3 -> modifies L w1 w3.
Proof.
  intros [Hf1 Hs1] [Hf2 Hs2]. split.
  - intros l Hl. rewrite Hf2, Hf1; auto.
  - intros l a Ha. destruct (Hs1 l a Ha) as (a' & Ha' & Hsh).
    destruct (Hs2 l a' Ha') as (a'' & Ha'' & Hsh').
    exists a''. split; auto.
Qed.

Lemma modifies_weaken L L' (w w' : world) :
  (forall l, l ∈ L -> l ∈ L') -> modifies L w w' -> modifies L' w w'.
Proof.
  intros Hsub [Hf Hs]. split; [|exact Hs].
  intros l Hl. apply Hf. intros Hin. apply Hl, Hsub, Hin.
Qed.

Lemma pure_frame {A} L (m : M A) : pure m -> frame L m.
Proof. intros Hp w. rewrite Hp. split; [reflexivity|apply modifies_refl]. Qed.

Lemma frame_weaken {A} L L' (m : M A) :
  (forall l, l ∈ L -> l ∈ L') -> frame L m -> frame L' m.
Proof.
  intros Hsub Hm w. destruct (Hm w) as [Hself Hmod].
  split; [exact Hself|]. eapply modifies_weaken; eauto.
Qed.

Lemma pure_ret {A} (a : A) : pure (mret a : M A).
Proof. intros w. reflexivity. Qed.

Lemma pure_lift {A} (r : result A) : pure (lift r).
Proof. intros w. reflexivity. Qed.

Lemma pure_get_self : pure get_self.
Proof. intros w. reflexivity. Qed.

Lemma pure_load l : pure (load l).
Proof. intros w. reflexivity. Qed.

Lemma pure_getitem l i j : pure (getitem l i j).
Proof. intros w. reflexivity. Qed.

Lemma pure_bind {A B} (m : M A) (k : A -> M B) :
  pure m -> (forall a, pure (k a)) -> pure (m ≫= k).
Proof.
  intros Hm Hk w. unfold mbind, M_bind.
  specialize (Hm w). destruct (m w) as [[a|e] w1]; simpl in *; subst w1.
  - apply Hk.
  - reflexivity.
Qed.

Lemma pure_collect {A B} (l : list A) (body : A -> M B) :
  (forall a, pure (body a)) -> pure (collect l body).
Proof.
  intros Hb. induction l as [|a l IH]; simpl.
  - apply pure_ret.
  - apply pure_bind; [apply Hb|]. intros b.
    apply pure_bind; [exact IH|]. intros bs. apply pure_ret.
Qed.

Lemma frame_bind {A B} L (m : M A) (k : A -> M B) :
  frame L m -> (forall a, frame L (k a)) -> frame L (m ≫= k).
Proof.
  intros Hm Hk w. unfold mbind, M_bind.
  destruct (Hm w) as [Hself Hmod].
  destruct (m w) as [[a|e] w1]; simpl in *.
  - destruct (Hk a w1) as [Hself' Hmod']. split.
    + congruence.
    + eapply modifies_trans; eauto.
  - auto.
Qed.

Lemma frame_for {A} L (cells : list A) (body : A -> M unit) :
  (forall c, frame L (body c)) -> frame L (for_ cells body).
Proof.
  intros Hb. induction cells as [|c cells IH]; simpl.
  - apply pure_frame, pure_ret.
  - apply frame_bind; [apply Hb|]. intros _. exact IH.
Qed.

Lemma setitem_shape (a a' : ndarray) (i j : Z) (v : float) (W H : Z) :
  Nd.setitem a i j v = Ok a' -> Nd.shape W H a -> Nd.shape W H a'.
Proof.
  unfold Nd.setitem. intros Hset [Hl Hrows].
  destruct (Nd.index (length a) i) as [i'|] eqn:Ei; simpl in Hset; [|discriminate].
  destruct (a !! i') as [row|] eqn:Erow; [|discriminate].
  destruct (Nd.index (length row) j) as [j'|] eqn:Ej; simpl in Hset; [|discriminate].
  injection Hset as <-. split.
  - now rewrite length_insert.
  - apply Forall_insert; [exact Hrows|].
    rewrite length_insert. rewrite Forall_lookup in Hrows. eauto.
Qed.

Lemma frame_setitem l i j v : frame [l] (setitem l i j v).
Proof.
  intros w. unfold setitem, mbind, M_bind, load, lift, store.
  destruct (Nd.setitem (heap w !!! l) i j v) as [a'|e] eqn:Eset; simpl.
  - split; [reflexivity|]. split; cbn [heap].
    + intros l' Hl'. rewrite lookup_insert_ne; [reflexivity|].
      intros ->. apply Hl'. left.
    + intros l' a Ha. destruct (decide (l' = l)) as [->|Hne].
      * exists a'. rewrite lookup_insert_eq. split; [reflexivity|].
        intros W H. rewrite (lookup_total_correct _ _ _ Ha) in Eset.
        eapply setitem_shape; eauto.
      * exists a. rewrite lookup_insert_ne by congruence. auto.
  - split; [reflexivity|apply modifies_refl].
Qed.

Lemma frame_modify l i j (g : float -> float) :
  frame [l] (t ← getitem l i j; setitem l i j (g t)).
Proof.
  apply frame_bind.
  - apply pure_frame, pure_getitem.
  - intros t. apply frame_setitem.
Qed.

End Footprints.

(** ** The climate simulator *)

Section ClimateLemmas.
Context {np : NumPy}.

Lemma clamp_bounds (n x : Z) : 1 <= n -> 0 <= Z.max 0 (Z.min x (n - 1)) <= n - 1.
Proof. lia. Qed.

Lemma latlon_to_grid_bounds (s : ClimateSimulator) (lat lon : float) (x y : Z) :
  1 <= grid_width s -> 1 <= grid_height s ->
  latlon_to_grid s lat lon = Ok (x, y) ->
  0 <= x <= grid_width s - 1 /\ 0 <= y <= grid_height s - 1.
Proof.
  intros HW HH. unfold latlon_to_grid, mbind, result_bind.
  destruct (PyFloat.to_int _) as [x0|]; [|discriminate].
  destruct (PyFloat.to_int _) as [y0|]; [|discriminate].
  intros [= <- <-]. split; apply clamp_bounds; assumption.
Qed.

Lemma wf_lookup (w : world) (l : loc) :
  wf w -> l ∈ array_locs (self w) ->
  exists a, heap w !! l = Some a /\
            Nd.shape (grid_width (self w)) (grid_height (self w)) a.
Proof. intros Hwf. apply (wf_shape _ Hwf). Qed.

Lemma current_temp_loc (s : ClimateSimulator) : current_temp s ∈ array_locs s.
Proof. unfold array_locs. set_solver. Qed.
Lemma current_wind_u_loc (s : ClimateSimulator) : current_wind_u s ∈ array_locs s.
Proof. unfold array_locs. set_solver. Qed.
Lemma current_wind_v_loc (s : ClimateSimulator) : current_wind_v s ∈ array_locs s.
Proof. unfold array_locs. set_solver. Qed.
Lemma base_temp_loc (s : ClimateSimulator) : base_temp s ∈ array_locs s.
Proof. unfold array_locs. set_solver. Qed.
Lemma base_wind_u_loc (s : ClimateSimulator) : base_wind_u s ∈ array_locs s.
Proof. unfold array_locs. set_solver. Qed.
Lemma base_wind_v_loc (s : ClimateSimulator) : base_wind_v s ∈ array_locs s.
Proof. unfold array_locs. set_solver. Qed.

Lemma shaped_transform s Phi w : shaped s w -> shaped s (transform Phi w).
Proof.
  intros Hs l Hl. destruct (Hs l Hl) as (a & Ha & Hsh).
  exists (mapi (Phi l) a). split.
  - rewrite heap_transform, Ha. reflexivity.
  - now apply shape_mapi.
Qed.

Lemma in_grid_spec (s : ClimateSimulator) (nx ny : Z) :
  in_grid s nx ny = true <-> 0 <= nx < grid_width s /\ 0 <= ny < grid_height s.
Proof. unfold in_grid. rewrite !andb_true_iff. lia. Qed.

Lemma propagate_heat_effect_transform (s : ClimateSimulator) (cx cy : Z)
    (impact : float) (w : world) :
  shaped s w ->
  propagate_heat_effect s (current_temp s) cx cy impact w
  = (Ok tt, transform (compose (heat_change s cx cy impact) neighbourhood) w).
Proof.
  intros Hs. unfold propagate_heat_effect.
  apply (for_transform _ _ (heat_change s cx cy impact) (shaped s)); auto.
  - intros [dx dy] w' _ Hs'. unfold heat_change. simpl.
    destruct ((dx =? 0) && (dy =? 0)).
    + now rewrite transform_id.
    + destruct (in_grid s (cx + dx) (cy + dy)) eqn:Hin.
      * apply in_grid_spec in Hin as [Hx Hy].
        destruct (Hs' _ (current_temp_loc s)) as (a & Ha & Hsh).
        eapply iadd_transform; eauto.
      * now rewrite transform_id.
  - intros c w' _ Hs'. now apply shaped_transform.
Qed.

Lemma apply_temperature_effect_some (s : ClimateSimulator) (action_type : string)
    (impact : float) (x y : Z) (w : world) :
  shaped s w -> 0 <= x < grid_width s -> 0 <= y < grid_height s ->
  TEMP_COEFFICIENTS !! action_type = Some impact ->
  apply_temperature_effect s action_type x y w
  = (Ok tt, transform (temperature_change s x y impact) w).
Proof.
  intros Hs Hx Hy Hc. unfold apply_temperature_effect. rewrite Hc.
  unfold mbind, M_bind.
  destruct (Hs _ (current_temp_loc s)) as (a & Ha & Hsh).
  rewrite (iadd_transform _ _ _ _ _ _ _ _ Ha Hsh Hx Hy).
  rewrite propagate_heat_effect_transform by now apply shaped_transform.
  now rewrite transform_transform.
Qed.

Lemma apply_temperature_effect_none (s : ClimateSimulator) (action_type : string)
    (x y : Z) (w : world) :
  TEMP_COEFFICIENTS !! action_type = None ->
  apply_temperature_effect s action_type x y w = (Ok tt, w).
Proof. intros Hc. unfold apply_temperature_effect. now rewrite Hc. Qed.

(** *** The wind branch and the snapshot *)

Ltac sub_locs :=
  let l := fresh "l" in
  intros l ->%list_elem_of_singleton; repeat constructor.

Lemma frame_imul_pair (lu lv : loc) (nx ny : Z) (k : float) :
  frame [lu; lv] (imul lu nx ny k;; imul lv nx ny k).
Proof.
  apply frame_bind.
  - eapply frame_weaken; [|apply frame_modify]. sub_locs.
  - intros _. eapply frame_weaken; [|apply frame_modify]. sub_locs.
Qed.

Lemma frame_apply_wind_effect (s : ClimateSimulator) (action_type : string)
    (x y : Z) :
  frame [current_wind_u s; current_wind_v s] (apply_wind_effect s action_type x y).
Proof.
  unfold apply_wind_effect.
  destruct (String.eqb action_type "ADD_BUILDING").
  - apply frame_bind; [apply pure_frame, pure_getitem|]. intros u.
    apply frame_bind; [apply pure_frame, pure_getitem|]. intros v.
    apply frame_bind; [apply pure_frame, pure_lift|]. intros shadow.
    apply frame_bind.
    { apply frame_for. intros [dx dy].
      destruct (in_grid s (x + dx) (y + dy)).
      - apply frame_imul_pair.
      - apply pure_frame, pure_ret. }
    intros _.
    apply frame_bind; [apply pure_frame, pure_lift|]. intros channel.
    apply frame_for. intros [dx dy].
    destruct (in_grid s (x + dx) (y + dy)).
    + apply frame_imul_pair.
    + apply pure_frame, pure_ret.
  - destruct (String.eqb action_type "REMOVE_BUILDING").
    + apply frame_bind; [apply pure_frame, pure_getitem|]. intros u.
      apply frame_bind; [apply pure_frame, pure_getitem|]. intros v.
      apply frame_bind; [apply pure_frame, pure_lift|]. intros shadow.
      apply frame_for. intros [dx dy].
      destruct (in_grid s (x + dx) (y + dy)).
      * apply frame_bind; [apply pure_frame, pure_getitem|]. intros bu.
        apply frame_bind.
        { eapply frame_weaken; [|apply frame_setitem]. sub_locs. }
        intros _.
        apply frame_bind; [apply pure_frame, pure_getitem|]. intros bv.
        eapply frame_weaken; [|apply frame_setitem]. sub_locs.
      * apply pure_frame, pure_ret.
    + apply pure_frame, pure_ret.
Qed.

Lemma pure_get_state : pure get_state.
Proof.
  unfold get_state.
  apply pure_bind; [apply pure_get_self|]. intros s.
  apply pure_bind.
  { apply pure_collect. intros [x y].
    destruct (grid_to_latlon s x y) as [lat lon].
    repeat (apply pure_bind;
            [first [apply pure_getitem | apply pure_lift]|]; intros ?).
    apply pure_ret. }
  intros samples.
  apply pure_bind; [apply pure_load|]. intros ct.
  apply pure_bind; [apply pure_lift|]. intros k.
  destruct (grid_to_latlon s _ _) as [hlat hlon].
  apply pure_bind; [apply pure_lift|]. intros ht.
  apply pure_bind; [apply pure_load|]. intros bt.
  apply pure_ret.
Qed.

Lemma append_intervention_eq (i : Intervention) (w : world) :
  append_intervention i w
  = (Ok tt, {| self := with_intervention (self w) i; heap := heap w |}).
Proof. reflexivity. Qed.

Lemma snd_bind_pure {A B} (m : M A) (k : A -> M B) (w : world) :
  (forall a, pure (k a)) -> snd ((m ≫= k) w) = snd (m w).
Proof.
  intros Hk. unfold mbind, M_bind.
  destruct (m w) as [[a|e] w1]; simpl; [apply Hk|reflexivity].
Qed.

Lemma temperature_branch (w : world) (action_type : string) (lat lon : float)
    (x y : Z) :
  shaped (self w) w ->
  0 <= x < grid_width (self w) -> 0 <= y < grid_height (self w) ->
  apply_temperature_effect (self w) action_type x y
    {| self := with_intervention (self w) (record_of action_type lat lon x y);
       heap := heap w |}
  = (Ok tt, after_temperature w action_type lat lon x y).
Proof.
  intros Hs Hx Hy. unfold after_temperature, temperature_change_of.
  destruct (TEMP_COEFFICIENTS !! action_type) as [impact|] eqn:Hc.
  - now apply apply_temperature_effect_some.
  - rewrite transform_id. now apply apply_temperature_effect_none.
Qed.

Lemma apply_intervention_resolved (w : world) (action_type : string)
    (lat lon : float) (x y : Z) :
  latlon_to_grid (self w) lat lon = Ok (x, y) ->
  apply_intervention action_type lat lon w
  = (apply_temperature_effect (self w) action_type x y;;
     apply_wind_effect (self w) action_type x y;; get_state)
      {| self := with_intervention (self w) (record_of action_type lat lon x y);
         heap := heap w |}.
Proof.
  intros Hxy. unfold apply_intervention.
  unfold mbind at 1, M_bind at 1. unfold get_self at 1.
  unfold mbind at 1, M_bind at 1. unfold lift at 1. rewrite Hxy.
  unfold mbind at 1, M_bind at 1. now rewrite append_intervention_eq.
Qed.

(** The final world of a call that resolves its coordinate: the wind
    branch run after the temperature branch. *)
Lemma apply_intervention_world (w : world) (action_type : string)
    (lat lon : float) (x y : Z) :
  shaped (self w) w ->
  1 <= grid_width (self w) -> 1 <= grid_height (self w) ->
  latlon_to_grid (self w) lat lon = Ok (x, y) ->
  snd (apply_intervention action_type lat lon w)
  = snd (apply_wind_effect (self w) action_type x y
           (after_temperature w action_type lat lon x y)).
Proof.
  intros Hs HW HH Hxy.
  destruct (latlon_to_grid_bounds _ _ _ _ _ HW HH Hxy) as [Hx Hy].
  rewrite (apply_intervention_resolved _ _ _ _ _ _ Hxy).
  unfold mbind at 1, M_bind at 1.
  rewrite temperature_branch by (auto; lia).
  apply snd_bind_pure. intros _. apply pure_get_state.
Qed.

Lemma apply_intervention_unresolved (w : world) (action_type : string)
    (lat lon : float) (e : exn) :
  latlon_to_grid (self w) lat lon = Raise e ->
  apply_intervention action_type lat lon w = (Raise e, w).
Proof.
  intros Hxy. unfold apply_intervention.
  unfold mbind at 1, M_bind at 1. unfold get_self at 1.
  unfold mbind at 1, M_bind at 1. unfold lift at 1. now rewrite Hxy.
Qed.

(** *** The entries after the temperature branch *)

Lemma neighbourhood_eq :
  neighbourhood =
  [(-2, -2); (-2, -1); (-2, 0); (-2, 1); (-2, 2);
   (-1, -2); (-1, -1); (-1, 0); (-1, 1); (-1, 2);
   (0, -2); (0, -1); (0, 0); (0, 1); (0, 2);
   (1, -2); (1, -1); (1, 0); (1, 1); (1, 2);
   (2, -2); (2, -1); (2, 0); (2, 1); (2, 2)].
Proof. reflexivity. Qed.

Lemma neighbourhood_NoDup : NoDup neighbourhood.
Proof. apply (bool_decide_unpack _). vm_compute. exact I. Qed.

Lemma neighbourhood_spec (dx dy : Z) :
  (dx, dy) ∈ neighbourhood <-> -2 <= dx <= 2 /\ -2 <= dy <= 2.
Proof.
  rewrite neighbourhood_eq. split.
  - intros Hin. repeat (apply elem_of_cons in Hin as [[= -> ->]|Hin]; [lia|]).
    inversion Hin.
  - intros [Hx Hy].
    assert (dx = -2 \/ dx = -1 \/ dx = 0 \/ dx = 1 \/ dx = 2) as Hdx by lia.
    assert (dy = -2 \/ dy = -1 \/ dy = 0 \/ dy = 1 \/ dy = 2) as Hdy by lia.
    destruct Hdx as [->|[->|[->|[->| ->]]]];
      destruct Hdy as [->|[->|[->|[->| ->]]]];
      apply (bool_decide_unpack _); vm_compute; exact I.
Qed.

Lemma point_hit (i j : Z) (g : float -> float) (t : float) :
  point i j g i j t = g t.
Proof. unfold point. now rewrite !Z.eqb_refl. Qed.

Lemma point_miss (i j i' j' : Z) (g : float -> float) (t : float) :
  (i', j') <> (i, j) -> point i j g i' j' t = t.
Proof.
  intros Hne. unfold point.
  destruct (Z.eqb_spec i' i) as [->|]; [|reflexivity].
  destruct (Z.eqb_spec j' j) as [->|]; [|reflexivity].
  contradiction.
Qed.

Lemma on_same (l : loc) F : on l F l = F.
Proof. unfold on. now rewrite decide_True. Qed.

Lemma on_other (l l' : loc) F (i j : Z) (t : float) :
  l' <> l -> on l F l' i j t = t.
Proof. intros Hne. unfold on. now rewrite decide_False. Qed.

Lemma heat_change_miss (s : ClimateSimulator) (x y : Z) (d : float)
    (c : Z * Z) (l : loc) (i j : Z) (t : float) :
  (i, j) <> (x + fst c, y + snd c) \/ c = (0, 0) ->
  heat_change s x y d c l i j t = t.
Proof.
  intros Hc. unfold heat_change.
  destruct ((fst c =? 0) && (snd c =? 0)) eqn:E0; [reflexivity|].
  destruct (in_grid s _ _); [|reflexivity].
  destruct Hc as [Hne| ->]; [|discriminate].
  destruct (decide (l = current_temp s)) as [->|Hl].
  - rewrite on_same. now apply point_miss.
  - now apply on_other.
Qed.

Lemma temperature_change_other (s : ClimateSimulator) (x y : Z) (d : float)
    (l : loc) (i j : Z) (t : float) :
  l <> current_temp s -> temperature_change s x y d l i j t = t.
Proof.
  intros Hl. unfold temperature_change. rewrite on_other by assumption.
  apply compose_miss. intros c t' _. unfold heat_change.
  destruct ((fst c =? 0) && (snd c =? 0)); [reflexivity|].
  destruct (in_grid s _ _); [|reflexivity]. now apply on_other.
Qed.

Lemma temperature_change_centre (s : ClimateSimulator) (x y : Z) (d t : float) :
  temperature_change s x y d (current_temp s) x y t = (t + d)%float.
Proof.
  unfold temperature_change. rewrite on_same, point_hit.
  apply compose_miss. intros [dx dy] t' _. apply heat_change_miss. simpl.
  destruct (decide (dx = 0)) as [->|]; destruct (decide (dy = 0)) as [->|];
    [right; reflexivity|left..]; intros [= ? ?]; lia.
Qed.

Lemma temperature_change_neighbour (s : ClimateSimulator) (x y : Z) (d t : float)
    (dx dy : Z) :
  -2 <= dx <= 2 -> -2 <= dy <= 2 -> (dx, dy) <> (0, 0) ->
  in_grid s (x + dx) (y + dy) = true ->
  temperature_change s x y d (current_temp s) (x + dx) (y + dy) t
  = (t + heat_amount d dx dy)%float.
Proof.
  intros Hdx Hdy Hne Hin. unfold temperature_change.
  rewrite on_same, point_miss by (intros [= ? ?]; apply Hne; f_equal; lia).
  rewrite (compose_hit _ _ (dx, dy)).
  - unfold heat_change. simpl. rewrite Hin.
    replace ((dx =? 0) && (dy =? 0)) with false.
    + now rewrite on_same, point_hit.
    + symmetry. apply andb_false_iff.
      destruct (Z.eqb_spec dx 0) as [->|]; [|now left].
      destruct (Z.eqb_spec dy 0) as [->|]; [|now right]. contradiction.
  - apply neighbourhood_NoDup.
  - now apply neighbourhood_spec.
  - intros [dx' dy'] t' _ Hne'. apply heat_change_miss. left. simpl.
    intros [= ? ?]. apply Hne'. f_equal; lia.
Qed.

Lemma temperature_change_far (s : ClimateSimulator) (x y : Z) (d t : float)
    (i j : Z) :
  ~ (-2 <= i - x <= 2 /\ -2 <= j - y <= 2) ->
  temperature_change s x y d (current_temp s) i j t = t.
Proof.
  intros Hfar. unfold temperature_change.
  rewrite on_same, point_miss by (intros [= -> ->]; lia).
  apply compose_miss. intros [dx dy] t' Hc. apply heat_change_miss. left.
  simpl. apply neighbourhood_spec in Hc. intros [= -> ->]. lia.
Qed.

End ClimateLemmas.

(** * Binary64 rounding

    Facts about the operations of [SpecFloat], which the primitive
    floats implement: every operation returns a faithful rounding of the
    exact result. *)

Section Powers.

Lemma scale_pos (e : Z) : -3000 <= e -> 0 < scale e.
Proof. intros He. unfold scale. apply Z.pow_pos_nonneg; lia. Qed.

Lemma scale_add (e k : Z) : -3000 <= e -> 0 <= k -> scale (e + k) = scale e * 2 ^ k.
Proof.
  intros He Hk. unfold scale.
  replace (e + k + 3000) with (e + 3000 + k) by lia.
  apply Z.pow_add_r; lia.
Qed.

Lemma scale_le (e e' : Z) : -3000 <= e <= e' -> scale e <= scale e'.
Proof. intros He. unfold scale. apply Z.pow_le_mono_r; lia. Qed.

Lemma scale_lt (e e' : Z) : -3000 <= e < e' -> scale e < scale e'.
Proof. intros He. unfold scale. apply Z.pow_lt_mono_r; lia. Qed.

Lemma scale_succ (e : Z) : -3000 <= e -> scale (e + 1) = 2 * scale e.
Proof. intros He. rewrite scale_add by lia. change (2 ^ 1) with 2. lia. Qed.

Lemma digits2_size (p : positive) : digits2_pos p = Pos.size p.
Proof. induction p; simpl; congruence. Qed.

Lemma digits_bounds (p : positive) :
  2 ^ (Zpos (digits2_pos p) - 1) <= Zpos p < 2 ^ Zpos (digits2_pos p).
Proof.
  rewrite digits2_size. split.
  - pose proof (Pos.size_le p) as Hle.
    assert (Zpos (2 ^ Pos.size p) <= Zpos p~0) as Hz by exact Hle.
    rewrite Pos2Z.inj_pow in Hz.
    replace (Zpos (Pos.size p)) with (Zpos (Pos.size p) - 1 + 1) in Hz by lia.
    rewrite Z.pow_add_r in Hz by lia. change (2 ^ 1) with 2 in Hz.
    lia.
  - pose proof (Pos.size_gt p) as Hgt.
    assert (Zpos p < Zpos (2 ^ Pos.size p)) as Hz by exact Hgt.
    now rewrite Pos2Z.inj_pow in Hz.
Qed.

Lemma digits_unique (p : positive) (d : Z) :
  2 ^ (d - 1) <= Zpos p < 2 ^ d -> Zpos (digits2_pos p) = d.
Proof.
  intros [Hlo Hhi]. pose proof (digits_bounds p) as [Hlo' Hhi'].
  assert (0 < d) as Hd.
  { destruct (Z_lt_le_dec 0 d) as [|Hneg]; [assumption|].
    assert (2 ^ d <= 2 ^ 0) by (destruct (Z.eq_dec d 0) as [->|];
      [lia|rewrite Z.pow_neg_r by lia; simpl; lia]).
    simpl in *. lia. }
  destruct (Z.lt_trichotomy (Zpos (digits2_pos p)) d) as [Hlt|[Heq|Hgt]]; [|exact Heq|].
  - assert (2 ^ Zpos (digits2_pos p) <= 2 ^ (d - 1)) by (apply Z.pow_le_mono_r; lia). lia.
  - assert (2 ^ d <= 2 ^ (Zpos (digits2_pos p) - 1)) by (apply Z.pow_le_mono_r; lia). lia.
Qed.

End Powers.

Section Rounding.

Lemma fexp_eq (e : Z) : fexp prec emax e = Z.max (e - 53) (-1074).
Proof. reflexivity. Qed.

Lemma iter_pos_nat {A : Type} (f : A -> A) (n : positive) (x : A) :
  SpecFloat.iter_pos f n x = Nat.iter (Pos.to_nat n) f x.
Proof.
  revert x. induction n as [n IH|n IH|]; intros x; simpl SpecFloat.iter_pos.
  - rewrite !IH, Pos2Nat.inj_xI.
    replace (S (2 * Pos.to_nat n))%nat with (Pos.to_nat n + S (Pos.to_nat n))%nat by lia.
    now rewrite Nat.iter_add, Nat.iter_succ_r.
  - rewrite !IH, Pos2Nat.inj_xO.
    replace (2 * Pos.to_nat n)%nat with (Pos.to_nat n + Pos.to_nat n)%nat by lia.
    now rewrite Nat.iter_add.
  - reflexivity.
Qed.

Lemma shr_1_spec (mrs : shr_record) :
  0 <= shr_m mrs ->
  shr_m (shr_1 mrs) = shr_m mrs / 2 /\
  shr_r (shr_1 mrs) = Z.odd (shr_m mrs) /\
  shr_s (shr_1 mrs) = (shr_r mrs || shr_s mrs)%bool.
Proof.
  destruct mrs as [m r s]. simpl. intros Hm.
  destruct m as [|[p|p|]|p]; simpl; try lia; repeat split.
  - apply (Z.div_unique _ 2 _ 1); lia.
  - apply (Z.div_unique _ 2 _ 0); lia.
Qed.

Lemma shr_iter (M0 : Z) (k : nat) :
  0 <= M0 ->
  let mrs := Nat.iter k shr_1 {| shr_m := M0; shr_r := false; shr_s := false |} in
  shr_m mrs = M0 / 2 ^ Z.of_nat k /\
  (M0 mod 2 ^ Z.of_nat k = 0 -> shr_r mrs = false /\ shr_s mrs = false).
Proof.
  intros HM. induction k as [|k IH].
  - simpl. rewrite Z.div_1_r. auto.
  - cbv zeta in IH |- *. destruct IH as [IHm IHx].
    set (mrs := Nat.iter k shr_1 _) in *.
    assert (0 < 2 ^ Z.of_nat k) as Hpow by (apply Z.pow_pos_nonneg; lia).
    assert (2 ^ Z.of_nat (S k) = 2 ^ Z.of_nat k * 2) as Hsucc
      by (rewrite Nat2Z.inj_succ, Z.pow_succ_r; lia).
    assert (0 <= shr_m mrs) as Hnn by (rewrite IHm; apply Z.div_pos; lia).
    simpl Nat.iter. fold mrs.
    destruct (shr_1_spec mrs Hnn) as (Hm1 & Hr1 & Hs1).
    split.
    + rewrite Hm1, IHm, Hsucc. apply Z.div_div; lia.
    + intros Hmod. rewrite Hsucc in Hmod.
      apply Zmod_divides in Hmod; [|lia]. destruct Hmod as [c Hc].
      assert (M0 mod 2 ^ Z.of_nat k = 0) as Hk.
      { apply Zmod_divides; [lia|]. exists (2 * c). lia. }
      destruct (IHx Hk) as [Hr Hs].
      rewrite Hr1, Hs1, Hr, Hs, IHm. split; [|reflexivity].
      replace (M0 / 2 ^ Z.of_nat k) with (2 * c).
      * rewrite Z.odd_mul. reflexivity.
      * apply (Z.div_unique _ _ _ 0); lia.
Qed.

Lemma shr_spec (M0 e n : Z) :
  0 <= M0 -> 0 <= n ->
  exists mrs, shr {| shr_m := M0; shr_r := false; shr_s := false |} e n = (mrs, e + n) /\
    shr_m mrs = M0 / 2 ^ n /\
    (M0 mod 2 ^ n = 0 -> loc_of_shr_record mrs = loc_Exact).
Proof.
  intros HM Hn. destruct n as [|p|p]; [| |lia].
  - eexists. split; [unfold shr; rewrite Z.add_0_r; reflexivity|].
    simpl. rewrite Z.div_1_r. auto.
  - unfold shr. rewrite iter_pos_nat.
    destruct (shr_iter M0 (Pos.to_nat p) HM) as [Hm Hx].
    rewrite positive_nat_Z in Hm, Hx.
    eexists. split; [reflexivity|]. split; [exact Hm|].
    intros Hmod. destruct (Hx Hmod) as [Hr Hs].
    destruct (Nat.iter _ _ _) as [m r s]. simpl in Hr, Hs. subst. reflexivity.
Qed.

Lemma shr_nonpos (mrs : shr_record) (e n : Z) : n <= 0 -> shr mrs e n = (mrs, e).
Proof. intros Hn. destruct n; [reflexivity|lia|reflexivity]. Qed.

Lemma round_nearest_even_bounds (q : Z) (l : location) :
  q <= round_nearest_even q l <= q + 1 /\
  (l = loc_Exact -> round_nearest_even q l = q).
Proof.
  split; [|intros ->; reflexivity].
  destruct l as [|[ | | ]]; simpl; try lia. destruct (Z.even q); lia.
Qed.

Lemma pow2_ge_2 (k : Z) : 1 <= k -> 2 <= 2 ^ k.
Proof. intros Hk. change 2 with (2 ^ 1) at 1. apply Z.pow_le_mono_r; lia. Qed.

Lemma mul_le_cancel (a b s : Z) : 0 < s -> a * s <= b * s -> a <= b.
Proof. intros Hs H. apply Z.mul_le_mono_pos_r in H; assumption. Qed.

Lemma mul_lt_cancel (a b s : Z) : 0 < s -> a * s < b * s -> a < b.
Proof. intros Hs H. apply Z.mul_lt_mono_pos_r in H; assumption. Qed.

(** The heart of the rounding argument: the truncated mantissa [q] of
    [p * 2^e] at the exponent [E] of the format, or its successor, is a
    faithful rounding, provided [q] is returned whenever the truncation
    is exact. *)
Lemma round_faithful (p e n qr : Z) :
  0 < p -> -3000 <= e -> 0 <= n -> -1074 <= e + n ->
  p / 2 ^ n <= qr <= p / 2 ^ n + 1 ->
  (p mod 2 ^ n = 0 -> qr = p / 2 ^ n) ->
  (2 ^ 52 <= p / 2 ^ n \/ e + n = -1074) ->
  rounds_to (p * scale e) (qr * scale (e + n)).
Proof.
  intros Hp He Hn HE Hqr Hexact Hcanon.
  set (q := p / 2 ^ n) in *. set (E := e + n) in *.
  assert (0 < 2 ^ n) as Hpow by (apply Z.pow_pos_nonneg; lia).
  assert (0 < scale e) as Hse by (apply scale_pos; lia).
  assert (0 < scale E) as HsE by (apply scale_pos; lia).
  assert (scale E = scale e * 2 ^ n) as HE' by (apply scale_add; lia).
  assert (2 ^ n * q <= p) as Hlo by (apply Z.mul_div_le; lia).
  assert (p < 2 ^ n * (q + 1)) as Hhi by (apply Z.mul_succ_div_gt; lia).
  assert (0 <= q) as Hq by (apply Z.div_pos; lia).
  assert (q * scale E <= p * scale e) as Hbelow.
  { rewrite HE'. replace (q * (scale e * 2 ^ n)) with (2 ^ n * q * scale e) by ring.
    apply Z.mul_le_mono_nonneg_r; lia. }
  assert (p * scale e < (q + 1) * scale E) as Habove.
  { rewrite HE'. replace ((q + 1) * (scale e * 2 ^ n)) with (2 ^ n * (q + 1) * scale e) by ring.
    apply Z.mul_lt_mono_pos_r; lia. }
  assert (forall mv ev, 0 <= mv < 2 ^ 53 -> -1074 <= ev -> ev < E ->
            mv * scale ev < q * scale E) as Hsmall.
  { intros mv ev Hmv Hev Hlt.
    destruct Hcanon as [Hc|Hc]; [|lia].
    assert (0 < scale ev) as Hsv by (apply scale_pos; lia).
    assert (scale E = scale ev * 2 ^ (E - ev)) as ->.
    { rewrite <- scale_add by lia. f_equal. lia. }
    pose proof (pow2_ge_2 (E - ev) ltac:(lia)) as Hk.
    replace (q * (scale ev * 2 ^ (E - ev))) with (q * 2 ^ (E - ev) * scale ev) by ring.
    apply Z.mul_lt_mono_pos_r; [assumption|].
    assert (2 ^ 53 <= q * 2 ^ (E - ev)); [|lia].
    change (2 ^ 53) with (2 ^ 52 * 2). apply Z.mul_le_mono_nonneg; lia. }
  assert (forall mv ev, 0 <= mv -> E <= ev ->
            exists c, 0 <= c /\ mv * scale ev = c * scale E) as Hmult.
  { intros mv ev Hmv Hev. exists (mv * 2 ^ (ev - E)). split.
    - apply Z.mul_nonneg_nonneg; [lia|]. apply Z.pow_nonneg. lia.
    - replace ev with (E + (ev - E)) at 1 by lia. rewrite scale_add by lia. ring. }
  split; [|split].
  - apply Z.mul_nonneg_nonneg; lia.
  - intros mv ev Hmv Hev HX.
    destruct (Z.eq_dec qr q) as [->|Hne]; [lia|].
    assert (qr = q + 1) as -> by lia.
    assert (p mod 2 ^ n <> 0) as Hmod by (intros H; apply Hne, Hexact, H).
    assert (q * scale E < p * scale e) as Hstrict.
    { rewrite HE'. replace (q * (scale e * 2 ^ n)) with (2 ^ n * q * scale e) by ring.
      apply Z.mul_lt_mono_pos_r; [assumption|].
      pose proof (Z.div_mod p (2 ^ n) ltac:(lia)) as Hdm.
      pose proof (Z.mod_pos_bound p (2 ^ n) Hpow) as Hb. fold q in Hdm. lia. }
    destruct (Z_lt_le_dec ev E) as [Hlt|Hge].
    + pose proof (Hsmall mv ev Hmv Hev Hlt). lia.
    + destruct (Hmult mv ev ltac:(lia) Hge) as (c & Hc & Heq). rewrite Heq in *.
      apply Z.mul_le_mono_nonneg_r; [lia|].
      assert (q < c); [|lia]. apply (mul_lt_cancel _ _ (scale E)); lia.
  - intros mv ev Hmv Hev HX.
    assert (mv * scale ev <= q * scale E) as Hle.
    { destruct (Z_lt_le_dec ev E) as [Hlt|Hge].
      - pose proof (Hsmall mv ev Hmv Hev Hlt). lia.
      - destruct (Hmult mv ev ltac:(lia) Hge) as (c & Hc & Heq). rewrite Heq in *.
        apply Z.mul_le_mono_nonneg_r; [lia|].
        assert (c < q + 1); [|lia]. apply (mul_lt_cancel _ _ (scale E)); lia. }
    assert (q * scale E <= qr * scale E) by (apply Z.mul_le_mono_nonneg_r; lia).
    lia.
Qed.

Lemma digits_le_53 (m : positive) : Zpos m < 2 ^ 53 -> Zpos (digits2_pos m) <= 53.
Proof.
  intros Hm. pose proof (digits_bounds m) as [Hlo _].
  assert (2 ^ (Zpos (digits2_pos m) - 1) < 2 ^ 53) as Hlt by lia.
  apply Z.pow_lt_mono_r_iff in Hlt; lia.
Qed.

Lemma digits_53 (m : positive) : 2 ^ 52 <= Zpos m < 2 ^ 53 -> Zpos (digits2_pos m) = 53.
Proof. intros Hm. apply digits_unique. exact Hm. Qed.

Lemma bounded_intro (m : positive) (e : Z) :
  Zpos m < 2 ^ 53 -> -1074 <= e <= 971 -> (2 ^ 52 <= Zpos m \/ e = -1074) ->
  bounded prec emax m e = true.
Proof.
  intros Hm He Hc. unfold bounded, canonical_mantissa. rewrite fexp_eq.
  apply andb_true_intro. split; [apply Z.eqb_eq|apply Z.leb_le; change (emax - prec) with 971; lia].
  destruct Hc as [Hc|Hc].
  - rewrite (digits_53 m) by lia. lia.
  - pose proof (digits_le_53 m Hm). lia.
Qed.

Lemma bounded_facts (m : positive) (e : Z) :
  bounded prec emax m e = true ->
  Zpos m < 2 ^ 53 /\ -1074 <= e <= 971 /\ (2 ^ 52 <= Zpos m \/ e = -1074).
Proof.
  unfold bounded, canonical_mantissa. rewrite fexp_eq. intros H.
  apply andb_prop in H. destruct H as [Hc Hb].
  apply Z.eqb_eq in Hc. apply Z.leb_le in Hb. change (emax - prec) with 971 in Hb.
  pose proof (digits_bounds m) as [Hlo Hhi].
  set (d := Zpos (digits2_pos m)) in *.
  assert (d <= 53) as Hd by lia.
  assert (2 ^ d <= 2 ^ 53) as Hpow by (apply Z.pow_le_mono_r; lia).
  split; [lia|]. split; [lia|].
  destruct (Z.eq_dec e (-1074)) as [|Hne]; [now right|left].
  assert (d = 53) as Hd' by lia. rewrite Hd' in Hlo. exact Hlo.
Qed.

(** Rounding an exact positive quantity [p * 2^e] whose mantissa is at
    least as long as the format's. *)
Lemma round_aux_spec (sx : bool) (p : positive) (e : Z) :
  -3000 <= e ->
  0 <= fexp prec emax (Zpos (digits2_pos p) + e) - e ->
  exists W, rounds_to (Zpos p * scale e) W /\
            result_is sx W (binary_round_aux prec emax sx (Zpos p) e loc_Exact).
Proof.
  intros He Hn. rewrite fexp_eq in Hn.
  pose proof (digits_bounds p) as [Hdlo Hdhi].
  unfold binary_round_aux, shr_fexp. simpl Zdigits2. simpl shr_record_of_loc.
  rewrite fexp_eq.
  set (d := Zpos (digits2_pos p)) in *.
  set (n := Z.max (d + e - 53) (-1074) - e) in *.
  destruct (shr_spec (Zpos p) e n) as (mrs & Hshr & Hm & Hx); [lia|lia|].
  rewrite Hshr.
  set (E := e + n) in *.
  assert (0 < 2 ^ n) as Hpow by (apply Z.pow_pos_nonneg; lia).
  set (q := Zpos p / 2 ^ n) in *.
  assert (0 <= q) as Hq by (apply Z.div_pos; lia).
  assert (q < 2 ^ 53) as Hq53.
  { apply Z.div_lt_upper_bound; [lia|].
    rewrite <- Z.pow_add_r by lia.
    assert (2 ^ d <= 2 ^ (n + 53)) by (apply Z.pow_le_mono_r; lia). lia. }
  assert (2 ^ 52 <= q \/ E = -1074) as Hcanon.
  { destruct (Z.eq_dec E (-1074)) as [|Hne]; [now right|left].
    assert (n = d - 53) as Hn' by lia.
    apply Z.div_le_lower_bound; [lia|].
    rewrite <- Z.pow_add_r by lia.
    replace (n + 52) with (d - 1) by lia. exact Hdlo. }
  destruct (round_nearest_even_bounds (shr_m mrs) (loc_of_shr_record mrs)) as [Hb Hex].
  set (qr := round_nearest_even (shr_m mrs) (loc_of_shr_record mrs)) in *.
  rewrite Hm in Hb. fold q in Hb.
  assert (Zpos p mod 2 ^ n = 0 -> qr = q) as Hexact.
  { intros Hmod. rewrite <- Hm. apply Hex, Hx, Hmod. }
  assert (rounds_to (Zpos p * scale e) (qr * scale E)) as Hround.
  { apply round_faithful; try lia; assumption. }
  exists (qr * scale E). split; [exact Hround|].
  assert (0 < scale E) as HsE by (apply scale_pos; lia).
  destruct (Z.eq_dec qr (2 ^ 53)) as [H53|H53].
  - rewrite H53. change (Zdigits2 (2 ^ 53)) with 54. rewrite fexp_eq.
    replace (Z.max (54 + E - 53) (-1074) - E) with 1 by lia.
    simpl. destruct (Z.leb_spec (E + 1) (emax - prec)) as [Hle|Hgt];
      change (emax - prec) with 971 in *; simpl.
    + split; [reflexivity|]. split.
      * rewrite scale_succ by lia. lia.
      * apply bounded_intro; [reflexivity|lia|left; discriminate].
    + split; [reflexivity|].
      assert (scale 971 <= scale E) by (apply scale_le; lia).
      apply Z.mul_le_mono_nonneg_l; lia.
  - assert (qr < 2 ^ 53) as Hlt by lia.
    rewrite shr_nonpos.
    2:{ rewrite fexp_eq. destruct qr as [|m|m]; [simpl; lia| |lia].
        simpl Zdigits2. pose proof (digits_le_53 m Hlt). lia. }
    simpl shr_m. destruct qr as [|m|m]; [simpl; split; [reflexivity|lia]| |lia].
    destruct (Z.leb_spec E (emax - prec)) as [Hle|Hgt];
      change (emax - prec) with 971 in *; simpl.
    + split; [reflexivity|]. split; [reflexivity|].
      apply bounded_intro; [lia|lia|]. destruct Hcanon; [left; lia|now right].
    + split; [reflexivity|].
      destruct Hcanon as [Hc|Hc]; [|lia].
      assert (scale 972 <= scale E) by (apply scale_le; lia).
      assert (scale 972 = 2 * scale 971) as H972 by (apply (scale_succ 971); lia).
      assert (2 ^ 52 * scale E <= Zpos m * scale E)
        by (apply Z.mul_le_mono_nonneg_r; lia).
      change (2 ^ 53) with (2 ^ 52 * 2).
      assert (2 ^ 52 * (2 * scale 971) <= 2 ^ 52 * scale E)
        by (apply Z.mul_le_mono_nonneg_l; lia).
      lia.
Qed.

Lemma pos_iter_xO (mx d : positive) : Zpos (Pos.iter xO mx d) = Zpos mx * 2 ^ Zpos d.
Proof.
  induction d as [|d IH] using Pos.peano_ind.
  - simpl. lia.
  - rewrite Pos.iter_succ, Pos2Z.inj_xO, IH, Pos2Z.inj_succ, Z.pow_succ_r by lia. ring.
Qed.

Lemma shl_align_spec (mx : positive) (ex ex' : Z) :
  exists mz ez, shl_align mx ex ex' = (mz, ez) /\ ez = Z.min ex ex' /\
                Zpos mz = Zpos mx * 2 ^ (ex - ez).
Proof.
  unfold shl_align. destruct (ex' - ex) as [|d|d] eqn:Hd.
  - exists mx, ex. split; [reflexivity|]. split; [lia|].
    rewrite Z.sub_diag. simpl. lia.
  - exists mx, ex. split; [reflexivity|]. split; [lia|].
    rewrite Z.sub_diag. simpl. lia.
  - exists (Pos.iter xO mx d), ex'. split; [reflexivity|]. split; [lia|].
    rewrite pos_iter_xO. f_equal. f_equal. lia.
Qed.

Lemma digits_shift (p mz : positive) (k : Z) :
  0 <= k -> Zpos mz = Zpos p * 2 ^ k ->
  Zpos (digits2_pos mz) = Zpos (digits2_pos p) + k.
Proof.
  intros Hk Hmz. pose proof (digits_bounds p) as [Hlo Hhi].
  assert (0 < 2 ^ k) as Hpow by (apply Z.pow_pos_nonneg; lia).
  apply digits_unique. rewrite Hmz. split.
  - replace (Zpos (digits2_pos p) + k - 1) with (Zpos (digits2_pos p) - 1 + k) by lia.
    rewrite Z.pow_add_r by lia. apply Z.mul_le_mono_nonneg_r; lia.
  - rewrite Z.pow_add_r by lia. apply Z.mul_lt_mono_pos_r; lia.
Qed.

(** [binary_round]: normalisation, then rounding, of any positive
    [p * 2^e]. *)
Lemma binary_round_spec (sx : bool) (p : positive) (e : Z) :
  -1074 <= e ->
  exists W, rounds_to (Zpos p * scale e) W /\
            result_is sx W (binary_round prec emax sx p e).
Proof.
  intros He. unfold binary_round.
  destruct (shl_align_spec p e (fexp prec emax (Zpos (digits2_pos p) + e)))
    as (mz & ez & Heq & Hez & Hmz).
  rewrite Heq. rewrite fexp_eq in Hez.
  assert (Zpos p * scale e = Zpos mz * scale ez) as ->.
  { rewrite Hmz. replace e with (ez + (e - ez)) at 1 by lia.
    rewrite scale_add by lia. ring. }
  apply round_aux_spec; [lia|].
  rewrite (digits_shift p mz (e - ez)) by (lia || assumption).
  rewrite fexp_eq. lia.
Qed.

Lemma binary_normalize_spec (p : positive) (e : Z) (szero : bool) :
  -1074 <= e ->
  exists W, rounds_to (Zpos p * scale e) W /\
            result_is false W (binary_normalize prec emax (Zpos p) e szero).
Proof. apply binary_round_spec. Qed.

End Rounding.

Section Operations.

Lemma rounds_to_exact (m : positive) (e W : Z) :
  bounded prec emax m e = true -> rounds_to (Zpos m * scale e) W -> W = Zpos m * scale e.
Proof.
  intros Hb (_ & Hup & Hlo). destruct (bounded_facts m e Hb) as (Hm & He & _).
  pose proof (Hup (Zpos m) e ltac:(lia) ltac:(lia) ltac:(lia)).
  pose proof (Hlo (Zpos m) e ltac:(lia) ltac:(lia) ltac:(lia)). lia.
Qed.

Lemma pos_float_positive (x : spec_float) (v : Z) : pos_float x v -> 0 < v.
Proof.
  intros (m & e & _ & Hb & ->). destruct (bounded_facts m e Hb) as (_ & He & _).
  apply Z.mul_pos_pos; [lia|apply scale_pos; lia].
Qed.

Lemma pos_float_below_max (x : spec_float) (v : Z) : pos_float x v -> v < 2 ^ 53 * scale 971.
Proof.
  intros (m & e & _ & Hb & ->). destruct (bounded_facts m e Hb) as (Hm & He & _).
  assert (0 < scale e) by (apply scale_pos; lia).
  assert (scale e <= scale 971) by (apply scale_le; lia).
  assert (Zpos m * scale e < 2 ^ 53 * scale e) by (apply Z.mul_lt_mono_pos_r; lia).
  assert (2 ^ 53 * scale e <= 2 ^ 53 * scale 971) by (apply Z.mul_le_mono_nonneg_l; lia).
  lia.
Qed.

Lemma pos_float_unique (x : spec_float) (v v' : Z) : pos_float x v -> pos_float x v' -> v = v'.
Proof. intros (m & e & -> & _ & ->) (m' & e' & [= <- <-] & _ & ->). reflexivity. Qed.

(** A rounded result that is neither an overflow nor zero is a positive
    float. *)
Lemma result_is_pos_float (W : Z) (r : spec_float) :
  result_is false W r -> 0 < W -> W < 2 ^ 53 * scale 971 -> pos_float r W.
Proof.
  destruct r as [s|s| |s m e]; simpl; try lia; try tauto.
  intros (-> & -> & Hb) _ _. exists m, e. auto.
Qed.

Lemma value_exp_lt (mx my : positive) (ex ey : Z) :
  bounded prec emax mx ex = true -> bounded prec emax my ey = true ->
  ex < ey -> Zpos mx * scale ex < Zpos my * scale ey.
Proof.
  intros Hx Hy Hlt.
  destruct (bounded_facts _ _ Hx) as (Hmx & Hex & _).
  destruct (bounded_facts _ _ Hy) as (Hmy & Hey & [Hn|Hn]); [|lia].
  assert (0 < scale ex) by (apply scale_pos; lia).
  assert (scale ey = scale ex * 2 ^ (ey - ex)) as ->.
  { rewrite <- scale_add by lia. f_equal. lia. }
  pose proof (pow2_ge_2 (ey - ex) ltac:(lia)).
  replace (Zpos my * (scale ex * 2 ^ (ey - ex))) with (Zpos my * 2 ^ (ey - ex) * scale ex) by ring.
  apply Z.mul_lt_mono_pos_r; [assumption|].
  assert (2 ^ 52 * 2 <= Zpos my * 2 ^ (ey - ex)) by (apply Z.mul_le_mono_nonneg; lia).
  change (2 ^ 52 * 2) with (2 ^ 53) in *. lia.
Qed.

Lemma SFcompare_pos (x y : spec_float) (vx vy : Z) :
  pos_float x vx -> pos_float y vy -> SFcompare x y = Some (vx ?= vy).
Proof.
  intros (mx & ex & -> & Hx & ->) (my & ey & -> & Hy & ->). simpl. f_equal.
  destruct (Z.compare_spec ex ey) as [->|Hlt|Hgt].
  - destruct (bounded_facts _ _ Hy) as (_ & Hey & _).
    assert (0 < scale ey) by (apply scale_pos; lia).
    rewrite <- Zmult_compare_compat_r by lia. reflexivity.
  - symmetry. apply Z.compare_lt_iff. now apply value_exp_lt.
  - symmetry. apply Z.compare_gt_iff. now apply value_exp_lt.
Qed.

Lemma SFleb_pos (x y : spec_float) (vx vy : Z) :
  pos_float x vx -> pos_float y vy -> SFleb x y = true <-> vx <= vy.
Proof.
  intros Hx Hy. unfold SFleb. rewrite (SFcompare_pos x y vx vy Hx Hy).
  destruct (Z.compare_spec vx vy); split; intros; try lia; try reflexivity; discriminate.
Qed.

Lemma SFltb_pos (x y : spec_float) (vx vy : Z) :
  pos_float x vx -> pos_float y vy -> SFltb x y = true <-> vx < vy.
Proof.
  intros Hx Hy. unfold SFltb. rewrite (SFcompare_pos x y vx vy Hx Hy).
  destruct (Z.compare_spec vx vy); split; intros; try lia; try reflexivity; discriminate.
Qed.

(** Both operands written at the smaller exponent. *)
Lemma aligned (mx my : positive) (ex ey : Z) :
  -1074 <= ex -> -1074 <= ey ->
  let ez := Z.min ex ey in
  Zpos (fst (shl_align mx ex ez)) * scale ez = Zpos mx * scale ex /\
  Zpos (fst (shl_align my ey ez)) * scale ez = Zpos my * scale ey.
Proof.
  intros Hex Hey ez.
  destruct (shl_align_spec mx ex ez) as (ax & e1 & -> & He1 & Hax).
  destruct (shl_align_spec my ey ez) as (ay & e2 & -> & He2 & Hay).
  simpl fst. rewrite Hax, Hay.
  replace e1 with ez in * by lia. replace e2 with ez in * by lia.
  split.
  - replace ex with (ez + (ex - ez)) at 2 by lia. rewrite scale_add by lia. ring.
  - replace ey with (ez + (ey - ez)) at 2 by lia. rewrite scale_add by lia. ring.
Qed.

Lemma SFsub_pos (x y : spec_float) (vx vy : Z) :
  pos_float x vx -> pos_float y vy -> vy <= vx ->
  (vx = vy /\ SFsub prec emax x y = S754_zero false) \/
  (vy < vx /\ exists W, rounds_to (vx - vy) W /\ pos_float (SFsub prec emax x y) W).
Proof.
  intros (mx & ex & -> & Hx & ->) (my & ey & -> & Hy & ->) Hle.
  destruct (bounded_facts _ _ Hx) as (Hmx & Hex & _).
  destruct (bounded_facts _ _ Hy) as (Hmy & Hey & _).
  destruct (aligned mx my ex ey ltac:(lia) ltac:(lia)) as [Hax Hay].
  unfold SFsub. cbv zeta. simpl cond_Zopp.
  change (IntDef.Z.min ex ey) with (Z.min ex ey).
  set (ez := Z.min ex ey) in *.
  assert (0 < scale ez) as Hs by (apply scale_pos; lia).
  set (ax := Zpos (fst (shl_align mx ex ez))) in *.
  set (ay := Zpos (fst (shl_align my ey ez))) in *.
  clearbody ax ay.
  assert ((ax - ay) * scale ez = Zpos mx * scale ex - Zpos my * scale ey) as Hdiff
    by (rewrite Z.mul_sub_distr_r, Hax, Hay; reflexivity).
  destruct (ax - ay) as [|p|p] eqn:Hd.
  - left. split; [lia|reflexivity].
  - right. split; [lia|].
    destruct (binary_normalize_spec p ez false ltac:(lia)) as (W & Hr & Hres).
    exists W. rewrite <- Hdiff. split; [exact Hr|].
    destruct Hr as (_ & Hup & Hlo).
    apply result_is_pos_float; [exact Hres| |].
    + assert (1 * scale ez <= Zpos p * scale ez) as H1
        by (apply Z.mul_le_mono_nonneg_r; lia).
      pose proof (Hlo 1 ez ltac:(lia) ltac:(lia) H1). lia.
    + assert (0 < Zpos my * scale ey) by (apply Z.mul_pos_pos; [lia|apply scale_pos; lia]).
      pose proof (Hup (Zpos mx) ex ltac:(lia) ltac:(lia) ltac:(lia)).
      pose proof (pos_float_below_max (S754_finite false mx ex) _
                    ltac:(exists mx, ex; auto)). lia.
  - exfalso. assert (Zneg p * scale ez < 0) by (apply Z.mul_neg_pos; lia). lia.
Qed.

Lemma SFadd_pos (x y : spec_float) (vx vy : Z) :
  pos_float x vx -> pos_float y vy ->
  exists W, rounds_to (vx + vy) W /\ result_is false W (SFadd prec emax x y).
Proof.
  intros (mx & ex & -> & Hx & ->) (my & ey & -> & Hy & ->).
  destruct (bounded_facts _ _ Hx) as (Hmx & Hex & _).
  destruct (bounded_facts _ _ Hy) as (Hmy & Hey & _).
  destruct (aligned mx my ex ey ltac:(lia) ltac:(lia)) as [Hax Hay].
  unfold SFadd. cbv zeta. simpl cond_Zopp.
  change (IntDef.Z.min ex ey) with (Z.min ex ey).
  set (ez := Z.min ex ey) in *.
  rewrite <- Hax, <- Hay, <- Z.mul_add_distr_r.
  simpl Z.add. apply binary_normalize_spec. lia.
Qed.

Lemma digits_ge (p : positive) (k : Z) : 2 ^ k <= Zpos p -> k < Zpos (digits2_pos p).
Proof.
  intros Hk. pose proof (digits_bounds p) as [_ Hhi].
  destruct (Z_lt_le_dec k 0) as [|Hk0]; [lia|].
  assert (2 ^ k < 2 ^ Zpos (digits2_pos p)) as Hlt by lia.
  apply Z.pow_lt_mono_r_iff in Hlt; lia.
Qed.

Lemma SFmul_pos (mx my : positive) (ex ey : Z) :
  bounded prec emax mx ex = true -> bounded prec emax my ey = true ->
  exists W, rounds_to (Zpos mx * Zpos my * scale (ex + ey)) W /\
            result_is false W
              (SFmul prec emax (S754_finite false mx ex) (S754_finite false my ey)).
Proof.
  intros Hx Hy.
  destruct (bounded_facts _ _ Hx) as (Hmx & Hex & Hcx).
  destruct (bounded_facts _ _ Hy) as (Hmy & Hey & Hcy).
  unfold SFmul. simpl xorb. rewrite <- Pos2Z.inj_mul.
  apply round_aux_spec; [lia|]. rewrite fexp_eq.
  destruct Hcx as [Hcx|Hcx]; [|destruct Hcy as [Hcy|Hcy]].
  - assert (2 ^ 52 <= Zpos (mx * my)) as Hp.
    { rewrite Pos2Z.inj_mul. replace (2 ^ 52) with (2 ^ 52 * 1) by lia.
      apply Z.mul_le_mono_nonneg; lia. }
    pose proof (digits_ge _ _ Hp). lia.
  - assert (2 ^ 52 <= Zpos (mx * my)) as Hp.
    { rewrite Pos2Z.inj_mul. replace (2 ^ 52) with (1 * 2 ^ 52) by lia.
      apply Z.mul_le_mono_nonneg; lia. }
    pose proof (digits_ge _ _ Hp). lia.
  - lia.
Qed.

Lemma div_eucl_exact (a b q : Z) : 0 < b -> a = b * q -> Z.div_eucl a b = (q, 0).
Proof.
  intros Hb Ha.
  assert (a / b = q) as Hq by (symmetry; apply (Z.div_unique _ _ _ 0); lia).
  assert (a mod b = 0) as Hr by (apply Zmod_divides; [lia|]; exists q; exact Ha).
  unfold Z.div, Z.modulo in Hq, Hr. destruct (Z.div_eucl a b). now subst.
Qed.

(** Dividing a normal float by 4 only lowers its exponent. *)
Lemma SFdiv_core_4 (md : positive) (ed : Z) :
  2 ^ 52 <= Zpos md < 2 ^ 53 -> -1071 <= ed ->
  SFdiv_core_binary prec emax (Zpos md) ed 4503599627370496 (-50)
  = (Zpos md~0, ed - 3, loc_Exact).
Proof.
  intros Hmd Hed. unfold SFdiv_core_binary. cbv zeta.
  change (Zdigits2 4503599627370496) with 53.
  change (Zdigits2 (Zpos md)) with (Zpos (digits2_pos md)).
  rewrite (digits_53 md Hmd). rewrite fexp_eq.
  change (IntDef.Z.min ?a ?b) with (Z.min a b).
  replace (Z.min (Z.max (53 + ed - (53 + -50) - 53) (-1074)) (ed - -50)) with (ed - 3) by lia.
  replace (ed - -50 - (ed - 3)) with 53 by lia.
  change (IntDef.Z.shiftl ?a ?b) with (Z.shiftl a b).
  change (IntDef.Z.div_eucl ?a ?b) with (Z.div_eucl a b).
  rewrite Z.shiftl_mul_pow2 by lia.
  rewrite (div_eucl_exact _ _ (Zpos md~0)); [reflexivity|reflexivity|].
  change (2 ^ 53) with 9007199254740992. lia.
Qed.

Lemma SFdiv_4_pos (x : spec_float) (v : Z) :
  pos_float x v -> scale (-48) <= v ->
  exists W, 4 * W = v /\
    pos_float (SFdiv prec emax x (S754_finite false 4503599627370496 (-50))) W.
Proof.
  intros (md & ed & -> & Hb & ->) Hv.
  destruct (bounded_facts _ _ Hb) as (Hmd & Hed & Hc).
  assert (-101 < ed) as Hed'.
  { destruct (Z_lt_le_dec (-101) ed) as [|Hle]; [assumption|exfalso].
    assert (0 < scale ed) by (apply scale_pos; lia).
    assert (scale ed <= scale (-101)) by (apply scale_le; lia).
    assert (Zpos md * scale ed < 2 ^ 53 * scale ed) by (apply Z.mul_lt_mono_pos_r; lia).
    assert (2 ^ 53 * scale ed <= 2 ^ 53 * scale (-101)) by (apply Z.mul_le_mono_nonneg_l; lia).
    assert (2 ^ 53 * scale (-101) = scale (-48)) as Heq.
    { replace (-48) with (-101 + 53) by lia. rewrite scale_add by lia. ring. }
    lia. }
  destruct Hc as [Hc|Hc]; [|lia].
  unfold SFdiv. simpl xorb.
  rewrite SFdiv_core_4 by lia.
  destruct (round_aux_spec false md~0 (ed - 3) ltac:(lia)) as (W & Hr & Hres).
  { rewrite fexp_eq.
    assert (2 ^ 53 <= Zpos md~0) as Hp by (rewrite Pos2Z.inj_xO; change (2 ^ 53) with (2 * 2 ^ 52); lia).
    pose proof (digits_ge _ _ Hp). lia. }
  assert (Zpos md~0 * scale (ed - 3) = Zpos md * scale (ed - 2)) as Hval.
  { replace (ed - 2) with (ed - 3 + 1) by lia. rewrite scale_succ by lia.
    rewrite Pos2Z.inj_xO. ring. }
  rewrite Hval in Hr.
  assert (bounded prec emax md (ed - 2) = true) as Hb'
    by (apply bounded_intro; [lia|lia|now left]).
  pose proof (rounds_to_exact _ _ _ Hb' Hr) as HW.
  exists W. split.
  - rewrite HW. replace ed with (ed - 2 + 2) at 2 by lia. rewrite scale_add by lia.
    change (2 ^ 2) with 4. ring.
  - apply result_is_pos_float; [exact Hres| |].
    + rewrite HW. apply Z.mul_pos_pos; [lia|apply scale_pos; lia].
    + rewrite HW. apply (pos_float_below_max (S754_finite false md (ed - 2))).
      exists md, (ed - 2). auto.
Qed.

End Operations.

Section Cooling.

Lemma SFcompare_neg (m1 m2 : positive) (e1 e2 : Z) :
  bounded prec emax m1 e1 = true -> bounded prec emax m2 e2 = true ->
  SFcompare (S754_finite true m1 e1) (S754_finite true m2 e2)
  = Some (Zpos m2 * scale e2 ?= Zpos m1 * scale e1).
Proof.
  intros H1 H2. simpl. f_equal.
  destruct (Z.compare_spec e1 e2) as [->|Hlt|Hgt].
  - destruct (bounded_facts _ _ H2) as (_ & He & _).
    assert (0 < scale e2) by (apply scale_pos; lia).
    rewrite <- Zmult_compare_compat_r by lia.
    change (Zpos m2 ?= Zpos m1) with (m2 ?= m1)%positive.
    rewrite (Pos.compare_antisym m1 m2). reflexivity.
  - symmetry. apply Z.compare_gt_iff. now apply value_exp_lt.
  - symmetry. apply Z.compare_lt_iff. now apply value_exp_lt.
Qed.

Lemma SFltb_irrefl (x : spec_float) : SFltb x x = false.
Proof.
  unfold SFltb. destruct x as [s|s| |s m e]; simpl; try reflexivity.
  - destruct s; reflexivity.
  - rewrite Z.compare_refl, Pos.compare_cont_refl. destruct s; reflexivity.
Qed.

(** Adding a negative amount never yields a larger float. *)
Lemma SFadd_negative (x y : spec_float) :
  valid_binary x = true -> valid_binary y = true ->
  SFltb y (S754_zero false) = true ->
  SFltb x (SFadd prec emax x y) = false.
Proof.
  intros Hx Hy Hneg.
  destruct y as [sy|sy| |sy my ey]; try discriminate.
  { (* y = -inf *)
    destruct sy; [|discriminate].
    destruct x as [s|s| |s m e]; try reflexivity; destruct s; reflexivity. }
  destruct sy; [|discriminate]. clear Hneg. simpl in Hy.
  destruct x as [s|s| |s m e]; try reflexivity; [destruct s; reflexivity|].
  simpl in Hx.
  destruct (bounded_facts _ _ Hx) as (Hm & He & _).
  destruct (bounded_facts _ _ Hy) as (Hmy & Hey & _).
  destruct (aligned m my e ey ltac:(lia) ltac:(lia)) as [Hax Hay].
  assert (pos_float (S754_finite false m e) (Zpos m * scale e)) as Hpx
    by (exists m, e; auto).
  unfold SFadd. cbv zeta.
  change (IntDef.Z.min e ey) with (Z.min e ey).
  set (ez := Z.min e ey) in *.
  assert (0 < scale ez) as Hs by (apply scale_pos; lia).
  assert (0 < scale e) as Hse by (apply scale_pos; lia).
  assert (0 < scale ey) as Hsey by (apply scale_pos; lia).
  assert (0 < Zpos m * scale e) as Hvx by (apply Z.mul_pos_pos; lia).
  assert (0 < Zpos my * scale ey) as Hvy by (apply Z.mul_pos_pos; lia).
  change (cond_Zopp true (Zpos ?b)) with (Zneg b).
  set (ax := fst (shl_align m e ez)) in *.
  set (ay := fst (shl_align my ey ez)) in *.
  clearbody ax ay.
  destruct s.
  - (* x < 0: the magnitudes add *)
    change (cond_Zopp true (Zpos ax) + Zneg ay) with (Zneg (ax + ay)).
    unfold binary_normalize.
    destruct (binary_round_spec true (ax + ay) ez ltac:(lia)) as (W & (_ & _ & Hlo) & Hres).
    assert (Zpos (ax + ay) * scale ez = Zpos m * scale e + Zpos my * scale ey) as HX
      by (rewrite Pos2Z.inj_add, Z.mul_add_distr_r, Hax, Hay; reflexivity).
    pose proof (Hlo (Zpos m) e ltac:(lia) ltac:(lia) ltac:(lia)) as HW.
    destruct (binary_round prec emax true (ax + ay) ez) as [s'|s'| |s' m' e'];
      simpl in Hres.
    + lia.
    + destruct Hres as [-> _]. reflexivity.
    + contradiction.
    + destruct Hres as (-> & HW' & Hb'). unfold SFltb.
      rewrite (SFcompare_neg _ _ _ _ Hx Hb'). rewrite <- HW'.
      destruct (Z.compare_spec W (Zpos m * scale e)); try reflexivity. lia.
  - (* x > 0 *)
    change (cond_Zopp false (Zpos ax)) with (Zpos ax).
    replace (Zpos ax + Zneg ay) with (Zpos ax - Zpos ay) by lia.
    assert ((Zpos ax - Zpos ay) * scale ez = Zpos m * scale e - Zpos my * scale ey) as HX
      by (rewrite Z.mul_sub_distr_r, Hax, Hay; reflexivity).
    destruct (Zpos ax - Zpos ay) as [|p|p]; unfold binary_normalize.
    + reflexivity.
    + destruct (binary_round_spec false p ez ltac:(lia)) as (W & (_ & Hup & _) & Hres).
      pose proof (Hup (Zpos m) e ltac:(lia) ltac:(lia) ltac:(lia)) as HW.
      pose proof (pos_float_below_max _ _ Hpx) as Hmax.
      destruct (binary_round prec emax false p ez) as [s'|s'| |s' m' e'];
        simpl in Hres.
      * reflexivity.
      * lia.
      * contradiction.
      * destruct Hres as (-> & HW' & Hb').
        assert (pos_float (S754_finite false m' e') W) as Hr by (exists m', e'; auto).
        destruct (SFltb _ _) eqn:Hlt; [|reflexivity].
        apply (SFltb_pos _ _ _ _ Hpx Hr) in Hlt. lia.
    + destruct (binary_round_spec true p ez ltac:(lia)) as (W & _ & Hres).
      destruct (binary_round prec emax true p ez) as [s'|s'| |s' m' e'];
        simpl in Hres.
      * reflexivity.
      * destruct Hres as [-> _]. reflexivity.
      * contradiction.
      * destruct Hres as (-> & _). reflexivity.
Qed.

Lemma add_negative_no_increase (t d : float) :
  (d <? 0)%float = true -> (t <? t + d)%float = false.
Proof.
  intros Hd. rewrite FloatAxioms.ltb_spec in Hd |- *. rewrite FloatAxioms.add_spec.
  apply SFadd_negative; [apply Prim2SF_valid..|exact Hd].
Qed.

Lemma ltb_irrefl (t : float) : (t <? t)%float = false.
Proof. rewrite FloatAxioms.ltb_spec. apply SFltb_irrefl. Qed.

End Cooling.

(** ** Binary64 facts *)

Section FloatFacts.

Lemma SF2Prim_Prim2SF_eq (x : float) (v : spec_float) :
  Prim2SF x = v -> x = SF2Prim v.
Proof. intros <-. symmetry. apply SF2Prim_Prim2SF. Qed.

(** Zero times a finite number is a zero. *)
Lemma mul_zero_finite (c : float) :
  PyFloat.is_finite c = true -> (0 * c = 0 \/ 0 * c = -0)%float.
Proof.
  unfold PyFloat.is_finite. intros Hc.
  assert (Prim2SF (0 * c) = S754_zero false \/ Prim2SF (0 * c) = S754_zero true)
    as [Hz|Hz].
  { rewrite mul_spec.
    replace (Prim2SF 0) with (S754_zero false) by (vm_compute; reflexivity).
    destruct (Prim2SF c) as [[|]|[|]| |[|] m e]; try discriminate; simpl; auto. }
  - left. now rewrite (SF2Prim_Prim2SF_eq _ _ Hz).
  - right. now rewrite (SF2Prim_Prim2SF_eq _ _ Hz).
Qed.

End FloatFacts.

(** ** Construction *)

Section Construction.

Lemma shape_uniform (W H : Z) (v : float) : Nd.shape W H (uniform W H v).
Proof.
  unfold uniform. split.
  - apply length_replicate.
  - apply Forall_replicate, length_replicate.
Qed.

Lemma getitem_uniform (W H : Z) (v : float) (i j : Z) :
  0 <= i < W -> 0 <= j < H -> Nd.getitem (uniform W H v) i j = Ok v.
Proof.
  intros Hi Hj.
  destruct (getitem_lookup _ _ _ _ _ (shape_uniform W H v) Hi Hj) as (t & Hg & Hat).
  rewrite Hg. f_equal. unfold Nd.at_, uniform in Hat.
  rewrite lookup_replicate_2 in Hat by lia. simpl in Hat.
  rewrite lookup_replicate_2 in Hat by lia. congruence.
Qed.

Lemma init_spec (gs : Z * Z) (lat0 lon0 : float) (h : gmap loc ndarray) (w : world) :
  ClimateSimulator_init gs lat0 lon0 h = Ok w ->
  wf w /\
  grid_width (self w) = fst gs /\ grid_height (self w) = snd gs /\
  base_lat (self w) = lat0 /\ base_lon (self w) = lon0 /\
  interventions (self w) = [] /\
  heap w !! base_temp (self w) = Some (uniform (fst gs) (snd gs) 30) /\
  heap w !! base_wind_u (self w) = Some (uniform (fst gs) (snd gs) 2) /\
  heap w !! base_wind_v (self w) = Some (uniform (fst gs) (snd gs) 1) /\
  heap w !! current_temp (self w) = Some (uniform (fst gs) (snd gs) 30) /\
  heap w !! current_wind_u (self w) = Some (uniform (fst gs) (snd gs) 2) /\
  heap w !! current_wind_v (self w) = Some (uniform (fst gs) (snd gs) 1).
Proof.
  destruct gs as [W H]. unfold ClimateSimulator_init, Nd.full, mbind, result_bind.
  destruct ((W <? 0) || (H <? 0)); [discriminate|].
  fold (uniform W H 30) (uniform W H 2) (uniform W H 1).
  set (l1 := fresh (dom h)). set (h1 := <[l1 := uniform W H 30]> h).
  set (l2 := fresh (dom h1)). set (h2 := <[l2 := uniform W H 2]> h1).
  set (l3 := fresh (dom h2)). set (h3 := <[l3 := uniform W H 1]> h2).
  set (l4 := fresh (dom h3)). set (h4 := <[l4 := uniform W H 30]> h3).
  set (l5 := fresh (dom h4)). set (h5 := <[l5 := uniform W H 2]> h4).
  set (l6 := fresh (dom h5)). set (h6 := <[l6 := uniform W H 1]> h5).
  intros [= <-]. simpl.
  assert (l2 ∉ dom h1) as F2 by apply is_fresh.
  assert (l3 ∉ dom h2) as F3 by apply is_fresh.
  assert (l4 ∉ dom h3) as F4 by apply is_fresh.
  assert (l5 ∉ dom h4) as F5 by apply is_fresh.
  assert (l6 ∉ dom h5) as F6 by apply is_fresh.
  unfold h5 in F6. unfold h4 in F5, F6. unfold h3 in F4, F5, F6.
  unfold h2 in F3, F4, F5, F6. unfold h1 in F2, F3, F4, F5, F6.
  rewrite !dom_insert_L in *.
  assert (l2 <> l1 /\ l3 <> l1 /\ l3 <> l2 /\ l4 <> l1 /\ l4 <> l2 /\ l4 <> l3 /\
          l5 <> l1 /\ l5 <> l2 /\ l5 <> l3 /\ l5 <> l4 /\
          l6 <> l1 /\ l6 <> l2 /\ l6 <> l3 /\ l6 <> l4 /\ l6 <> l5)
    as (N21 & N31 & N32 & N41 & N42 & N43 & N51 & N52 & N53 & N54 &
        N61 & N62 & N63 & N64 & N65) by set_solver.
  assert (h6 !! l1 = Some (uniform W H 30)) as E1.
  { unfold h6, h5, h4, h3, h2, h1.
    rewrite !lookup_insert_ne by congruence. apply lookup_insert_eq. }
  assert (h6 !! l2 = Some (uniform W H 2)) as E2.
  { unfold h6, h5, h4, h3, h2.
    rewrite !lookup_insert_ne by congruence. apply lookup_insert_eq. }
  assert (h6 !! l3 = Some (uniform W H 1)) as E3.
  { unfold h6, h5, h4, h3.
    rewrite !lookup_insert_ne by congruence. apply lookup_insert_eq. }
  assert (h6 !! l4 = Some (uniform W H 30)) as E4.
  { unfold h6, h5, h4.
    rewrite !lookup_insert_ne by congruence. apply lookup_insert_eq. }
  assert (h6 !! l5 = Some (uniform W H 2)) as E5.
  { unfold h6, h5.
    rewrite !lookup_insert_ne by congruence. apply lookup_insert_eq. }
  assert (h6 !! l6 = Some (uniform W H 1)) as E6.
  { unfold h6. apply lookup_insert_eq. }
  split; [|tauto].
  split; simpl.
  - unfold array_locs. simpl.
    repeat (apply NoDup_cons; split; [rewrite ?elem_of_cons, elem_of_nil; intuition congruence|]).
    apply NoDup_nil_2.
  - intros l Hl. unfold array_locs in Hl. simpl in Hl.
    repeat (apply elem_of_cons in Hl as [->|Hl];
            [eexists; split; [eassumption|apply shape_uniform]|]).
    inversion Hl.
Qed.

End Construction.

(** ** Effects of [apply_intervention] *)

Section ApplyIntervention.
Context {np : NumPy}.

Lemma modifies_array_at L (w w' : world) (l : loc) (i j : Z) :
  modifies L w w' -> l ∉ L -> array_at w' l i j = array_at w l i j.
Proof.
  intros [Hf _] Hl. unfold array_at.
  rewrite !lookup_total_alt, Hf by assumption. reflexivity.
Qed.

Lemma frame_apply_temperature_effect (s : ClimateSimulator) (action_type : string)
    (x y : Z) :
  frame [current_temp s] (apply_temperature_effect s action_type x y).
Proof.
  unfold apply_temperature_effect.
  destruct (TEMP_COEFFICIENTS !! action_type) as [impact|].
  - apply frame_bind; [apply frame_modify|]. intros _.
    unfold propagate_heat_effect. apply frame_for. intros [dx dy].
    destruct ((dx =? 0) && (dy =? 0)); [apply pure_frame, pure_ret|].
    destruct (in_grid s (x + dx) (y + dy)).
    + apply frame_modify.
    + apply pure_frame, pure_ret.
  - apply pure_frame, pure_ret.
Qed.

(** Whatever a call returns or raises, it keeps the simulator's
    attributes except the history, to which it appends at most its own
    record, and it writes only to the three current arrays. *)
Lemma apply_intervention_frame (w : world) (action_type : string) (lat lon : float) :
  let w' := snd (apply_intervention action_type lat lon w) in
  (self w' = self w \/
   exists x y, latlon_to_grid (self w) lat lon = Ok (x, y) /\
     self w' = with_intervention (self w) (record_of action_type lat lon x y)) /\
  modifies (current_locs (self w)) w w'.
Proof.
  destruct (latlon_to_grid (self w) lat lon) as [[x y]|e] eqn:Hxy.
  2:{ rewrite (apply_intervention_unresolved _ _ _ _ _ Hxy). simpl.
      split; [now left|apply modifies_refl]. }
  cbv zeta. rewrite (apply_intervention_resolved _ _ _ _ _ _ Hxy).
  set (w1 := {| self := with_intervention (self w) (record_of action_type lat lon x y);
                heap := heap w |}).
  assert (frame (current_locs (self w))
            (apply_temperature_effect (self w) action_type x y;;
             apply_wind_effect (self w) action_type x y;; get_state)) as Hfr.
  { apply frame_bind.
    - eapply frame_weaken; [|apply frame_apply_temperature_effect].
      intros l ->%list_elem_of_singleton. unfold current_locs. repeat constructor.
    - intros _. apply frame_bind.
      + eapply frame_weaken; [|apply frame_apply_wind_effect].
        intros l Hl. unfold current_locs. right. exact Hl.
      + intros _. apply pure_frame, pure_get_state. }
  destruct (Hfr w1) as [Hself Hmod]. split.
  - right. exists x, y. split; [reflexivity|]. exact Hself.
  - destruct Hmod as [Hf Hs]. split; [exact Hf|exact Hs].
Qed.

Lemma wf_frame (w w' : world) :
  wf w -> array_locs (self w') = array_locs (self w) ->
  grid_width (self w') = grid_width (self w) ->
  grid_height (self w') = grid_height (self w) ->
  (forall l a, heap w !! l = Some a ->
     exists a', heap w' !! l = Some a' /\
                forall W H, Nd.shape W H a -> Nd.shape W H a') ->
  wf w'.
Proof.
  intros [Hd Hs] Hlocs HW HH Hkeep. split.
  - now rewrite Hlocs.
  - rewrite Hlocs, HW, HH. intros l Hl.
    destruct (Hs l Hl) as (a & Ha & Hsh).
    destruct (Hkeep l a Ha) as (a' & Ha' & Hsh'). eauto.
Qed.

Lemma wf_apply_intervention (w : world) (action_type : string) (lat lon : float) :
  wf w -> wf (snd (apply_intervention action_type lat lon w)).
Proof.
  intros Hwf.
  destruct (apply_intervention_frame w action_type lat lon) as [Hself [_ Hkeep]].
  apply (wf_frame w); auto;
    destruct Hself as [->|(x & y & _ & ->)]; reflexivity.
Qed.

Lemma wf_shaped (w : world) : wf w -> shaped (self w) w.
Proof. intros Hwf l Hl. now apply wf_lookup. Qed.

Lemma current_temp_not_wind (w : world) :
  wf w -> current_temp (self w) ∉ [current_wind_u (self w); current_wind_v (self w)].
Proof.
  intros [Hd _]. unfold array_locs in Hd.
  rewrite !NoDup_cons in Hd. rewrite !not_elem_of_cons in *. tauto.
Qed.

(** The temperature field after a call that resolves to [(x, y)]. *)
Lemma temperature_after_call (w : world) (action_type : string) (lat lon : float)
    (x y i j : Z) (t : float) :
  wf w -> 1 <= grid_width (self w) -> 1 <= grid_height (self w) ->
  latlon_to_grid (self w) lat lon = Ok (x, y) ->
  0 <= i < grid_width (self w) -> 0 <= j < grid_height (self w) ->
  temperature w i j = Ok t ->
  temperature (snd (apply_intervention action_type lat lon w)) i j
  = Ok (temperature_change_of (self w) action_type x y (current_temp (self w)) i j t).
Proof.
  intros Hwf HW HH Hxy Hi Hj Ht.
  pose proof (wf_shaped _ Hwf) as Hs.
  rewrite (apply_intervention_world _ _ _ _ _ _ Hs HW HH Hxy).
  set (wt := after_temperature w action_type lat lon x y).
  destruct (frame_apply_wind_effect (self w) action_type x y wt) as [Hself Hmod].
  unfold temperature. rewrite Hself. unfold wt at 2, after_temperature. simpl.
  rewrite (modifies_array_at _ _ _ _ _ _ Hmod) by now apply current_temp_not_wind.
  destruct (Hs _ (current_temp_loc (self w))) as (a & Ha & Hsh).
  unfold wt, after_temperature.
  eapply array_at_transform; eauto.
Qed.

End ApplyIntervention.

(** ** C1: the temperature effect of an intervention *)

Section TemperatureEffect.
Context {np : NumPy}.

Lemma coefficient_cases (action_type : string) (d : float) :
  TEMP_COEFFICIENTS !! action_type = Some d ->
  (d = -2.0 \/ d = -3.0 \/ d = 1.0 \/ d = 2.5 \/ d = 1.5)%float.
Proof.
  intros Hd. apply elem_of_list_to_map_2 in Hd.
  repeat (apply elem_of_cons in Hd as [[= _ ->]|Hd]; [tauto|]).
  inversion Hd.
Qed.

Lemma heat_amount_close (action_type : string) (d : float) (dx dy : Z) :
  TEMP_COEFFICIENTS !! action_type = Some d ->
  -2 <= dx <= 2 -> -2 <= dy <= 2 ->
  exists q, ideal_amount d dx dy = Some q /\
            close_to (heat_amount d dx dy) q = true.
Proof.
  intros Hd Hx Hy. apply coefficient_cases in Hd.
  assert (dx = -2 \/ dx = -1 \/ dx = 0 \/ dx = 1 \/ dx = 2) as Hdx by lia.
  assert (dy = -2 \/ dy = -1 \/ dy = 0 \/ dy = 1 \/ dy = 2) as Hdy by lia.
  destruct Hd as [->|[->|[->|[->| ->]]]];
    destruct Hdx as [->|[->|[->|[->| ->]]]];
    destruct Hdy as [->|[->|[->|[->| ->]]]];
    (eexists; split; [vm_compute; reflexivity|vm_compute; reflexivity]).
Qed.

Lemma temperature_effect (w : world) (action_type : string) (d lat lon : float)
    (x y i j : Z) (t : float) :
  wf w -> 1 <= grid_width (self w) -> 1 <= grid_height (self w) ->
  TEMP_COEFFICIENTS !! action_type = Some d ->
  latlon_to_grid (self w) lat lon = Ok (x, y) ->
  0 <= i < grid_width (self w) -> 0 <= j < grid_height (self w) ->
  temperature w i j = Ok t ->
  temperature (snd (apply_intervention action_type lat lon w)) i j
  = Ok (if decide ((i, j) = (x, y)) then (t + d)%float
        else if decide (-2 <= i - x <= 2 /\ -2 <= j - y <= 2)
             then (t + heat_amount d (i - x) (j - y))%float
             else t).
Proof.
  intros Hwf HW HH Hd Hxy Hi Hj Ht.
  rewrite (temperature_after_call _ _ _ _ _ _ _ _ _ Hwf HW HH Hxy Hi Hj Ht).
  f_equal. unfold temperature_change_of. rewrite Hd.
  destruct (decide ((i, j) = (x, y))) as [[= -> ->]|Hne].
  - apply temperature_change_centre.
  - destruct (decide (-2 <= i - x <= 2 /\ -2 <= j - y <= 2)) as [[Hx Hy]|Hfar].
    + replace i with (x + (i - x)) at 1 by lia.
      replace j with (y + (j - y)) at 1 by lia.
      apply temperature_change_neighbour; auto.
      * intros [= ? ?]. apply Hne. f_equal; lia.
      * apply in_grid_spec. lia.
    + now apply temperature_change_far.
Qed.

Lemma latlon_centre (s : ClimateSimulator) :
  grid_width s = 50 -> grid_height s = 50 ->
  base_lat s = 52.48%float -> base_lon s = 13.43%float ->
  PyFloat.is_finite (np_cos (np_radians 52.48)) = true ->
  latlon_to_grid s 52.48 13.43 = Ok (25, 25).
Proof.
  intros HW HH Hlat Hlon Hc. unfold latlon_to_grid.
  rewrite HW, HH, Hlat, Hlon.
  replace ((13.43 - 13.43) * 111000)%float with 0%float by (vm_compute; reflexivity).
  destruct (mul_zero_finite _ Hc) as [-> | ->]; vm_compute; reflexivity.
Qed.

Lemma temperature_initial (gs : Z * Z) (lat0 lon0 : float) (h : gmap loc ndarray)
    (w : world) (i j : Z) :
  ClimateSimulator_init gs lat0 lon0 h = Ok w ->
  0 <= i < fst gs -> 0 <= j < snd gs ->
  temperature w i j = Ok 30%float.
Proof.
  intros Hinit Hi Hj.
  destruct (init_spec _ _ _ _ _ Hinit) as (_ & _ & _ & _ & _ & _ & _ & _ & _ & Hct & _).
  unfold temperature. rewrite (array_at_lookup _ _ _ _ _ Hct).
  now apply getitem_uniform.
Qed.

(** C1. The five coefficients are those of the table; a call of a type
    with coefficient [d] at a coordinate resolving to [(x, y)] adds [d]
    to the temperature at [(x, y)], adds [impact * damping * 0.5]
    ([heat_amount], within one rounding of [d * 0.5 / (1 + dx^2 + dy^2)])
    at every in-grid cell of the 5x5 neighbourhood, and leaves every
    other cell; on the default 50x50 simulator ADD_PARK at the centre
    resolves to (25, 25) and leaves 28.0 there and 29.5 at (26, 25).
    Additions are binary64 additions, as [+=] computes them. *)
Theorem C1_temperature_effect :
  (TEMP_COEFFICIENTS !! "ADD_PARK"%string = Some (-2.0)%float /\
   TEMP_COEFFICIENTS !! "ADD_WATER"%string = Some (-3.0)%float /\
   TEMP_COEFFICIENTS !! "REMOVE_ASPHALT"%string = Some 1.0%float /\
   TEMP_COEFFICIENTS !! "ADD_ASPHALT"%string = Some 2.5%float /\
   TEMP_COEFFICIENTS !! "ADD_BUILDING"%string = Some 1.5%float /\
   TEMP_COEFFICIENTS !! "REMOVE_BUILDING"%string = None) /\
  (forall (w : world) (action_type : string) (d lat lon : float) (x y : Z),
     wf w -> 1 <= grid_width (self w) -> 1 <= grid_height (self w) ->
     TEMP_COEFFICIENTS !! action_type = Some d ->
     latlon_to_grid (self w) lat lon = Ok (x, y) ->
     forall (i j : Z) (t : float),
       0 <= i < grid_width (self w) -> 0 <= j < grid_height (self w) ->
       temperature w i j = Ok t ->
       temperature (snd (apply_intervention action_type lat lon w)) i j
       = Ok (if decide ((i, j) = (x, y)) then (t + d)%float
             else if decide (-2 <= i - x <= 2 /\ -2 <= j - y <= 2)
                  then (t + heat_amount d (i - x) (j - y))%float
                  else t)) /\
  (forall (action_type : string) (d : float) (dx dy : Z),
     TEMP_COEFFICIENTS !! action_type = Some d ->
     -2 <= dx <= 2 -> -2 <= dy <= 2 ->
     exists q, ideal_amount d dx dy = Some q /\
               close_to (heat_amount d dx dy) q = true) /\
  (forall (h : gmap loc ndarray) (w0 : world),
     PyFloat.is_finite (np_cos (np_radians 52.48)) = true ->
     ClimateSimulator_init (50, 50) 52.48 13.43 h = Ok w0 ->
     latlon_to_grid (self w0) 52.48 13.43 = Ok (25, 25) /\
     temperature (snd (apply_intervention "ADD_PARK" 52.48 13.43 w0)) 25 25
     = Ok 28.0%float /\
     temperature (snd (apply_intervention "ADD_PARK" 52.48 13.43 w0)) 26 25
     = Ok 29.5%float).
Proof.
  split; [repeat split; vm_compute; reflexivity|].
  split; [intros; now apply temperature_effect|].
  split; [apply heat_amount_close|].
  intros h w0 Hc Hinit.
  destruct (init_spec _ _ _ _ _ Hinit) as (Hwf & HW & HH & Hlat & Hlon & _).
  simpl in HW, HH.
  assert (latlon_to_grid (self w0) 52.48 13.43 = Ok (25, 25)) as Hxy
    by now apply latlon_centre.
  assert (TEMP_COEFFICIENTS !! "ADD_PARK"%string = Some (-2.0)%float) as Hd
    by (vm_compute; reflexivity).
  split; [exact Hxy|]. split.
  - rewrite (temperature_effect w0 _ _ _ _ 25 25 25 25 30 Hwf) by
      (rewrite ?HW, ?HH; auto; try lia;
       apply (temperature_initial _ _ _ _ _ _ _ Hinit); simpl; lia).
    vm_compute. reflexivity.
  - rewrite (temperature_effect w0 _ _ _ _ 25 25 26 25 30 Hwf) by
      (rewrite ?HW, ?HH; auto; try lia;
       apply (temperature_initial _ _ _ _ _ _ _ Hinit); simpl; lia).
    vm_compute. reflexivity.
Qed.

End TemperatureEffect.

(** C1 at the server's simulator, with the sample NumPy instance. *)
Lemma C1_temperature_effect_witness :
  exists w0, server_simulator = Ok w0 /\
    latlon_to_grid (np := sample_numpy) (self w0) 52.48 13.43 = Ok (25, 25) /\
    temperature (snd (apply_intervention (np := sample_numpy) "ADD_PARK" 52.48 13.43 w0)) 25 25
    = Ok 28.0%float /\
    temperature (snd (apply_intervention (np := sample_numpy) "ADD_PARK" 52.48 13.43 w0)) 26 25
    = Ok 29.5%float.
Proof.
  eexists. split; [vm_compute; reflexivity|].
  apply (proj2 (proj2 (proj2 (C1_temperature_effect (np := sample_numpy)))) ∅).
  - vm_compute. reflexivity.
  - vm_compute. reflexivity.
Defined.

(** ** C7 and C10: repeated calls, and calls of an unknown type *)

Section Calls.
Context {np : NumPy}.

(** A call that resolves appends its record and keeps every other
    attribute, whatever it returns or raises afterwards. *)
Lemma apply_intervention_self (w : world) (action_type : string)
    (lat lon : float) (x y : Z) :
  latlon_to_grid (self w) lat lon = Ok (x, y) ->
  self (snd (apply_intervention action_type lat lon w))
  = with_intervention (self w) (record_of action_type lat lon x y).
Proof.
  intros Hxy.
  destruct (apply_intervention_frame w action_type lat lon)
    as [[Hself|(x' & y' & Hxy' & Hself)] _].
  - rewrite (apply_intervention_resolved _ _ _ _ _ _ Hxy) in *.
    assert (frame (current_locs (self w))
              (apply_temperature_effect (self w) action_type x y;;
               apply_wind_effect (self w) action_type x y;; get_state)) as Hfr.
    { apply frame_bind.
      - eapply frame_weaken; [|apply frame_apply_temperature_effect].
        intros l ->%list_elem_of_singleton. unfold current_locs. repeat constructor.
      - intros _. apply frame_bind.
        + eapply frame_weaken; [|apply frame_apply_wind_effect].
          intros l Hl. unfold current_locs. right. exact Hl.
        + intros _. apply pure_frame, pure_get_state. }
    apply Hfr.
  - congruence.
Qed.

Lemma latlon_to_grid_with_intervention (s : ClimateSimulator) (r : Intervention)
    (lat lon : float) :
  latlon_to_grid (with_intervention s r) lat lon = latlon_to_grid s lat lon.
Proof. reflexivity. Qed.

(** C7. Two ADD_BUILDING calls at one coordinate resolve to the same
    cell and each adds 1.5 to its temperature: after the second the cell
    holds [(t + 1.5) + 1.5], and the history holds both records, so the
    call is not idempotent; on the server's fresh simulator the centre
    goes from 30.0 to 31.5 to 33.0, that is 30.0 + 3.0. *)
Theorem C7_add_building_twice :
  (forall (w : world) (lat lon : float) (x y : Z) (t : float),
     wf w -> 1 <= grid_width (self w) -> 1 <= grid_height (self w) ->
     latlon_to_grid (self w) lat lon = Ok (x, y) ->
     temperature w x y = Ok t ->
     let w1 := snd (apply_intervention "ADD_BUILDING" lat lon w) in
     let w2 := snd (apply_intervention "ADD_BUILDING" lat lon w1) in
     latlon_to_grid (self w1) lat lon = Ok (x, y) /\
     temperature w1 x y = Ok (t + 1.5)%float /\
     temperature w2 x y = Ok (t + 1.5 + 1.5)%float /\
     interventions (self w2)
     = interventions (self w) ++ [record_of "ADD_BUILDING" lat lon x y;
                                  record_of "ADD_BUILDING" lat lon x y]) /\
  (forall (h : gmap loc ndarray) (w0 : world),
     PyFloat.is_finite (np_cos (np_radians 52.48)) = true ->
     ClimateSimulator_init (50, 50) 52.48 13.43 h = Ok w0 ->
     let w1 := snd (apply_intervention "ADD_BUILDING" 52.48 13.43 w0) in
     let w2 := snd (apply_intervention "ADD_BUILDING" 52.48 13.43 w1) in
     temperature w0 25 25 = Ok 30.0%float /\
     temperature w1 25 25 = Ok 31.5%float /\
     temperature w2 25 25 = Ok 33.0%float /\
     (30.0 + 3.0 = 33.0)%float).
Proof.
  assert (forall (w : world) (lat lon : float) (x y : Z) (t : float),
     wf w -> 1 <= grid_width (self w) -> 1 <= grid_height (self w) ->
     latlon_to_grid (self w) lat lon = Ok (x, y) ->
     temperature w x y = Ok t ->
     let w1 := snd (apply_intervention "ADD_BUILDING" lat lon w) in
     let w2 := snd (apply_intervention "ADD_BUILDING" lat lon w1) in
     latlon_to_grid (self w1) lat lon = Ok (x, y) /\
     temperature w1 x y = Ok (t + 1.5)%float /\
     temperature w2 x y = Ok (t + 1.5 + 1.5)%float /\
     interventions (self w2)
     = interventions (self w) ++ [record_of "ADD_BUILDING" lat lon x y;
                                  record_of "ADD_BUILDING" lat lon x y]) as Hgen.
  { intros w lat lon x y t Hwf HW HH Hxy Ht w1 w2.
    assert (TEMP_COEFFICIENTS !! "ADD_BUILDING"%string = Some 1.5%float) as Hd
      by (vm_compute; reflexivity).
    destruct (latlon_to_grid_bounds _ _ _ _ _ HW HH Hxy) as [Hx Hy].
    assert (self w1 = with_intervention (self w) (record_of "ADD_BUILDING" lat lon x y))
      as Hs1 by now apply apply_intervention_self.
    assert (latlon_to_grid (self w1) lat lon = Ok (x, y)) as Hxy1
      by now rewrite Hs1, latlon_to_grid_with_intervention.
    assert (wf w1) as Hwf1 by now apply wf_apply_intervention.
    assert (temperature w1 x y = Ok (t + 1.5)%float) as Ht1.
    { unfold w1.
      rewrite (temperature_effect w _ _ _ _ x y x y t Hwf HW HH Hd Hxy) by (auto; lia).
      now rewrite decide_True. }
    assert (grid_width (self w1) = grid_width (self w)) as HW1 by now rewrite Hs1.
    assert (grid_height (self w1) = grid_height (self w)) as HH1 by now rewrite Hs1.
    split; [exact Hxy1|]. split; [exact Ht1|]. split.
    - unfold w2.
      assert (1 <= grid_width (self w1)) as HW1' by lia.
      assert (1 <= grid_height (self w1)) as HH1' by lia.
      rewrite (temperature_effect w1 _ _ _ _ x y x y (t + 1.5)%float
                 Hwf1 HW1' HH1' Hd Hxy1) by (auto; lia).
      now rewrite decide_True.
    - unfold w2. rewrite (apply_intervention_self _ _ _ _ _ _ Hxy1), Hs1. simpl.
      now rewrite <- app_assoc. }
  split; [exact Hgen|].
  intros h w0 Hc Hinit w1 w2.
  destruct (init_spec _ _ _ _ _ Hinit) as (Hwf & HW & HH & Hlat & Hlon & _).
  simpl in HW, HH.
  assert (latlon_to_grid (self w0) 52.48 13.43 = Ok (25, 25)) as Hxy
    by now apply latlon_centre.
  assert (temperature w0 25 25 = Ok 30%float) as Ht
    by (apply (temperature_initial _ _ _ _ _ _ _ Hinit); simpl; lia).
  assert (1 <= grid_width (self w0)) as HW' by lia.
  assert (1 <= grid_height (self w0)) as HH' by lia.
  destruct (Hgen w0 52.48%float 13.43%float 25 25 30%float Hwf HW' HH' Hxy Ht)
    as (_ & H1 & H2 & _).
  split; [exact Ht|]. split; [exact H1|]. split; [exact H2|].
  vm_compute. reflexivity.
Qed.

(** A call of a type that has no coefficient and is neither
    ADD_BUILDING nor REMOVE_BUILDING is [get_state] after the append. *)
Lemma apply_intervention_unknown (w : world) (action_type : string)
    (lat lon : float) (x y : Z) :
  latlon_to_grid (self w) lat lon = Ok (x, y) ->
  TEMP_COEFFICIENTS !! action_type = None ->
  String.eqb action_type "ADD_BUILDING" = false ->
  String.eqb action_type "REMOVE_BUILDING" = false ->
  apply_intervention action_type lat lon w
  = get_state {| self := with_intervention (self w) (record_of action_type lat lon x y);
                 heap := heap w |}.
Proof.
  intros Hxy Hd Hadd Hrem.
  rewrite (apply_intervention_resolved _ _ _ _ _ _ Hxy).
  unfold mbind at 1, M_bind at 1.
  rewrite apply_temperature_effect_none by assumption.
  unfold mbind at 1, M_bind at 1.
  unfold apply_wind_effect. rewrite Hadd, Hrem. reflexivity.
Qed.

End Calls.

(** ** C4: ADD_WATER cools *)

Section AddWater.
Context {np : NumPy}.

Lemma water_amount_negative (dx dy : Z) :
  -2 <= dx <= 2 -> -2 <= dy <= 2 ->
  (heat_amount (-3.0) dx dy <? 0)%float = true.
Proof.
  intros Hx Hy.
  assert (dx = -2 \/ dx = -1 \/ dx = 0 \/ dx = 1 \/ dx = 2) as Hdx by lia.
  assert (dy = -2 \/ dy = -1 \/ dy = 0 \/ dy = 1 \/ dy = 2) as Hdy by lia.
  destruct Hdx as [->|[->|[->|[->| ->]]]];
    destruct Hdy as [->|[->|[->|[->| ->]]]]; vm_compute; reflexivity.
Qed.

Lemma add_water_split (w : world) (lat lon : float) (x y : Z) :
  wf w -> 1 <= grid_width (self w) -> 1 <= grid_height (self w) ->
  latlon_to_grid (self w) lat lon = Ok (x, y) ->
  let w1 := {| self := with_intervention (self w) (record_of "ADD_WATER" lat lon x y);
               heap := heap w |} in
  let w2 := snd (iadd (current_temp (self w)) x y (-3.0) w1) in
  snd (apply_intervention "ADD_WATER" lat lon w)
  = snd (propagate_heat_effect (self w) (current_temp (self w)) x y (-3.0) w2).
Proof.
  intros Hwf HW HH Hxy w1 w2.
  destruct (latlon_to_grid_bounds _ _ _ _ _ HW HH Hxy) as [Hx Hy].
  rewrite (apply_intervention_resolved _ _ _ _ _ _ Hxy). fold w1.
  assert (shaped (self w) w1) as Hs1 by (apply (wf_shaped _ Hwf)).
  destruct (Hs1 _ (current_temp_loc (self w))) as (a & Ha & Hsh).
  assert (0 <= x < grid_width (self w)) as Hx' by lia.
  assert (0 <= y < grid_height (self w)) as Hy' by lia.
  pose proof (iadd_transform _ _ w1 _ _ _ _ (-3.0)%float Ha Hsh Hx' Hy') as Hiadd.
  unfold apply_temperature_effect.
  replace (TEMP_COEFFICIENTS !! "ADD_WATER"%string) with (Some (-3.0)%float)
    by (vm_compute; reflexivity).
  unfold apply_wind_effect.
  replace (String.eqb "ADD_WATER" "ADD_BUILDING") with false by reflexivity.
  replace (String.eqb "ADD_WATER" "REMOVE_BUILDING") with false by reflexivity.
  unfold w2. rewrite Hiadd.
  unfold mbind at 1, M_bind at 1. unfold mbind at 1, M_bind at 1.
  rewrite Hiadd. simpl snd.
  rewrite propagate_heat_effect_transform by now apply shaped_transform.
  unfold mbind, M_bind. simpl. apply pure_get_state.
Qed.

(** C4. ADD_WATER has coefficient -3.0 and every amount propagated to
    the 5x5 neighbourhood is strictly negative. At a coordinate
    resolving to [(x, y)], the centre update leaves [t + (-3.0)] at
    [(x, y)] before the propagation runs, the propagation does not touch
    that cell, and every cell of the grid either keeps its temperature
    or receives a strictly negative amount; in both cases its new
    temperature is not above the old one, whatever float the old one
    is. *)
Theorem C4_add_water_cools :
  TEMP_COEFFICIENTS !! "ADD_WATER"%string = Some (-3.0)%float /\
  (-3.0 <? 0)%float = true /\
  (forall dx dy : Z, -2 <= dx <= 2 -> -2 <= dy <= 2 ->
     (heat_amount (-3.0) dx dy <? 0)%float = true) /\
  (forall (w : world) (lat lon : float) (x y : Z) (t : float),
     wf w -> 1 <= grid_width (self w) -> 1 <= grid_height (self w) ->
     latlon_to_grid (self w) lat lon = Ok (x, y) ->
     temperature w x y = Ok t ->
     let w1 := {| self := with_intervention (self w) (record_of "ADD_WATER" lat lon x y);
                  heap := heap w |} in
     let before_propagation := snd (iadd (current_temp (self w)) x y (-3.0) w1) in
     let w' := snd (apply_intervention "ADD_WATER" lat lon w) in
     temperature before_propagation x y = Ok (t + -3.0)%float /\
     w' = snd (propagate_heat_effect (self w) (current_temp (self w)) x y (-3.0)
                 before_propagation) /\
     temperature w' x y = Ok (t + -3.0)%float /\
     forall (i j : Z) (ti : float),
       0 <= i < grid_width (self w) -> 0 <= j < grid_height (self w) ->
       temperature w i j = Ok ti ->
       exists ti', temperature w' i j = Ok ti' /\
         (ti <? ti')%float = false /\
         (ti' = ti \/
          exists delta, (delta <? 0)%float = true /\ ti' = (ti + delta)%float)).
Proof.
  assert (TEMP_COEFFICIENTS !! "ADD_WATER"%string = Some (-3.0)%float) as Hd
    by (vm_compute; reflexivity).
  split; [exact Hd|]. split; [vm_compute; reflexivity|].
  split; [apply water_amount_negative|].
  intros w lat lon x y t Hwf HW HH Hxy Ht w1 w2 w'.
  destruct (latlon_to_grid_bounds _ _ _ _ _ HW HH Hxy) as [Hx Hy].
  assert (0 <= x < grid_width (self w)) as Hx' by lia.
  assert (0 <= y < grid_height (self w)) as Hy' by lia.
  split; [|split; [now apply add_water_split|split]].
  - assert (shaped (self w) w1) as Hs1 by (apply (wf_shaped _ Hwf)).
    destruct (Hs1 _ (current_temp_loc (self w))) as (a & Ha & Hsh).
    unfold w2. rewrite (iadd_transform _ _ w1 _ _ _ _ (-3.0)%float Ha Hsh Hx' Hy').
    simpl snd. unfold temperature. simpl self.
    rewrite (array_at_transform _ _ _ w1 _ a x y t Ha Hsh Hx' Hy') by exact Ht.
    now rewrite on_same, point_hit.
  - unfold w'.
    rewrite (temperature_effect w _ _ _ _ x y x y t Hwf HW HH Hd Hxy Hx' Hy' Ht).
    now rewrite decide_True.
  - intros i j ti Hi Hj Hti. unfold w'.
    rewrite (temperature_effect w _ _ _ _ x y i j ti Hwf HW HH Hd Hxy Hi Hj Hti).
    assert (forall delta, (delta <? 0)%float = true ->
              exists ti', Ok (ti + delta)%float = Ok ti' /\
                (ti <? ti')%float = false /\
                (ti' = ti \/
                 exists delta, (delta <? 0)%float = true /\ ti' = (ti + delta)%float))
      as Hcool.
    { intros delta Hneg. exists (ti + delta)%float. split; [reflexivity|].
      split; [now apply add_negative_no_increase|]. right. now exists delta. }
    destruct (decide ((i, j) = (x, y))).
    + apply Hcool. vm_compute. reflexivity.
    + destruct (decide (-2 <= i - x <= 2 /\ -2 <= j - y <= 2)) as [[Hdx Hdy]|].
      * apply Hcool. now apply water_amount_negative.
      * exists ti. split; [reflexivity|]. split; [apply ltb_irrefl|now left].
Qed.

End AddWater.

(** ** [get_state] on uniform fields *)

Section Snapshot.
Context {np : NumPy}.

Lemma py_range_bounds (n k z : Z) :
  0 < k -> z ∈ py_range 0 n k -> 0 <= z < n.
Proof.
  intros Hk Hz. unfold py_range in Hz.
  apply list_elem_of_fmap in Hz as (i & -> & Hi).
  apply elem_of_seq in Hi as [_ Hi]. simpl in Hi.
  assert (0 < (n - 0 + k - 1) / k) as Hpos by lia.
  assert (Z.of_nat i < (n - 0 + k - 1) / k) as Hlt by lia.
  assert (k * ((n - 0 + k - 1) / k) <= n - 0 + k - 1) as Hmul
    by (apply Z.mul_div_le; lia).
  nia.
Qed.

Lemma collect_ok {A B} (cells : list A) (body : A -> M B) (w : world) :
  (forall c, c ∈ cells -> exists b, body c w = (Ok b, w)) ->
  exists bs, collect cells body w = (Ok bs, w).
Proof.
  induction cells as [|c cells IH]; intros Hb; simpl.
  - eexists. reflexivity.
  - destruct (Hb c) as [b Hc]; [left|].
    destruct IH as [bs Hbs]; [intros c' Hc'; apply Hb; now right|].
    exists (b :: bs). unfold mbind, M_bind. now rewrite Hc, Hbs.
Qed.

Lemma argmax_from_const (v : float) (b i : nat) (l : list float) :
  (v <=? v)%float = true -> Forall (fun t => t = v) l ->
  Nd.argmax_from v b i l = b.
Proof.
  intros Hle Hall. revert i.
  induction Hall as [|t l -> _ IH]; intros i; simpl; [reflexivity|].
  destruct (is_nan v); [reflexivity|]. rewrite Hle. apply IH.
Qed.

Lemma flatten_uniform (W H : Z) (v : float) :
  1 <= W -> 1 <= H ->
  exists l, Nd.flatten (uniform W H v) = v :: l /\ Forall (fun t => t = v) l.
Proof.
  intros HW HH. unfold Nd.flatten, uniform.
  destruct (Z.to_nat W) as [|n] eqn:EW; [lia|].
  destruct (Z.to_nat H) as [|m] eqn:EH; [lia|].
  simpl. eexists. split; [reflexivity|].
  apply Forall_app. split.
  - apply Forall_replicate. reflexivity.
  - apply Forall_concat, Forall_replicate. constructor; [reflexivity|].
    apply Forall_replicate. reflexivity.
Qed.

Lemma argmax_uniform (W H : Z) (v : float) :
  1 <= W -> 1 <= H -> (v <=? v)%float = true ->
  Nd.argmax (uniform W H v) = Ok 0%nat.
Proof.
  intros HW HH Hle. unfold Nd.argmax.
  destruct (flatten_uniform W H v HW HH) as (l & -> & Hall).
  now rewrite argmax_from_const.
Qed.

Lemma unravel_zero (a : ndarray) : Nd.unravel_index 0 a = (0, 0).
Proof.
  unfold Nd.unravel_index.
  now rewrite Nat.Div0.div_0_l, Nat.Div0.mod_0_l.
Qed.

Lemma get_state_uniform (w : world) (tv uv vv uu vv2 : float) :
  1 <= grid_width (self w) -> 1 <= grid_height (self w) ->
  heap w !! current_temp (self w)
    = Some (uniform (grid_width (self w)) (grid_height (self w)) tv) ->
  heap w !! current_wind_u (self w)
    = Some (uniform (grid_width (self w)) (grid_height (self w)) uv) ->
  heap w !! current_wind_v (self w)
    = Some (uniform (grid_width (self w)) (grid_height (self w)) vv) ->
  PyFloat.pow2 uv = Ok uu -> PyFloat.pow2 vv = Ok vv2 ->
  (tv <=? tv)%float = true ->
  exists snap, get_state w = (Ok snap, w) /\
    snap_base_temp snap = np_mean (heap w !!! base_temp (self w)) /\
    snap_current_avg_temp snap
      = np_mean (uniform (grid_width (self w)) (grid_height (self w)) tv) /\
    snap_interventions snap = interventions (self w).
Proof.
  intros HW HH Hct Hcu Hcv Hu Hv Hle. unfold get_state.
  unfold mbind at 1, M_bind at 1. unfold get_self at 1.
  set (s := self w) in *.
  match goal with
  | |- context [collect ?cells ?body] =>
      destruct (collect_ok cells body w) as [samples Hsamples]
  end.
  { intros [x y] Hc.
    apply list_elem_of_bind in Hc as (x' & Hc & Hx).
    apply list_elem_of_bind in Hc as (y' & Hc & Hy).
    apply list_elem_of_singleton in Hc as [= <- <-].
    apply py_range_bounds in Hx; [|lia]. apply py_range_bounds in Hy; [|lia].
    destruct (grid_to_latlon s x y) as [lat lon].
    unfold mbind, M_bind. rewrite !getitem_eq.
    rewrite (array_at_lookup _ _ _ _ _ Hct), (array_at_lookup _ _ _ _ _ Hcu),
      (array_at_lookup _ _ _ _ _ Hcv).
    rewrite !getitem_uniform by assumption.
    unfold lift. rewrite Hu, Hv. eexists. reflexivity. }
  unfold mbind at 1, M_bind at 1. rewrite Hsamples.
  unfold mbind at 1, M_bind at 1. unfold load at 1.
  rewrite (lookup_total_correct _ _ _ Hct).
  unfold mbind at 1, M_bind at 1. unfold lift at 1.
  rewrite argmax_uniform by assumption.
  rewrite unravel_zero. cbn [fst snd].
  destruct (grid_to_latlon s 0 0) as [hlat hlon].
  unfold mbind at 1, M_bind at 1. unfold lift at 1.
  rewrite getitem_uniform by lia.
  unfold mbind at 1, M_bind at 1. unfold load at 1.
  eexists. split; [reflexivity|]. simpl. auto.
Qed.

End Snapshot.

(** ** [reset] and the reachable states *)

Section Reset.
Context {np : NumPy}.

Lemma reset_eq (w : world) : reset w = get_state (reset_world w).
Proof. reflexivity. Qed.

Lemma snd_reset (w : world) : snd (reset w) = reset_world w.
Proof. rewrite reset_eq. apply pure_get_state. Qed.

Lemma base_not_current (w : world) (l : loc) :
  wf w -> l ∈ [base_temp (self w); base_wind_u (self w); base_wind_v (self w)] ->
  l ∉ current_locs (self w).
Proof.
  intros [Hd _] Hl. unfold array_locs in Hd. unfold current_locs.
  rewrite !NoDup_cons in Hd. rewrite !not_elem_of_cons in *.
  rewrite !elem_of_cons in Hl. rewrite elem_of_nil in *.
  destruct Hd as ((? & ? & ? & ? & ? & _) & (? & ? & ? & ? & _) & (? & ? & ? & _) & _).
  destruct Hl as [->|[->|[->|[]]]]; repeat split; auto.
Qed.

Lemma reset_world_spec (w : world) :
  wf w ->
  let w' := reset_world w in
  wf w' /\ same_base w w' /\ interventions (self w') = [] /\
  heap w' !! current_temp (self w') = heap w !! base_temp (self w) /\
  heap w' !! current_wind_u (self w') = heap w !! base_wind_u (self w) /\
  heap w' !! current_wind_v (self w') = heap w !! base_wind_v (self w) /\
  (forall l, l ∈ dom (heap w) -> heap w' !! l = heap w !! l) /\
  (forall l, l ∈ current_locs (self w') -> l ∉ dom (heap w)).
Proof.
  intros Hwf. pose proof Hwf as [Hd Hs].
  destruct (Hs _ (base_temp_loc _)) as (bt & Hbt & Sbt).
  destruct (Hs _ (base_wind_u_loc _)) as (bu & Hbu & Sbu).
  destruct (Hs _ (base_wind_v_loc _)) as (bv & Hbv & Sbv).
  unfold reset_world. rewrite (lookup_total_correct _ _ _ Hbt).
  set (l1 := fresh (dom (heap w))).
  set (h1 := <[l1 := bt]> (heap w)).
  set (l2 := fresh (dom h1)).
  set (h2 := <[l2 := h1 !!! base_wind_u (self w)]> h1).
  set (l3 := fresh (dom h2)).
  set (h3 := <[l3 := h2 !!! base_wind_v (self w)]> h2).
  assert (l1 ∉ dom (heap w)) as F1 by apply is_fresh.
  assert (l2 ∉ dom h1) as F2 by apply is_fresh.
  assert (l3 ∉ dom h2) as F3 by apply is_fresh.
  unfold h2 in F3. unfold h1 in F2, F3. rewrite !dom_insert_L in *.
  assert (l2 ≠ l1 ∧ l3 ≠ l1 ∧ l3 ≠ l2 ∧ (l2 ∉ dom (heap w)) ∧ (l3 ∉ dom (heap w)))
    as (N21 & N31 & N32 & F2' & F3') by set_solver.
  assert (forall l, l ∈ dom (heap w) -> l1 ≠ l ∧ l2 ≠ l ∧ l3 ≠ l) as Hne.
  { intros l Hl. repeat split; intros ->; contradiction. }
  assert (forall l, l ∈ dom (heap w) -> h3 !! l = heap w !! l) as Hold.
  { intros l Hl. destruct (Hne l Hl) as (? & ? & ?). unfold h3, h2, h1.
    now rewrite !lookup_insert_ne by assumption. }
  assert (forall l a, heap w !! l = Some a -> l ∈ dom (heap w)) as Hdom.
  { intros l a Ha. apply elem_of_dom. eauto. }
  assert (h1 !!! base_wind_u (self w) = bu) as Ebu.
  { apply lookup_total_correct. unfold h1.
    destruct (Hne _ (Hdom _ _ Hbu)) as (? & ? & ?).
    now rewrite lookup_insert_ne by assumption. }
  assert (h2 !!! base_wind_v (self w) = bv) as Ebv.
  { apply lookup_total_correct. unfold h2, h1.
    destruct (Hne _ (Hdom _ _ Hbv)) as (? & ? & ?).
    now rewrite !lookup_insert_ne by assumption. }
  assert (h3 !! l1 = Some bt) as E1.
  { unfold h3, h2, h1. rewrite !lookup_insert_ne by congruence. apply lookup_insert_eq. }
  assert (h3 !! l2 = Some bu) as E2.
  { unfold h3, h2. rewrite lookup_insert_ne by congruence.
    rewrite Ebu. apply lookup_insert_eq. }
  assert (h3 !! l3 = Some bv) as E3.
  { unfold h3. rewrite Ebv. apply lookup_insert_eq. }
  cbv zeta. simpl.
  split; [|split; [|split; [reflexivity|]]].
  - split; simpl.
    + unfold array_locs in *. simpl.
      rewrite !NoDup_cons in Hd. rewrite !not_elem_of_cons in Hd.
      destruct Hd as ((? & ? & _) & (? & _) & _).
      destruct (Hne _ (Hdom _ _ Hbt)) as (? & ? & ?).
      destruct (Hne _ (Hdom _ _ Hbu)) as (? & ? & ?).
      destruct (Hne _ (Hdom _ _ Hbv)) as (? & ? & ?).
      repeat (apply NoDup_cons; split;
              [rewrite ?not_elem_of_cons; repeat split;
               first [apply not_elem_of_nil|congruence]|]).
      apply NoDup_nil_2.
    + intros l Hl. unfold array_locs in Hl. simpl in Hl.
      rewrite !elem_of_cons, elem_of_nil in Hl.
      destruct Hl as [->|[->|[->|[->|[->|[->|[]]]]]]].
      * exists bt. split; [rewrite Hold; eauto|exact Sbt].
      * exists bu. split; [rewrite Hold; eauto|exact Sbu].
      * exists bv. split; [rewrite Hold; eauto|exact Sbv].
      * exists bt. split; [exact E1|exact Sbt].
      * exists bu. split; [exact E2|exact Sbu].
      * exists bv. split; [exact E3|exact Sbv].
  - unfold same_base. simpl. repeat split; auto; apply Hold; eauto.
  - rewrite E1, E2, E3, Hbt, Hbu, Hbv. repeat split; auto.
    intros l Hl. unfold current_locs in Hl. simpl in Hl.
    rewrite !elem_of_cons, elem_of_nil in Hl.
    destruct Hl as [->|[->|[->|[]]]]; assumption.
Qed.

Lemma same_base_refl (w : world) : same_base w w.
Proof. unfold same_base. repeat split. Qed.

Lemma same_base_step (w0 w w' : world) :
  wf w -> same_base w0 w -> step w w' -> wf w' /\ same_base w0 w'.
Proof.
  intros Hwf (HW & HH & Hlat & Hlon & Lt & Lu & Lv & Et & Eu & Ev) Hstep.
  destruct Hstep as [action_type lat lon w|w|w].
  - split; [now apply wf_apply_intervention|].
    destruct (apply_intervention_frame w action_type lat lon) as [Hself [Hf _]].
    assert (forall l, l ∈ [base_temp (self w); base_wind_u (self w); base_wind_v (self w)] ->
              heap (snd (apply_intervention action_type lat lon w)) !! l = heap w !! l)
      as Hkeep.
    { intros l Hl. apply Hf. now apply base_not_current. }
    unfold same_base.
    rewrite <- Lt, <- Lu, <- Lv in *.
    rewrite !Hkeep by (rewrite !elem_of_cons; auto).
    destruct Hself as [->|(x & y & _ & ->)]; simpl; repeat split; auto.
  - rewrite pure_get_state. split; [exact Hwf|]. unfold same_base. repeat split; auto.
  - rewrite snd_reset.
    destruct (reset_world_spec w Hwf)
      as (Hwf' & (HW' & HH' & Hlat' & Hlon' & Lt' & Lu' & Lv' & Et' & Eu' & Ev') & _).
    split; [exact Hwf'|]. unfold same_base.
    rewrite <- Lt, <- Lu, <- Lv in *.
    repeat split; try congruence.
Qed.

Lemma reachable_invariant (w0 w : world) :
  wf w0 -> reachable w0 w -> wf w /\ same_base w0 w.
Proof.
  intros Hwf0 Hreach.
  apply (rtc_ind_r (R := step) (fun w => wf w /\ same_base w0 w) w0);
    [| |exact Hreach].
  - split; [exact Hwf0|apply same_base_refl].
  - intros w1 w2 _ Hstep [Hwf Hsame]. now apply (same_base_step w0 w1 w2).
Qed.

End Reset.

(** ** C5, C3 and C10 *)

Section Invariants.
Context {np : NumPy}.

(** C5. In every state reached from a constructed simulator by calls of
    [apply_intervention], [get_state] and [reset] (whether they return or
    raise), the base arrays are the objects the constructor made and
    still hold 30.0, 2.0 and 1.0 everywhere; the grid size and the base
    coordinates are unchanged too. *)
Theorem C5_base_arrays_never_mutated
    (gs : Z * Z) (lat0 lon0 : float) (h : gmap loc ndarray) (w0 w : world) :
  ClimateSimulator_init gs lat0 lon0 h = Ok w0 ->
  reachable w0 w ->
  same_base w0 w /\
  heap w !! base_temp (self w) = Some (uniform (fst gs) (snd gs) 30) /\
  heap w !! base_wind_u (self w) = Some (uniform (fst gs) (snd gs) 2) /\
  heap w !! base_wind_v (self w) = Some (uniform (fst gs) (snd gs) 1) /\
  forall i j : Z, 0 <= i < fst gs -> 0 <= j < snd gs ->
    array_at w (base_temp (self w)) i j = Ok 30%float /\
    array_at w (base_wind_u (self w)) i j = Ok 2%float /\
    array_at w (base_wind_v (self w)) i j = Ok 1%float.
Proof.
  intros Hinit Hreach.
  destruct (init_spec _ _ _ _ _ Hinit)
    as (Hwf0 & HW0 & HH0 & _ & _ & _ & Bt & Bu & Bv & _).
  destruct (reachable_invariant _ _ Hwf0 Hreach) as [Hwf Hsame].
  pose proof Hsame as (HW & HH & Hlat & Hlon & Lt & Lu & Lv & Et & Eu & Ev).
  assert (heap w !! base_temp (self w) = Some (uniform (fst gs) (snd gs) 30)) as Ht
    by now rewrite Lt, Et.
  assert (heap w !! base_wind_u (self w) = Some (uniform (fst gs) (snd gs) 2)) as Hu
    by now rewrite Lu, Eu.
  assert (heap w !! base_wind_v (self w) = Some (uniform (fst gs) (snd gs) 1)) as Hv
    by now rewrite Lv, Ev.
  repeat split; auto.
  - rewrite (array_at_lookup _ _ _ _ _ Ht). now apply getitem_uniform.
  - rewrite (array_at_lookup _ _ _ _ _ Hu). now apply getitem_uniform.
  - rewrite (array_at_lookup _ _ _ _ _ Hv). now apply getitem_uniform.
Qed.

Lemma pow2_two : PyFloat.pow2 2 = Ok 4%float.
Proof. vm_compute. reflexivity. Qed.

Lemma pow2_one : PyFloat.pow2 1 = Ok 1%float.
Proof. vm_compute. reflexivity. Qed.

Lemma leb_thirty : (30 <=? 30)%float = true.
Proof. vm_compute. reflexivity. Qed.

Lemma store_other (w : world) (l l' : loc) (a : ndarray) :
  l' <> l -> heap (snd (store l a w)) !! l' = heap w !! l'.
Proof. intros Hne. unfold store. simpl. now rewrite lookup_insert_ne. Qed.

(** C3. After [reset] in a reachable state of a simulator with a
    non-empty grid: the call returns a snapshot; each current array
    equals its base array (so entry by entry); the history and the
    snapshot's history are empty; the snapshot's [current_avg_temp] and
    [base_temp] are the same number ([==] holds unless it is a NaN); and
    the six arrays are distinct objects, so overwriting a current array,
    wholly or at one index, leaves the three base arrays as they were. *)
Theorem C3_reset_restores_base
    (gs : Z * Z) (lat0 lon0 : float) (h : gmap loc ndarray) (w0 w : world) :
  ClimateSimulator_init gs lat0 lon0 h = Ok w0 ->
  1 <= fst gs -> 1 <= snd gs ->
  reachable w0 w ->
  let w' := snd (reset w) in
  exists snap, fst (reset w) = Ok snap /\
    heap w' !! current_temp (self w') = heap w' !! base_temp (self w') /\
    heap w' !! current_wind_u (self w') = heap w' !! base_wind_u (self w') /\
    heap w' !! current_wind_v (self w') = heap w' !! base_wind_v (self w') /\
    (forall i j : Z,
       temperature w' i j = array_at w' (base_temp (self w')) i j /\
       wind_u w' i j = array_at w' (base_wind_u (self w')) i j /\
       wind_v w' i j = array_at w' (base_wind_v (self w')) i j) /\
    interventions (self w') = [] /\
    snap_interventions snap = [] /\
    snap_current_avg_temp snap = snap_base_temp snap /\
    (is_nan (snap_base_temp snap) = false ->
     (snap_current_avg_temp snap =? snap_base_temp snap)%float = true) /\
    NoDup (array_locs (self w')) /\
    (forall (l b : loc) (a : ndarray) (i j : Z) (v : float),
       l ∈ current_locs (self w') ->
       b ∈ [base_temp (self w'); base_wind_u (self w'); base_wind_v (self w')] ->
       l <> b /\
       heap (snd (store l a w')) !! b = heap w' !! b /\
       heap (snd (setitem l i j v w')) !! b = heap w' !! b).
Proof.
  intros Hinit HW1 HH1 Hreach w'.
  destruct (C5_base_arrays_never_mutated _ _ _ _ _ _ Hinit Hreach)
    as (Hsame & Bt & Bu & Bv & _).
  destruct (init_spec _ _ _ _ _ Hinit) as (Hwf0 & HW0 & HH0 & _).
  destruct (reachable_invariant _ _ Hwf0 Hreach) as [Hwf _].
  destruct Hsame as (HW & HH & _).
  unfold w'. rewrite reset_eq, pure_get_state.
  destruct (reset_world_spec w Hwf)
    as (Hwf' & (HW' & HH' & _ & _ & Lt & Lu & Lv & Et & Eu & Ev) & Hint &
        Ct & Cu & Cv & _).
  set (wr := reset_world w) in *.
  assert (grid_width (self wr) = fst gs) as EW by congruence.
  assert (grid_height (self wr) = snd gs) as EH by congruence.
  rewrite Bt in Ct. rewrite Bu in Cu. rewrite Bv in Cv.
  assert (heap wr !! base_temp (self wr) = Some (uniform (fst gs) (snd gs) 30)) as Bt'
    by (rewrite Lt, Et; exact Bt).
  assert (heap wr !! base_wind_u (self wr) = Some (uniform (fst gs) (snd gs) 2)) as Bu'
    by (rewrite Lu, Eu; exact Bu).
  assert (heap wr !! base_wind_v (self wr) = Some (uniform (fst gs) (snd gs) 1)) as Bv'
    by (rewrite Lv, Ev; exact Bv).
  assert (1 <= grid_width (self wr)) as HW1' by lia.
  assert (1 <= grid_height (self wr)) as HH1' by lia.
  rewrite <- EW, <- EH in Ct, Cu, Cv.
  destruct (get_state_uniform wr 30 2 1 4 1 HW1' HH1' Ct Cu Cv pow2_two pow2_one
              leb_thirty) as (snap & Hsnap & Sb & Sc & Si).
  rewrite EW, EH in Ct, Cu, Cv.
  rewrite EW, EH in Sc. rewrite (lookup_total_correct _ _ _ Bt') in Sb.
  exists snap. rewrite Hsnap. simpl fst.
  split; [reflexivity|].
  split; [congruence|]. split; [congruence|]. split; [congruence|].
  split.
  { intros i j. unfold temperature, wind_u, wind_v, array_at.
    rewrite !lookup_total_alt, Ct, Cu, Cv, Bt', Bu', Bv'. auto. }
  split; [exact Hint|]. split; [congruence|].
  assert (snap_current_avg_temp snap = snap_base_temp snap) as Heq by congruence.
  split; [exact Heq|]. split.
  { rewrite Heq. unfold is_nan. intros Hn. now apply negb_false_iff in Hn. }
  split; [apply (wf_distinct _ Hwf')|].
  intros l b a i j v Hl Hb.
  assert (b ∉ current_locs (self wr)) as Hnb by now apply base_not_current.
  assert (l <> b) as Hne by (intros ->; contradiction).
  split; [exact Hne|]. split.
  - apply store_other. congruence.
  - destruct (frame_setitem l i j v wr) as [_ [Hf _]].
    apply Hf. rewrite list_elem_of_singleton. congruence.
Qed.

(** C10. A call whose coordinate resolves to [(x, y)] appends exactly the
    record [{type, lat, lon, x, y}] to the history, whatever string the
    type is; if the type has no coefficient and is neither ADD_BUILDING
    nor REMOVE_BUILDING, no array changes and the call returns or raises
    exactly as [get_state] does then; on a fresh simulator it returns
    a snapshot whose history is that one record. *)
Theorem C10_any_type_recorded :
  (forall (w : world) (action_type : string) (lat lon : float) (x y : Z),
     latlon_to_grid (self w) lat lon = Ok (x, y) ->
     interventions (self (snd (apply_intervention action_type lat lon w)))
     = interventions (self w) ++ [record_of action_type lat lon x y]) /\
  (forall (w : world) (action_type : string) (lat lon : float) (x y : Z),
     latlon_to_grid (self w) lat lon = Ok (x, y) ->
     TEMP_COEFFICIENTS !! action_type = None ->
     action_type <> "ADD_BUILDING"%string ->
     action_type <> "REMOVE_BUILDING"%string ->
     let w' := snd (apply_intervention action_type lat lon w) in
     heap w' = heap w /\
     current_locs (self w') = current_locs (self w) /\
     (forall i j : Z, temperature w' i j = temperature w i j /\
                      wind_u w' i j = wind_u w i j /\
                      wind_v w' i j = wind_v w i j) /\
     fst (apply_intervention action_type lat lon w) = fst (get_state w')) /\
  (forall (gs : Z * Z) (lat0 lon0 : float) (h : gmap loc ndarray) (w0 : world)
          (action_type : string) (lat lon : float) (x y : Z),
     ClimateSimulator_init gs lat0 lon0 h = Ok w0 ->
     1 <= fst gs -> 1 <= snd gs ->
     latlon_to_grid (self w0) lat lon = Ok (x, y) ->
     TEMP_COEFFICIENTS !! action_type = None ->
     action_type <> "ADD_BUILDING"%string ->
     action_type <> "REMOVE_BUILDING"%string ->
     exists snap, fst (apply_intervention action_type lat lon w0) = Ok snap /\
       snap_interventions snap = [record_of action_type lat lon x y]).
Proof.
  assert (forall (w : world) (action_type : string) (lat lon : float) (x y : Z),
     latlon_to_grid (self w) lat lon = Ok (x, y) ->
     TEMP_COEFFICIENTS !! action_type = None ->
     action_type <> "ADD_BUILDING"%string ->
     action_type <> "REMOVE_BUILDING"%string ->
     apply_intervention action_type lat lon w
     = get_state {| self := with_intervention (self w) (record_of action_type lat lon x y);
                    heap := heap w |}) as Hunk.
  { intros w action_type lat lon x y Hxy Hd Ha Hr.
    apply apply_intervention_unknown; auto; now apply String.eqb_neq. }
  split; [|split].
  - intros w action_type lat lon x y Hxy.
    now rewrite (apply_intervention_self _ _ _ _ _ _ Hxy).
  - intros w action_type lat lon x y Hxy Hd Ha Hr w'.
    assert (w' = {| self := with_intervention (self w)
                              (record_of action_type lat lon x y);
                    heap := heap w |}) as Hw'.
    { unfold w'. rewrite (Hunk _ _ _ _ _ _ Hxy Hd Ha Hr). apply pure_get_state. }
    rewrite (Hunk _ _ _ _ _ _ Hxy Hd Ha Hr), <- Hw'.
    split; [now rewrite Hw'|]. split; [now rewrite Hw'|].
    split; [|reflexivity].
    intros i j. rewrite Hw'. repeat split; reflexivity.
  - intros gs lat0 lon0 h w0 action_type lat lon x y Hinit HW HH Hxy Hd Ha Hr.
    rewrite (Hunk _ _ _ _ _ _ Hxy Hd Ha Hr).
    destruct (init_spec _ _ _ _ _ Hinit)
      as (_ & EW & EH & _ & _ & Hi & _ & _ & _ & Ct & Cu & Cv).
    set (w1 := {| self := with_intervention (self w0) (record_of action_type lat lon x y);
                  heap := heap w0 |}).
    assert (1 <= grid_width (self w1)) as HW1' by (simpl; lia).
    assert (1 <= grid_height (self w1)) as HH1' by (simpl; lia).
    rewrite <- EW, <- EH in Ct, Cu, Cv.
    destruct (get_state_uniform w1 30 2 1 4 1 HW1' HH1' Ct Cu Cv pow2_two pow2_one
                leb_thirty) as (snap & Hsnap & _ & _ & Si).
    exists snap. rewrite Hsnap. split; [reflexivity|].
    rewrite Si. simpl. now rewrite Hi.
Qed.

End Invariants.

(** ** C9: REMOVE_BUILDING *)

Section RemoveBuilding.
Context {np : NumPy}.

Lemma entry_getitem (W H : Z) (a : ndarray) (i j : Z) :
  Nd.shape W H a -> 0 <= i < W -> 0 <= j < H ->
  Nd.getitem a i j = Ok (entry a i j).
Proof.
  intros Hs Hi Hj. unfold entry.
  destruct (getitem_lookup _ _ _ _ _ Hs Hi Hj) as (t & -> & _). reflexivity.
Qed.

Lemma heap_transform_id Phi (w : world) (l : loc) (a : ndarray) :
  heap w !! l = Some a -> (forall i j t, Phi l i j t = t) ->
  heap (transform Phi w) !! l = Some a.
Proof.
  intros Ha Hid. rewrite heap_transform, Ha. simpl. f_equal.
  rewrite <- (mapi_id a) at 2. apply mapi_ext_in. intros. apply Hid.
Qed.

Lemma restore_change_base (s : ClimateSimulator) (bu bv : ndarray) (x y : Z)
    (c : Z * Z) (l : loc) (i j : Z) (t : float) :
  l <> current_wind_u s -> l <> current_wind_v s ->
  restore_change s bu bv x y c l i j t = t.
Proof.
  intros Hu Hv. unfold restore_change.
  destruct (in_grid s _ _); [|reflexivity].
  now rewrite !on_other.
Qed.

Lemma restoring_transform (s : ClimateSimulator) (bu bv : ndarray) (x y : Z)
    (c : Z * Z) (w : world) :
  NoDup (array_locs s) -> restoring s bu bv w ->
  restoring s bu bv (transform (restore_change s bu bv x y c) w).
Proof.
  intros Hd (Hs & Hbu & Hbv). unfold array_locs in Hd.
  rewrite !NoDup_cons in Hd. rewrite !not_elem_of_cons in Hd.
  destruct Hd as (_ & (_ & _ & ? & ? & _) & (_ & ? & ? & _) & _).
  split; [now apply shaped_transform|]. split.
  - apply heap_transform_id; [exact Hbu|].
    intros. now apply restore_change_base.
  - apply heap_transform_id; [exact Hbv|].
    intros. now apply restore_change_base.
Qed.

Lemma restore_loop (s : ClimateSimulator) (bu bv : ndarray) (x y : Z)
    (cells : list (Z * Z)) (w : world) :
  NoDup (array_locs s) -> restoring s bu bv w ->
  for_ cells (fun '(dx, dy) =>
      let nx := x + dx in
      let ny := y + dy in
      if in_grid s nx ny then
        b ← getitem (base_wind_u s) nx ny;
        setitem (current_wind_u s) nx ny b;;
        b' ← getitem (base_wind_v s) nx ny;
        setitem (current_wind_v s) nx ny b'
      else mret tt) w
  = (Ok tt, transform (compose (restore_change s bu bv x y) cells) w).
Proof.
  intros Hd Hw.
  apply (for_transform _ _ (restore_change s bu bv x y) (restoring s bu bv)); auto.
  - intros [dx dy] w' _ (Hs & Hbu & Hbv). unfold restore_change. simpl.
    destruct (in_grid s (x + dx) (y + dy)) eqn:Hin; [|now rewrite transform_id].
    apply in_grid_spec in Hin as [Hx Hy].
    destruct (Hs _ (base_wind_u_loc s)) as (bu' & Hbu' & Sbu).
    destruct (Hs _ (base_wind_v_loc s)) as (bv' & Hbv' & Sbv).
    assert (bu' = bu) as -> by congruence. assert (bv' = bv) as -> by congruence.
    destruct (Hs _ (current_wind_u_loc s)) as (cu & Hcu & Scu).
    unfold mbind at 1, M_bind at 1.
    rewrite getitem_eq, (array_at_lookup _ _ _ _ _ Hbu),
      (entry_getitem _ _ _ _ _ Sbu Hx Hy).
    unfold mbind at 1, M_bind at 1.
    rewrite (setitem_transform _ _ _ _ _ _ _ _ Hcu Scu Hx Hy).
    set (w2 := transform _ w').
    assert (heap w2 !! base_wind_v s = Some bv) as Hbv2.
    { apply heap_transform_id; [exact Hbv|]. intros. apply on_other.
      unfold array_locs in Hd. rewrite !NoDup_cons in Hd.
      rewrite !not_elem_of_cons in Hd. intuition congruence. }
    assert (shaped s w2) as Hs2 by now apply shaped_transform.
    destruct (Hs2 _ (current_wind_v_loc s)) as (cv & Hcv & Scv).
    unfold mbind at 1, M_bind at 1.
    rewrite getitem_eq, (array_at_lookup _ _ _ _ _ Hbv2),
      (entry_getitem _ _ _ _ _ Sbv Hx Hy).
    rewrite (setitem_transform _ _ _ _ _ _ _ _ Hcv Scv Hx Hy).
    unfold w2. now rewrite transform_transform.
  - intros c w' _ Hw'. now apply restoring_transform.
Qed.

(** A loop of assignments of one value per cell: an entry is assigned
    if some iteration hits it. *)
Lemma compose_assign {A} (F : A -> loc -> Z -> Z -> float -> float)
    (hit : A -> bool) (cells : list A) (l : loc) (i j : Z) (v t : float) :
  (forall c t', hit c = true -> F c l i j t' = v) ->
  (forall c t', hit c = false -> F c l i j t' = t') ->
  compose F cells l i j t = if existsb hit cells then v else t.
Proof.
  intros Hhit Hmiss. revert t.
  induction cells as [|c cells IH]; intros t; simpl; [reflexivity|].
  destruct (hit c) eqn:Hc; simpl.
  - rewrite Hhit by assumption. rewrite IH. now destruct (existsb hit cells).
  - rewrite Hmiss by assumption. apply IH.
Qed.

Lemma existsb_hits (s : ClimateSimulator) (x y i j : Z) (cells : list (Z * Z)) :
  in_grid s i j = true ->
  existsb (hits s x y i j) cells = bool_decide ((i - x, j - y) ∈ cells).
Proof.
  intros Hin. induction cells as [|[dx dy] cells IH]; simpl.
  - first [reflexivity|symmetry; apply bool_decide_eq_false, not_elem_of_nil].
  - rewrite IH. unfold hits. simpl.
    destruct (decide ((i - x, j - y) = (dx, dy))) as [[= <- <-]|Hne].
    + replace (x + (i - x)) with i by lia. replace (y + (j - y)) with j by lia.
      rewrite Hin, !Z.eqb_refl. simpl. symmetry.
      apply bool_decide_eq_true. left.
    + replace (in_grid s (x + dx) (y + dy) && (i =? x + dx) && (j =? y + dy))
        with false.
      * simpl. apply bool_decide_ext. rewrite elem_of_cons. tauto.
      * symmetry. rewrite <- andb_assoc. apply andb_false_iff. right.
        apply andb_false_iff.
        destruct (Z.eqb_spec i (x + dx)); [|now left].
        destruct (Z.eqb_spec j (y + dy)); [|now right].
        exfalso. apply Hne. f_equal; lia.
Qed.

Lemma restore_change_u (s : ClimateSimulator) (bu bv : ndarray) (x y i j : Z)
    (c : Z * Z) (t : float) :
  current_wind_u s <> current_wind_v s ->
  restore_change s bu bv x y c (current_wind_u s) i j t
  = if hits s x y i j c then entry bu i j else t.
Proof.
  intros Hne. unfold restore_change, hits.
  destruct (in_grid s _ _); simpl; [|reflexivity].
  rewrite on_other by assumption. rewrite on_same. unfold point.
  destruct (Z.eqb_spec i (x + fst c)) as [->|]; [|reflexivity].
  destruct (Z.eqb_spec j (y + snd c)) as [->|]; reflexivity.
Qed.

Lemma restore_change_v (s : ClimateSimulator) (bu bv : ndarray) (x y i j : Z)
    (c : Z * Z) (t : float) :
  current_wind_u s <> current_wind_v s ->
  restore_change s bu bv x y c (current_wind_v s) i j t
  = if hits s x y i j c then entry bv i j else t.
Proof.
  intros Hne. unfold restore_change, hits.
  destruct (in_grid s _ _); simpl; [|reflexivity].
  rewrite on_same. rewrite on_other by congruence. unfold point.
  destruct (Z.eqb_spec i (x + fst c)) as [->|]; [|reflexivity].
  destruct (Z.eqb_spec j (y + snd c)) as [->|]; reflexivity.
Qed.

Lemma wf_distinct_locs (w : world) :
  wf w ->
  let s := self w in
  current_wind_u s <> current_wind_v s /\
  (current_temp s ∉ [current_wind_u s; current_wind_v s]) /\
  (base_temp s ∉ [current_wind_u s; current_wind_v s]) /\
  (base_wind_u s ∉ [current_wind_u s; current_wind_v s]) /\
  (base_wind_v s ∉ [current_wind_u s; current_wind_v s]).
Proof.
  intros [Hd _]. unfold array_locs in Hd. cbv zeta.
  rewrite !NoDup_cons in Hd. rewrite !not_elem_of_cons in *.
  repeat split; try apply not_elem_of_nil; intuition congruence.
Qed.

(** C9. A REMOVE_BUILDING call at a coordinate resolving to [(x, y)]
    reads the base wind [(u0, v0)] at [(x, y)] and computes the shadow
    offsets from it; if that computation returns [cells], the current
    wind at every in-grid cell [(x + dx, y + dy)] with [(dx, dy)] in
    [cells] becomes the base wind of that cell and the wind of every
    other cell is what it was (amplified or not); if it raises, no array
    changes. In both cases the temperature array and the base arrays are
    unchanged. For the base wind (2.0, 1.0) of every constructed
    simulator the offsets are (-1, 0), (-2, -1), (-3, -1). *)
Theorem C9_remove_building_restores_shadow
    (w : world) (lat lon : float) (x y : Z) (u0 v0 : float) :
  wf w -> 1 <= grid_width (self w) -> 1 <= grid_height (self w) ->
  latlon_to_grid (self w) lat lon = Ok (x, y) ->
  array_at w (base_wind_u (self w)) x y = Ok u0 ->
  array_at w (base_wind_v (self w)) x y = Ok v0 ->
  let w' := snd (apply_intervention "REMOVE_BUILDING" lat lon w) in
  current_locs (self w') = current_locs (self w) /\
  heap w' !! current_temp (self w) = heap w !! current_temp (self w) /\
  heap w' !! base_temp (self w) = heap w !! base_temp (self w) /\
  heap w' !! base_wind_u (self w) = heap w !! base_wind_u (self w) /\
  heap w' !! base_wind_v (self w) = heap w !! base_wind_v (self w) /\
  match get_wind_shadow_cells u0 v0 with
  | Ok cells =>
      forall i j : Z,
        0 <= i < grid_width (self w) -> 0 <= j < grid_height (self w) ->
        wind_u w' i j
        = (if bool_decide ((i - x, j - y) ∈ cells)
           then array_at w (base_wind_u (self w)) i j else wind_u w i j) /\
        wind_v w' i j
        = (if bool_decide ((i - x, j - y) ∈ cells)
           then array_at w (base_wind_v (self w)) i j else wind_v w i j)
  | Raise _ => heap w' = heap w
  end /\
  get_wind_shadow_cells 2 1 = Ok [(-1, 0); (-2, -1); (-3, -1)].
Proof.
  intros Hwf HW HH Hxy Hu0 Hv0 w'.
  pose proof (wf_shaped _ Hwf) as Hs.
  destruct (latlon_to_grid_bounds _ _ _ _ _ HW HH Hxy) as [Hx Hy].
  destruct (wf_distinct_locs w Hwf) as (Huv & Nt & Nbt & Nbu & Nbv).
  set (s := self w) in *.
  set (w1 := {| self := with_intervention s (record_of "REMOVE_BUILDING" lat lon x y);
                heap := heap w |}).
  assert (after_temperature w "REMOVE_BUILDING" lat lon x y = w1) as Hat.
  { unfold after_temperature, temperature_change_of.
    replace (TEMP_COEFFICIENTS !! "REMOVE_BUILDING"%string) with (@None float)
      by (vm_compute; reflexivity).
    now rewrite transform_id. }
  assert (w' = snd (apply_wind_effect s "REMOVE_BUILDING" x y w1)) as Hw'.
  { unfold w'. now rewrite (apply_intervention_world _ _ _ _ _ _ Hs HW HH Hxy), Hat. }
  destruct (frame_apply_wind_effect s "REMOVE_BUILDING" x y w1) as [Hself [Hf _]].
  rewrite <- Hw' in Hself, Hf. simpl in Hself, Hf.
  split; [now rewrite Hself|].
  split; [now apply Hf|]. split; [now apply Hf|].
  split; [now apply Hf|]. split; [now apply Hf|].
  split; [|vm_compute; reflexivity].
  assert (apply_wind_effect s "REMOVE_BUILDING" x y w1
          = match get_wind_shadow_cells u0 v0 with
            | Ok cells =>
                for_ cells (fun '(dx, dy) =>
                  let nx := x + dx in
                  let ny := y + dy in
                  if in_grid s nx ny then
                    b ← getitem (base_wind_u s) nx ny;
                    setitem (current_wind_u s) nx ny b;;
                    b' ← getitem (base_wind_v s) nx ny;
                    setitem (current_wind_v s) nx ny b'
                  else mret tt) w1
            | Raise e => (Raise e, w1)
            end) as Hrun.
  { unfold apply_wind_effect.
    replace (String.eqb "REMOVE_BUILDING" "ADD_BUILDING") with false by reflexivity.
    replace (String.eqb "REMOVE_BUILDING" "REMOVE_BUILDING") with true by reflexivity.
    unfold mbind at 1, M_bind at 1. rewrite getitem_eq.
    change (array_at w1 (base_wind_u s) x y) with (array_at w (base_wind_u s) x y).
    rewrite Hu0.
    unfold mbind at 1, M_bind at 1. rewrite getitem_eq.
    change (array_at w1 (base_wind_v s) x y) with (array_at w (base_wind_v s) x y).
    rewrite Hv0.
    unfold mbind at 1, M_bind at 1. unfold lift at 1.
    destruct (get_wind_shadow_cells u0 v0); reflexivity. }
  destruct (get_wind_shadow_cells u0 v0) as [cells|e].
  2:{ rewrite Hw', Hrun. reflexivity. }
  destruct (Hs _ (base_wind_u_loc s)) as (bu & Hbu & Sbu).
  destruct (Hs _ (base_wind_v_loc s)) as (bv & Hbv & Sbv).
  destruct (Hs _ (current_wind_u_loc s)) as (cu & Hcu & Scu).
  destruct (Hs _ (current_wind_v_loc s)) as (cv & Hcv & Scv).
  assert (restoring s bu bv w1) as Hrest by (repeat split; assumption).
  rewrite (restore_loop s bu bv x y cells w1 (wf_distinct _ Hwf) Hrest) in Hrun.
  rewrite Hrun in Hw'. simpl in Hw'.
  intros i j Hi Hj.
  assert (in_grid s i j = true) as Hin by (apply in_grid_spec; lia).
  destruct (getitem_lookup _ _ _ _ _ Scu Hi Hj) as (tu & Htu & _).
  destruct (getitem_lookup _ _ _ _ _ Scv Hi Hj) as (tv & Htv & _).
  unfold wind_u, wind_v. rewrite Hself. simpl. fold s.
  rewrite Hw'.
  rewrite (array_at_transform _ _ _ w1 _ cu i j tu Hcu Scu Hi Hj)
    by (rewrite (array_at_lookup w1 _ _ _ _ Hcu); exact Htu).
  rewrite (array_at_transform _ _ _ w1 _ cv i j tv Hcv Scv Hi Hj)
    by (rewrite (array_at_lookup w1 _ _ _ _ Hcv); exact Htv).
  rewrite (compose_assign _ (hits s x y i j) cells _ i j (entry bu i j) tu);
    [|intros c t' Hc; rewrite restore_change_u, Hc by assumption; reflexivity
     |intros c t' Hc; rewrite restore_change_u, Hc by assumption; reflexivity].
  rewrite (compose_assign _ (hits s x y i j) cells _ i j (entry bv i j) tv);
    [|intros c t' Hc; rewrite restore_change_v, Hc by assumption; reflexivity
     |intros c t' Hc; rewrite restore_change_v, Hc by assumption; reflexivity].
  rewrite (existsb_hits _ _ _ _ _ _ Hin).
  rewrite (array_at_lookup _ _ _ _ _ Hbu), (array_at_lookup _ _ _ _ _ Hbv),
    (array_at_lookup _ _ _ _ _ Hcu), (array_at_lookup _ _ _ _ _ Hcv).
  rewrite (entry_getitem _ _ _ _ _ Sbu Hi Hj), (entry_getitem _ _ _ _ _ Sbv Hi Hj).
  rewrite Htu, Htv.
  destruct (bool_decide ((i - x, j - y) ∈ cells)); split; reflexivity.
Qed.

End RemoveBuilding.

(** ** The server's simulator *)

Lemma server_simulator_eq : server_simulator = Ok server_world.
Proof. vm_compute. reflexivity. Qed.

Lemma server_world_init :
  ClimateSimulator_init (50, 50) 52.48%float 13.43%float ∅ = Ok server_world.
Proof. exact server_simulator_eq. Qed.

Lemma server_world_wf : wf server_world.
Proof. exact (proj1 (init_spec _ _ _ _ _ server_world_init)). Qed.

Lemma server_centre :
  latlon_to_grid (np := sample_numpy) (self server_world) 52.48 13.43 = Ok (25, 25).
Proof. vm_compute. reflexivity. Qed.

(** C4 at the centre of the server's simulator. *)
Lemma C4_add_water_cools_witness :
  temperature
    (snd (apply_intervention (np := sample_numpy) "ADD_WATER" 52.48 13.43 server_world))
    25 25 = Ok 27%float.
Proof.
  refine (proj1 (proj2 (proj2
    (proj2 (proj2 (proj2 (C4_add_water_cools (np := sample_numpy))))
       server_world 52.48%float 13.43%float 25 25 30%float
       server_world_wf _ _ server_centre _)))).
  - vm_compute. discriminate.
  - vm_compute. discriminate.
  - vm_compute. reflexivity.
Defined.

(** C7 at the centre of the server's simulator. *)
Lemma C7_add_building_twice_witness :
  temperature
    (snd (apply_intervention (np := sample_numpy) "ADD_BUILDING" 52.48 13.43
       (snd (apply_intervention (np := sample_numpy) "ADD_BUILDING" 52.48 13.43
               server_world))))
    25 25 = Ok 33%float.
Proof.
  refine (proj1 (proj2 (proj2
    (proj1 (C7_add_building_twice (np := sample_numpy))
       server_world 52.48%float 13.43%float 25 25 30%float
       server_world_wf _ _ server_centre _)))).
  - vm_compute. discriminate.
  - vm_compute. discriminate.
  - vm_compute. reflexivity.
Defined.

(** C5 after one call on the server's simulator. *)
Lemma C5_base_arrays_never_mutated_witness :
  array_at
    (snd (apply_intervention (np := sample_numpy) "ADD_ASPHALT" 52.48 13.43 server_world))
    (base_temp (self server_world)) 25 25 = Ok 30%float.
Proof.
  pose proof (C5_base_arrays_never_mutated (np := sample_numpy)
                (50, 50) 52.48%float 13.43%float ∅ server_world
                (snd (apply_intervention (np := sample_numpy) "ADD_ASPHALT" 52.48 13.43
                        server_world))
                server_world_init
                (rtc_once _ _ (step_apply_intervention _ _ _ _)))
    as (Hsame & _ & _ & _ & Hall).
  destruct Hsame as (_ & _ & _ & _ & <- & _).
  refine (proj1 (Hall 25 25 _ _)); simpl; lia.
Defined.

(** C3 on the server's simulator after one call. *)
Lemma C3_reset_restores_base_witness :
  interventions
    (self (snd (reset (np := sample_numpy)
       (snd (apply_intervention (np := sample_numpy) "ADD_PARK" 52.48 13.43
               server_world))))) = [].
Proof.
  destruct (C3_reset_restores_base (np := sample_numpy)
              (50, 50) 52.48%float 13.43%float ∅ server_world
              (snd (apply_intervention (np := sample_numpy) "ADD_PARK" 52.48 13.43
                      server_world))
              server_world_init ltac:(simpl; lia) ltac:(simpl; lia)
              (rtc_once _ _ (step_apply_intervention _ _ _ _)))
    as (snap & _ & _ & _ & _ & _ & Hint & _).
  exact Hint.
Defined.

(** C10 for the type "PLANT_TREE" on the server's simulator. *)
Lemma C10_any_type_recorded_witness :
  interventions
    (self (snd (apply_intervention (np := sample_numpy) "PLANT_TREE" 52.48 13.43
                  server_world)))
  = [record_of "PLANT_TREE" 52.48 13.43 25 25].
Proof.
  exact (proj1 (C10_any_type_recorded (np := sample_numpy))
           server_world "PLANT_TREE"%string 52.48%float 13.43%float 25 25
           server_centre).
Defined.

(** C10, as the claim words it ("always ... for every call"), fails:
    the call with type "PLANT_TREE" at the finite latitude 1e308 on the
    server's simulator raises [OverflowError] while the coordinate is
    resolved, before the append, so the history is still the empty
    history of the fresh simulator and not one record longer. *)
Lemma C10_unresolved_call_not_recorded :
  fst (apply_intervention (np := sample_numpy) "PLANT_TREE" 1e308 13.43 server_world)
  = Raise OverflowError /\
  interventions
    (self (snd (apply_intervention (np := sample_numpy) "PLANT_TREE" 1e308 13.43
                  server_world)))
  = interventions (self server_world) /\
  length
    (interventions
       (self (snd (apply_intervention (np := sample_numpy) "PLANT_TREE" 1e308 13.43
                     server_world))))
  = 0%nat.
Proof. vm_compute. repeat split. Qed.

(** C9 at the centre of the server's simulator. *)
Lemma C9_remove_building_restores_shadow_witness :
  get_wind_shadow_cells 2 1 = Ok [(-1, 0); (-2, -1); (-3, -1)].
Proof.
  refine (proj2 (proj2 (proj2 (proj2 (proj2 (proj2
    (C9_remove_building_restores_shadow (np := sample_numpy)
       server_world 52.48%float 13.43%float 25 25 2%float 1%float
       server_world_wf _ _ server_centre _ _))))))).
  - vm_compute. discriminate.
  - vm_compute. discriminate.
  - vm_compute. reflexivity.
  - vm_compute. reflexivity.
Defined.

(** ** C2 and C6: the coordinate mappers at their limits *)

(** C2. The grid -> geo -> grid round trip does not return the cell:
    the relief mapper sends cell (1, 1) to (52.4506, 13.381) and that
    coordinate back to cell (0, 0); the climate mapper (sample NumPy
    instance) sends cell (25, 3) back to (25, 2), and with any NumPy
    instance the latitude of row 3 never comes back as row 3. *)
Theorem C2_round_trip_returns_another_cell :
  (forall raw : ndarray,
     Relief.grid_to_latlon (relief_provider raw) 1 1
       = Ok (52.450600000000001, 13.381)%float /\
     Relief.latlon_to_grid (relief_provider raw) 52.450600000000001 13.381
       = Ok (0, 0)) /\
  (let '(lat, lon) := grid_to_latlon (np := sample_numpy) (self server_world) 25 3 in
   latlon_to_grid (np := sample_numpy) (self server_world) lat lon) = Ok (25, 2) /\
  (forall (np : NumPy) (x : Z) (lon : float),
     match latlon_to_grid (self server_world)
             (fst (grid_to_latlon (self server_world) x 3)) lon with
     | Ok (_, y) => y = 2
     | Raise _ => True
     end).
Proof.
  split; [|split].
  - intros raw. split; vm_compute; reflexivity.
  - vm_compute. reflexivity.
  - intros np x lon. unfold latlon_to_grid, grid_to_latlon, mbind, result_bind.
    destruct (PyFloat.to_int _) as [x0|e]; [|exact I].
    cbn [fst].
    match goal with
    | |- match (match PyFloat.to_int ?Y with _ => _ end) with _ => _ end =>
        replace (PyFloat.to_int Y) with (Ok 2 : result Z) by (vm_compute; reflexivity)
    end.
    vm_compute. reflexivity.
Qed.

(** C6. A finite coordinate whose scaled offset overflows binary64 is not
    clamped: both mappers raise [OverflowError] on the latitude 1e308
    (the climate mapper with the sample NumPy instance; with any instance
    it raises). When a mapper returns, the indices are within the
    grid. *)
Theorem C6_overflowing_coordinate_raises :
  (forall raw : ndarray,
     Relief.latlon_to_grid (relief_provider raw) 1e308 13.43
       = Raise OverflowError) /\
  latlon_to_grid (np := sample_numpy) (self server_world) 1e308 13.43
    = Raise OverflowError /\
  (forall (np : NumPy) (lon : float),
     exists e, latlon_to_grid (self server_world) 1e308 lon = Raise e) /\
  (forall (np : NumPy) (s : ClimateSimulator) (lat lon : float) (x y : Z),
     1 <= grid_width s -> 1 <= grid_height s ->
     latlon_to_grid s lat lon = Ok (x, y) ->
     0 <= x <= grid_width s - 1 /\ 0 <= y <= grid_height s - 1) /\
  (forall (r : Relief.ReliefDataProvider) (lat lon : float) (x y : Z),
     1 <= Relief.grid_width r -> 1 <= Relief.grid_height r ->
     Relief.latlon_to_grid r lat lon = Ok (x, y) ->
     0 <= x <= Relief.grid_width r - 1 /\ 0 <= y <= Relief.grid_height r - 1).
Proof.
  split; [|split; [|split; [|split]]].
  - intros raw. vm_compute. reflexivity.
  - vm_compute. reflexivity.
  - intros np lon. unfold latlon_to_grid, mbind, result_bind.
    destruct (PyFloat.to_int _) as [x0|e]; [|eauto].
    match goal with
    | |- exists e, match PyFloat.to_int ?Y with _ => _ end = _ =>
        replace (PyFloat.to_int Y) with (Raise OverflowError : result Z)
          by (vm_compute; reflexivity)
    end.
    eauto.
  - intros np s lat lon x y. apply latlon_to_grid_bounds.
  - intros r lat lon x y HW HH.
    unfold Relief.latlon_to_grid, PyFloat.truediv, mbind, result_bind.
    repeat match goal with
           | |- context [if ?b then _ else _] => destruct b; [discriminate|]
           | |- context [match PyFloat.to_int ?f with _ => _ end] =>
               destruct (PyFloat.to_int f); [|discriminate]
           end.
    intros [= <- <-]. split; apply clamp_bounds; assumption.
Qed.

(** * Contour lines ([relief_data.py]) *)

Section Levels.

Lemma pos_float_normal (x : spec_float) (v : Z) :
  pos_float x v -> scale (-48) <= v ->
  exists m e, x = S754_finite false m e /\ bounded prec emax m e = true /\
              v = Zpos m * scale e /\ 2 ^ 52 <= Zpos m < 2 ^ 53 /\ -101 < e.
Proof.
  intros (md & ed & -> & Hb & ->) Hv.
  destruct (bounded_facts _ _ Hb) as (Hmd & Hed & Hc).
  assert (-101 < ed) as Hed'.
  { destruct (Z_lt_le_dec (-101) ed) as [|Hle]; [assumption|exfalso].
    assert (0 < scale ed) by (apply scale_pos; lia).
    assert (scale ed <= scale (-101)) by (apply scale_le; lia).
    assert (Zpos md * scale ed < 2 ^ 53 * scale ed) by (apply Z.mul_lt_mono_pos_r; lia).
    assert (2 ^ 53 * scale ed <= 2 ^ 53 * scale (-101)) by (apply Z.mul_le_mono_nonneg_l; lia).
    assert (2 ^ 53 * scale (-101) = scale (-48)) as Heq.
    { replace (-48) with (-101 + 53) by lia. rewrite scale_add by lia. ring. }
    lia. }
  destruct Hc as [Hc|Hc]; [|lia].
  exists md, ed. repeat split; auto; lia.
Qed.

(** A float of magnitude at least 16 is a multiple of [2^-48]. *)
Lemma coarse (x : spec_float) (v : Z) :
  pos_float x v -> scale 4 <= v -> exists k, v = k * scale (-48).
Proof.
  intros (m & e & -> & Hb & ->) Hv.
  destruct (bounded_facts _ _ Hb) as (Hm & He & _).
  assert (-48 <= e) as He'.
  { destruct (Z_lt_le_dec e (-48)) as [Hlt|]; [exfalso|assumption].
    assert (0 < scale e) by (apply scale_pos; lia).
    assert (scale e <= scale (-49)) by (apply scale_le; lia).
    assert (Zpos m * scale e < 2 ^ 53 * scale e) by (apply Z.mul_lt_mono_pos_r; lia).
    assert (2 ^ 53 * scale e <= 2 ^ 53 * scale (-49)) by (apply Z.mul_le_mono_nonneg_l; lia).
    assert (2 ^ 53 * scale (-49) = scale 4) as Heq.
    { replace 4 with (-49 + 53) by lia. rewrite scale_add by lia. ring. }
    lia. }
  exists (Zpos m * 2 ^ (e + 48)).
  replace e with (-48 + (e + 48)) at 1 by lia. rewrite scale_add by lia. ring.
Qed.

(** The span of two elevations: zero, or a normal float with a binary64
    magnitude between three quarters of it and the exact difference. *)
Lemma span_cases (xm xM : spec_float) (vm vM : Z) :
  pos_float xm vm -> pos_float xM vM -> scale 4 <= vm -> vm <= vM ->
  SFsub prec emax xM xm = S754_zero false \/
  exists Wd, pos_float (SFsub prec emax xM xm) Wd /\ scale (-48) <= Wd /\
    exists ma ea, 0 <= ma < 2 ^ 53 /\ -1074 <= ea /\
                  3 * Wd <= 4 * (ma * scale ea) /\ ma * scale ea <= vM - vm.
Proof.
  intros Hm HM Hfloor Hle.
  destruct (SFsub_pos xM xm vM vm HM Hm Hle) as [[_ Hz]|(Hlt & Wd & Hr & Hd)];
    [now left|right].
  exists Wd. split; [exact Hd|].
  destruct (coarse xm vm Hm Hfloor) as [km Hkm].
  destruct (coarse xM vM HM ltac:(lia)) as [kM HkM].
  assert (0 < scale (-48)) as Hs by (apply scale_pos; lia).
  assert (scale (-48) <= vM - vm) as Hgap.
  { rewrite Hkm, HkM in *. rewrite <- Z.mul_sub_distr_r.
    assert (km < kM) by (apply (mul_lt_cancel _ _ (scale (-48))); lia).
    replace (scale (-48)) with (1 * scale (-48)) at 1 by lia.
    apply Z.mul_le_mono_nonneg_r; lia. }
  destruct Hr as (_ & Hup & Hlo).
  assert (scale (-48) <= Wd) as HWd.
  { pose proof (Hlo 1 (-48) ltac:(lia) ltac:(lia) ltac:(lia)). lia. }
  split; [exact HWd|].
  destruct (pos_float_normal _ _ Hd HWd) as (md & ed & _ & Hb & -> & Hmd & Hed).
  assert (0 < scale ed) as Hsd by (apply scale_pos; lia).
  destruct (Z_le_gt_dec (Zpos md * scale ed) (vM - vm)) as [Hbelow|Habove].
  - exists (Zpos md), ed. repeat split; lia.
  - exists (Zpos md - 1), ed.
    assert ((Zpos md - 1) * scale ed < Zpos md * scale ed) as Hpred
      by (apply Z.mul_lt_mono_pos_r; lia).
    split; [lia|]. split; [lia|]. split.
    + rewrite Z.mul_sub_distr_r.
      assert (4 * scale ed <= Zpos md * scale ed)
        by (apply Z.mul_le_mono_nonneg_r; lia).
      lia.
    + destruct (Z_le_gt_dec ((Zpos md - 1) * scale ed) (vM - vm)) as [|Hgt];
        [assumption|exfalso].
      pose proof (Hup (Zpos md - 1) ed ltac:(lia) ltac:(lia) ltac:(lia)). lia.
Qed.

(** One level [i * step + start] of the five, for [i] in 1..3. *)
Lemma level_between (step xm xM : spec_float) (Ws Wd vm vM : Z)
    (mi : positive) (ei i : Z) :
  pos_float xm vm -> pos_float xM vM -> pos_float step Ws ->
  4 * Ws = Wd ->
  (exists ma ea, 0 <= ma < 2 ^ 53 /\ -1074 <= ea /\
                 3 * Wd <= 4 * (ma * scale ea) /\ ma * scale ea <= vM - vm) ->
  bounded prec emax mi ei = true -> 1 <= i <= 3 ->
  (forall e, -1074 <= e -> Zpos mi * scale (ei + e) = i * scale e) ->
  exists vL,
    pos_float (SFadd prec emax (SFmul prec emax (S754_finite false mi ei) step) xm) vL /\
    vm <= vL <= vM.
Proof.
  intros Hm HM (ms & es & -> & Hbs & ->) HWd (ma & ea & Hma & Hea & Ha3 & Ha) Hbi Hi Hval.
  destruct (bounded_facts _ _ Hbs) as (Hms & Hes & _).
  assert (0 < scale es) as Hss by (apply scale_pos; lia).
  set (Ws := Zpos ms * scale es) in *.
  assert (0 < Ws) as HWs by (apply Z.mul_pos_pos; lia).
  destruct (SFmul_pos mi ms ei es Hbi Hbs) as (Wp & Hr & Hres).
  assert (Zpos mi * Zpos ms * scale (ei + es) = i * Ws) as HX.
  { unfold Ws. rewrite <- Z.mul_assoc, (Z.mul_comm (Zpos ms)), Z.mul_assoc, Hval by lia. ring. }
  rewrite HX in Hr. destruct Hr as (_ & Hup & Hlo).
  assert (Ws <= i * Ws) as H1 by nia.
  assert (i * Ws <= 3 * Ws) as H3 by nia.
  pose proof (Hlo (Zpos ms) es ltac:(lia) ltac:(lia) H1) as Hge.
  pose proof (Hup ma ea Hma Hea ltac:(lia)) as Hle.
  pose proof (pos_float_below_max _ _ HM) as HMmax.
  pose proof (pos_float_positive _ _ Hm) as Hmpos.
  assert (pos_float (SFmul prec emax (S754_finite false mi ei) (S754_finite false ms es)) Wp)
    as Hp by (apply result_is_pos_float; [exact Hres|fold Ws in Hge; lia|lia]).
  destruct (SFadd_pos _ _ Wp vm Hp Hm) as (vL & (_ & Hup' & Hlo') & Hres').
  destruct Hm as (mm & em & -> & Hbm & ->). destruct HM as (mM & eM & -> & HbM & ->).
  destruct (bounded_facts _ _ Hbm) as (Hmm & Hem & _).
  destruct (bounded_facts _ _ HbM) as (HmM & HeM & _).
  fold Ws in Hge.
  pose proof (Hup' (Zpos mM) eM ltac:(lia) ltac:(lia) ltac:(lia)) as HvL.
  pose proof (Hlo' (Zpos mm) em ltac:(lia) ltac:(lia) ltac:(lia)) as HvL'.
  exists vL. split; [|lia].
  apply result_is_pos_float; [exact Hres'|lia|lia].
Qed.

Lemma fvalue_not_nan (x : float) (v : Z) : fvalue x v -> is_nan x = false.
Proof.
  intros Hx. unfold is_nan. rewrite FloatAxioms.eqb_spec. unfold SFeqb.
  rewrite (SFcompare_pos _ _ v v Hx Hx), Z.compare_refl. reflexivity.
Qed.

Lemma floored_value (e : float) :
  floored e = true -> exists v, fvalue e v /\ scale 4 <= v.
Proof.
  unfold floored, PyFloat.is_finite, fvalue. rewrite FloatAxioms.leb_spec.
  change (Prim2SF 25) with (S754_finite false 7036874417766400 (-48)).
  pose proof (Prim2SF_valid e) as Hv.
  destruct (Prim2SF e) as [s|s| |s m ex]; try discriminate.
  destruct s; [discriminate|]. intros Hle. simpl in Hle, Hv.
  assert (pos_float (S754_finite false 7036874417766400 (-48))
            (7036874417766400 * scale (-48))) as H25.
  { exists 7036874417766400%positive, (-48). repeat split. }
  assert (pos_float (S754_finite false m ex) (Zpos m * scale ex)) as Hx
    by (exists m, ex; auto).
  exists (Zpos m * scale ex). split; [exact Hx|].
  apply (SFleb_pos _ _ _ _ H25 Hx) in Hle.
  assert (scale 4 = 2 ^ 52 * scale (-48)) as ->.
  { replace 4 with (-48 + 52) by lia. rewrite scale_add by lia. ring. }
  assert (0 < scale (-48)) by (apply scale_pos; lia).
  assert (2 ^ 52 * scale (-48) <= 7036874417766400 * scale (-48))
    by (apply Z.mul_le_mono_nonneg_r; [lia|]; vm_compute; discriminate).
  lia.
Qed.

Lemma minimum_cases (x y : float) (vx vy : Z) :
  fvalue x vx -> fvalue y vy ->
  (Np.minimum x y = x /\ vx <= vy) \/ (Np.minimum x y = y /\ vy < vx).
Proof.
  intros Hx Hy. unfold Np.minimum.
  rewrite (fvalue_not_nan x vx Hx), (fvalue_not_nan y vy Hy), FloatAxioms.ltb_spec.
  destruct (SFltb (Prim2SF y) (Prim2SF x)) eqn:Hlt.
  - right. split; [reflexivity|]. now apply (SFltb_pos _ _ _ _ Hy Hx).
  - left. split; [reflexivity|].
    destruct (Z_le_gt_dec vx vy) as [|Hgt]; [assumption|].
    assert (SFltb (Prim2SF y) (Prim2SF x) = true)
      by (apply (SFltb_pos _ _ _ _ Hy Hx); lia).
    congruence.
Qed.

Lemma maximum_cases (x y : float) (vx vy : Z) :
  fvalue x vx -> fvalue y vy ->
  (Np.maximum x y = x /\ vy <= vx) \/ (Np.maximum x y = y /\ vx < vy).
Proof.
  intros Hx Hy. unfold Np.maximum.
  rewrite (fvalue_not_nan x vx Hx), (fvalue_not_nan y vy Hy), FloatAxioms.ltb_spec.
  destruct (SFltb (Prim2SF x) (Prim2SF y)) eqn:Hlt.
  - right. split; [reflexivity|]. now apply (SFltb_pos _ _ _ _ Hx Hy).
  - left. split; [reflexivity|].
    destruct (Z_le_gt_dec vy vx) as [|Hgt]; [assumption|].
    assert (SFltb (Prim2SF x) (Prim2SF y) = true)
      by (apply (SFltb_pos _ _ _ _ Hx Hy); lia).
    congruence.
Qed.

Lemma fold_minimum (l : list float) (x : float) (vx : Z) :
  floored x = true -> forallb floored l = true -> fvalue x vx ->
  exists vr, floored (fold_left Np.minimum l x) = true /\
             fvalue (fold_left Np.minimum l x) vr /\ vr <= vx.
Proof.
  revert x vx. induction l as [|y l IH]; intros x vx Hx Hl Hvx; simpl.
  - exists vx. repeat split; [assumption..|lia].
  - simpl in Hl. apply andb_prop in Hl as [Hy Hl].
    destruct (floored_value y Hy) as (vy & Hvy & _).
    destruct (minimum_cases x y vx vy Hvx Hvy) as [[-> Hle]|[-> Hlt]].
    + exact (IH x vx Hx Hl Hvx).
    + destruct (IH y vy Hy Hl Hvy) as (vr & Hf & Hr & Hle).
      exists vr. repeat split; [assumption..|lia].
Qed.

Lemma fold_maximum (l : list float) (x : float) (vx : Z) :
  floored x = true -> forallb floored l = true -> fvalue x vx ->
  exists vr, floored (fold_left Np.maximum l x) = true /\
             fvalue (fold_left Np.maximum l x) vr /\ vx <= vr.
Proof.
  revert x vx. induction l as [|y l IH]; intros x vx Hx Hl Hvx; simpl.
  - exists vx. repeat split; [assumption..|lia].
  - simpl in Hl. apply andb_prop in Hl as [Hy Hl].
    destruct (floored_value y Hy) as (vy & Hvy & _).
    destruct (maximum_cases x y vx vy Hvx Hvy) as [[-> Hle]|[-> Hlt]].
    + exact (IH x vx Hx Hl Hvx).
    + destruct (IH y vy Hy Hl Hvy) as (vr & Hf & Hr & Hle).
      exists vr. repeat split; [assumption..|lia].
Qed.

(** The lowest and the highest elevation of a floored surface. *)
Lemma min_max_floored (a : ndarray) (lo hi : float) :
  elevations_floored a = true -> Np.min a = Ok lo -> Np.max a = Ok hi ->
  exists vm vM, fvalue lo vm /\ fvalue hi vM /\ scale 4 <= vm /\ vm <= vM.
Proof.
  unfold elevations_floored, Np.min, Np.max.
  destruct (Nd.flatten a) as [|x l]; [discriminate|].
  simpl forallb. intros Hall [= <-] [= <-].
  apply andb_prop in Hall as [Hx Hl].
  destruct (floored_value x Hx) as (vx & Hvx & _).
  destruct (fold_minimum l x vx Hx Hl Hvx) as (vm & Hfm & Hvm & Hle).
  destruct (fold_maximum l x vx Hx Hl Hvx) as (vM & _ & HvM & Hge).
  destruct (floored_value _ Hfm) as (vm' & Hvm' & Hfloor).
  rewrite (pos_float_unique _ _ _ Hvm' Hvm) in Hfloor.
  exists vm, vM. repeat split; [assumption..|lia].
Qed.

Lemma floored_25 : floored 25 = true.
Proof. vm_compute. reflexivity. Qed.

(** [np.maximum(e, 25.0)] on a finite [e]. *)
Lemma maximum_floor (e : float) :
  PyFloat.is_finite e = true -> floored (Np.maximum e 25) = true.
Proof.
  intros Hfin. unfold Np.maximum.
  assert (is_nan e = false) as ->.
  { unfold is_nan. rewrite FloatAxioms.eqb_spec. unfold SFeqb, PyFloat.is_finite in *.
    destruct (Prim2SF e) as [s|s| |s m ex]; try discriminate; simpl.
    - reflexivity.
    - rewrite Z.compare_refl, Pos.compare_cont_refl. destruct s; reflexivity. }
  change (is_nan 25) with false. cbv iota.
  destruct (e <? 25)%float eqn:Hlt; [exact floored_25|].
  unfold floored. rewrite Hfin. simpl andb.
  rewrite FloatAxioms.ltb_spec in Hlt. rewrite FloatAxioms.leb_spec.
  change (Prim2SF 25) with (S754_finite false 7036874417766400 (-48)) in *.
  pose proof (Prim2SF_valid e) as Hv. unfold PyFloat.is_finite in Hfin.
  destruct (Prim2SF e) as [s|s| |s m ex]; try discriminate.
  destruct s; [discriminate|]. simpl in Hv.
  assert (pos_float (S754_finite false 7036874417766400 (-48))
            (7036874417766400 * scale (-48))) as H25.
  { exists 7036874417766400%positive, (-48). repeat split. }
  assert (pos_float (S754_finite false m ex) (Zpos m * scale ex)) as Hx
    by (exists m, ex; auto).
  apply (SFleb_pos _ _ _ _ H25 Hx).
  destruct (Z_le_gt_dec (7036874417766400 * scale (-48)) (Zpos m * scale ex)) as [|Hgt];
    [assumption|].
  assert (SFltb (S754_finite false m ex) (S754_finite false 7036874417766400 (-48)) = true)
    by (apply (SFltb_pos _ _ _ _ Hx H25); lia).
  congruence.
Qed.

(** The surface [_generate_mock_elevation] returns is floored. *)
Lemma floored_surface (raw : ndarray) :
  finite_surface raw = true ->
  elevations_floored (Relief._generate_mock_elevation raw) = true.
Proof.
  unfold finite_surface, elevations_floored, Nd.flatten, Relief._generate_mock_elevation.
  induction raw as [|row raw IH]; simpl; [reflexivity|].
  rewrite !forallb_app. intros [Hrow Hraw]%andb_prop.
  rewrite (IH Hraw), andb_true_r. clear IH Hraw.
  induction row as [|e row IH]; simpl in *; [reflexivity|].
  apply andb_prop in Hrow as [He Hrow].
  now rewrite (maximum_floor e He), (IH Hrow).
Qed.

Lemma fvalue_intro (x : float) (r : spec_float) (v : Z) :
  Prim2SF x = r -> pos_float r v -> fvalue x v.
Proof. intros <-. auto. Qed.

Lemma small_factor (mi : positive) (ei i : Z) :
  -53 <= ei <= 0 -> Zpos mi = i * 2 ^ (- ei) ->
  forall e, -1074 <= e -> Zpos mi * scale (ei + e) = i * scale e.
Proof.
  intros Hei Hmi e He. rewrite Hmi.
  assert (scale e = scale (ei + e) * 2 ^ (- ei)) as ->
    by (rewrite <- scale_add by lia; f_equal; lia).
  ring.
Qed.

(** The five levels of [np.linspace(lo, hi, 5)] lie between [lo] and
    [hi]. *)
Lemma linspace_between (lo hi : float) (vm vM : Z) (L : float) :
  fvalue lo vm -> fvalue hi vM -> scale 4 <= vm -> vm <= vM ->
  L ∈ Np.linspace lo hi 5 ->
  exists vL, fvalue L vL /\ vm <= vL <= vM.
Proof.
  intros Hm HM Hfloor Hle HL.
  assert (exists vL, fvalue lo vL /\ vm <= vL <= vM) as Hlo by (exists vm; split; [exact Hm|lia]).
  assert (exists vL, fvalue hi vL /\ vm <= vL <= vM) as Hhi by (exists vM; split; [exact HM|lia]).
  unfold Np.linspace in HL. cbn [Nat.sub seq map app] in HL.
  change (PyFloat.of_int (Z.of_nat 4)) with 4%float in HL.
  change (PyFloat.of_int (Z.of_nat 0)) with 0%float in HL.
  change (PyFloat.of_int (Z.of_nat 1)) with 1%float in HL.
  change (PyFloat.of_int (Z.of_nat 2)) with 2%float in HL.
  change (PyFloat.of_int (Z.of_nat 3)) with 3%float in HL.
  set (delta := (hi - lo)%float) in HL. set (step := (delta / 4)%float) in HL.
  assert (Prim2SF delta = SFsub prec emax (Prim2SF hi) (Prim2SF lo)) as Hdelta
    by apply FloatAxioms.sub_spec.
  assert (Prim2SF step
          = SFdiv prec emax (Prim2SF delta) (S754_finite false 4503599627370496 (-50)))
    as Hstep by apply FloatAxioms.div_spec.
  assert (forall c, Prim2SF (c + lo) = SFadd prec emax (Prim2SF c) (Prim2SF lo)) as Hadd
    by (intros c; apply FloatAxioms.add_spec).
  pose proof Hm as (mm & em & Hlo_eq & Hbm & Hvm).
  destruct (span_cases _ _ vm vM Hm HM Hfloor Hle) as [Hz|(Wd & Hd & HWd & Hanchor)].
  - (* a flat surface: the step is zero and every level is [lo] *)
    rewrite Hz in Hdelta. rewrite Hdelta in Hstep.
    assert ((step =? 0)%float = true) as Hs0
      by (rewrite FloatAxioms.eqb_spec, Hstep; reflexivity).
    rewrite Hs0 in HL.
    assert (forall c s m e, Prim2SF c = S754_finite s m e \/ Prim2SF c = S754_zero s ->
              Prim2SF (c * delta + lo) = Prim2SF lo) as Hflat.
    { intros c s m e Hc. rewrite Hadd, FloatAxioms.mul_spec, Hdelta, Hlo_eq.
      destruct Hc as [-> | ->]; reflexivity. }
    assert (forall c s m e, Prim2SF c = S754_finite s m e \/ Prim2SF c = S754_zero s ->
              exists vL, fvalue (c * delta + lo) vL /\ vm <= vL <= vM) as Hflat'.
    { intros c s m e Hc. exists vm. split; [|lia]. unfold fvalue.
      rewrite (Hflat c s m e Hc). exact Hm. }
    repeat (apply elem_of_cons in HL as [->|HL]); [..|now apply not_elem_of_nil in HL].
    + apply (Hflat' _ false 1%positive 0). right. reflexivity.
    + apply (Hflat' _ false 4503599627370496%positive (-54)). left. reflexivity.
    + apply (Hflat' _ false 4503599627370496%positive (-53)). left. reflexivity.
    + apply (Hflat' _ false 6755399441055744%positive (-53)). left. reflexivity.
    + exact Hhi.
  - rewrite <- Hdelta in Hd.
    destruct (SFdiv_4_pos _ _ Hd HWd) as (Ws & HWs & Hs). rewrite <- Hstep in Hs.
    assert ((step =? 0)%float = false) as Hs0.
    { rewrite FloatAxioms.eqb_spec. destruct Hs as (ms & es & -> & _). reflexivity. }
    rewrite Hs0 in HL.
    assert (forall (c : float) (mi : positive) (ei i : Z),
              Prim2SF c = S754_finite false mi ei -> bounded prec emax mi ei = true ->
              1 <= i <= 3 -> -53 <= ei <= 0 -> Zpos mi = i * 2 ^ (- ei) ->
              exists vL, fvalue (c * step + lo) vL /\ vm <= vL <= vM) as Hlevel.
    { intros c mi ei i Hc Hb Hi Hei Hmi. unfold fvalue.
      rewrite Hadd, FloatAxioms.mul_spec, Hc.
      apply (level_between (Prim2SF step) (Prim2SF lo) (Prim2SF hi) Ws Wd vm vM mi ei i);
        try assumption.
      now apply small_factor. }
    repeat (apply elem_of_cons in HL as [->|HL]); [..|now apply not_elem_of_nil in HL].
    + exists vm. split; [|lia]. unfold fvalue.
      rewrite Hadd, FloatAxioms.mul_spec.
      destruct Hs as (ms & es & -> & _). rewrite Hlo_eq.
      change (Prim2SF 0) with (S754_zero false). simpl.
      rewrite <- Hlo_eq. exact Hm.
    + apply (Hlevel _ 4503599627370496%positive (-52) 1); try reflexivity; lia.
    + apply (Hlevel _ 4503599627370496%positive (-51) 2); try reflexivity; lia.
    + apply (Hlevel _ 6755399441055744%positive (-51) 3); try reflexivity; lia.
    + exact Hhi.
Qed.

End Levels.

Section Contours.

Lemma mapM_result {A B : Type} (f : A -> result B) (l : list A) (rs : list B) :
  mapM f l = Ok rs -> Forall2 (fun x r => f x = Ok r) l rs.
Proof.
  revert rs. induction l as [|x l IH]; intros rs; simpl.
  - intros [= <-]. constructor.
  - destruct (f x) as [y|] eqn:Hx; simpl; [|discriminate].
    destruct (mapM f l) as [k|]; simpl; [|discriminate].
    intros [= <-]. constructor; auto.
Qed.

Lemma mapM_total {A B : Type} (f : A -> result B) (P : B -> Prop) (l : list A) :
  (forall x, x ∈ l -> exists r, f x = Ok r /\ P r) ->
  exists rs, mapM f l = Ok rs /\ Forall P rs.
Proof.
  induction l as [|x l IH]; intros Hf; simpl.
  - exists []. split; [reflexivity|constructor].
  - destruct (Hf x) as (y & Hx & Hy); [left|].
    destruct IH as (k & Hk & HP); [intros x' Hx'; apply Hf; now right|].
    exists (y :: k). rewrite Hx. simpl. rewrite Hk. simpl.
    split; [reflexivity|constructor; assumption].
Qed.

Lemma length_omap_id {A : Type} (l : list (option A)) :
  (length (omap id l) <= length l)%nat.
Proof. induction l as [|[a|] l IH]; cbn in *; lia. Qed.

Lemma contour_for_level_group (r : Relief.ReliefDataProvider) (level : float)
    (g : Relief.ContourGroup) :
  Relief.contour_for_level r level = Ok (Some g) ->
  Relief.elevation g = level /\ (5 < length (Relief.points g))%nat.
Proof.
  unfold Relief.contour_for_level.
  destruct (Relief.contour_points r level) as [pts|]; simpl; [|discriminate].
  destruct (5 <? length pts)%nat; [|discriminate].
  destruct pts as [|first remaining]; [discriminate|].
  destruct (Relief.chain _ _ _) as [sorted|]; simpl; [|discriminate].
  destruct (5 <? length sorted)%nat eqn:Hlen; [|discriminate].
  intros [= <-]. simpl. split; [reflexivity|]. now apply Nat.ltb_lt.
Qed.

Lemma length_linspace (lo hi : float) (n : nat) :
  (1 <= n)%nat -> length (Np.linspace lo hi n) = n.
Proof.
  intros Hn. unfold Np.linspace. rewrite length_app, length_map, length_seq. simpl. lia.
Qed.

(** What [get_contour_lines()] returns, when it returns: groups for some
    of the five levels, each with more than five points. *)
Lemma get_contour_lines_groups (r : Relief.ReliefDataProvider)
    (groups : list Relief.ContourGroup) :
  Relief.get_contour_lines r None = Ok groups ->
  exists lo hi, Np.min (Relief.elevation_grid r) = Ok lo /\
                Np.max (Relief.elevation_grid r) = Ok hi /\
    (length groups <= 5)%nat /\
    forall g, g ∈ groups ->
      Relief.elevation g ∈ Np.linspace lo hi 5 /\ (5 < length (Relief.points g))%nat.
Proof.
  unfold Relief.get_contour_lines, mbind, result_bind, mret, result_ret.
  destruct (Np.min _) as [lo|]; [|discriminate].
  destruct (Np.max _) as [hi|]; [|discriminate].
  destruct (mapM (Relief.contour_for_level r) (Np.linspace lo hi 5)) as [found|] eqn:Hfound;
    [|discriminate].
  intros [= <-]. exists lo, hi. split; [reflexivity|]. split; [reflexivity|].
  apply mapM_result in Hfound.
  pose proof (Forall2_length _ _ _ Hfound) as Hlen.
  rewrite length_linspace in Hlen by lia.
  split; [pose proof (length_omap_id found); lia|].
  intros g Hg. apply list_elem_of_omap in Hg as (og & Hog & Heq).
  simpl in Heq. subst og.
  apply list_elem_of_lookup in Hog as [i Hi].
  destruct (Forall2_lookup_r _ _ _ _ _ Hfound Hi) as (level & Hlevel & Hgroup).
  destruct (contour_for_level_group _ _ _ Hgroup) as [-> Hpts].
  split; [|exact Hpts]. apply list_elem_of_lookup. eauto.
Qed.

Lemma squares_finite_spec (l : list float) (a b : float) :
  squares_finite l = true -> a ∈ l -> b ∈ l -> exists r, PyFloat.pow2 (a - b) = Ok r.
Proof.
  unfold squares_finite. intros Hl Ha Hb.
  rewrite forallb_forall in Hl. apply list_elem_of_In in Ha, Hb.
  specialize (Hl a Ha). rewrite forallb_forall in Hl. specialize (Hl b Hb).
  destruct (PyFloat.pow2 (a - b)) as [r|]; [eauto|discriminate].
Qed.

Lemma grid_lats_finite : squares_finite grid_lats = true.
Proof. vm_compute. reflexivity. Qed.

Lemma grid_lons_finite : squares_finite grid_lons = true.
Proof. vm_compute. reflexivity. Qed.

Lemma closest_ok (last_point : float * float) (remaining : list (float * float))
    (i : nat) (min_dist : float) (min_idx : nat) :
  on_grid last_point -> Forall on_grid remaining ->
  exists d idx, Relief.closest last_point remaining i min_dist min_idx = Ok (d, idx).
Proof.
  intros [Hlat Hlon] Hrem. revert i min_dist min_idx.
  induction Hrem as [|point rest [Hplat Hplon] _ IH]; intros i min_dist min_idx; simpl.
  - eauto.
  - destruct (squares_finite_spec _ _ _ grid_lats_finite Hplat Hlat) as [a ->].
    destruct (squares_finite_spec _ _ _ grid_lons_finite Hplon Hlon) as [b ->].
    simpl. destruct (a + b <? min_dist)%float; apply IH.
Qed.

Lemma last_on_grid (sorted : list (float * float)) (first : float * float) :
  Forall on_grid sorted -> on_grid first -> on_grid (List.last sorted first).
Proof.
  intros Hs Hf. induction Hs as [|p l Hp Hl IH]; simpl; [exact Hf|].
  destruct l; [exact Hp|exact IH].
Qed.

Lemma nth_on_grid (l : list (float * float)) (i : nat) (d : float * float) :
  Forall on_grid l -> on_grid d -> on_grid (nth i l d).
Proof.
  intros Hl Hd. revert i. induction Hl as [|p l Hp Hl IH]; intros [|i]; simpl; auto.
Qed.

(** The chaining loop ends without an exception on points of the grid. *)
Lemma chain_ok (fuel : nat) (sorted remaining : list (float * float)) :
  Forall on_grid sorted -> Forall on_grid remaining ->
  exists out, Relief.chain fuel sorted remaining = Ok out.
Proof.
  revert sorted remaining. induction fuel as [|fuel IH]; intros sorted remaining Hs Hr.
  - destruct remaining; simpl; eauto.
  - destruct remaining as [|first rest]; [simpl; eauto|].
    pose proof (Forall_inv Hr) as Hfirst. pose proof (Forall_inv_tail Hr) as Hrest.
    cbn [Relief.chain].
    destruct (closest_ok (List.last sorted first) (first :: rest) 0 infinity 0
                (last_on_grid _ _ Hs Hfirst) Hr) as (d & idx & ->).
    cbn [mbind result_bind].
    destruct (d <? 0.01)%float.
    + apply IH.
      * apply Forall_app. split; [exact Hs|]. constructor; [|constructor].
        now apply nth_on_grid.
      * now apply Forall_delete.
    + destruct (5 <? length sorted)%nat; [eauto|].
      apply IH; [constructor; [exact Hfirst|constructor]|exact Hrest].
Qed.

Lemma elem_of_cells (W H y x : Z) :
  (y, x) ∈ (y ← py_range 0 H 1; x ← py_range 0 W 1; [(y, x)]) ->
  y ∈ py_range 0 H 1 /\ x ∈ py_range 0 W 1.
Proof.
  intros Hc. apply list_elem_of_bind in Hc as (y' & Hc & Hy).
  apply list_elem_of_bind in Hc as (x' & Hc & Hx).
  apply list_elem_of_singleton in Hc as [= -> ->]. auto.
Qed.

Lemma omap_id_Forall {A : Type} (P : A -> Prop) (l : list (option A)) :
  Forall (fun o => match o with Some a => P a | None => True end) l ->
  Forall P (omap id l).
Proof.
  induction 1 as [|[a|] l Ha _ IH]; cbn; [constructor|constructor; assumption|assumption].
Qed.

Lemma shape_generate_mock_elevation (h w : Z) (raw : ndarray) :
  Nd.shape h w raw -> Nd.shape h w (Relief._generate_mock_elevation raw).
Proof.
  intros [Hlen Hrows]. unfold Relief._generate_mock_elevation. split.
  - now rewrite length_map.
  - apply Forall_map. eapply Forall_impl; [exact Hrows|].
    intros row Hrow. simpl. now rewrite length_map.
Qed.

(** On the server's provider every cell is read and located without an
    exception. *)
Lemma contour_points_ok (raw : ndarray) (level : float) :
  Nd.shape 100 100 raw ->
  exists pts, Relief.contour_points (relief_provider raw) level = Ok pts /\
              Forall on_grid pts.
Proof.
  intros Hshape%shape_generate_mock_elevation. unfold Relief.contour_points.
  match goal with |- context [mapM ?f ?l] =>
    destruct (mapM_total f
      (fun o => match o with Some a => on_grid a | None => True end) l)
      as (found & -> & Hfound)
  end.
  - intros [y x] Hc. apply elem_of_cells in Hc as [Hy Hx].
    pose proof (py_range_bounds 100 1 y ltac:(lia) Hy) as Hy'.
    pose proof (py_range_bounds 100 1 x ltac:(lia) Hx) as Hx'.
    destruct (getitem_lookup _ _ _ _ _ Hshape Hy' Hx') as (t & Ht & _).
    simpl Relief.elevation_grid. rewrite Ht. cbn [mbind result_bind].
    destruct (abs (t - level) <? 1)%float; [|eexists; split; [reflexivity|exact I]].
    eexists. split; [reflexivity|]. split; simpl.
    + apply list_elem_of_fmap. exists y. split; [reflexivity|exact Hy].
    + apply list_elem_of_fmap. exists x. split; [reflexivity|exact Hx].
  - eexists. split; [reflexivity|]. now apply omap_id_Forall.
Qed.

Lemma contour_for_level_ok (raw : ndarray) (level : float) :
  Nd.shape 100 100 raw ->
  exists og, Relief.contour_for_level (relief_provider raw) level = Ok og.
Proof.
  intros Hshape. unfold Relief.contour_for_level.
  destruct (contour_points_ok raw level Hshape) as (pts & -> & Hpts).
  cbn [mbind result_bind].
  destruct (5 <? length pts)%nat; [|eauto].
  destruct pts as [|first remaining]; [eauto|].
  destruct (chain_ok (length remaining) [first] remaining) as [sorted ->].
  - constructor; [exact (Forall_inv Hpts)|constructor].
  - exact (Forall_inv_tail Hpts).
  - cbn [mbind result_bind]. destruct (5 <? length sorted)%nat; eauto.
Qed.

Lemma flatten_nonempty (a : ndarray) :
  Nd.shape 100 100 a -> exists x l, Nd.flatten a = x :: l.
Proof.
  intros [Hlen Hrows]. destruct a as [|row a]; [discriminate|].
  pose proof (Forall_inv Hrows) as Hrow. destruct row as [|x row]; [discriminate|].
  unfold Nd.flatten. simpl. eauto.
Qed.

(** [get_contour_lines()] returns on the server's provider. *)
Lemma get_contour_lines_ok (raw : ndarray) :
  Nd.shape 100 100 raw ->
  exists groups, Relief.get_contour_lines (relief_provider raw) None = Ok groups.
Proof.
  intros Hshape. unfold Relief.get_contour_lines, Np.min, Np.max.
  simpl Relief.elevation_grid.
  destruct (flatten_nonempty _ (shape_generate_mock_elevation _ _ _ Hshape))
    as (x & l & ->).
  cbn [mbind result_bind].
  match goal with |- context [mapM ?f ?l] =>
    destruct (mapM_total f (fun _ => True) l) as (found & -> & _)
  end.
  - intros level _. destruct (contour_for_level_ok raw level Hshape) as [og ->]. eauto.
  - eauto.
Qed.

Lemma closest_index (last_point : float * float) (remaining : list (float * float))
    (i : nat) (min_dist : float) (min_idx : nat) (d : float) (idx : nat) :
  Relief.closest last_point remaining i min_dist min_idx = Ok (d, idx) ->
  idx = min_idx \/ (i <= idx < i + length remaining)%nat.
Proof.
  revert i min_dist min_idx.
  induction remaining as [|point rest IH]; intros i min_dist min_idx; simpl.
  - intros [= _ <-]. now left.
  - destruct (PyFloat.pow2 (point.1 - last_point.1)) as [a|];
      cbn [mbind result_bind]; [|discriminate].
    destruct (PyFloat.pow2 (point.2 - last_point.2)) as [b|];
      cbn [mbind result_bind]; [|discriminate].
    destruct (a + b <? min_dist)%float; intros H; apply IH in H; lia.
Qed.

(** The loop removes a point from [remaining] at every iteration:
    [length remaining] iterations always suffice, and more change
    nothing. *)
Lemma chain_fuel (fuel fuel' : nat) (sorted remaining : list (float * float)) :
  (length remaining <= fuel)%nat -> (length remaining <= fuel')%nat ->
  Relief.chain fuel sorted remaining = Relief.chain fuel' sorted remaining.
Proof.
  revert fuel' sorted remaining.
  induction fuel as [|fuel IH]; intros fuel' sorted remaining Hf Hf'.
  - destruct remaining; [|simpl in Hf; lia]. destruct fuel'; reflexivity.
  - destruct remaining as [|first rest]; [destruct fuel'; reflexivity|].
    destruct fuel' as [|fuel']; [simpl in Hf'; lia|].
    simpl in Hf, Hf'. cbn [Relief.chain].
    destruct (Relief.closest _ _ _ _ _) as [[d idx]|] eqn:Hc; [|reflexivity].
    cbn [mbind result_bind].
    apply closest_index in Hc. simpl in Hc.
    destruct (d <? 0.01)%float.
    + assert (length (delete idx (first :: rest)) = length rest) as Hlen.
      { rewrite length_delete by (apply lookup_lt_is_Some; simpl; lia). simpl. lia. }
      apply IH; lia.
    + destruct (5 <? length sorted)%nat; [reflexivity|]. apply IH; lia.
Qed.

End Contours.

(** C8. [get_contour_lines()] returns on the server's provider, whatever
    100x100 surface the generator produced before the 25 m floor; on
    every provider a returned list has at most five groups and every
    group has more than five points; and on every provider [__init__]
    builds from a surface without NaN or infinite entries, every group's
    elevation lies between the [min_elevation] and the [max_elevation]
    of [get_bounds]. *)
Theorem C8_contour_lines :
  (forall raw : ndarray,
     Nd.shape 100 100 raw ->
     exists groups, Relief.get_contour_lines (relief_provider raw) None = Ok groups) /\
  (forall (r : Relief.ReliefDataProvider) (groups : list Relief.ContourGroup),
     Relief.get_contour_lines r None = Ok groups ->
     (length groups <= 5)%nat /\
     forall g, g ∈ groups -> (5 < length (Relief.points g))%nat) /\
  (forall (base_lat base_lon : float) (grid_size : Z * Z) (raw : ndarray)
          (groups : list Relief.ContourGroup),
     let r := Relief.init base_lat base_lon grid_size raw in
     finite_surface raw = true ->
     Relief.get_contour_lines r None = Ok groups ->
     exists b, Relief.get_bounds r = Ok b /\
       forall g, g ∈ groups ->
         (Relief.min_elevation b <=? Relief.elevation g)%float = true /\
         (Relief.elevation g <=? Relief.max_elevation b)%float = true).
Proof.
  split; [exact get_contour_lines_ok|]. split.
  - intros r groups Hret.
    destruct (get_contour_lines_groups r groups Hret) as (lo & hi & _ & _ & Hlen & Hg).
    split; [exact Hlen|]. intros g Hin. exact (proj2 (Hg g Hin)).
  - intros base_lat base_lon grid_size raw groups r Hfin Hret.
    destruct (get_contour_lines_groups r groups Hret) as (lo & hi & Hmin & Hmax & _ & Hg).
    unfold Relief.get_bounds. rewrite Hmin, Hmax.
    eexists. split; [reflexivity|]. simpl.
    destruct (min_max_floored _ lo hi (floored_surface raw Hfin) Hmin Hmax)
      as (vm & vM & Hvm & HvM & H16 & Hle).
    intros g Hin.
    destruct (linspace_between lo hi vm vM _ Hvm HvM H16 Hle (proj1 (Hg g Hin)))
      as (vL & HvL & Hrange).
    rewrite !FloatAxioms.leb_spec.
    split; [apply (SFleb_pos _ _ vm vL Hvm HvL)|apply (SFleb_pos _ _ vL vM HvL HvM)]; lia.
Qed.

(** C8 on the server's provider over a flat surface, and on a 3x3
    provider whose floored surface spans 25 m to 31 m: of the levels 25,
    26.5, 28, 29.5 and 31 only 29.5 has more than five cells within the
    tolerance. *)
Lemma C8_contour_lines_witness :
  (exists groups,
     Relief.get_contour_lines (relief_provider (uniform 100 100 30)) None = Ok groups) /\
  exists groups, Relief.get_contour_lines sample_relief None = Ok groups /\
    map Relief.elevation groups = [29.5]%float /\
    (forall g, g ∈ groups -> (5 < length (Relief.points g))%nat) /\
    exists b, Relief.get_bounds sample_relief = Ok b /\
      forall g, g ∈ groups ->
        (Relief.min_elevation b <=? Relief.elevation g)%float = true /\
        (Relief.elevation g <=? Relief.max_elevation b)%float = true.
Proof.
  split; [apply (proj1 C8_contour_lines), shape_uniform|].
  assert (exists groups, Relief.get_contour_lines sample_relief None = Ok groups /\
            map Relief.elevation groups = [29.5]%float)
    as (groups & Hret & Hlevels)
    by (vm_compute; eexists; split; reflexivity).
  exists groups. split; [exact Hret|]. split; [exact Hlevels|].
  split; [exact (proj2 (proj1 (proj2 C8_contour_lines) sample_relief groups Hret))|].
  apply (proj2 (proj2 C8_contour_lines) 52.48%float 13.43%float (3, 3) _ groups);
    [vm_compute; reflexivity|exact Hret].
Defined.

(** * Further properties of the simulator and the relief provider *)

Section Order.

Lemma finite_magnitude (m : positive) (e : Z) :
  bounded prec emax m e = true ->
  0 < Zpos m * scale e < 2 ^ 54 * scale 971.
Proof.
  intros Hb.
  assert (pos_float (S754_finite false m e) (Zpos m * scale e)) as Hp
    by (exists m, e; auto).
  pose proof (pos_float_positive _ _ Hp). pose proof (pos_float_below_max _ _ Hp).
  assert (0 < scale 971) by (apply scale_pos; lia).
  assert (2 ^ 53 * scale 971 < 2 ^ 54 * scale 971)
    by (apply Z.mul_lt_mono_pos_r; [assumption|reflexivity]).
  lia.
Qed.

(** On floats that are not NaN, the comparison is the comparison of the
    positions. *)
Lemma SFcompare_ord (x y : spec_float) :
  valid_binary x = true -> valid_binary y = true ->
  x <> S754_nan -> y <> S754_nan ->
  SFcompare x y = Some (SFord x ?= SFord y).
Proof.
  intros Hx Hy Hnx Hny.
  assert (0 < 2 ^ 54 * scale 971) as Hbig
    by (apply Z.mul_pos_pos; [reflexivity|apply scale_pos; lia]).
  destruct x as [sx|sx| |sx mx ex]; [| |congruence|];
    destruct y as [sy|sy| |sy my ey]; try congruence;
    cbn [SpecFloat.valid_binary] in Hx, Hy;
    try (pose proof (finite_magnitude _ _ Hx) as Hmx);
    try (pose proof (finite_magnitude _ _ Hy) as Hmy);
    try (destruct sx, sy;
         first [ now rewrite (SFcompare_neg _ _ _ _ Hx Hy); cbn [SFord cond_Zopp];
                 rewrite <- Z.compare_opp
               | now apply SFcompare_pos; [exists mx, ex|exists my, ey]
               | cbn [SFcompare SFord cond_Zopp]; f_equal; symmetry;
                 first [ apply Z.compare_eq_iff; lia
                       | apply Z.compare_lt_iff; lia
                       | apply Z.compare_gt_iff; lia ] ]);
    try (destruct sx; cbn [SFcompare SFord cond_Zopp]; f_equal; symmetry;
         first [ apply Z.compare_eq_iff; lia
               | apply Z.compare_lt_iff; lia
               | apply Z.compare_gt_iff; lia ]);
    try (destruct sy; cbn [SFcompare SFord cond_Zopp]; f_equal; symmetry;
         first [ apply Z.compare_eq_iff; lia
               | apply Z.compare_lt_iff; lia
               | apply Z.compare_gt_iff; lia ]).
Qed.

Lemma not_nan_spec (x : float) : is_nan x = false <-> Prim2SF x <> S754_nan.
Proof.
  unfold is_nan. rewrite FloatAxioms.eqb_spec. unfold SFeqb.
  pose proof (Prim2SF_valid x) as Hv.
  destruct (Prim2SF x) as [s|s| |s m e] eqn:Hx; simpl.
  - split; [discriminate|reflexivity].
  - split; [discriminate|]. destruct s; reflexivity.
  - split; [discriminate|congruence].
  - rewrite Z.compare_refl, Pos.compare_cont_refl.
    split; [discriminate|]. destruct s; reflexivity.
Qed.

Lemma leb_ford (x y : float) :
  is_nan x = false -> is_nan y = false ->
  (x <=? y)%float = true <-> ford x <= ford y.
Proof.
  intros Hx%not_nan_spec Hy%not_nan_spec.
  rewrite FloatAxioms.leb_spec. unfold SFleb, ford.
  rewrite (SFcompare_ord _ _ (Prim2SF_valid x) (Prim2SF_valid y) Hx Hy).
  destruct (Z.compare_spec (SFord (Prim2SF x)) (SFord (Prim2SF y)));
    split; intros; try lia; try reflexivity; discriminate.
Qed.

Lemma ltb_ford (x y : float) :
  is_nan x = false -> is_nan y = false ->
  (x <? y)%float = true <-> ford x < ford y.
Proof.
  intros Hx%not_nan_spec Hy%not_nan_spec.
  rewrite FloatAxioms.ltb_spec. unfold SFltb, ford.
  rewrite (SFcompare_ord _ _ (Prim2SF_valid x) (Prim2SF_valid y) Hx Hy).
  destruct (Z.compare_spec (SFord (Prim2SF x)) (SFord (Prim2SF y)));
    split; intros; try lia; try reflexivity; discriminate.
Qed.

Lemma leb_nan_l (x y : float) : is_nan x = true -> (x <=? y)%float = false.
Proof.
  intros Hx. rewrite FloatAxioms.leb_spec.
  destruct (is_nan x) eqn:Hn; [|discriminate].
  assert (Prim2SF x = S754_nan) as ->.
  { destruct (Prim2SF x) eqn:E; try reflexivity;
      assert (is_nan x = false) by (apply not_nan_spec; congruence); congruence. }
  reflexivity.
Qed.

End Order.

Section Hotspot.
Context {np : NumPy}.

Lemma concat_mjoin {A : Type} (ls : list (list A)) : concat ls = mjoin ls.
Proof. induction ls as [|l ls IH]; [reflexivity|]. simpl. now rewrite IH. Qed.

(** The flat (C order) index of the entry [(i, j)]. *)
Lemma flatten_at (W H : Z) (a : ndarray) (i j : nat) :
  Nd.shape W H a -> (j < Z.to_nat H)%nat ->
  Nd.flatten a !! (i * Z.to_nat H + j)%nat = Nd.at_ a i j.
Proof.
  intros [_ Hrows] Hj. unfold Nd.flatten, Nd.at_. rewrite concat_mjoin.
  destruct (mjoin a !! (i * Z.to_nat H + j)%nat) as [x|] eqn:Hx.
  - apply (join_lookup_Some_same_length' (Z.to_nat H)) in Hx as (l & Hl & Hlx);
      [|assumption..].
    rewrite Hl. simpl. now rewrite Hlx.
  - destruct (a !! i) as [l|] eqn:Hl; [|reflexivity]. simpl.
    destruct (l !! j) as [x|] eqn:Hlx; [|reflexivity].
    assert (mjoin a !! (i * Z.to_nat H + j)%nat = Some x) as Hx'
      by (apply (join_lookup_Some_same_length' (Z.to_nat H)); eauto).
    congruence.
Qed.

Lemma flatten_index (W H : Z) (a : ndarray) (k : nat) (x : float) :
  Nd.shape W H a -> Nd.flatten a !! k = Some x ->
  (0 < Z.to_nat H)%nat /\ (k / Z.to_nat H < Z.to_nat W)%nat /\
  Nd.at_ a (k / Z.to_nat H) (k mod Z.to_nat H) = Some x.
Proof.
  intros Hs Hk. pose proof Hs as [Hlen Hrows].
  unfold Nd.flatten in Hk. rewrite concat_mjoin in Hk.
  apply (join_lookup_Some_same_length (Z.to_nat H)) in Hk as (j & l & i' & Hl & Hx & ->);
    [|assumption].
  assert (i' < Z.to_nat H)%nat as Hi'.
  { rewrite <- (shape_row _ _ _ _ _ Hs Hl). now apply lookup_lt_Some in Hx. }
  assert (j < Z.to_nat W)%nat as Hj by (rewrite <- Hlen; now apply lookup_lt_Some in Hl).
  assert ((j * Z.to_nat H + i') / Z.to_nat H = j)%nat as Hdiv
    by (rewrite Nat.div_add_l, Nat.div_small by lia; lia).
  assert ((j * Z.to_nat H + i') mod Z.to_nat H = i')%nat as Hmod
    by (rewrite Nat.add_comm, Nat.Div0.mod_add; apply Nat.mod_small; lia).
  rewrite Hdiv, Hmod. split; [lia|]. split; [exact Hj|].
  unfold Nd.at_. rewrite Hl. exact Hx.
Qed.

(** [np.argmax] on entries without NaN: the running maximum is at least
    every entry seen, and above every entry seen before it. *)
Lemma argmax_from_max (l pre : list float) (best : float) (besti : nat) :
  Forall (fun t => is_nan t = false) (pre ++ l) ->
  pre !! besti = Some best ->
  (forall t, t ∈ pre -> (t <=? best)%float = true) ->
  (forall j t, (j < besti)%nat -> pre !! j = Some t -> (t <? best)%float = true) ->
  exists m, (pre ++ l) !! Nd.argmax_from best besti (length pre) l = Some m /\
    (forall t, t ∈ pre ++ l -> (t <=? m)%float = true) /\
    (forall j t, (j < Nd.argmax_from best besti (length pre) l)%nat ->
       (pre ++ l) !! j = Some t -> (t <? m)%float = true).
Proof.
  revert pre best besti. induction l as [|v l IH]; intros pre best besti Hnan Hbest Hle Hlt.
  - simpl. rewrite app_nil_r. eauto.
  - assert (is_nan best = false) as Hnb.
    { rewrite Forall_forall in Hnan. apply Hnan. apply elem_of_app. left.
      eapply list_elem_of_lookup_2. exact Hbest. }
    assert (is_nan v = false) as Hnv.
    { rewrite Forall_forall in Hnan. apply Hnan. apply elem_of_app. right. left. }
    simpl. rewrite Hnb.
    replace (pre ++ v :: l) with ((pre ++ [v]) ++ l) in * by (now rewrite <- app_assoc).
    replace (S (length pre)) with (length (pre ++ [v])) by (rewrite length_app; simpl; lia).
    destruct (v <=? best)%float eqn:Hv.
    + apply IH; [assumption| | |].
      * apply lookup_app_l_Some. exact Hbest.
      * intros t [Ht|Ht%list_elem_of_singleton]%elem_of_app; [auto|now subst].
      * intros j t Hj Hjt. apply (Hlt j t Hj).
        rewrite lookup_app_l in Hjt; [exact Hjt|].
        apply lookup_lt_Some in Hbest. lia.
    + assert (ford best < ford v) as Hbv.
      { destruct (Z_lt_le_dec (ford best) (ford v)) as [|Hge]; [assumption|].
        apply (leb_ford v best Hnv Hnb) in Hge. congruence. }
      assert (forall t, t ∈ pre -> (t <? v)%float = true) as Hpre.
      { intros t Ht. assert (is_nan t = false) as Hnt.
        { rewrite Forall_forall in Hnan. apply Hnan. apply elem_of_app. left.
          apply elem_of_app. now left. }
        apply (ltb_ford t v Hnt Hnv).
        pose proof (proj1 (leb_ford t best Hnt Hnb) (Hle t Ht)). lia. }
      apply IH; [assumption| | |].
      * rewrite lookup_app_r by lia. now rewrite Nat.sub_diag.
      * intros t [Ht|Ht%list_elem_of_singleton]%elem_of_app.
        -- assert (is_nan t = false) as Hnt.
           { rewrite Forall_forall in Hnan. apply Hnan. apply elem_of_app. left.
             apply elem_of_app. now left. }
           apply (leb_ford t v Hnt Hnv).
           pose proof (proj1 (ltb_ford t v Hnt Hnv) (Hpre t Ht)). lia.
        -- subst t. apply (leb_ford v v Hnv Hnv). lia.
      * intros j t Hj Hjt. rewrite lookup_app_l in Hjt by assumption.
        apply Hpre. eapply list_elem_of_lookup_2. exact Hjt.
Qed.

End Hotspot.

Section GetState.
Context {np : NumPy}.

Lemma collect_pure_spec {A B} (cells : list A) (body : A -> M B) (w w' : world)
    (bs : list B) :
  (forall c, pure (body c)) ->
  collect cells body w = (Ok bs, w') ->
  Forall2 (fun c b => body c w = (Ok b, w)) cells bs.
Proof.
  intros Hp. revert bs. induction cells as [|c cells IH]; intros bs; simpl.
  - intros [= <- _]. constructor.
  - unfold mbind, M_bind. pose proof (Hp c w) as Hc.
    destruct (body c w) as [[b|e] w1] eqn:Hb; [|discriminate]. simpl in Hc. subst w1.
    pose proof (pure_collect cells body Hp w) as Hcs.
    destruct (collect cells body w) as [[bs'|e] w2] eqn:Hbs; [|discriminate].
    simpl in Hcs. subst w2. intros [= <- <-].
    constructor; [exact Hb|]. now apply IH.
Qed.

Lemma pow2_ok (u r : float) : PyFloat.pow2 u = Ok r -> r = (u * u)%float.
Proof.
  unfold PyFloat.pow2. destruct (_ && _); [discriminate|]. now intros [= <-].
Qed.

(** What a returned snapshot is made of. *)
Lemma get_state_ok (w : world) (snap : Snapshot) :
  fst (get_state w) = Ok snap ->
  let s := self w in
  let ct := heap w !!! current_temp s in
  exists samples k ht,
    Forall2 (fun '(x, y) b =>
               exists t u v, temperature w x y = Ok t /\ wind_u w x y = Ok u /\
                             wind_v w x y = Ok v /\ b = sample_at s x y t u v)
            (sample_cells s) samples /\
    Nd.argmax ct = Ok k /\
    Nd.getitem ct (fst (Nd.unravel_index k ct)) (snd (Nd.unravel_index k ct)) = Ok ht /\
    snap = {| snap_temperature_data := map fst samples;
              snap_wind_data := map snd samples;
              snap_hotspot :=
                (fst (grid_to_latlon s (fst (Nd.unravel_index k ct))
                                       (snd (Nd.unravel_index k ct))),
                 snd (grid_to_latlon s (fst (Nd.unravel_index k ct))
                                       (snd (Nd.unravel_index k ct))), ht);
              snap_base_temp := np_mean (heap w !!! base_temp s);
              snap_current_avg_temp := np_mean ct;
              snap_interventions := interventions s |}.
Proof.
  intros Hret s ct. unfold get_state in Hret.
  unfold mbind at 1, M_bind at 1, get_self at 1 in Hret. fold s in Hret.
  unfold mbind at 1, M_bind at 1 in Hret.
  match type of Hret with
  | context [collect ?cells ?body] =>
      assert (forall c, pure (body c)) as Hpure;
      [|pose proof (pure_collect cells body Hpure w) as Hsnd;
        destruct (collect cells body w) as [[samples|e] w1] eqn:Hc; [|discriminate];
        pose proof (collect_pure_spec cells body w w1 samples Hpure Hc) as Hall]
  end.
  { intros [x y]. destruct (grid_to_latlon s x y) as [lat lon].
    repeat (apply pure_bind;
            [first [apply pure_getitem | apply pure_lift]|]; intros ?).
    apply pure_ret. }
  simpl in Hsnd. subst w1.
  unfold mbind at 1, M_bind at 1, load at 1 in Hret. fold ct in Hret.
  unfold mbind at 1, M_bind at 1, lift at 1 in Hret.
  destruct (Nd.argmax ct) as [k|] eqn:Hk; [|discriminate].
  destruct (grid_to_latlon s _ _) as [hlat hlon] eqn:Hg in Hret.
  unfold mbind at 1, M_bind at 1, lift at 1 in Hret.
  destruct (Nd.getitem ct _ _) as [ht|] eqn:Hht in Hret; [|discriminate].
  unfold mbind at 1, M_bind at 1, load at 1 in Hret.
  simpl in Hret. injection Hret as <-.
  exists samples, k, ht. split; [|split; [reflexivity|split; [exact Hht|]]].
  - eapply Forall2_impl; [exact Hall|]. intros [x y] b Hb. cbv beta iota in Hb.
    unfold sample_at. destruct (grid_to_latlon s x y) as [lat lon].
    unfold mbind, M_bind in Hb. rewrite !getitem_eq in Hb.
    unfold temperature, wind_u, wind_v. fold s.
    destruct (array_at w (current_temp s) x y) as [t|]; [|discriminate].
    destruct (array_at w (current_wind_u s) x y) as [u|]; [|discriminate].
    destruct (array_at w (current_wind_v s) x y) as [v|]; [|discriminate].
    unfold lift in Hb.
    destruct (PyFloat.pow2 u) as [uu|] eqn:Hu; cbv iota beta in Hb; [|discriminate].
    destruct (PyFloat.pow2 v) as [vv|] eqn:Hv; cbv iota beta in Hb; [|discriminate].
    apply pow2_ok in Hu, Hv. subst uu vv.
    unfold mret, M_ret in Hb. injection Hb as <-. exists t, u, v. auto.
  - rewrite Hg. reflexivity.
Qed.

End GetState.

Section Samples.
Context {np : NumPy}.

Lemma py_range_length (n k : Z) :
  length (py_range 0 n k) = Z.to_nat ((n + k - 1) / k).
Proof.
  unfold py_range. rewrite length_map, length_seq. f_equal. f_equal. lia.
Qed.

Lemma py_range_lookup (n k : Z) (i : nat) (z : Z) :
  py_range 0 n k !! i = Some z -> z = k * Z.of_nat i.
Proof.
  unfold py_range. rewrite list_lookup_fmap.
  destruct (seq 0 _ !! i) as [j|] eqn:Hj; [|discriminate].
  apply lookup_seq in Hj as [-> _]. simpl. intros [= <-]. lia.
Qed.

Lemma py_range_elem (n k z : Z) :
  0 < k -> z ∈ py_range 0 n k <-> 0 <= z < n /\ z mod k = 0.
Proof.
  intros Hk. split.
  - intros Hz. split; [now apply (py_range_bounds n k)|].
    apply list_elem_of_lookup in Hz as [i Hi]. apply py_range_lookup in Hi as ->.
    rewrite Z.mul_comm. apply Z.mod_mul. lia.
  - intros [Hz Hmod]. apply Z.mod_divide in Hmod as [q ->]; [|lia].
    unfold py_range. apply list_elem_of_fmap. exists (Z.to_nat q).
    assert (0 <= q) by nia.
    split; [lia|]. apply elem_of_seq. split; [lia|]. simpl.
    assert (q + 1 <= (n - 0 + k - 1) / k) by (apply Z.div_le_lower_bound; nia).
    lia.
Qed.

Lemma length_product {A B : Type} (l : list A) (k : list B) :
  length (x ← l; y ← k; [(x, y)]) = (length l * length k)%nat.
Proof.
  induction l as [|a l IH]; [reflexivity|].
  cbn [mbind list_bind]. rewrite length_app. fold (@mbind list _) in *.
  rewrite IH. simpl. f_equal.
  clear. induction k as [|b k IH]; [reflexivity|]. cbn. now rewrite IH.
Qed.

(** [get_state] samples every second cell of both axes: the in-grid
    cells with even coordinates, (W+1)/2 * (H+1)/2 of them. *)
Lemma sample_cells_spec (s : ClimateSimulator) :
  length (sample_cells s)
  = (Z.to_nat ((grid_width s + 1) / 2) * Z.to_nat ((grid_height s + 1) / 2))%nat /\
  forall x y, (x, y) ∈ sample_cells s <->
    0 <= x < grid_width s /\ 0 <= y < grid_height s /\ x mod 2 = 0 /\ y mod 2 = 0.
Proof.
  unfold sample_cells. split.
  - rewrite length_product, !py_range_length. f_equal; f_equal; f_equal; lia.
  - intros x y. split.
    + intros Hc. apply list_elem_of_bind in Hc as (x' & Hc & Hx).
      apply list_elem_of_bind in Hc as (y' & Hc & Hy).
      apply list_elem_of_singleton in Hc as [= -> ->].
      apply py_range_elem in Hx, Hy; lia.
    + intros (Hx & Hy & Hx2 & Hy2).
      apply list_elem_of_bind. exists x. split; [|apply py_range_elem; auto; lia].
      apply list_elem_of_bind. exists y. split; [|apply py_range_elem; auto; lia].
      now left.
Qed.


(** The cell [np.argmax] picks on a temperature field without NaN. *)
Lemma first_maximum (w : world) (ct : ndarray) (snap : Snapshot) :
  let s := self w in
  heap w !! current_temp s = Some ct ->
  Nd.shape (grid_width s) (grid_height s) ct ->
  no_nan ct = true ->
  fst (get_state w) = Ok snap ->
  exists (i j : Z) (ht : float),
    0 <= i < grid_width s /\ 0 <= j < grid_height s /\
    temperature w i j = Ok ht /\
    snap_hotspot snap
    = (fst (grid_to_latlon s i j), snd (grid_to_latlon s i j), ht) /\
    (forall i' j' t,
       0 <= i' < grid_width s -> 0 <= j' < grid_height s ->
       temperature w i' j' = Ok t -> (t <=? ht)%float = true) /\
    (forall i' j' t,
       0 <= i' < grid_width s -> 0 <= j' < grid_height s ->
       i' < i \/ (i' = i /\ j' < j) ->
       temperature w i' j' = Ok t -> (t <? ht)%float = true).
Proof.
  intros s Hct Hshape Hnan Hret.
  destruct (get_state_ok w snap Hret) as (samples & k & ht & _ & Hk & Hht & ->).
  fold s in Hk, Hht |- *. rewrite (lookup_total_correct _ _ _ Hct) in Hk, Hht |- *.
  cbn [snap_hotspot].
  unfold Nd.argmax in Hk.
  destruct (Nd.flatten ct) as [|v0 l] eqn:Hflat; [discriminate|].
  injection Hk as Hk.
  assert (Forall (fun t => is_nan t = false) ([v0] ++ l)) as Hnan'.
  { unfold no_nan in Hnan. rewrite Hflat in Hnan. rewrite forallb_forall in Hnan.
    apply Forall_forall. intros t Ht. apply negb_true_iff, Hnan, list_elem_of_In, Ht. }
  destruct (argmax_from_max l [v0] v0 0 Hnan' eq_refl) as (m & Hm & Hmax & Hfirst).
  { intros t ->%list_elem_of_singleton. apply (leb_ford v0 v0); [| |lia];
      apply (Forall_inv Hnan'). }
  { intros j t Hj. lia. }
  simpl length in Hm, Hfirst. rewrite Hk in Hm, Hfirst.
  change ([v0] ++ l) with (v0 :: l) in *. rewrite <- Hflat in Hm, Hmax, Hfirst.
  destruct (flatten_index _ _ _ _ _ Hshape Hm) as (HH & Hrow & Hat).
  set (n := Z.to_nat (grid_height s)) in *.
  assert (Nd.unravel_index k ct = (Z.of_nat (k / n), Z.of_nat (k mod n))) as Hidx.
  { unfold Nd.unravel_index. destruct Hshape as [Hlen Hrows].
    destruct ct as [|row ct']; [simpl in Hlen; lia|].
    rewrite (Forall_inv Hrows). reflexivity. }
  rewrite Hidx in Hht |- *. cbn [fst snd] in Hht |- *.
  assert (k mod n < n)%nat as Hcol by (apply Nat.mod_upper_bound; lia).
  pose proof (Nat.div_mod_eq k n) as Hdm.
  assert (n = Z.to_nat (grid_height s)) as Hn by reflexivity.
  set (q := (k / n)%nat) in *. set (r := (k mod n)%nat) in *.
  clearbody q r n.
  assert (forall i' j' t, 0 <= i' < grid_width s -> 0 <= j' < grid_height s ->
            temperature w i' j' = Ok t ->
            Nd.flatten ct !! (Z.to_nat i' * n + Z.to_nat j')%nat = Some t) as Hcell.
  { intros i' j' t Hi' Hj' Ht. unfold temperature in Ht. fold s in Ht.
    rewrite (array_at_lookup _ _ _ _ _ Hct) in Ht.
    destruct (getitem_lookup _ _ _ _ _ Hshape Hi' Hj') as (t' & Ht' & Hat').
    rewrite Hn, (flatten_at _ _ _ _ _ Hshape) by lia. congruence. }
  assert (0 <= Z.of_nat q < grid_width s) as Hq by lia.
  assert (0 <= Z.of_nat r < grid_height s) as Hr by lia.
  exists (Z.of_nat q), (Z.of_nat r), ht.
  split; [exact Hq|]. split; [exact Hr|].
  assert (temperature w (Z.of_nat q) (Z.of_nat r) = Ok ht) as Hcentre.
  { unfold temperature. fold s. now rewrite (array_at_lookup _ _ _ _ _ Hct). }
  split; [exact Hcentre|]. split; [reflexivity|].
  assert (m = ht) as ->.
  { pose proof (Hcell _ _ _ Hq Hr Hcentre) as Hc.
    rewrite !Nat2Z.id in Hc.
    replace (q * n + r)%nat with k in Hc by lia.
    congruence. }
  split.
  - intros i' j' t Hi' Hj' Ht. apply Hmax.
    eapply list_elem_of_lookup_2. exact (Hcell _ _ _ Hi' Hj' Ht).
  - intros i' j' t Hi' Hj' Hbefore Ht.
    apply (Hfirst (Z.to_nat i' * n + Z.to_nat j')%nat); [|exact (Hcell _ _ _ Hi' Hj' Ht)].
    assert (Z.to_nat j' < n)%nat by lia.
    destruct Hbefore as [Hlt|[Heq Hlt]].
    + assert (Z.to_nat i' < q)%nat by lia. nia.
    + assert (Z.to_nat i' = q)%nat by lia.
      assert (Z.to_nat j' < r)%nat by lia. nia.
Qed.

(** X2. On a temperature field without NaN, the hotspot of a returned
    snapshot is the first hottest cell in row-major order: no cell is
    hotter, and every cell before it is strictly cooler. *)
Theorem X2_hotspot_is_first_maximum (w : world) (ct : ndarray) (snap : Snapshot) :
  let s := self w in
  heap w !! current_temp s = Some ct ->
  Nd.shape (grid_width s) (grid_height s) ct ->
  no_nan ct = true ->
  fst (get_state w) = Ok snap ->
  exists (i j : Z) (ht : float),
    0 <= i < grid_width s /\ 0 <= j < grid_height s /\
    temperature w i j = Ok ht /\
    snap_hotspot snap
    = (fst (grid_to_latlon s i j), snd (grid_to_latlon s i j), ht) /\
    (forall i' j' t,
       0 <= i' < grid_width s -> 0 <= j' < grid_height s ->
       temperature w i' j' = Ok t -> (t <=? ht)%float = true) /\
    (forall i' j' t,
       0 <= i' < grid_width s -> 0 <= j' < grid_height s ->
       i' < i \/ (i' = i /\ j' < j) ->
       temperature w i' j' = Ok t -> (t <? ht)%float = true).
Proof. exact (first_maximum w ct snap). Qed.

End Samples.

Section AddBuilding.
Context {np : NumPy}.

Lemma scale_loop (s : ClimateSimulator) (k : float) (x y : Z)
    (cells : list (Z * Z)) (w : world) :
  shaped s w ->
  for_ cells (fun '(dx, dy) =>
      if in_grid s (x + dx) (y + dy) then
        imul (current_wind_u s) (x + dx) (y + dy) k;;
        imul (current_wind_v s) (x + dx) (y + dy) k
      else mret tt) w
  = (Ok tt, transform (compose (scale_change s k x y) cells) w).
Proof.
  intros Hw.
  apply (for_transform _ _ (scale_change s k x y) (shaped s)); auto.
  - intros [dx dy] w' _ Hs. unfold scale_change. simpl.
    destruct (in_grid s (x + dx) (y + dy)) eqn:Hin; [|now rewrite transform_id].
    apply in_grid_spec in Hin as [Hx Hy].
    destruct (Hs _ (current_wind_u_loc s)) as (cu & Hcu & Scu).
    unfold mbind at 1, M_bind at 1.
    rewrite (imul_transform _ _ _ _ _ _ _ _ Hcu Scu Hx Hy).
    set (w2 := transform _ w').
    assert (shaped s w2) as Hs2 by now apply shaped_transform.
    destruct (Hs2 _ (current_wind_v_loc s)) as (cv & Hcv & Scv).
    rewrite (imul_transform _ _ _ _ _ _ _ _ Hcv Scv Hx Hy).
    unfold w2. now rewrite transform_transform.
  - intros c w' _ Hs. now apply shaped_transform.
Qed.

Lemma compose_times {A} (F : A -> loc -> Z -> Z -> float -> float)
    (hit : A -> bool) (k : float) (cells : list A) (l : loc) (i j : Z) (t : float) :
  (forall c t', hit c = true -> F c l i j t' = (t' * k)%float) ->
  (forall c t', hit c = false -> F c l i j t' = t') ->
  compose F cells l i j t = times k (length (List.filter hit cells)) t.
Proof.
  intros Hhit Hmiss. revert t.
  induction cells as [|c cells IH]; intros t; simpl; [reflexivity|].
  destruct (hit c) eqn:Hc; simpl.
  - rewrite Hhit by assumption. rewrite IH. unfold times.
    symmetry. apply (Nat.iter_succ_r _ (fun t0 => (t0 * k)%float) t).
  - rewrite Hmiss by assumption. apply IH.
Qed.

Lemma scale_change_u (s : ClimateSimulator) (k : float) (x y i j : Z)
    (c : Z * Z) (t : float) :
  current_wind_u s <> current_wind_v s ->
  scale_change s k x y c (current_wind_u s) i j t
  = if hits s x y i j c then (t * k)%float else t.
Proof.
  intros Hne. unfold scale_change, hits.
  destruct (in_grid s _ _); simpl; [|reflexivity].
  rewrite on_other by assumption. rewrite on_same. unfold point.
  destruct (Z.eqb_spec i (x + fst c)) as [->|]; [|reflexivity].
  destruct (Z.eqb_spec j (y + snd c)) as [->|]; reflexivity.
Qed.

Lemma scale_change_v (s : ClimateSimulator) (k : float) (x y i j : Z)
    (c : Z * Z) (t : float) :
  current_wind_u s <> current_wind_v s ->
  scale_change s k x y c (current_wind_v s) i j t
  = if hits s x y i j c then (t * k)%float else t.
Proof.
  intros Hne. unfold scale_change, hits.
  destruct (in_grid s _ _); simpl; [|reflexivity].
  rewrite on_same. rewrite on_other by congruence. unfold point.
  destruct (Z.eqb_spec i (x + fst c)) as [->|]; [|reflexivity].
  destruct (Z.eqb_spec j (y + snd c)) as [->|]; reflexivity.
Qed.

Lemma scale_change_other (s : ClimateSimulator) (k : float) (x y i j : Z)
    (c : Z * Z) (l : loc) (t : float) :
  l ∉ [current_wind_u s; current_wind_v s] ->
  scale_change s k x y c l i j t = t.
Proof.
  intros Hl. rewrite !not_elem_of_cons in Hl. unfold scale_change.
  destruct (in_grid s _ _); [|reflexivity].
  rewrite !on_other by tauto. reflexivity.
Qed.

Lemma filter_hits (s : ClimateSimulator) (x y i j : Z) (cells : list (Z * Z)) :
  in_grid s i j = true ->
  length (List.filter (hits s x y i j) cells) = occurrences (i - x, j - y) cells.
Proof.
  intros Hin. unfold occurrences. f_equal. apply List.filter_ext.
  intros [dx dy]. unfold hits. simpl.
  destruct (decide ((dx, dy) = (i - x, j - y))) as [[= -> ->]|Hne].
  - replace (x + (i - x)) with i by lia. replace (y + (j - y)) with j by lia.
    rewrite Hin, !Z.eqb_refl. simpl. symmetry. now apply bool_decide_eq_true.
  - rewrite (bool_decide_eq_false_2 _ Hne).
    rewrite <- andb_assoc. apply andb_false_iff. right.
    apply andb_false_iff.
    destruct (Z.eqb_spec i (x + dx)); [|now left].
    destruct (Z.eqb_spec j (y + dy)); [|now right].
    exfalso. apply Hne. f_equal; lia.
Qed.

(** The wind branch of an ADD_BUILDING call whose two offset lists are
    [sh] and [ch]. *)
Lemma add_building_run (s : ClimateSimulator) (x y : Z) (u v : float)
    (sh ch : list (Z * Z)) (w1 : world) :
  shaped s w1 ->
  array_at w1 (current_wind_u s) x y = Ok u ->
  array_at w1 (current_wind_v s) x y = Ok v ->
  get_wind_shadow_cells u v = Ok sh ->
  get_wind_channel_cells u v = Ok ch ->
  apply_wind_effect s "ADD_BUILDING" x y w1
  = (Ok tt, transform (compose (scale_change s 1.3 x y) ch)
              (transform (compose (scale_change s 0.5 x y) sh) w1)).
Proof.
  intros Hs Hu Hv Hsh Hch. unfold apply_wind_effect.
  replace (String.eqb "ADD_BUILDING" "ADD_BUILDING") with true by reflexivity.
  unfold mbind at 1, M_bind at 1. rewrite getitem_eq, Hu. cbv beta iota zeta.
  unfold mbind at 1, M_bind at 1. rewrite getitem_eq, Hv. cbv beta iota zeta.
  unfold mbind at 1, M_bind at 1. unfold lift at 1. rewrite Hsh. cbv beta iota zeta.
  unfold mbind at 1, M_bind at 1.
  rewrite (scale_loop s 0.5 x y sh w1 Hs). cbv beta iota zeta.
  unfold mbind at 1, M_bind at 1. unfold lift at 1. rewrite Hch. cbv beta iota zeta.
  apply scale_loop. now apply shaped_transform.
Qed.

(** X5. The wind after an ADD_BUILDING call that resolves to [(x, y)]:
    every cell's two components are halved once per occurrence of its
    offset in the shadow list, then multiplied by 1.3 once per
    occurrence in the channel list; both lists are computed from the
    wind at [(x, y)] before the call. *)
Theorem X5_add_building_wind (w : world) (lat lon : float) (x y : Z) (u v : float)
    (sh ch : list (Z * Z)) :
  wf w -> 1 <= grid_width (self w) -> 1 <= grid_height (self w) ->
  latlon_to_grid (self w) lat lon = Ok (x, y) ->
  wind_u w x y = Ok u -> wind_v w x y = Ok v ->
  get_wind_shadow_cells u v = Ok sh ->
  get_wind_channel_cells u v = Ok ch ->
  let w' := snd (apply_intervention "ADD_BUILDING" lat lon w) in
  forall (i j : Z) (tu tv : float),
    0 <= i < grid_width (self w) -> 0 <= j < grid_height (self w) ->
    wind_u w i j = Ok tu -> wind_v w i j = Ok tv ->
    wind_u w' i j
    = Ok (times 1.3 (occurrences (i - x, j - y) ch)
            (times 0.5 (occurrences (i - x, j - y) sh) tu)) /\
    wind_v w' i j
    = Ok (times 1.3 (occurrences (i - x, j - y) ch)
            (times 0.5 (occurrences (i - x, j - y) sh) tv)).
Proof.
  intros Hwf HW HH Hxy Hu Hv Hsh Hch w' i j tu tv Hi Hj Htu Htv.
  pose proof (wf_shaped _ Hwf) as Hs.
  destruct (wf_distinct_locs w Hwf) as (Huv & Nt & _).
  rewrite !not_elem_of_cons in Nt.
  set (s := self w) in *.
  set (w1 := after_temperature w "ADD_BUILDING" lat lon x y).
  destruct (Hs _ (current_wind_u_loc s)) as (cu & Hcu & Scu).
  destruct (Hs _ (current_wind_v_loc s)) as (cv & Hcv & Scv).
  assert (heap w1 !! current_wind_u s = Some cu) as Hcu1.
  { unfold w1, after_temperature, temperature_change_of. fold s.
    apply heap_transform_id; [exact Hcu|].
    intros i' j' t. destruct (TEMP_COEFFICIENTS !! _); [|reflexivity].
    apply temperature_change_other. intros E. now apply (proj1 Nt). }
  assert (heap w1 !! current_wind_v s = Some cv) as Hcv1.
  { unfold w1, after_temperature, temperature_change_of. fold s.
    apply heap_transform_id; [exact Hcv|].
    intros i' j' t. destruct (TEMP_COEFFICIENTS !! _); [|reflexivity].
    apply temperature_change_other. intros E. now apply (proj1 (proj2 Nt)). }
  assert (shaped s w1) as Hs1 by (apply shaped_transform; exact Hs).
  assert (w' = snd (apply_wind_effect s "ADD_BUILDING" x y w1)) as Hw'.
  { unfold w'. now rewrite (apply_intervention_world _ _ _ _ _ _ Hs HW HH Hxy). }
  unfold wind_u, wind_v in Hu, Hv, Htu, Htv. fold s in Hu, Hv, Htu, Htv.
  rewrite (array_at_lookup _ _ _ _ _ Hcu) in Hu.
  rewrite (array_at_lookup _ _ _ _ _ Hcu) in Htu.
  rewrite (array_at_lookup _ _ _ _ _ Hcv) in Hv.
  rewrite (array_at_lookup _ _ _ _ _ Hcv) in Htv.
  rewrite (add_building_run s x y u v sh ch w1 Hs1) in Hw';
    [|now rewrite (array_at_lookup _ _ _ _ _ Hcu1)
     |now rewrite (array_at_lookup _ _ _ _ _ Hcv1)|exact Hsh|exact Hch].
  simpl in Hw'. rewrite transform_transform in Hw'.
  assert (self w' = with_intervention s (record_of "ADD_BUILDING" lat lon x y)) as Hself.
  { rewrite Hw'. reflexivity. }
  assert (in_grid s i j = true) as Hin by (apply in_grid_spec; lia).
  unfold wind_u, wind_v. rewrite Hself. simpl. rewrite Hw'.
  rewrite (array_at_transform _ _ _ w1 _ cu i j tu Hcu1 Scu Hi Hj)
    by (rewrite (array_at_lookup w1 _ _ _ _ Hcu1); exact Htu).
  rewrite (array_at_transform _ _ _ w1 _ cv i j tv Hcv1 Scv Hi Hj)
    by (rewrite (array_at_lookup w1 _ _ _ _ Hcv1); exact Htv).
  rewrite <- !(filter_hits s x y i j) by exact Hin.
  split; f_equal.
  - rewrite (compose_times _ (hits s x y i j) 0.5 sh _ i j tu);
      [|intros c t' Hc; rewrite scale_change_u, Hc by assumption; reflexivity
       |intros c t' Hc; rewrite scale_change_u, Hc by assumption; reflexivity].
    apply compose_times;
      intros c t' Hc; rewrite scale_change_u, Hc by assumption; reflexivity.
  - rewrite (compose_times _ (hits s x y i j) 0.5 sh _ i j tv);
      [|intros c t' Hc; rewrite scale_change_v, Hc by assumption; reflexivity
       |intros c t' Hc; rewrite scale_change_v, Hc by assumption; reflexivity].
    apply compose_times;
      intros c t' Hc; rewrite scale_change_v, Hc by assumption; reflexivity.
Qed.

End AddBuilding.

Section WindBranch.
Context {np : NumPy}.

(** The wind arrays are those of [w] when the wind branch starts. *)
Lemma after_temperature_wind (w : world) (action_type : string) (lat lon : float)
    (x y : Z) (l : loc) :
  l <> current_temp (self w) ->
  heap (after_temperature w action_type lat lon x y) !! l = heap w !! l.
Proof.
  intros Hl. unfold after_temperature.
  destruct (heap w !! l) as [a|] eqn:Ha.
  - apply heap_transform_id; [exact Ha|].
    intros i j t. unfold temperature_change_of.
    destruct (TEMP_COEFFICIENTS !! _); [|reflexivity].
    now apply temperature_change_other.
  - rewrite heap_transform. simpl. now rewrite Ha.
Qed.

Lemma calm_shadow (u v : float) :
  (sqrt (u * u + v * v) <? 0.1)%float = true ->
  get_wind_shadow_cells u v = Ok [] /\ get_wind_channel_cells u v = Ok [].
Proof.
  intros Hc. unfold get_wind_shadow_cells, get_wind_channel_cells, PyFloat.np_pow2.
  cbv zeta. now rewrite Hc.
Qed.

(** X6. A building placed where the wind is calm (magnitude below 0.1)
    leaves the wind field as it was: the call writes no wind cell. *)
Theorem X6_add_building_calm (w : world) (lat lon : float) (x y : Z) (u v : float) :
  wf w -> 1 <= grid_width (self w) -> 1 <= grid_height (self w) ->
  latlon_to_grid (self w) lat lon = Ok (x, y) ->
  wind_u w x y = Ok u -> wind_v w x y = Ok v ->
  (sqrt (u * u + v * v) <? 0.1)%float = true ->
  let w' := snd (apply_intervention "ADD_BUILDING" lat lon w) in
  forall i j : Z, wind_u w' i j = wind_u w i j /\ wind_v w' i j = wind_v w i j.
Proof.
  intros Hwf HW HH Hxy Hu Hv Hcalm w' i j.
  pose proof (wf_shaped _ Hwf) as Hs.
  destruct (wf_distinct_locs w Hwf) as (Huv & Nt & _).
  rewrite !not_elem_of_cons in Nt. destruct Nt as (Ntu & Ntv & _).
  destruct (calm_shadow u v Hcalm) as [Hsh Hch].
  set (s := self w) in *.
  set (w1 := after_temperature w "ADD_BUILDING" lat lon x y).
  assert (shaped s w1) as Hs1 by (apply shaped_transform; exact Hs).
  assert (w' = w1) as ->.
  { unfold w'. rewrite (apply_intervention_world _ _ _ _ _ _ Hs HW HH Hxy).
    fold s w1. rewrite (add_building_run s x y u v [] [] w1 Hs1); try assumption.
    - simpl. now rewrite !transform_id.
    - unfold array_at. rewrite !lookup_total_alt.
      unfold w1. rewrite after_temperature_wind by (fold s; congruence).
      rewrite <- lookup_total_alt. exact Hu.
    - unfold array_at. rewrite !lookup_total_alt.
      unfold w1. rewrite after_temperature_wind by (fold s; congruence).
      rewrite <- lookup_total_alt. exact Hv. }
  unfold wind_u, wind_v, array_at. rewrite !lookup_total_alt.
  change (current_wind_u (self w1)) with (current_wind_u s).
  change (current_wind_v (self w1)) with (current_wind_v s).
  unfold w1. rewrite !after_temperature_wind by (fold s; congruence).
  split; reflexivity.
Qed.

(** X9. A call of any type other than the two building types, known or
    not, writes no array but the temperature array: the wind field and
    the base arrays are what they were, whether the call returns or
    raises. *)
Theorem X9_other_types_leave_wind (w : world) (action_type : string) (lat lon : float) :
  action_type <> "ADD_BUILDING"%string ->
  action_type <> "REMOVE_BUILDING"%string ->
  let w' := snd (apply_intervention action_type lat lon w) in
  (forall l, l <> current_temp (self w) -> heap w' !! l = heap w !! l) /\
  current_locs (self w') = current_locs (self w) /\
  (current_temp (self w) ∉ [current_wind_u (self w); current_wind_v (self w)] ->
   forall i j : Z, wind_u w' i j = wind_u w i j /\ wind_v w' i j = wind_v w i j).
Proof.
  intros Hadd Hrem w'.
  assert (String.eqb action_type "ADD_BUILDING" = false) as Ea
    by now apply String.eqb_neq.
  assert (String.eqb action_type "REMOVE_BUILDING" = false) as Er
    by now apply String.eqb_neq.
  assert ((forall l, l <> current_temp (self w) -> heap w' !! l = heap w !! l) /\
          current_locs (self w') = current_locs (self w)) as [Hheap Hlocs].
  { unfold w'.
    destruct (latlon_to_grid (self w) lat lon) as [[x y]|e] eqn:Hxy.
    2:{ rewrite (apply_intervention_unresolved _ _ _ _ _ Hxy). simpl. split; auto. }
    rewrite (apply_intervention_resolved _ _ _ _ _ _ Hxy).
    set (w0 := {| self := with_intervention (self w) (record_of action_type lat lon x y);
                  heap := heap w |}).
    assert (frame [current_temp (self w)]
              (apply_temperature_effect (self w) action_type x y;;
               apply_wind_effect (self w) action_type x y;; get_state)) as Hfr.
    { apply frame_bind; [apply frame_apply_temperature_effect|].
      intros _. apply pure_frame. apply pure_bind.
      - unfold apply_wind_effect. rewrite Ea, Er. apply pure_ret.
      - intros _. apply pure_get_state. }
    destruct (Hfr w0) as [Hself [Hf _]]. split.
    - intros l Hl. rewrite Hf; [reflexivity|].
      now intros ->%list_elem_of_singleton.
    - rewrite Hself. reflexivity. }
  split; [exact Hheap|]. split; [exact Hlocs|].
  intros Nt i j. rewrite !not_elem_of_cons in Nt. destruct Nt as (Ntu & Ntv & _).
  injection Hlocs as _ Hu Hv.
  unfold wind_u, wind_v, array_at. rewrite Hu, Hv, !lookup_total_alt.
  rewrite !Hheap by congruence. split; reflexivity.
Qed.

(** X7. An ADD_BUILDING call whose shadow computation raises (the wind at
    the site is not finite) raises the same exception after the history
    and the temperature field were updated: the record stays appended
    and the site stays 1.5 degrees warmer, while no wind cell is
    written. *)
Theorem X7_add_building_failure_keeps_writes (w : world) (lat lon : float) (x y : Z)
    (u v t : float) (e : exn) :
  wf w -> 1 <= grid_width (self w) -> 1 <= grid_height (self w) ->
  latlon_to_grid (self w) lat lon = Ok (x, y) ->
  wind_u w x y = Ok u -> wind_v w x y = Ok v ->
  temperature w x y = Ok t ->
  get_wind_shadow_cells u v = Raise e ->
  let r := apply_intervention "ADD_BUILDING" lat lon w in
  fst r = Raise e /\
  interventions (self (snd r))
  = interventions (self w) ++ [record_of "ADD_BUILDING" lat lon x y] /\
  temperature (snd r) x y = Ok (t + 1.5)%float /\
  forall i j : Z, wind_u (snd r) i j = wind_u w i j /\ wind_v (snd r) i j = wind_v w i j.
Proof.
  intros Hwf HW HH Hxy Hu Hv Ht Hsh r.
  pose proof (wf_shaped _ Hwf) as Hs.
  destruct (latlon_to_grid_bounds _ _ _ _ _ HW HH Hxy) as [Hx Hy].
  destruct (wf_distinct_locs w Hwf) as (Huv & Nt & _).
  rewrite !not_elem_of_cons in Nt. destruct Nt as (Ntu & Ntv & _).
  set (s := self w) in *.
  set (w1 := after_temperature w "ADD_BUILDING" lat lon x y).
  assert (array_at w1 (current_wind_u s) x y = Ok u) as Hu1.
  { unfold array_at. rewrite !lookup_total_alt.
    unfold w1. rewrite after_temperature_wind by (fold s; congruence).
    rewrite <- lookup_total_alt. exact Hu. }
  assert (array_at w1 (current_wind_v s) x y = Ok v) as Hv1.
  { unfold array_at. rewrite !lookup_total_alt.
    unfold w1. rewrite after_temperature_wind by (fold s; congruence).
    rewrite <- lookup_total_alt. exact Hv. }
  assert (r = (Raise e, w1)) as ->.
  { unfold r. rewrite (apply_intervention_resolved _ _ _ _ _ _ Hxy).
    unfold mbind at 1, M_bind at 1.
    rewrite (temperature_branch w "ADD_BUILDING" lat lon x y Hs) by (fold s; lia).
    fold w1. fold s. cbv beta iota.
    unfold mbind at 1, M_bind at 1. unfold apply_wind_effect.
    replace (String.eqb "ADD_BUILDING" "ADD_BUILDING") with true by reflexivity.
    unfold mbind at 1, M_bind at 1. rewrite getitem_eq, Hu1. cbv beta iota.
    unfold mbind at 1, M_bind at 1. rewrite getitem_eq, Hv1. cbv beta iota.
    unfold mbind at 1, M_bind at 1. unfold lift at 1. rewrite Hsh. reflexivity. }
  cbn [fst snd]. split; [reflexivity|]. split; [reflexivity|]. split.
  - destruct (Hs _ (current_temp_loc s)) as (ct & Hct & Sct).
    assert (temperature_change_of s "ADD_BUILDING" x y (current_temp s) x y t
            = (t + 1.5)%float) as <-.
    { unfold temperature_change_of.
      replace (TEMP_COEFFICIENTS !! "ADD_BUILDING"%string) with (Some 1.5%float)
        by (vm_compute; reflexivity).
      apply temperature_change_centre. }
    unfold temperature.
    change (current_temp (self w1)) with (current_temp s).
    unfold w1, after_temperature. fold s.
    eapply array_at_transform; eauto; lia.
  - intros i j. unfold wind_u, wind_v, array_at. rewrite !lookup_total_alt.
    change (current_wind_u (self w1)) with (current_wind_u s).
    change (current_wind_v (self w1)) with (current_wind_v s).
    unfold w1. rewrite !after_temperature_wind by (fold s; congruence).
    split; reflexivity.
Qed.

(** X12. No call changes the geometry: in every state reachable from a
    well-formed simulator a coordinate resolves to the cell it resolved
    to at the start, and a cell has the coordinate it had. *)
Theorem X12_geometry_is_fixed (w0 w : world) :
  wf w0 -> reachable w0 w ->
  (forall lat lon, latlon_to_grid (self w) lat lon = latlon_to_grid (self w0) lat lon) /\
  (forall x y, grid_to_latlon (self w) x y = grid_to_latlon (self w0) x y).
Proof.
  intros Hwf Hreach.
  destruct (reachable_invariant w0 w Hwf Hreach)
    as (_ & HW & HH & Hlat & Hlon & _).
  split.
  - intros lat lon. unfold latlon_to_grid. now rewrite HW, HH, Hlat, Hlon.
  - intros x y. unfold grid_to_latlon. now rewrite HW, HH, Hlat, Hlon.
Qed.

End WindBranch.

Section SnapshotTotal.
Context {np : NumPy}.

Lemma collect_cases {A B} (f : A -> bool) (cells : list A) (body : A -> M B)
    (e : exn) (w : world) :
  (forall c, c ∈ cells ->
     if f c then body c w = (Raise e, w) else exists b, body c w = (Ok b, w)) ->
  if existsb f cells then collect cells body w = (Raise e, w)
  else exists bs, collect cells body w = (Ok bs, w).
Proof.
  induction cells as [|c cells IH]; intros Hb; simpl.
  - eexists. reflexivity.
  - pose proof (Hb c ltac:(left)) as Hc.
    assert (forall c', c' ∈ cells ->
              if f c' then body c' w = (Raise e, w) else exists b, body c' w = (Ok b, w))
      as Hrest by (intros c' Hc'; apply Hb; now right).
    specialize (IH Hrest). unfold mbind, M_bind.
    destruct (f c); simpl.
    + now rewrite Hc.
    + destruct Hc as [b ->]. destruct (existsb f cells).
      * now rewrite IH.
      * destruct IH as [bs ->]. eexists. reflexivity.
Qed.

Lemma argmax_from_bound (l : list float) (best : float) (besti i : nat) :
  (besti < i)%nat -> (Nd.argmax_from best besti i l < i + length l)%nat.
Proof.
  revert best besti i. induction l as [|v l IH]; intros best besti i Hlt; simpl; [lia|].
  destruct (is_nan best); [lia|].
  destruct (v <=? best)%float.
  - specialize (IH best besti (S i)). lia.
  - specialize (IH v i (S i)). lia.
Qed.

Lemma pow2_raises (u : float) (e : exn) :
  PyFloat.pow2 u = Raise e -> e = OverflowError.
Proof.
  unfold PyFloat.pow2. destruct (_ && _); [|discriminate]. now intros [= <-].
Qed.

(** When [get_state] returns and when it raises. *)
Lemma get_state_cases (w : world) :
  wf w -> 1 <= grid_width (self w) -> 1 <= grid_height (self w) ->
  snd (get_state w) = w /\
  if existsb (overflowing w) (sample_cells (self w))
  then fst (get_state w) = Raise OverflowError
  else exists snap, fst (get_state w) = Ok snap.
Proof.
  intros Hwf HW HH. split; [apply pure_get_state|].
  pose proof (wf_shaped _ Hwf) as Hs.
  set (s := self w) in *.
  destruct (Hs _ (current_temp_loc s)) as (ct & Hct & Sct).
  destruct (Hs _ (current_wind_u_loc s)) as (cu & Hcu & Scu).
  destruct (Hs _ (current_wind_v_loc s)) as (cv & Hcv & Scv).
  pose proof (eq_refl (get_state w)) as Hg. unfold get_state at 2 in Hg.
  unfold mbind at 1, M_bind at 1, get_self at 1 in Hg. fold s in Hg. cbv beta iota in Hg.
  unfold mbind at 1, M_bind at 1 in Hg.
  match type of Hg with
  | context [collect ?cells ?body w] =>
      pose proof (collect_cases (overflowing w) cells body OverflowError w) as Hcol;
      set (col := collect cells body w) in *
  end.
  change (existsb (overflowing w) _) with (existsb (overflowing w) (sample_cells s))
    in Hcol.
  assert (forall k : nat, Nd.argmax ct = Ok k ->
            exists ht, Nd.getitem ct (fst (Nd.unravel_index k ct))
                                     (snd (Nd.unravel_index k ct)) = Ok ht) as Hhot.
  { intros k Hk. unfold Nd.argmax in Hk.
    destruct (Nd.flatten ct) as [|v0 l] eqn:Hflat; [discriminate|].
    injection Hk as Hk.
    pose proof (argmax_from_bound l v0 0 1 ltac:(lia)) as Hb. rewrite Hk in Hb.
    destruct (lookup_lt_is_Some_2 (Nd.flatten ct) k) as [m Hm];
      [rewrite Hflat; simpl; lia|].
    destruct (flatten_index _ _ _ _ _ Sct Hm) as (Hn & Hrow & _).
    assert (Nd.unravel_index k ct
            = (Z.of_nat (k / Z.to_nat (grid_height s)),
               Z.of_nat (k mod Z.to_nat (grid_height s)))) as ->.
    { unfold Nd.unravel_index. destruct Sct as [Hlen Hrows].
      destruct ct as [|row ct']; [simpl in Hlen; lia|].
      rewrite (Forall_inv Hrows). reflexivity. }
    cbn [fst snd].
    pose proof (Nat.mod_upper_bound k (Z.to_nat (grid_height s)) ltac:(lia)) as Hcol'.
    destruct (getitem_lookup _ _ ct (Z.of_nat (k / Z.to_nat (grid_height s)))
                (Z.of_nat (k mod Z.to_nat (grid_height s))) Sct) as (ht & Hht & _);
      [lia|lia|eauto]. }
  assert (Nd.flatten ct <> []) as Hne.
  { intros Hnil.
    destruct (getitem_lookup _ _ ct 0 0 Sct ltac:(lia) ltac:(lia)) as (t & _ & Hat).
    unfold Nd.at_ in Hat. simpl in Hat.
    destruct ct as [|row ct']; [discriminate|]. simpl in Hat.
    destruct row; [discriminate|]. discriminate Hnil. }
  match type of Hcol with
  | ?P -> _ => assert P as Hcell; [|specialize (Hcol Hcell); clear Hcell]
  end.
  { intros [x y] Hc.
    change ((x, y) ∈ sample_cells s) in Hc.
    apply (proj2 (sample_cells_spec s)) in Hc as (Hx & Hy & _).
    destruct (getitem_lookup _ _ _ _ _ Sct Hx Hy) as (t & Ht & _).
    destruct (getitem_lookup _ _ _ _ _ Scu Hx Hy) as (u & Hu & _).
    destruct (getitem_lookup _ _ _ _ _ Scv Hx Hy) as (v & Hv & _).
    unfold overflowing, wind_u, wind_v. fold s. cbn [fst snd].
    rewrite (array_at_lookup _ _ _ _ _ Hcu), (array_at_lookup _ _ _ _ _ Hcv), Hu, Hv.
    destruct (grid_to_latlon s x y) as [lat lon].
    unfold mbind, M_bind. rewrite !getitem_eq.
    rewrite (array_at_lookup _ _ _ _ _ Hct), (array_at_lookup _ _ _ _ _ Hcu),
      (array_at_lookup _ _ _ _ _ Hcv), Ht, Hu, Hv.
    unfold lift.
    destruct (PyFloat.pow2 u) as [uu|eu] eqn:Eu.
    - destruct (PyFloat.pow2 v) as [vv|ev] eqn:Ev.
      + eexists. reflexivity.
      + now rewrite (pow2_raises _ _ Ev).
    - now rewrite (pow2_raises _ _ Eu). }
  clearbody col.
  destruct (existsb (overflowing w) (sample_cells s)).
  - rewrite Hg, Hcol. reflexivity.
  - destruct Hcol as [samples ->]. cbv beta iota in Hg.
    unfold mbind at 1, M_bind at 1, load at 1 in Hg.
    rewrite (lookup_total_correct _ _ _ Hct) in Hg. cbv beta iota in Hg.
    unfold mbind at 1, M_bind at 1, lift at 1 in Hg.
    destruct (Nd.argmax ct) as [k|e] eqn:Hk.
    2:{ unfold Nd.argmax in Hk. destruct (Nd.flatten ct); [congruence|discriminate]. }
    destruct (Hhot k eq_refl) as [ht Hht]. cbv beta iota in Hg.
    destruct (grid_to_latlon s _ _) as [hlat hlon] in Hg.
    unfold mbind at 1, M_bind at 1, lift at 1 in Hg. rewrite Hht in Hg.
    cbv beta iota in Hg.
    unfold mbind at 1, M_bind at 1, load at 1 in Hg.
    rewrite Hg. eexists. reflexivity.
Qed.

(** X3. [get_state] never writes. On a well-formed simulator it returns a
    snapshot unless the square of a sampled wind component overflows,
    in which case it raises [OverflowError]. *)
Theorem X3_get_state_returns (w : world) :
  wf w -> 1 <= grid_width (self w) -> 1 <= grid_height (self w) ->
  snd (get_state w) = w /\
  if existsb (overflowing w) (sample_cells (self w))
  then fst (get_state w) = Raise OverflowError
  else exists snap, fst (get_state w) = Ok snap.
Proof. exact (get_state_cases w). Qed.

End SnapshotTotal.

Section NotANumber.
Context {np : NumPy}.

Lemma is_nan_spec (x : float) : is_nan x = true <-> Prim2SF x = S754_nan.
Proof.
  split.
  - intros Hx. destruct (Prim2SF x) eqn:E; try reflexivity;
      assert (is_nan x = false) by (apply not_nan_spec; congruence); congruence.
  - intros Hx. destruct (is_nan x) eqn:E; [reflexivity|].
    apply not_nan_spec in E. contradiction.
Qed.

Lemma nan_sub_l (x y : float) : is_nan x = true -> is_nan (x - y) = true.
Proof.
  rewrite !is_nan_spec, FloatAxioms.sub_spec. intros ->.
  now destruct (Prim2SF y).
Qed.

Lemma nan_mul_l (x y : float) : is_nan x = true -> is_nan (x * y) = true.
Proof.
  rewrite !is_nan_spec, FloatAxioms.mul_spec. intros ->.
  now destruct (Prim2SF y).
Qed.

Lemma nan_div_l (x y : float) : is_nan x = true -> is_nan (x / y) = true.
Proof.
  rewrite !is_nan_spec, FloatAxioms.div_spec. intros ->.
  now destruct (Prim2SF y).
Qed.

Lemma nan_add_r (x y : float) : is_nan y = true -> is_nan (x + y) = true.
Proof.
  rewrite !is_nan_spec, FloatAxioms.add_spec. intros ->.
  now destruct (Prim2SF x).
Qed.

Lemma to_int_nan (x : float) : is_nan x = true -> PyFloat.to_int x = Raise ValueError.
Proof. rewrite is_nan_spec. unfold PyFloat.to_int. now intros ->. Qed.

Lemma to_int_raises (x : float) (e : exn) :
  PyFloat.to_int x = Raise e -> e = ValueError \/ e = OverflowError.
Proof.
  unfold PyFloat.to_int. destruct (Prim2SF x); intros [= <-]; auto.
Qed.

Lemma nan_eqb_zero (x : float) : is_nan x = true -> (x =? 0)%float = false.
Proof.
  rewrite is_nan_spec, FloatAxioms.eqb_spec. now intros ->.
Qed.

(** X11. A call with a NaN coordinate is rejected before anything is
    written: a NaN longitude raises [ValueError]; a NaN latitude raises
    [ValueError], or [OverflowError] when the longitude overflows
    first. The simulator is as it was. *)
Theorem X11_nan_coordinate_rejected (w : world) (action_type : string) (lat lon : float) :
  (is_nan lon = true ->
   apply_intervention action_type lat lon w = (Raise ValueError, w)) /\
  (is_nan lat = true ->
   exists e, apply_intervention action_type lat lon w = (Raise e, w) /\
             (e = ValueError \/ e = OverflowError)).
Proof.
  split.
  - intros Hn. apply apply_intervention_unresolved.
    unfold latlon_to_grid.
    rewrite (to_int_nan (_ + (lon - _) * _ * _ / _));
      [reflexivity|].
    apply nan_add_r, nan_div_l, nan_mul_l, nan_mul_l, nan_sub_l, Hn.
  - intros Hn.
    assert (exists e, latlon_to_grid (self w) lat lon = Raise e /\
                      (e = ValueError \/ e = OverflowError)) as (e & He & Hcases).
    { unfold latlon_to_grid.
      destruct (PyFloat.to_int (_ + (lon - _) * _ * _ / 100)) as [x|e] eqn:Hx.
      - cbn [mbind result_bind].
        rewrite (to_int_nan (_ + (lat - _) * _ / _)); [eauto|].
        apply nan_add_r, nan_div_l, nan_mul_l, nan_sub_l, Hn.
      - exists e. split; [reflexivity|]. exact (to_int_raises _ _ Hx). }
    exists e. split; [|exact Hcases]. now apply apply_intervention_unresolved.
Qed.

(** X15. An elevation query with a NaN latitude raises [ValueError] on every
    constructed provider; with a NaN longitude it raises [ValueError],
    or [OverflowError] when the latitude overflows first. *)
Theorem X15_nan_elevation_query (base_lat base_lon : float) (grid_size : Z * Z)
    (raw : ndarray) (lat lon : float) :
  let r := Relief.init base_lat base_lon grid_size raw in
  (is_nan lat = true -> Relief.get_elevation_at r lat lon = Raise ValueError) /\
  (is_nan lon = true ->
   exists e, Relief.get_elevation_at r lat lon = Raise e /\
             (e = ValueError \/ e = OverflowError)).
Proof.
  intros r.
  assert ((52.51 - 52.45 =? 0)%float = false) as Hd by (vm_compute; reflexivity).
  split.
  - intros Hn. unfold Relief.get_elevation_at, Relief.latlon_to_grid, PyFloat.truediv.
    cbn [r Relief.init Relief.lat_bounds Relief.lon_bounds fst snd].
    rewrite Hd. cbn [mbind result_bind].
    rewrite (to_int_nan ((lat - _) / _ * _)); [reflexivity|].
    apply nan_mul_l, nan_div_l, nan_sub_l, Hn.
  - intros Hn. unfold Relief.get_elevation_at, Relief.latlon_to_grid, PyFloat.truediv.
    cbn [r Relief.init Relief.lat_bounds Relief.lon_bounds fst snd].
    rewrite Hd. cbn [mbind result_bind].
    assert ((13.48 - 13.38 =? 0)%float = false) as Hd' by (vm_compute; reflexivity).
    rewrite Hd'.
    destruct (PyFloat.to_int ((lat - _) / _ * _)) as [y|e] eqn:Hy.
    + cbn [mbind result_bind].
      rewrite (to_int_nan ((lon - _) / _ * _)); [eauto|].
      apply nan_mul_l, nan_div_l, nan_sub_l, Hn.
    + exists e. split; [reflexivity|]. exact (to_int_raises _ _ Hy).
Qed.

End NotANumber.

Section ElevationRange.

Lemma getitem_elem (a : ndarray) (i j : Z) (e : float) :
  Nd.getitem a i j = Ok e -> e ∈ Nd.flatten a.
Proof.
  unfold Nd.getitem. destruct (Nd.index (length a) i) as [i'|]; [|discriminate].
  cbn [mbind result_bind]. destruct (a !! i') as [row|] eqn:Hrow; [|discriminate].
  destruct (Nd.index (length row) j) as [j'|]; [|discriminate].
  cbn [mbind result_bind]. destruct (row !! j') as [v|] eqn:Hv; [|discriminate].
  intros [= <-]. unfold Nd.flatten. rewrite concat_mjoin.
  apply list_elem_of_join. exists row. split.
  - eapply list_elem_of_lookup_2. exact Hv.
  - eapply list_elem_of_lookup_2. exact Hrow.
Qed.

Lemma no_nan_elem (a : ndarray) (e : float) :
  no_nan a = true -> e ∈ Nd.flatten a -> is_nan e = false.
Proof.
  unfold no_nan. rewrite forallb_forall. intros Hall He.
  apply negb_true_iff, Hall, list_elem_of_In, He.
Qed.

Lemma flatten_generate (raw : ndarray) :
  Nd.flatten (Relief._generate_mock_elevation raw)
  = map (fun e => Np.maximum e 25) (Nd.flatten raw).
Proof.
  unfold Nd.flatten, Relief._generate_mock_elevation.
  induction raw as [|row raw IH]; [reflexivity|].
  simpl. now rewrite map_app, IH.
Qed.

(** [np.maximum(e, 25.0)] on an [e] that is not NaN: not NaN and at
    least 25. *)
Lemma maximum_floor_ford (e : float) :
  is_nan e = false ->
  is_nan (Np.maximum e 25) = false /\ (25 <=? Np.maximum e 25)%float = true.
Proof.
  intros He. unfold Np.maximum. rewrite He.
  change (is_nan 25) with false. cbv iota.
  destruct (e <? 25)%float eqn:Hlt.
  - split; reflexivity.
  - split; [exact He|].
    apply (leb_ford 25 e eq_refl He).
    destruct (Z_lt_le_dec (ford e) (ford 25)) as [Hc|]; [|assumption].
    apply (ltb_ford e 25 He eq_refl) in Hc. congruence.
Qed.

Lemma no_nan_generate (raw : ndarray) :
  no_nan raw = true -> no_nan (Relief._generate_mock_elevation raw) = true.
Proof.
  unfold no_nan. rewrite flatten_generate, !forallb_forall.
  intros Hall e He. apply list_elem_of_In, list_elem_of_fmap in He as (e0 & -> & He0).
  apply negb_true_iff, maximum_floor_ford, negb_true_iff, Hall, list_elem_of_In, He0.
Qed.

Lemma floor_generate (raw : ndarray) (e : float) :
  no_nan raw = true -> e ∈ Nd.flatten (Relief._generate_mock_elevation raw) ->
  (25 <=? e)%float = true.
Proof.
  intros Hall He. rewrite flatten_generate in He.
  apply list_elem_of_fmap in He as (e0 & -> & He0).
  apply maximum_floor_ford. exact (no_nan_elem _ _ Hall He0).
Qed.

Lemma fold_minimum_ford (l : list float) (x : float) :
  is_nan x = false -> Forall (fun t => is_nan t = false) l ->
  let m := fold_left Np.minimum l x in
  m ∈ x :: l /\ forall t, t ∈ x :: l -> (m <=? t)%float = true.
Proof.
  revert x. induction l as [|y l IH]; intros x Hx Hl; cbv zeta; simpl.
  - split; [left|]. intros t ->%list_elem_of_singleton.
    apply (leb_ford x x Hx Hx). lia.
  - pose proof (Forall_inv Hl) as Hy. pose proof (Forall_inv_tail Hl) as Hl'.
    assert (is_nan (Np.minimum x y) = false /\
            (Np.minimum x y = x \/ Np.minimum x y = y) /\
            ford (Np.minimum x y) <= ford x /\ ford (Np.minimum x y) <= ford y)
      as (Hm & Hcase & Hmx & Hmy).
    { unfold Np.minimum. rewrite Hx, Hy.
      destruct (y <? x)%float eqn:Hlt.
      - apply (ltb_ford y x Hy Hx) in Hlt. repeat split; auto; lia.
      - repeat split; auto; try lia.
        destruct (Z_lt_le_dec (ford y) (ford x)) as [Hc|]; [|assumption].
        apply (ltb_ford y x Hy Hx) in Hc. congruence. }
    destruct (IH (Np.minimum x y) Hm Hl') as [Hin Hle].
    split.
    + apply elem_of_cons in Hin as [->|Hin].
      * destruct Hcase as [->| ->]; [left|right; left].
      * right; right. exact Hin.
    + intros t Ht.
      assert (is_nan (fold_left Np.minimum l (Np.minimum x y)) = false) as Hnm.
      { apply elem_of_cons in Hin as [->|Hin]; [exact Hm|].
        rewrite Forall_forall in Hl'. now apply Hl'. }
      pose proof (Hle (Np.minimum x y) ltac:(left)) as Hle0.
      apply (leb_ford _ _ Hnm Hm) in Hle0.
      apply elem_of_cons in Ht as [->|Ht].
      * apply (leb_ford _ _ Hnm Hx). lia.
      * apply elem_of_cons in Ht as [->|Ht]; [apply (leb_ford _ _ Hnm Hy); lia|].
        apply Hle. now right.
Qed.

Lemma fold_maximum_ford (l : list float) (x : float) :
  is_nan x = false -> Forall (fun t => is_nan t = false) l ->
  let m := fold_left Np.maximum l x in
  m ∈ x :: l /\ forall t, t ∈ x :: l -> (t <=? m)%float = true.
Proof.
  revert x. induction l as [|y l IH]; intros x Hx Hl; cbv zeta; simpl.
  - split; [left|]. intros t ->%list_elem_of_singleton.
    apply (leb_ford x x Hx Hx). lia.
  - pose proof (Forall_inv Hl) as Hy. pose proof (Forall_inv_tail Hl) as Hl'.
    assert (is_nan (Np.maximum x y) = false /\
            (Np.maximum x y = x \/ Np.maximum x y = y) /\
            ford x <= ford (Np.maximum x y) /\ ford y <= ford (Np.maximum x y))
      as (Hm & Hcase & Hmx & Hmy).
    { unfold Np.maximum. rewrite Hx, Hy.
      destruct (x <? y)%float eqn:Hlt.
      - apply (ltb_ford x y Hx Hy) in Hlt. repeat split; auto; lia.
      - repeat split; auto; try lia.
        destruct (Z_lt_le_dec (ford x) (ford y)) as [Hc|]; [|assumption].
        apply (ltb_ford x y Hx Hy) in Hc. congruence. }
    destruct (IH (Np.maximum x y) Hm Hl') as [Hin Hle].
    split.
    + apply elem_of_cons in Hin as [->|Hin].
      * destruct Hcase as [->| ->]; [left|right; left].
      * right; right. exact Hin.
    + intros t Ht.
      assert (is_nan (fold_left Np.maximum l (Np.maximum x y)) = false) as Hnm.
      { apply elem_of_cons in Hin as [->|Hin]; [exact Hm|].
        rewrite Forall_forall in Hl'. now apply Hl'. }
      pose proof (Hle (Np.maximum x y) ltac:(left)) as Hle0.
      apply (leb_ford _ _ Hm Hnm) in Hle0.
      apply elem_of_cons in Ht as [->|Ht].
      * apply (leb_ford _ _ Hx Hnm). lia.
      * apply elem_of_cons in Ht as [->|Ht]; [apply (leb_ford _ _ Hy Hnm); lia|].
        apply Hle. now right.
Qed.

(** The reductions of an array without NaN: both are entries, and they
    enclose every entry. *)
Lemma min_max_spec (a : ndarray) :
  no_nan a = true -> Nd.flatten a <> [] ->
  exists lo hi, Np.min a = Ok lo /\ Np.max a = Ok hi /\
    lo ∈ Nd.flatten a /\ hi ∈ Nd.flatten a /\
    forall t, t ∈ Nd.flatten a -> (lo <=? t)%float = true /\ (t <=? hi)%float = true.
Proof.
  intros Hnan Hne. unfold Np.min, Np.max.
  assert (Forall (fun t => is_nan t = false) (Nd.flatten a)) as Hall.
  { apply Forall_forall. intros t Ht. exact (no_nan_elem _ _ Hnan Ht). }
  destruct (Nd.flatten a) as [|x l]; [congruence|].
  pose proof (Forall_inv Hall) as Hx. pose proof (Forall_inv_tail Hall) as Hl.
  destruct (fold_minimum_ford l x Hx Hl) as [Hmin Hle].
  destruct (fold_maximum_ford l x Hx Hl) as [Hmax Hge].
  eexists _, _. repeat split; eauto.
Qed.

(** X13. An elevation query that returns gives an entry of the grid: on a
    surface without NaN it is at least 25 m and lies between the
    [min_elevation] and [max_elevation] of [get_bounds]. *)
Theorem X13_elevation_within_bounds (base_lat base_lon : float) (grid_size : Z * Z)
    (raw : ndarray) (lat lon e : float) :
  let r := Relief.init base_lat base_lon grid_size raw in
  no_nan raw = true ->
  Relief.get_elevation_at r lat lon = Ok e ->
  (25 <=? e)%float = true /\
  exists b, Relief.get_bounds r = Ok b /\
    (Relief.min_elevation b <=? e)%float = true /\
    (e <=? Relief.max_elevation b)%float = true.
Proof.
  intros r Hnan Hget.
  assert (e ∈ Nd.flatten (Relief.elevation_grid r)) as He.
  { unfold Relief.get_elevation_at in Hget.
    destruct (Relief.latlon_to_grid r lat lon) as [[x y]|]; [|discriminate].
    cbn [mbind result_bind] in Hget. exact (getitem_elem _ _ _ _ Hget). }
  split; [exact (floor_generate raw e Hnan He)|].
  destruct (min_max_spec (Relief.elevation_grid r)) as (lo & hi & Hlo & Hhi & _ & _ & Hall).
  { now apply no_nan_generate. }
  { intros Hnil. rewrite Hnil in He. now apply not_elem_of_nil in He. }
  unfold Relief.get_bounds. rewrite Hlo, Hhi. cbn [mbind result_bind].
  eexists. split; [reflexivity|]. cbn [Relief.min_elevation Relief.max_elevation].
  exact (Hall e He).
Qed.

(** X14. [get_bounds] on a constructed provider: [ValueError] when the
    surface has no entry; otherwise the fixed box 52.45..52.51 N,
    13.38..13.48 E and, on a surface without NaN, elevations with
    25 <= min_elevation <= max_elevation. *)
Theorem X14_get_bounds_box (base_lat base_lon : float) (grid_size : Z * Z) (raw : ndarray) :
  let r := Relief.init base_lat base_lon grid_size raw in
  (Nd.flatten raw = [] -> Relief.get_bounds r = Raise ValueError) /\
  (forall b, Relief.get_bounds r = Ok b ->
     Relief.south b = 52.45%float /\ Relief.north b = 52.51%float /\
     Relief.west b = 13.38%float /\ Relief.east b = 13.48%float) /\
  (Nd.flatten raw <> [] -> no_nan raw = true ->
   exists b, Relief.get_bounds r = Ok b /\
     (25 <=? Relief.min_elevation b)%float = true /\
     (Relief.min_elevation b <=? Relief.max_elevation b)%float = true).
Proof.
  intros r. split; [|split].
  - intros Hnil. unfold Relief.get_bounds, Np.min.
    cbn [r Relief.init Relief.elevation_grid]. rewrite flatten_generate, Hnil.
    reflexivity.
  - intros b. unfold Relief.get_bounds.
    destruct (Np.min _); [|discriminate]. destruct (Np.max _); [|discriminate].
    cbn [mbind result_bind]. intros [= <-]. repeat split.
  - intros Hne Hnan.
    destruct (min_max_spec (Relief.elevation_grid r)) as (lo & hi & Hlo & Hhi & Hin & _ & Hall).
    { now apply no_nan_generate. }
    { cbn [r Relief.init Relief.elevation_grid]. rewrite flatten_generate.
      destruct (Nd.flatten raw); [congruence|discriminate]. }
    unfold Relief.get_bounds. rewrite Hlo, Hhi. cbn [mbind result_bind].
    eexists. split; [reflexivity|]. cbn [Relief.min_elevation Relief.max_elevation].
    split; [exact (floor_generate raw lo Hnan Hin)|].
    exact (proj2 (Hall lo Hin)).
Qed.

End ElevationRange.

Section ContourPoints.

(** The chaining loop only moves points: what it returns is taken from
    the points it was given, none more often than it occurs there. *)
Lemma chain_submseteq (fuel : nat) (sorted remaining out : list (float * float)) :
  Relief.chain fuel sorted remaining = Ok out -> out ⊆+ sorted ++ remaining.
Proof.
  revert sorted remaining. induction fuel as [|fuel IH]; intros sorted remaining.
  - destruct remaining; simpl; intros [= <-]; [now rewrite app_nil_r|].
    now apply submseteq_inserts_r.
  - destruct remaining as [|first rest]; [simpl; intros [= <-]; now rewrite app_nil_r|].
    cbn [Relief.chain].
    destruct (Relief.closest _ _ _ _ _) as [[d idx]|] eqn:Hc; [|discriminate].
    cbn [mbind result_bind]. apply closest_index in Hc. simpl in Hc.
    destruct (d <? 0.01)%float.
    + intros Hout%IH. etransitivity; [exact Hout|].
      destruct (lookup_lt_is_Some_2 (first :: rest) idx) as [p Hp]; [simpl; lia|].
      rewrite nth_lookup, Hp. simpl default.
      rewrite <- app_assoc. apply submseteq_app; [reflexivity|].
      simpl. now rewrite <- (delete_Permutation _ _ _ Hp).
    + destruct (5 <? length sorted)%nat.
      * intros [= <-]. now apply submseteq_inserts_r.
      * intros Hout%IH. etransitivity; [exact Hout|].
        now apply submseteq_inserts_l.
Qed.

Lemma contour_points_spec (r : Relief.ReliefDataProvider) (level : float)
    (pts : list (float * float)) (p : float * float) :
  Relief.contour_points r level = Ok pts -> p ∈ pts ->
  exists (x y : Z) (elev : float),
    0 <= x < Relief.grid_width r /\ 0 <= y < Relief.grid_height r /\
    Nd.getitem (Relief.elevation_grid r) y x = Ok elev /\
    (abs (elev - level) <? 1)%float = true /\
    Relief.grid_to_latlon r x y = Ok p.
Proof.
  unfold Relief.contour_points.
  destruct (mapM _ _) as [found|] eqn:Hfound; [|discriminate].
  cbn [mbind result_bind]. intros [= <-] Hp.
  apply list_elem_of_omap in Hp as (op & Hop & Heq). simpl in Heq. subst op.
  apply mapM_result in Hfound.
  apply list_elem_of_lookup in Hop as [i Hi].
  destruct (Forall2_lookup_r _ _ _ _ _ Hfound Hi) as ([y x] & Hcell & Hbody).
  apply list_elem_of_lookup_2, elem_of_cells in Hcell as [Hy Hx].
  apply py_range_bounds in Hy; [|lia]. apply py_range_bounds in Hx; [|lia].
  destruct (Nd.getitem _ y x) as [elev|] eqn:Helev; [|discriminate].
  cbn [mbind result_bind] in Hbody.
  destruct (abs (elev - level) <? 1)%float eqn:Hnear; [|discriminate].
  destruct (Relief.grid_to_latlon r x y) as [q|] eqn:Hq; [|discriminate].
  cbn [mbind result_bind] in Hbody. injection Hbody as ->.
  exists x, y, elev. auto.
Qed.

Lemma contour_for_level_points (r : Relief.ReliefDataProvider) (level : float)
    (g : Relief.ContourGroup) :
  Relief.contour_for_level r level = Ok (Some g) ->
  exists pts, Relief.contour_points r level = Ok pts /\ Relief.points g ⊆+ pts.
Proof.
  unfold Relief.contour_for_level.
  destruct (Relief.contour_points r level) as [pts|]; [|discriminate].
  cbn [mbind result_bind].
  destruct (5 <? length pts)%nat; [|discriminate].
  destruct pts as [|first remaining]; [discriminate|].
  destruct (Relief.chain _ _ _) as [sorted|] eqn:Hchain; [|discriminate].
  cbn [mbind result_bind].
  destruct (5 <? length sorted)%nat; [|discriminate].
  intros [= <-]. eexists. split; [reflexivity|]. simpl.
  exact (chain_submseteq _ _ _ _ Hchain).
Qed.

Lemma get_contour_lines_levels (r : Relief.ReliefDataProvider)
    (levels : option (list float)) (groups : list Relief.ContourGroup) :
  Relief.get_contour_lines r levels = Ok groups ->
  exists (ls : list float) (found : list (option Relief.ContourGroup)),
    (forall l, levels = Some l -> ls = l) /\
    Forall2 (fun level og => Relief.contour_for_level r level = Ok og) ls found /\
    groups = omap id found.
Proof.
  unfold Relief.get_contour_lines.
  destruct (match levels with None => _ | Some l => _ end) as [ls|] eqn:Hls;
    [|discriminate].
  cbn [mbind result_bind].
  destruct (mapM _ ls) as [found|] eqn:Hfound; [|discriminate].
  cbn [mbind result_bind]. intros [= <-].
  exists ls, found. split; [|split; [now apply mapM_result|reflexivity]].
  intros l ->. now injection Hls as ->.
Qed.

(** X17. Every point of a returned contour group is the coordinate of a grid
    cell whose elevation is within 1 m of the group's level, and no
    cell's point occurs more often in the group than among the cells
    found for that level. *)
Theorem X17_contour_points_near_level (r : Relief.ReliefDataProvider)
    (levels : option (list float)) (groups : list Relief.ContourGroup)
    (g : Relief.ContourGroup) :
  Relief.get_contour_lines r levels = Ok groups -> g ∈ groups ->
  exists pts, Relief.contour_points r (Relief.elevation g) = Ok pts /\
    Relief.points g ⊆+ pts /\
    forall p, p ∈ Relief.points g ->
      exists (x y : Z) (elev : float),
        0 <= x < Relief.grid_width r /\ 0 <= y < Relief.grid_height r /\
        Nd.getitem (Relief.elevation_grid r) y x = Ok elev /\
        (abs (elev - Relief.elevation g) <? 1)%float = true /\
        Relief.grid_to_latlon r x y = Ok p.
Proof.
  intros Hret Hg.
  destruct (get_contour_lines_levels _ _ _ Hret) as (ls & found & _ & Hfound & ->).
  apply list_elem_of_omap in Hg as (og & Hog & Heq). simpl in Heq. subst og.
  apply list_elem_of_lookup in Hog as [i Hi].
  destruct (Forall2_lookup_r _ _ _ _ _ Hfound Hi) as (level & _ & Hgroup).
  destruct (contour_for_level_group _ _ _ Hgroup) as [Hlevel _].
  destruct (contour_for_level_points _ _ _ Hgroup) as (pts & Hpts & Hsub).
  rewrite Hlevel. exists pts. split; [exact Hpts|]. split; [exact Hsub|].
  intros p Hp. apply (contour_points_spec r level pts p Hpts).
  eapply elem_of_submseteq; eauto.
Qed.

(** X18. With explicit levels the groups come in the order of the levels,
    at most one per level, each with more than five points; no level
    gives no group. *)
Theorem X18_contour_levels_in_order (r : Relief.ReliefDataProvider)
    (levels : list float) (groups : list Relief.ContourGroup) :
  Relief.get_contour_lines r (Some levels) = Ok groups ->
  sublist (map Relief.elevation groups) levels /\
  (forall g, g ∈ groups -> (5 < length (Relief.points g))%nat) /\
  (levels = [] -> groups = []).
Proof.
  intros Hret.
  destruct (get_contour_lines_levels _ _ _ Hret) as (ls & found & Hls & Hfound & ->).
  rewrite (Hls levels eq_refl) in Hfound. clear Hls Hret.
  split; [|split].
  - induction Hfound as [|level og ls' found' Hlevel _ IH]; [constructor|].
    destruct og as [g|]; cbn.
    + destruct (contour_for_level_group _ _ _ Hlevel) as [-> _].
      now apply sublist_skip.
    + now apply sublist_cons.
  - intros g Hg. apply list_elem_of_omap in Hg as (og & Hog & Heq).
    simpl in Heq. subst og. apply list_elem_of_lookup in Hog as [i Hi].
    destruct (Forall2_lookup_r _ _ _ _ _ Hfound Hi) as (level & _ & Hgroup).
    exact (proj2 (contour_for_level_group _ _ _ Hgroup)).
  - intros ->. now inversion Hfound.
Qed.

End ContourPoints.

Section ElevationData.

Lemma mapM_Forall2 {A B : Type} (f : A -> result B) (l : list A) :
  (forall x, x ∈ l -> exists d, f x = Ok d) ->
  exists ds, mapM f l = Ok ds /\ Forall2 (fun x d => f x = Ok d) l ds.
Proof.
  intros Hf.
  destruct (mapM_total f (fun _ => True) l) as (ds & Hds & _).
  - intros x Hx. destruct (Hf x Hx) as [d Hd]. eauto.
  - exists ds. split; [exact Hds|]. now apply mapM_result.
Qed.

Lemma mapM_rows {A B C : Type} (f : A -> B -> result C) (xs : list A) (ys : list B) :
  (forall x y, x ∈ xs -> y ∈ ys -> exists d, f x y = Ok d) ->
  exists rows, mapM (fun y => mapM (fun x => f x y) xs) ys = Ok rows /\
    Forall2 (fun c d => f (fst c) (snd c) = Ok d)
            (y ← ys; x ← xs; [(x, y)]) (concat rows).
Proof.
  induction ys as [|y ys IH]; intros Hf.
  - exists []. split; [reflexivity|constructor].
  - destruct IH as (rows & Hrows & Hall);
      [intros x y' Hx Hy'; apply Hf; [exact Hx|now right]|].
    destruct (mapM_Forall2 (fun x => f x y) xs) as (row & Hrow & Hcells);
      [intros x Hx; apply Hf; [exact Hx|left]|].
    exists (row :: rows). split.
    + cbn [mapM]. rewrite Hrow. cbn [mbind result_bind].
      rewrite Hrows. reflexivity.
    + cbn [mbind list_bind concat]. apply Forall2_app; [|exact Hall].
      clear -Hcells. induction Hcells; cbn; constructor; auto.
Qed.

Lemma length_rows {A B C : Type} (g : A -> B -> C) (l : list A) (k : list B) :
  length (a ← l; b ← k; [g a b]) = (length l * length k)%nat.
Proof.
  induction l as [|a l IH]; [reflexivity|].
  cbn [mbind list_bind]. rewrite length_app. fold (@mbind list _) in *.
  rewrite IH. simpl. f_equal.
  clear. induction k as [|b k IH]; [reflexivity|]. cbn. now rewrite IH.
Qed.

(** No elevation of a constructed grid is below the 25 m floor, NaN
    included (a NaN compares below nothing). *)
Lemma maximum_not_below (e : float) : (Np.maximum e 25 <? 25)%float = false.
Proof.
  destruct (is_nan e) eqn:He.
  - unfold Np.maximum. rewrite He. rewrite FloatAxioms.ltb_spec.
    apply is_nan_spec in He. now rewrite He.
  - destruct (maximum_floor_ford e He) as [Hm Hle].
    apply (leb_ford 25 _ eq_refl Hm) in Hle.
    destruct (Np.maximum e 25 <? 25)%float eqn:Hlt; [|reflexivity].
    apply (ltb_ford _ 25 Hm eq_refl) in Hlt. lia.
Qed.

(** X16. [get_elevation_data(sample_rate)] on a constructed provider: a zero
    sample rate is a [ValueError], a negative one gives no entry, and a
    positive one gives one entry per sampled cell, in loop order, with
    the cell's coordinate and its elevation, which is never below
    25 m. *)
Theorem X16_elevation_data_samples (base_lat base_lon : float) (W H : Z) (raw : ndarray)
    (sample_rate : Z) :
  let r := Relief.init base_lat base_lon (W, H) raw in
  Relief.get_elevation_data r 0 = Raise ValueError /\
  (sample_rate < 0 -> 0 <= H -> Relief.get_elevation_data r sample_rate = Ok []) /\
  (0 < sample_rate -> Nd.shape H W raw ->
   exists data, Relief.get_elevation_data r sample_rate = Ok data /\
     length data = (Z.to_nat ((H + sample_rate - 1) / sample_rate)
                    * Z.to_nat ((W + sample_rate - 1) / sample_rate))%nat /\
     Forall2 (fun c d =>
                0 <= fst c < W /\ 0 <= snd c < H /\
                fst c mod sample_rate = 0 /\ snd c mod sample_rate = 0 /\
                Relief.grid_to_latlon r (fst c) (snd c) = Ok (fst (fst d), snd (fst d)) /\
                Nd.getitem (Relief.elevation_grid r) (snd c) (fst c) = Ok (snd d) /\
                (snd d <? 25)%float = false)
             (elevation_cells r sample_rate) data).
Proof.
  intros r. split; [reflexivity|]. split.
  - intros Hneg HH. unfold Relief.get_elevation_data, py_range_step.
    cbn [r Relief.init Relief.grid_height Relief.grid_width fst snd].
    destruct (Z.eqb_spec sample_rate 0) as [|_]; [lia|].
    destruct (Z.ltb_spec 0 sample_rate) as [|_]; [lia|].
    replace (Z.to_nat ((0 - H - sample_rate - 1) / - sample_rate)) with 0%nat;
      [reflexivity|].
    assert ((0 - H - sample_rate - 1) / - sample_rate <= 0); [|lia].
    assert ((0 - H - sample_rate - 1) / - sample_rate < 1); [|lia].
    apply Z.div_lt_upper_bound; lia.
  - intros Hpos Hshape%shape_generate_mock_elevation.
    unfold Relief.get_elevation_data, py_range_step.
    destruct (Z.eqb_spec sample_rate 0) as [|_]; [lia|].
    destruct (Z.ltb_spec 0 sample_rate) as [_|]; [|lia].
    cbn [mbind result_bind].
    change (Relief.grid_height r) with H. change (Relief.grid_width r) with W.
    set (f := fun x y : Z =>
                p ← Relief.grid_to_latlon r x y;
                elevation ← Nd.getitem (Relief.elevation_grid r) y x;
                Ok (fst p, snd p, elevation)).
    assert (forall x y, x ∈ py_range 0 W sample_rate -> y ∈ py_range 0 H sample_rate ->
              exists d, f x y = Ok d) as Hf.
    { intros x y Hx%py_range_bounds Hy%py_range_bounds; [|lia..].
      unfold f, Relief.grid_to_latlon, PyFloat.int_truediv.
      cbn [r Relief.init Relief.grid_height Relief.grid_width Relief.elevation_grid fst snd].
      destruct (Z.eqb_spec H 0) as [|_]; [lia|].
      destruct (Z.eqb_spec W 0) as [|_]; [lia|].
      cbn [mbind result_bind].
      destruct (getitem_lookup _ _ _ _ _ Hshape Hy Hx) as (e & -> & _).
      eexists. reflexivity. }
    destruct (mapM_rows f (py_range 0 W sample_rate) (py_range 0 H sample_rate) Hf)
      as (rows & Hrows & Hall).
    exists (concat rows). split; [|split].
    + change (mapM (fun y => mapM (fun x => f x y) (py_range 0 W sample_rate))
                (py_range 0 H sample_rate) ≫= (fun rows0 => Ok (concat rows0))
              = Ok (concat rows)).
      now rewrite Hrows.
    + rewrite <- (Forall2_length _ _ _ Hall).
      rewrite (length_rows (fun y x => (x, y))), !py_range_length.
      reflexivity.
    + unfold elevation_cells. change (Relief.grid_height r) with H.
      change (Relief.grid_width r) with W.
      apply Forall2_same_length_lookup. split; [exact (Forall2_length _ _ _ Hall)|].
      intros n [x y] [[lat lon] e] Hc Hd.
      pose proof (Forall2_lookup_lr _ _ _ _ _ _ Hall Hc Hd) as Hbody.
      apply list_elem_of_lookup_2 in Hc.
      apply list_elem_of_bind in Hc as (y' & Hc & Hy).
      apply list_elem_of_bind in Hc as (x' & Hc & Hx).
      apply list_elem_of_singleton in Hc as [= <- <-].
      apply py_range_elem in Hx, Hy; [|lia..].
      cbn [fst snd] in *. unfold f in Hbody.
      destruct (Relief.grid_to_latlon r x y) as [[lat' lon']|]; [|discriminate].
      cbn [mbind result_bind] in Hbody.
      destruct (Nd.getitem (Relief.elevation_grid r) y x) as [e'|] eqn:He; [|discriminate].
      cbn [mbind result_bind fst snd] in Hbody. injection Hbody as -> -> ->.
      repeat (split; [first [tauto|reflexivity]|]).
      apply getitem_elem in He.
      cbn [r Relief.init Relief.elevation_grid] in He. rewrite flatten_generate in He.
      apply list_elem_of_fmap in He as (e0 & -> & _). apply maximum_not_below.
Qed.

End ElevationData.

Section RoundTrip.

Lemma py_range_unit (n z : Z) : 0 <= z < n -> z ∈ py_range 0 n 1.
Proof. intros Hz. apply py_range_elem; [lia|]. split; [lia|apply Z.mod_1_r]. Qed.

Lemma round_trip_axes :
  forallb (fun z => round_trip_near z z) (py_range 0 100 1) = true.
Proof. vm_compute. reflexivity. Qed.

(** X19. On the server's relief grid a cell's coordinate lies inside the
    bounding box (south and west edges included, north and east
    excluded), and mapping it back gives the cell itself or the
    neighbour one step down on either axis, never a cell further
    away. *)
Theorem X19_relief_round_trip_within_one (raw : ndarray) (x y : Z) :
  0 <= x < 100 -> 0 <= y < 100 ->
  exists (lat lon : float) (x' y' : Z),
    Relief.grid_to_latlon (relief_provider raw) x y = Ok (lat, lon) /\
    (52.45 <=? lat)%float = true /\ (lat <? 52.51)%float = true /\
    (13.38 <=? lon)%float = true /\ (lon <? 13.48)%float = true /\
    Relief.latlon_to_grid (relief_provider raw) lat lon = Ok (x', y') /\
    x - 1 <= x' <= x /\ y - 1 <= y' <= y.
Proof.
  intros Hx Hy.
  pose proof round_trip_axes as Hall. rewrite forallb_forall in Hall.
  pose proof (Hall x (proj1 (list_elem_of_In _ _) (py_range_unit 100 x Hx))) as Cx.
  pose proof (Hall y (proj1 (list_elem_of_In _ _) (py_range_unit 100 y Hy))) as Cy.
  clear Hall. unfold round_trip_near in Cx, Cy.
  unfold Relief.grid_to_latlon, Relief.latlon_to_grid, PyFloat.int_truediv,
    PyFloat.truediv in *.
  cbn [relief_provider Relief.init Relief.grid_width Relief.grid_height
       Relief.lat_bounds Relief.lon_bounds fst snd] in *.
  change (100 =? 0) with false in *. cbv iota in *. cbn [mbind result_bind] in *.
  change ((52.51 - 52.45 =? 0)%float) with false in *.
  change ((13.48 - 13.38 =? 0)%float) with false in *.
  cbv iota in *. cbn [mbind result_bind] in *.
  set (latx := (52.45 + PyFloat.of_int x / PyFloat.of_int 100 * (52.51 - 52.45))%float) in *.
  set (lonx := (13.38 + PyFloat.of_int x / PyFloat.of_int 100 * (13.48 - 13.38))%float) in *.
  set (laty := (52.45 + PyFloat.of_int y / PyFloat.of_int 100 * (52.51 - 52.45))%float) in *.
  set (lony := (13.38 + PyFloat.of_int y / PyFloat.of_int 100 * (13.48 - 13.38))%float) in *.
  destruct (PyFloat.to_int ((latx - 52.45) / (52.51 - 52.45) * PyFloat.of_int 100))
    as [a|]; [|now rewrite andb_false_r in Cx].
  destruct (PyFloat.to_int ((lonx - 13.38) / (13.48 - 13.38) * PyFloat.of_int 100))
    as [b|] eqn:Hb; [|now rewrite andb_false_r in Cx].
  destruct (PyFloat.to_int ((laty - 52.45) / (52.51 - 52.45) * PyFloat.of_int 100))
    as [c|] eqn:Hc; [|now rewrite andb_false_r in Cy].
  destruct (PyFloat.to_int ((lony - 13.38) / (13.48 - 13.38) * PyFloat.of_int 100))
    as [d|]; [|now rewrite andb_false_r in Cy].
  cbn [mbind result_bind] in *.
  repeat match goal with
         | H : _ && _ = true |- _ => apply andb_prop in H as [? ?]
         end.
  repeat match goal with
         | H : Z.leb _ _ = true |- _ => apply Z.leb_le in H
         end.
  exists laty, lonx. eexists _, _. split; [reflexivity|].
  repeat (split; [assumption|]). rewrite Hc. cbn [mbind result_bind].
  rewrite Hb. cbn [mbind result_bind]. split; [reflexivity|]. lia.
Qed.

End RoundTrip.

Section WindCells.

(** Rounding does not look at the sign. *)
Lemma binary_round_aux_opp (s : bool) (m e : Z) (l : location) :
  binary_round_aux prec emax (negb s) m e l
  = SFopp (binary_round_aux prec emax s m e l).
Proof.
  unfold binary_round_aux.
  destruct (shr_fexp prec emax m e l) as [mrs' e'].
  destruct (shr_fexp prec emax _ e' loc_Exact) as [mrs'' e''].
  destruct (shr_m mrs''); [reflexivity| |reflexivity].
  destruct (e'' <=? emax - prec); reflexivity.
Qed.

Lemma xorb_negb_l (a b : bool) : xorb (negb a) b = negb (xorb a b).
Proof. now destruct a, b. Qed.

Lemma SFdiv_opp (x y : spec_float) :
  SFdiv prec emax (SFopp x) y = SFopp (SFdiv prec emax x y).
Proof.
  destruct x as [sx|sx| |sx mx ex], y as [sy|sy| |sy my ey];
    cbn [SFdiv SFopp]; rewrite ?xorb_negb_l; try reflexivity.
  destruct (SFdiv_core_binary prec emax (Z.pos mx) ex (Z.pos my) ey) as [[mz ez] lz].
  apply binary_round_aux_opp.
Qed.

Lemma SFmul_opp (x y : spec_float) :
  SFmul prec emax (SFopp x) y = SFopp (SFmul prec emax x y).
Proof.
  destruct x as [sx|sx| |sx mx ex], y as [sy|sy| |sy my ey];
    cbn [SFmul SFopp]; rewrite ?xorb_negb_l; try reflexivity.
  apply binary_round_aux_opp.
Qed.

(** [int(np.round(-f))] is [-int(np.round(f))], exceptions included. *)
Lemma round_to_int_opp (x y : float) :
  Prim2SF x = SFopp (Prim2SF y) ->
  PyFloat.round_to_int x = (z ← PyFloat.round_to_int y; Ok (- z)).
Proof.
  unfold PyFloat.round_to_int. intros ->.
  destruct (Prim2SF y) as [s|s| |s m e]; cbn [SFopp mbind result_bind]; try reflexivity.
  f_equal. destruct s; cbn [negb]; lia.
Qed.

Lemma opposite_offset (c m : float) (dist : Z) :
  PyFloat.round_to_int (- c / m * PyFloat.of_int dist)
  = (z ← PyFloat.round_to_int (c / m * PyFloat.of_int dist); Ok (- z)).
Proof.
  apply round_to_int_opp.
  rewrite !FloatAxioms.mul_spec, !FloatAxioms.div_spec, FloatAxioms.opp_spec.
  now rewrite SFdiv_opp, SFmul_opp.
Qed.

(** X8. The offsets of the two loops: the shadow list is empty (calm wind)
    or has exactly three offsets; the channel list is empty or has four
    offsets, which come as two pairs of opposite offsets. *)
Theorem X8_wind_cells_shape (u v : float) :
  (forall sh, get_wind_shadow_cells u v = Ok sh -> sh = [] \/ length sh = 3%nat) /\
  (forall ch, get_wind_channel_cells u v = Ok ch ->
     ch = [] \/
     exists a b c d : Z, ch = [(a, b); (- a, - b); (c, d); (- c, - d)]).
Proof.
  split.
  - intros sh. unfold get_wind_shadow_cells. cbv zeta.
    destruct (_ <? 0.1)%float; [intros [= <-]; now left|].
    intros Hsh%mapM_result. right.
    apply Forall2_length in Hsh. rewrite <- Hsh. reflexivity.
  - intros ch. unfold get_wind_channel_cells. cbv zeta.
    destruct (_ <? 0.1)%float; [intros [= <-]; now left|].
    set (m := sqrt (PyFloat.np_pow2 u + PyFloat.np_pow2 v)%float).
    change (py_range 1 3 1) with [1; 2]. cbn [mapM].
    rewrite !(opposite_offset v m), !(opposite_offset u m).
    destruct (PyFloat.round_to_int (v / m * PyFloat.of_int 1)) as [a1|];
      cbn [mbind result_bind]; [|discriminate].
    destruct (PyFloat.round_to_int (u / m * PyFloat.of_int 1)) as [b1|];
      cbn [mbind result_bind]; [|discriminate].
    destruct (PyFloat.round_to_int (v / m * PyFloat.of_int 2)) as [a2|];
      cbn [mbind result_bind]; [|discriminate].
    destruct (PyFloat.round_to_int (u / m * PyFloat.of_int 2)) as [b2|];
      cbn [mbind result_bind]; [|discriminate].
    intros [= <-]. right. exists (- a1), b1, (- a2), b2. cbn [concat app].
    now rewrite !Z.opp_involutive.
Qed.

End WindCells.

Section Returned.
Context {np : NumPy}.

(** A call that returns a snapshot returns the snapshot of the state it
    leaves. *)
Lemma returned_snapshot (w : world) (action_type : string)
    (lat lon : float) (snap : Snapshot) :
  fst (apply_intervention action_type lat lon w) = Ok snap ->
  let w' := snd (apply_intervention action_type lat lon w) in
  get_state w' = (Ok snap, w') /\
  exists x y : Z,
    latlon_to_grid (self w) lat lon = Ok (x, y) /\
    snap_interventions snap
    = interventions (self w) ++ [record_of action_type lat lon x y].
Proof.
  intros Hret w'.
  destruct (latlon_to_grid (self w) lat lon) as [[x y]|e] eqn:Hxy.
  2:{ rewrite (apply_intervention_unresolved _ _ _ _ _ Hxy) in Hret. discriminate. }
  pose proof (apply_intervention_self w action_type lat lon x y Hxy) as Hself.
  fold w' in Hself.
  assert (get_state w' = (Ok snap, w')) as Hstate.
  { unfold w'. rewrite (apply_intervention_resolved _ _ _ _ _ _ Hxy) in *.
    set (w0 := {| self := _; heap := heap w |}) in *.
    unfold mbind, M_bind in *.
    destruct (apply_temperature_effect (self w) action_type x y w0) as [[[]|] w1];
      [|discriminate].
    destruct (apply_wind_effect (self w) action_type x y w1) as [[[]|] w2];
      [|discriminate].
    pose proof (pure_get_state w2) as Hp.
    destruct (get_state w2) as [r w3] eqn:Hg. cbn [fst snd] in *. subst w3.
    rewrite Hg. now rewrite Hret. }
  split; [exact Hstate|]. exists x, y. split; [reflexivity|].
  assert (fst (get_state w') = Ok snap) as Hfst by now rewrite Hstate.
  destruct (get_state_ok w' snap Hfst) as (samples & k & ht & _ & _ & _ & ->).
  cbn [snap_interventions]. now rewrite Hself.
Qed.

(** X4. The snapshot a call returns is the snapshot of the state it
    leaves: a [get_state] right after it returns the same, and its
    history ends with the record of the call. *)
Theorem X4_returned_snapshot_is_current (w : world) (action_type : string)
    (lat lon : float) (snap : Snapshot) :
  fst (apply_intervention action_type lat lon w) = Ok snap ->
  let w' := snd (apply_intervention action_type lat lon w) in
  get_state w' = (Ok snap, w') /\
  exists x y : Z,
    latlon_to_grid (self w) lat lon = Ok (x, y) /\
    snap_interventions snap
    = interventions (self w) ++ [record_of action_type lat lon x y].
Proof. exact (returned_snapshot w action_type lat lon snap). Qed.

End Returned.

Section RemoveTwice.
Context {np : NumPy}.

(** The state a REMOVE_BUILDING call leaves, for the shadow offsets of
    the base wind at the site. *)
Lemma remove_building_run
    (w : world) (lat lon : float) (x y : Z) (u0 v0 : float) :
  wf w -> 1 <= grid_width (self w) -> 1 <= grid_height (self w) ->
  latlon_to_grid (self w) lat lon = Ok (x, y) ->
  array_at w (base_wind_u (self w)) x y = Ok u0 ->
  array_at w (base_wind_v (self w)) x y = Ok v0 ->
  let w' := snd (apply_intervention "REMOVE_BUILDING" lat lon w) in
  current_locs (self w') = current_locs (self w) /\
  heap w' !! current_temp (self w) = heap w !! current_temp (self w) /\
  heap w' !! base_temp (self w) = heap w !! base_temp (self w) /\
  heap w' !! base_wind_u (self w) = heap w !! base_wind_u (self w) /\
  heap w' !! base_wind_v (self w) = heap w !! base_wind_v (self w) /\
  match get_wind_shadow_cells u0 v0 with
  | Ok cells =>
      forall i j : Z,
        0 <= i < grid_width (self w) -> 0 <= j < grid_height (self w) ->
        wind_u w' i j
        = (if bool_decide ((i - x, j - y) ∈ cells)
           then array_at w (base_wind_u (self w)) i j else wind_u w i j) /\
        wind_v w' i j
        = (if bool_decide ((i - x, j - y) ∈ cells)
           then array_at w (base_wind_v (self w)) i j else wind_v w i j)
  | Raise _ => heap w' = heap w
  end.
Proof.
  intros Hwf HW HH Hxy Hu0 Hv0 w'.
  pose proof (wf_shaped _ Hwf) as Hs.
  destruct (latlon_to_grid_bounds _ _ _ _ _ HW HH Hxy) as [Hx Hy].
  destruct (wf_distinct_locs w Hwf) as (Huv & Nt & Nbt & Nbu & Nbv).
  set (s := self w) in *.
  set (w1 := {| self := with_intervention s (record_of "REMOVE_BUILDING" lat lon x y);
                heap := heap w |}).
  assert (after_temperature w "REMOVE_BUILDING" lat lon x y = w1) as Hat.
  { unfold after_temperature, temperature_change_of.
    replace (TEMP_COEFFICIENTS !! "REMOVE_BUILDING"%string) with (@None float)
      by (vm_compute; reflexivity).
    now rewrite transform_id. }
  assert (w' = snd (apply_wind_effect s "REMOVE_BUILDING" x y w1)) as Hw'.
  { unfold w'. now rewrite (apply_intervention_world _ _ _ _ _ _ Hs HW HH Hxy), Hat. }
  destruct (frame_apply_wind_effect s "REMOVE_BUILDING" x y w1) as [Hself [Hf _]].
  rewrite <- Hw' in Hself, Hf. simpl in Hself, Hf.
  split; [now rewrite Hself|].
  split; [now apply Hf|]. split; [now apply Hf|].
  split; [now apply Hf|]. split; [now apply Hf|].
  assert (apply_wind_effect s "REMOVE_BUILDING" x y w1
          = match get_wind_shadow_cells u0 v0 with
            | Ok cells =>
                for_ cells (fun '(dx, dy) =>
                  let nx := x + dx in
                  let ny := y + dy in
                  if in_grid s nx ny then
                    b ← getitem (base_wind_u s) nx ny;
                    setitem (current_wind_u s) nx ny b;;
                    b' ← getitem (base_wind_v s) nx ny;
                    setitem (current_wind_v s) nx ny b'
                  else mret tt) w1
            | Raise e => (Raise e, w1)
            end) as Hrun.
  { unfold apply_wind_effect.
    replace (String.eqb "REMOVE_BUILDING" "ADD_BUILDING") with false by reflexivity.
    replace (String.eqb "REMOVE_BUILDING" "REMOVE_BUILDING") with true by reflexivity.
    unfold mbind at 1, M_bind at 1. rewrite getitem_eq.
    change (array_at w1 (base_wind_u s) x y) with (array_at w (base_wind_u s) x y).
    rewrite Hu0.
    unfold mbind at 1, M_bind at 1. rewrite getitem_eq.
    change (array_at w1 (base_wind_v s) x y) with (array_at w (base_wind_v s) x y).
    rewrite Hv0.
    unfold mbind at 1, M_bind at 1. unfold lift at 1.
    destruct (get_wind_shadow_cells u0 v0); reflexivity. }
  destruct (get_wind_shadow_cells u0 v0) as [cells|e].
  2:{ rewrite Hw', Hrun. reflexivity. }
  destruct (Hs _ (base_wind_u_loc s)) as (bu & Hbu & Sbu).
  destruct (Hs _ (base_wind_v_loc s)) as (bv & Hbv & Sbv).
  destruct (Hs _ (current_wind_u_loc s)) as (cu & Hcu & Scu).
  destruct (Hs _ (current_wind_v_loc s)) as (cv & Hcv & Scv).
  assert (restoring s bu bv w1) as Hrest by (repeat split; assumption).
  rewrite (restore_loop s bu bv x y cells w1 (wf_distinct _ Hwf) Hrest) in Hrun.
  rewrite Hrun in Hw'. simpl in Hw'.
  intros i j Hi Hj.
  assert (in_grid s i j = true) as Hin by (apply in_grid_spec; lia).
  destruct (getitem_lookup _ _ _ _ _ Scu Hi Hj) as (tu & Htu & _).
  destruct (getitem_lookup _ _ _ _ _ Scv Hi Hj) as (tv & Htv & _).
  unfold wind_u, wind_v. rewrite Hself. simpl. fold s.
  rewrite Hw'.
  rewrite (array_at_transform _ _ _ w1 _ cu i j tu Hcu Scu Hi Hj)
    by (rewrite (array_at_lookup w1 _ _ _ _ Hcu); exact Htu).
  rewrite (array_at_transform _ _ _ w1 _ cv i j tv Hcv Scv Hi Hj)
    by (rewrite (array_at_lookup w1 _ _ _ _ Hcv); exact Htv).
  rewrite (compose_assign _ (hits s x y i j) cells _ i j (entry bu i j) tu);
    [|intros c t' Hc; rewrite restore_change_u, Hc by assumption; reflexivity
     |intros c t' Hc; rewrite restore_change_u, Hc by assumption; reflexivity].
  rewrite (compose_assign _ (hits s x y i j) cells _ i j (entry bv i j) tv);
    [|intros c t' Hc; rewrite restore_change_v, Hc by assumption; reflexivity
     |intros c t' Hc; rewrite restore_change_v, Hc by assumption; reflexivity].
  rewrite (existsb_hits _ _ _ _ _ _ Hin).
  rewrite (array_at_lookup _ _ _ _ _ Hbu), (array_at_lookup _ _ _ _ _ Hbv),
    (array_at_lookup _ _ _ _ _ Hcu), (array_at_lookup _ _ _ _ _ Hcv).
  rewrite (entry_getitem _ _ _ _ _ Sbu Hi Hj), (entry_getitem _ _ _ _ _ Sbv Hi Hj).
  rewrite Htu, Htv.
  destruct (bool_decide ((i - x, j - y) ∈ cells)); split; reflexivity.
Qed.


(** X10. REMOVE_BUILDING is idempotent on the fields: a second call at the
    same coordinate changes no wind cell and no temperature cell (it
    only appends its record). *)
Theorem X10_remove_building_twice (w : world) (lat lon : float) (x y : Z) :
  wf w -> 1 <= grid_width (self w) -> 1 <= grid_height (self w) ->
  latlon_to_grid (self w) lat lon = Ok (x, y) ->
  let w1 := snd (apply_intervention "REMOVE_BUILDING" lat lon w) in
  let w2 := snd (apply_intervention "REMOVE_BUILDING" lat lon w1) in
  forall i j : Z,
    0 <= i < grid_width (self w) -> 0 <= j < grid_height (self w) ->
    wind_u w2 i j = wind_u w1 i j /\ wind_v w2 i j = wind_v w1 i j /\
    temperature w2 i j = temperature w1 i j.
Proof.
  intros Hwf HW HH Hxy w1 w2 i j Hi Hj.
  pose proof (wf_shaped _ Hwf) as Hs.
  destruct (latlon_to_grid_bounds _ _ _ _ _ HW HH Hxy) as [Hx Hy].
  destruct (Hs _ (base_wind_u_loc (self w))) as (bu & Hbu & Sbu).
  destruct (Hs _ (base_wind_v_loc (self w))) as (bv & Hbv & Sbv).
  destruct (getitem_lookup _ _ _ x y Sbu ltac:(lia) ltac:(lia)) as (u0 & Hu0 & _).
  destruct (getitem_lookup _ _ _ x y Sbv ltac:(lia) ltac:(lia)) as (v0 & Hv0 & _).
  rewrite <- (array_at_lookup _ _ _ _ _ Hbu) in Hu0.
  rewrite <- (array_at_lookup _ _ _ _ _ Hbv) in Hv0.
  pose proof (remove_building_run w lat lon x y u0 v0 Hwf HW HH Hxy Hu0 Hv0)
    as (Hlocs & Ht & _ & Hkbu & Hkbv & Hwind).
  fold w1 in Hlocs, Ht, Hkbu, Hkbv, Hwind.
  pose proof (apply_intervention_self w "REMOVE_BUILDING" lat lon x y Hxy) as Hself.
  fold w1 in Hself.
  assert (wf w1) as Hwf1 by now apply wf_apply_intervention.
  assert (grid_width (self w1) = grid_width (self w)) as EW by now rewrite Hself.
  assert (grid_height (self w1) = grid_height (self w)) as EH by now rewrite Hself.
  assert (base_wind_u (self w1) = base_wind_u (self w)) as Ebu by now rewrite Hself.
  assert (base_wind_v (self w1) = base_wind_v (self w)) as Ebv by now rewrite Hself.
  assert (current_temp (self w1) = current_temp (self w)) as Ect by now rewrite Hself.
  assert (latlon_to_grid (self w1) lat lon = Ok (x, y)) as Hxy1
    by (rewrite Hself; exact Hxy).
  assert (forall i j, array_at w1 (base_wind_u (self w)) i j
                      = array_at w (base_wind_u (self w)) i j) as Abu
    by (intros; unfold array_at; now rewrite !lookup_total_alt, Hkbu).
  assert (forall i j, array_at w1 (base_wind_v (self w)) i j
                      = array_at w (base_wind_v (self w)) i j) as Abv
    by (intros; unfold array_at; now rewrite !lookup_total_alt, Hkbv).
  pose proof (remove_building_run w1 lat lon x y u0 v0 Hwf1 ltac:(lia) ltac:(lia) Hxy1)
    as (Hlocs2 & Ht2 & _ & _ & _ & Hwind2).
  { rewrite Ebu, Abu. exact Hu0. }
  { rewrite Ebv, Abv. exact Hv0. }
  fold w2 in Hlocs2, Ht2, Hwind2.
  assert (temperature w2 i j = temperature w1 i j) as Htemp.
  { unfold temperature, array_at. injection Hlocs2 as -> _ _.
    now rewrite !lookup_total_alt, Ht2. }
  destruct (get_wind_shadow_cells u0 v0) as [cells|e].
  - destruct (Hwind i j Hi Hj) as [Hu1 Hv1].
    destruct (Hwind2 i j ltac:(lia) ltac:(lia)) as [Hu2 Hv2].
    rewrite Hu2, Hv2, Ebu, Ebv, Abu, Abv, Hu1, Hv1.
    destruct (bool_decide ((i - x, j - y) ∈ cells)); auto.
  - unfold wind_u, wind_v, array_at. injection Hlocs2 as _ -> ->.
    rewrite Hwind2. auto.
Qed.

End RemoveTwice.

Section Heating.
Context {np : NumPy}.

Lemma heated_cases (d : float) (dx dy : Z) :
  site_is_hottest d = true ->
  is_nan (heated d dx dy) = false /\
  ((dx, dy) <> (0, 0) -> (heated d dx dy <? 30 + d)%float = true).
Proof.
  unfold site_is_hottest. intros [Hsite Hall]%andb_prop.
  rewrite forallb_forall in Hall.
  destruct (decide (-2 <= dx <= 2 /\ -2 <= dy <= 2)) as [Hnear|Hfar].
  - assert (In (dx, dy) ((3, 3) :: neighbourhood)) as Hin
      by (apply list_elem_of_In; right; apply neighbourhood_spec; exact Hnear).
    apply Hall in Hin. cbn [fst snd] in Hin.
    apply andb_prop in Hin as [Hn Hlt].
    split; [now apply negb_true_iff|].
    intros Hne. apply orb_prop in Hlt as [Hz|Hlt]; [|exact Hlt].
    apply andb_prop in Hz as [Hx%Z.eqb_eq Hy%Z.eqb_eq]. subst. contradiction.
  - specialize (Hall (3, 3) ltac:(left; reflexivity)). cbn [fst snd] in Hall.
    assert (heated d dx dy = heated d 3 3) as ->.
    { unfold heated.
      replace ((dx =? 0) && (dy =? 0)) with false by (symmetry; apply andb_false_iff; lia).
      replace ((-2 <=? dx) && (dx <=? 2) && (-2 <=? dy) && (dy <=? 2)) with false;
        [reflexivity|].
      symmetry. rewrite !andb_false_iff. lia. }
    apply andb_prop in Hall as [Hn Hlt].
    split; [now apply negb_true_iff|]. intros _. exact Hlt.
Qed.

Lemma heating_coefficients (action_type : string) (d : float) :
  TEMP_COEFFICIENTS !! action_type = Some d -> (0 <? d)%float = true ->
  site_is_hottest d = true.
Proof.
  intros Hd Hpos. apply coefficient_cases in Hd.
  destruct Hd as [->|[->|[->|[->| ->]]]];
    first [ vm_compute in Hpos; discriminate | vm_compute; reflexivity ].
Qed.

(** X20. On a freshly constructed simulator (every cell at 30.0), a call
    of a heating type (REMOVE_ASPHALT, ADD_ASPHALT, ADD_BUILDING) that
    returns reports its own site as the hotspot: the coordinate of the
    resolved cell and the temperature 30.0 + d. *)
Theorem X20_heating_moves_hotspot (gs : Z * Z) (lat0 lon0 : float)
    (h : gmap loc ndarray) (w : world) (action_type : string) (d lat lon : float)
    (x y : Z) (snap : Snapshot) :
  ClimateSimulator_init gs lat0 lon0 h = Ok w ->
  1 <= fst gs -> 1 <= snd gs ->
  TEMP_COEFFICIENTS !! action_type = Some d -> (0 <? d)%float = true ->
  latlon_to_grid (self w) lat lon = Ok (x, y) ->
  fst (apply_intervention action_type lat lon w) = Ok snap ->
  snap_hotspot snap
  = (fst (grid_to_latlon (self w) x y), snd (grid_to_latlon (self w) x y),
     (30 + d)%float).
Proof.
  intros Hinit HW0 HH0 Hd Hpos Hxy Hret.
  pose proof (heating_coefficients _ _ Hd Hpos) as Hhot.
  destruct (init_spec _ _ _ _ _ Hinit) as (Hwf & EW & EH & _).
  assert (1 <= grid_width (self w)) as HW by lia.
  assert (1 <= grid_height (self w)) as HH by lia.
  destruct (latlon_to_grid_bounds _ _ _ _ _ HW HH Hxy) as [Hx Hy].
  destruct (returned_snapshot w action_type lat lon snap Hret) as [Hstate _].
  set (w' := snd (apply_intervention action_type lat lon w)) in *.
  pose proof (apply_intervention_self w action_type lat lon x y Hxy) as Hself.
  fold w' in Hself.
  assert (wf w') as Hwf' by now apply wf_apply_intervention.
  assert (forall i j, 0 <= i < grid_width (self w) -> 0 <= j < grid_height (self w) ->
            temperature w' i j = Ok (heated d (i - x) (j - y))) as Hcells.
  { intros i j Hi Hj.
    pose proof (temperature_initial _ _ _ _ _ i j Hinit ltac:(lia) ltac:(lia)) as Ht.
    unfold w'.
    rewrite (temperature_effect w action_type d lat lon x y i j 30
               Hwf HW HH Hd Hxy Hi Hj Ht).
    f_equal. unfold heated.
    destruct (decide ((i, j) = (x, y))) as [[= -> ->]|Hne].
    - now rewrite !Z.sub_diag.
    - replace ((i - x =? 0) && (j - y =? 0)) with false.
      2:{ symmetry. apply andb_false_iff.
          destruct (Z.eqb_spec (i - x) 0); [|now left].
          destruct (Z.eqb_spec (j - y) 0); [|now right].
          exfalso. apply Hne. f_equal; lia. }
      destruct (decide (-2 <= i - x <= 2 /\ -2 <= j - y <= 2)) as [Hnear|Hfar].
      + replace ((-2 <=? i - x) && (i - x <=? 2) && (-2 <=? j - y) && (j - y <=? 2))
          with true; [reflexivity|].
        symmetry. rewrite !andb_true_iff, !Z.leb_le. lia.
      + replace ((-2 <=? i - x) && (i - x <=? 2) && (-2 <=? j - y) && (j - y <=? 2))
          with false; [reflexivity|].
        symmetry. rewrite !andb_false_iff, !Z.leb_gt. lia. }
  destruct (wf_shape _ Hwf' _ (current_temp_loc (self w'))) as (ct & Hct & Hshape).
  assert (grid_width (self w') = grid_width (self w)) as EW' by now rewrite Hself.
  assert (grid_height (self w') = grid_height (self w)) as EH' by now rewrite Hself.
  assert (no_nan ct = true) as Hnan.
  { unfold no_nan. apply forallb_forall. intros t Ht%list_elem_of_In.
    apply list_elem_of_lookup in Ht as [k Hk].
    destruct (flatten_index _ _ _ _ _ Hshape Hk) as (Hn & Hrow & Hat).
    pose proof (Nat.mod_upper_bound k (Z.to_nat (grid_height (self w'))) ltac:(lia))
      as Hcol.
    destruct (getitem_lookup _ _ ct (Z.of_nat (k / Z.to_nat (grid_height (self w'))))
                (Z.of_nat (k mod Z.to_nat (grid_height (self w')))) Hshape)
      as (t' & Hget & Hat'); [lia..|].
    rewrite !Nat2Z.id in Hat'. assert (t' = t) as -> by congruence.
    rewrite <- (array_at_lookup w' _ _ _ _ Hct) in Hget.
    fold (temperature w' (Z.of_nat (k / Z.to_nat (grid_height (self w'))))
                         (Z.of_nat (k mod Z.to_nat (grid_height (self w'))))) in Hget.
    rewrite Hcells in Hget by lia. injection Hget as <-.
    apply negb_true_iff. exact (proj1 (heated_cases d _ _ Hhot)). }
  assert (fst (get_state w') = Ok snap) as Hfst by now rewrite Hstate.
  destruct (first_maximum w' ct snap Hct Hshape Hnan Hfst)
    as (i & j & ht & Hi & Hj & Hht & -> & Hmax & _).
  rewrite EW' in Hi. rewrite EH' in Hj.
  rewrite Hcells in Hht by assumption. injection Hht as <-.
  assert ((i, j) = (x, y)) as [= -> ->].
  { destruct (decide ((i, j) = (x, y))) as [|Hne]; [assumption|exfalso].
    assert ((i - x, j - y) <> (0, 0)) as Hoff
      by (intros [= ? ?]; apply Hne; f_equal; lia).
    pose proof (proj2 (heated_cases d _ _ Hhot) Hoff) as Hlt.
    pose proof (Hmax x y (heated d (x - x) (y - y))) as Hle.
    rewrite EW', EH' in Hle. specialize (Hle ltac:(lia) ltac:(lia) (Hcells x y ltac:(lia) ltac:(lia))).
    rewrite !Z.sub_diag in Hle. change (heated d 0 0) with (30 + d)%float in Hle.
    destruct (heated_cases d (i - x) (j - y) Hhot) as [Hn1 _].
    destruct (heated_cases d 0 0 Hhot) as [Hn2 _].
    change (heated d 0 0) with (30 + d)%float in Hn2.
    apply (leb_ford _ _ Hn2 Hn1) in Hle. apply (ltb_ford _ _ Hn1 Hn2) in Hlt. lia. }
  rewrite !Z.sub_diag. change (heated d 0 0) with (30 + d)%float.
  rewrite Hself. reflexivity.
Qed.

End Heating.

Section Constructor.
Context {np : NumPy}.

Lemma init_raises (gs : Z * Z) (lat0 lon0 : float) (h : gmap loc ndarray) :
  fst gs < 0 \/ snd gs < 0 ->
  ClimateSimulator_init gs lat0 lon0 h = Raise ValueError.
Proof.
  destruct gs as [W H]. cbn [fst snd]. intros Hneg.
  unfold ClimateSimulator_init, Nd.full.
  replace ((W <? 0) || (H <? 0)) with true; [reflexivity|].
  symmetry. apply orb_true_iff. rewrite !Z.ltb_lt. exact Hneg.
Qed.

Lemma init_returns (gs : Z * Z) (lat0 lon0 : float) (h : gmap loc ndarray) :
  0 <= fst gs -> 0 <= snd gs ->
  exists w, ClimateSimulator_init gs lat0 lon0 h = Ok w.
Proof.
  destruct gs as [W H]. cbn [fst snd]. intros HW HH.
  unfold ClimateSimulator_init, Nd.full.
  replace ((W <? 0) || (H <? 0)) with false; [cbn [mbind result_bind]; eauto|].
  symmetry. apply orb_false_iff. rewrite !Z.ltb_ge. auto.
Qed.

(** The arrays that existed before the constructor ran are not those of
    the new simulator, and they are not touched. *)
Lemma init_fresh (gs : Z * Z) (lat0 lon0 : float) (h : gmap loc ndarray) (w : world)
    (l : loc) (a : ndarray) :
  ClimateSimulator_init gs lat0 lon0 h = Ok w -> h !! l = Some a ->
  heap w !! l = Some a /\ l ∉ array_locs (self w).
Proof.
  destruct gs as [W H]. unfold ClimateSimulator_init, Nd.full, mbind, result_bind.
  destruct ((W <? 0) || (H <? 0)); [discriminate|].
  set (l1 := fresh (dom h)). set (h1 := <[l1 := _]> h).
  set (l2 := fresh (dom h1)). set (h2 := <[l2 := _]> h1).
  set (l3 := fresh (dom h2)). set (h3 := <[l3 := _]> h2).
  set (l4 := fresh (dom h3)). set (h4 := <[l4 := _]> h3).
  set (l5 := fresh (dom h4)). set (h5 := <[l5 := _]> h4).
  set (l6 := fresh (dom h5)). set (h6 := <[l6 := _]> h5).
  intros [= <-] Hl. cbn [heap self array_locs base_temp base_wind_u base_wind_v
                           current_temp current_wind_u current_wind_v].
  assert (l ∈ dom h) as Hdom by (apply elem_of_dom; eauto).
  assert (l1 ∉ dom h) as F1 by apply is_fresh.
  assert (l2 ∉ dom h1) as F2 by apply is_fresh.
  assert (l3 ∉ dom h2) as F3 by apply is_fresh.
  assert (l4 ∉ dom h3) as F4 by apply is_fresh.
  assert (l5 ∉ dom h4) as F5 by apply is_fresh.
  assert (l6 ∉ dom h5) as F6 by apply is_fresh.
  unfold h5 in F6. unfold h4 in F5, F6. unfold h3 in F4, F5, F6.
  unfold h2 in F3, F4, F5, F6. unfold h1 in F2, F3, F4, F5, F6.
  rewrite !dom_insert_L in *.
  assert (l <> l1 /\ l <> l2 /\ l <> l3 /\ l <> l4 /\ l <> l5 /\ l <> l6)
    as (N1 & N2 & N3 & N4 & N5 & N6) by set_solver.
  split.
  - unfold h6, h5, h4, h3, h2, h1. rewrite !lookup_insert_ne by congruence. exact Hl.
  - unfold array_locs. cbn [base_temp base_wind_u base_wind_v
                            current_temp current_wind_u current_wind_v].
    rewrite !not_elem_of_cons. repeat split; try assumption. apply not_elem_of_nil.
Qed.

(** X21. The constructor raises [ValueError] on a negative grid
    dimension. Otherwise it returns a well-formed simulator: its six
    arrays are six distinct new objects of the grid's shape (the current
    arrays are copies of the base arrays, not aliases), arrays that
    existed before are untouched, the history is empty, and every cell
    starts at temperature 30.0 and wind (2.0, 1.0). *)
Theorem X21_constructor (gs : Z * Z) (lat0 lon0 : float) (h : gmap loc ndarray) :
  (fst gs < 0 \/ snd gs < 0 ->
   ClimateSimulator_init gs lat0 lon0 h = Raise ValueError) /\
  (0 <= fst gs -> 0 <= snd gs ->
   exists w, ClimateSimulator_init gs lat0 lon0 h = Ok w /\
     wf w /\
     grid_width (self w) = fst gs /\ grid_height (self w) = snd gs /\
     base_lat (self w) = lat0 /\ base_lon (self w) = lon0 /\
     interventions (self w) = [] /\
     (forall l a, h !! l = Some a ->
        heap w !! l = Some a /\ l ∉ array_locs (self w)) /\
     forall i j, 0 <= i < fst gs -> 0 <= j < snd gs ->
       temperature w i j = Ok 30%float /\
       wind_u w i j = Ok 2%float /\ wind_v w i j = Ok 1%float /\
       array_at w (base_temp (self w)) i j = Ok 30%float /\
       array_at w (base_wind_u (self w)) i j = Ok 2%float /\
       array_at w (base_wind_v (self w)) i j = Ok 1%float).
Proof.
  split; [apply init_raises|].
  intros HW HH. destruct (init_returns gs lat0 lon0 h HW HH) as [w Hinit].
  exists w. split; [exact Hinit|].
  destruct (init_spec _ _ _ _ _ Hinit)
    as (Hwf & EW & EH & Elat & Elon & Eint & Hbt & Hbu & Hbv & Hct & Hcu & Hcv).
  repeat (split; [assumption|]).
  split; [intros l a Hl; exact (init_fresh _ _ _ _ _ _ _ Hinit Hl)|].
  intros i j Hi Hj. unfold temperature, wind_u, wind_v.
  rewrite (array_at_lookup _ _ _ _ _ Hbt), (array_at_lookup _ _ _ _ _ Hbu),
    (array_at_lookup _ _ _ _ _ Hbv), (array_at_lookup _ _ _ _ _ Hct),
    (array_at_lookup _ _ _ _ _ Hcu), (array_at_lookup _ _ _ _ _ Hcv).
  rewrite !getitem_uniform by assumption. repeat split.
Qed.

End Constructor.

Section Centre.
Context {np : NumPy}.

(** [float(z)] is exact for [1 <= z < 2^53]. *)
Lemma of_int_value (z : Z) :
  1 <= z < 2 ^ 53 -> fvalue (PyFloat.of_int z) (z * scale 0).
Proof.
  intros Hz. unfold fvalue, PyFloat.of_int.
  destruct z as [|p|p]; try lia.
  destruct (binary_normalize_spec p 0 false ltac:(lia)) as (W & (HW0 & Hup & Hlo) & Hres).
  assert (W = Zpos p * scale 0) as ->.
  { pose proof (Hup (Zpos p) 0 ltac:(lia) ltac:(lia) ltac:(lia)).
    pose proof (Hlo (Zpos p) 0 ltac:(lia) ltac:(lia) ltac:(lia)). lia. }
  assert (0 < scale 0) as Hs by (apply scale_pos; lia).
  assert (pos_float (binary_normalize prec emax (Zpos p) 0 false) (Zpos p * scale 0))
    as Hpos.
  { apply result_is_pos_float; [exact Hres|nia|].
    assert (scale 0 <= scale 971) by (apply scale_le; lia).
    assert (Zpos p * scale 0 < 2 ^ 53 * scale 0) by (apply Z.mul_lt_mono_pos_r; lia).
    assert (2 ^ 53 * scale 0 <= 2 ^ 53 * scale 971) by (apply Z.mul_le_mono_nonneg_l; lia).
    lia. }
  destruct Hpos as (m & e & Hr & Hb & Hv).
  rewrite Hr, Prim2SF_SF2Prim by exact Hb.
  exists m, e. auto.
Qed.

(** [int(x)] on a positive float: the integer part of its value. *)
Lemma to_int_value (x : float) (v k : Z) :
  fvalue x v -> k * scale 0 <= v < (k + 1) * scale 0 -> PyFloat.to_int x = Ok k.
Proof.
  intros (m & e & Hx & Hb & ->) Hk. unfold PyFloat.to_int. rewrite Hx.
  destruct (bounded_facts m e Hb) as (_ & He & _). f_equal.
  assert (0 < scale 0) as Hs by (apply scale_pos; lia).
  destruct e as [|pe|pe].
  - rewrite Z.shiftl_0_r. nia.
  - rewrite Z.shiftl_mul_pow2 by lia.
    replace (scale (Zpos pe)) with (scale 0 * 2 ^ Zpos pe) in Hk
      by (rewrite <- (scale_add 0) by lia; f_equal).
    assert (0 < 2 ^ Zpos pe) by (apply Z.pow_pos_nonneg; lia).
    nia.
  - rewrite Z.shiftr_div_pow2 by lia.
    assert (scale 0 = scale (Zneg pe) * 2 ^ Zpos pe) as Hsc.
    { rewrite <- scale_add by lia. f_equal. lia. }
    assert (0 < scale (Zneg pe)) as Hs' by (apply scale_pos; lia).
    assert (0 < 2 ^ Zpos pe) as Hp by (apply Z.pow_pos_nonneg; lia).
    rewrite Hsc in Hk.
    assert (k * 2 ^ Zpos pe <= Zpos m < (k + 1) * 2 ^ Zpos pe) as [Hlo Hhi] by nia.
    symmetry. apply (Z.div_unique _ _ _ (Zpos m - k * 2 ^ Zpos pe)); lia.
Qed.

(** Dividing a float of at least 1 by 2 only lowers its exponent. *)
Lemma SFdiv_core_2 (md : positive) (ed : Z) :
  2 ^ 52 <= Zpos md < 2 ^ 53 -> -1072 <= ed ->
  SFdiv_core_binary prec emax (Zpos md) ed 4503599627370496 (-51)
  = (Zpos md~0, ed - 2, loc_Exact).
Proof.
  intros Hmd Hed. unfold SFdiv_core_binary. cbv zeta.
  change (Zdigits2 4503599627370496) with 53.
  change (Zdigits2 (Zpos md)) with (Zpos (digits2_pos md)).
  rewrite (digits_53 md Hmd). rewrite fexp_eq.
  change (IntDef.Z.min ?a ?b) with (Z.min a b).
  replace (Z.min (Z.max (53 + ed - (53 + -51) - 53) (-1074)) (ed - -51)) with (ed - 2) by lia.
  replace (ed - -51 - (ed - 2)) with 53 by lia.
  change (IntDef.Z.shiftl ?a ?b) with (Z.shiftl a b).
  change (IntDef.Z.div_eucl ?a ?b) with (Z.div_eucl a b).
  rewrite Z.shiftl_mul_pow2 by lia.
  rewrite (div_eucl_exact _ _ (Zpos md~0)); [reflexivity|reflexivity|].
  change (2 ^ 53) with 9007199254740992. lia.
Qed.

Lemma half_value (x : float) (v : Z) :
  fvalue x v -> scale 0 <= v -> exists W, 2 * W = v /\ fvalue (x / 2) W.
Proof.
  unfold fvalue. rewrite FloatAxioms.div_spec.
  change (Prim2SF 2) with (S754_finite false 4503599627370496 (-51)).
  intros (md & ed & -> & Hb & ->) Hv.
  destruct (bounded_facts _ _ Hb) as (Hmd & Hed & Hc).
  assert (-53 < ed) as Hed'.
  { destruct (Z_lt_le_dec (-53) ed) as [|Hle]; [assumption|exfalso].
    assert (0 < scale ed) by (apply scale_pos; lia).
    assert (scale ed <= scale (-53)) by (apply scale_le; lia).
    assert (Zpos md * scale ed < 2 ^ 53 * scale ed) by (apply Z.mul_lt_mono_pos_r; lia).
    assert (2 ^ 53 * scale ed <= 2 ^ 53 * scale (-53)) by (apply Z.mul_le_mono_nonneg_l; lia).
    assert (2 ^ 53 * scale (-53) = scale 0) as Heq.
    { change (scale 0) with (scale (-53 + 53)). rewrite scale_add by lia. ring. }
    lia. }
  destruct Hc as [Hc|Hc]; [|lia].
  unfold SF64div, SFdiv. simpl xorb.
  rewrite SFdiv_core_2 by lia.
  destruct (round_aux_spec false md~0 (ed - 2) ltac:(lia)) as (W & Hr & Hres).
  { rewrite fexp_eq.
    assert (2 ^ 53 <= Zpos md~0) as Hp by (rewrite Pos2Z.inj_xO; change (2 ^ 53) with (2 * 2 ^ 52); lia).
    pose proof (digits_ge _ _ Hp). lia. }
  assert (Zpos md~0 * scale (ed - 2) = Zpos md * scale (ed - 1)) as Hval.
  { replace (ed - 1) with (ed - 2 + 1) by lia. rewrite scale_succ by lia.
    rewrite Pos2Z.inj_xO. ring. }
  rewrite Hval in Hr.
  assert (bounded prec emax md (ed - 1) = true) as Hb'
    by (apply bounded_intro; [lia|lia|now left]).
  pose proof (rounds_to_exact _ _ _ Hb' Hr) as HW.
  exists W. split.
  - rewrite HW. replace ed with (ed - 1 + 1) at 2 by lia. rewrite scale_succ by lia. ring.
  - apply result_is_pos_float; [exact Hres| |].
    + rewrite HW. apply Z.mul_pos_pos; [lia|apply scale_pos; lia].
    + rewrite HW. apply (pos_float_below_max (S754_finite false md (ed - 1))).
      exists md, (ed - 1). auto.
Qed.

(** The position [n / 2] of the grid's middle resolves to cell
    [n // 2]. *)
Lemma middle_cell (n : Z) :
  1 <= n < 2 ^ 53 -> PyFloat.to_int (PyFloat.of_int n / 2) = Ok (n / 2).
Proof.
  intros Hn. pose proof (of_int_value n Hn) as Hv.
  assert (0 < scale 0) as Hs by (apply scale_pos; lia).
  destruct (half_value _ _ Hv ltac:(nia)) as (W & HW & Hhalf).
  apply (to_int_value _ W); [exact Hhalf|].
  pose proof (Z.div_mod n 2 ltac:(lia)) as Hdm.
  pose proof (Z.mod_pos_bound n 2 ltac:(lia)) as Hm.
  nia.
Qed.

Lemma finite_cases (x : float) :
  PyFloat.is_finite x = true ->
  (exists s, Prim2SF x = S754_zero s) \/ (exists s m e, Prim2SF x = S754_finite s m e).
Proof.
  unfold PyFloat.is_finite. destruct (Prim2SF x); try discriminate; eauto.
Qed.

Lemma sub_diag_zero (x : float) : PyFloat.is_finite x = true -> is_zero (x - x).
Proof.
  intros Hx. unfold is_zero. rewrite FloatAxioms.sub_spec.
  destruct (finite_cases x Hx) as [[s ->]|(s & m & e & ->)].
  - exists false. now destruct s.
  - exists false. unfold SF64sub, SFsub. cbv zeta.
    rewrite Z.sub_diag. reflexivity.
Qed.

Lemma zero_mul (z c : float) :
  is_zero z -> PyFloat.is_finite c = true -> is_zero (z * c).
Proof.
  intros [s Hz] Hc. unfold is_zero. rewrite FloatAxioms.mul_spec, Hz.
  destruct (finite_cases c Hc) as [[s' ->]|(s' & m & e & ->)]; eexists; reflexivity.
Qed.

Lemma zero_div (z c : float) (s : bool) (m : positive) (e : Z) :
  is_zero z -> Prim2SF c = S754_finite s m e -> is_zero (z / c).
Proof.
  intros [s' Hz] Hc. unfold is_zero. rewrite FloatAxioms.div_spec, Hz, Hc.
  eexists. reflexivity.
Qed.

Lemma add_zero (x z : float) (v : Z) : fvalue x v -> is_zero z -> (x + z)%float = x.
Proof.
  intros (m & e & Hx & _) [s Hz]. apply Prim2SF_inj.
  now rewrite FloatAxioms.add_spec, Hx, Hz.
Qed.

(** X22. The simulator's base coordinate resolves to the middle cell of
    the grid, [(W // 2, H // 2)], whatever the grid size (below 2^53)
    and the base coordinate, provided both are finite and so is the
    cosine the library returns. *)
Theorem X22_base_coordinate_is_centre (s : ClimateSimulator) :
  1 <= grid_width s < 2 ^ 53 -> 1 <= grid_height s < 2 ^ 53 ->
  PyFloat.is_finite (base_lat s) = true -> PyFloat.is_finite (base_lon s) = true ->
  PyFloat.is_finite (np_cos (np_radians (base_lat s))) = true ->
  latlon_to_grid s (base_lat s) (base_lon s) = Ok (grid_width s / 2, grid_height s / 2).
Proof.
  intros HW HH Hlat Hlon Hcos. unfold latlon_to_grid.
  assert (is_zero ((base_lon s - base_lon s) * 111000
                   * np_cos (np_radians (base_lat s)) / 100)) as Zx.
  { eapply zero_div; [|vm_compute; reflexivity].
    apply zero_mul; [|exact Hcos].
    apply zero_mul; [|reflexivity]. now apply sub_diag_zero. }
  assert (is_zero ((base_lat s - base_lat s) * 111000 / 100)) as Zy.
  { eapply zero_div; [|vm_compute; reflexivity].
    apply zero_mul; [|reflexivity]. now apply sub_diag_zero. }
  assert (0 < scale 0) as Hs by (apply scale_pos; lia).
  destruct (half_value _ _ (of_int_value _ HW) ltac:(nia)) as (Vx & _ & Hvx).
  destruct (half_value _ _ (of_int_value _ HH) ltac:(nia)) as (Vy & _ & Hvy).
  rewrite (add_zero _ _ _ Hvx Zx), (add_zero _ _ _ Hvy Zy).
  rewrite (middle_cell _ HW), (middle_cell _ HH). cbn [mbind result_bind].
  pose proof (Z.div_mod (grid_width s) 2 ltac:(lia)).
  pose proof (Z.mod_pos_bound (grid_width s) 2 ltac:(lia)).
  pose proof (Z.div_mod (grid_height s) 2 ltac:(lia)).
  pose proof (Z.mod_pos_bound (grid_height s) 2 ltac:(lia)).
  f_equal. f_equal; lia.
Qed.

End Centre.

Section Corners.

Lemma fvalue_finite (x : float) (v : Z) : fvalue x v -> PyFloat.is_finite x = true.
Proof. intros (m & e & Hx & _). unfold PyFloat.is_finite. now rewrite Hx. Qed.

Lemma to_int_zero (z : float) : is_zero z -> PyFloat.to_int z = Ok 0.
Proof. intros [s Hz]. unfold PyFloat.to_int. now rewrite Hz. Qed.

(** Multiplying by 1.0 keeps the value. *)
Lemma one_mul_value (x : float) (v : Z) : fvalue x v -> fvalue (1 * x) v.
Proof.
  unfold fvalue. rewrite FloatAxioms.mul_spec.
  change (Prim2SF 1) with (S754_finite false 4503599627370496 (-52)).
  intros (m & e & -> & Hb & ->).
  destruct (bounded_facts m e Hb) as (Hm & He & _).
  destruct (SFmul_pos 4503599627370496 m (-52) e eq_refl Hb) as (W & Hr & Hres).
  assert (Zpos 4503599627370496 * Zpos m * scale (-52 + e) = Zpos m * scale e) as Hval.
  { assert (scale e = scale (-52 + e) * 2 ^ 52) as ->
      by (rewrite <- scale_add by lia; f_equal; lia).
    change (2 ^ 52) with 4503599627370496. ring. }
  rewrite Hval in Hr. pose proof (rounds_to_exact _ _ _ Hb Hr) as ->.
  apply result_is_pos_float; [exact Hres| |].
  - apply Z.mul_pos_pos; [lia|apply scale_pos; lia].
  - apply (pos_float_below_max (S754_finite false m e)). exists m, e. auto.
Qed.

(** X23. On every constructed provider with a grid of at least one cell
    (and fewer than 2^53 per axis), the south-west corner of the
    bounding box resolves to cell (0, 0) and the north-east corner,
    whose position is one past the last cell, is clamped to the last
    cell (W - 1, H - 1). *)
Theorem X23_relief_corners (base_lat base_lon : float) (W H : Z) (raw : ndarray) :
  1 <= W < 2 ^ 53 -> 1 <= H < 2 ^ 53 ->
  let r := Relief.init base_lat base_lon (W, H) raw in
  Relief.latlon_to_grid r 52.45 13.38 = Ok (0, 0) /\
  Relief.latlon_to_grid r 52.51 13.48 = Ok (W - 1, H - 1).
Proof.
  intros HW HH r.
  pose proof (of_int_value W HW) as VW. pose proof (of_int_value H HH) as VH.
  assert (0 < scale 0) as Hs by (apply scale_pos; lia).
  unfold Relief.latlon_to_grid, PyFloat.truediv.
  cbn [r Relief.init Relief.lat_bounds Relief.lon_bounds Relief.grid_width
       Relief.grid_height fst snd].
  change ((52.51 - 52.45 =? 0)%float) with false.
  change ((13.48 - 13.38 =? 0)%float) with false.
  cbv iota. cbn [mbind result_bind]. split.
  - replace ((52.45 - 52.45) / (52.51 - 52.45))%float with 0%float
      by (vm_compute; reflexivity).
    replace ((13.38 - 13.38) / (13.48 - 13.38))%float with 0%float
      by (vm_compute; reflexivity).
    rewrite (to_int_zero (0 * PyFloat.of_int H))
      by (apply zero_mul; [exists false; reflexivity|exact (fvalue_finite _ _ VH)]).
    cbn [mbind result_bind].
    rewrite (to_int_zero (0 * PyFloat.of_int W))
      by (apply zero_mul; [exists false; reflexivity|exact (fvalue_finite _ _ VW)]).
    cbn [mbind result_bind]. f_equal. f_equal; lia.
  - replace ((52.51 - 52.45) / (52.51 - 52.45))%float with 1%float
      by (vm_compute; reflexivity).
    replace ((13.48 - 13.38) / (13.48 - 13.38))%float with 1%float
      by (vm_compute; reflexivity).
    rewrite (to_int_value _ _ H (one_mul_value _ _ VH)) by lia.
    cbn [mbind result_bind].
    rewrite (to_int_value _ _ W (one_mul_value _ _ VW)) by lia.
    cbn [mbind result_bind]. f_equal. f_equal; lia.
Qed.

End Corners.

Section Returns.
Context {np : NumPy}.

(** X24. On a well-formed simulator, a call of any type other than the
    two building types returns a snapshot as soon as its coordinate
    resolves, provided no sampled wind component overflows when
    squared (the call does not change the wind): the temperature
    updates cannot raise. *)
Theorem X24_other_types_return (w : world) (action_type : string) (lat lon : float)
    (x y : Z) :
  wf w -> 1 <= grid_width (self w) -> 1 <= grid_height (self w) ->
  action_type <> "ADD_BUILDING"%string -> action_type <> "REMOVE_BUILDING"%string ->
  latlon_to_grid (self w) lat lon = Ok (x, y) ->
  existsb (overflowing w) (sample_cells (self w)) = false ->
  exists snap, fst (apply_intervention action_type lat lon w) = Ok snap.
Proof.
  intros Hwf HW HH Hadd Hrem Hxy Hcalm.
  pose proof (wf_shaped _ Hwf) as Hs.
  destruct (latlon_to_grid_bounds _ _ _ _ _ HW HH Hxy) as [Hx Hy].
  assert (String.eqb action_type "ADD_BUILDING" = false) as Ea
    by now apply String.eqb_neq.
  assert (String.eqb action_type "REMOVE_BUILDING" = false) as Er
    by now apply String.eqb_neq.
  set (w1 := after_temperature w action_type lat lon x y).
  assert (apply_intervention action_type lat lon w = get_state w1) as Hrun.
  { rewrite (apply_intervention_resolved _ _ _ _ _ _ Hxy).
    unfold mbind at 1, M_bind at 1.
    rewrite (temperature_branch w action_type lat lon x y Hs) by lia.
    fold w1. cbv beta iota.
    unfold mbind at 1, M_bind at 1. unfold apply_wind_effect. rewrite Ea, Er.
    reflexivity. }
  destruct (wf_distinct_locs w Hwf) as (_ & Nt & _).
  rewrite !not_elem_of_cons in Nt. destruct Nt as (Ntu & Ntv & _).
  assert (wf w1) as Hwf1.
  { unfold w1, after_temperature. apply wf_transform.
    destruct Hwf as [Hd Hsh]. split; [exact Hd|exact Hsh]. }
  assert (forall c, overflowing w1 c = overflowing w c) as Hsame.
  { intros c. unfold overflowing, wind_u, wind_v, array_at.
    rewrite !lookup_total_alt.
    change (current_wind_u (self w1)) with (current_wind_u (self w)).
    change (current_wind_v (self w1)) with (current_wind_v (self w)).
    unfold w1. now rewrite !after_temperature_wind by congruence. }
  destruct (get_state_cases w1 Hwf1 HW HH) as [_ Hcases].
  change (sample_cells (self w1)) with (sample_cells (self w)) in Hcases.
  assert (forall cells, existsb (overflowing w1) cells = existsb (overflowing w) cells)
    as Heq.
  { intros cells. induction cells as [|c cells IH]; [reflexivity|].
    simpl. now rewrite Hsame, IH. }
  rewrite Heq, Hcalm in Hcases.
  rewrite Hrun. exact Hcases.
Qed.

End Returns.


(** ** The further properties on concrete inputs *)

Section Witnesses.

Lemma server_grid :
  1 <= grid_width (self server_world) /\ 1 <= grid_height (self server_world).
Proof. split; vm_compute; discriminate. Qed.

Lemma heated_world_wf : wf heated_world.
Proof. apply (wf_apply_intervention (np := sample_numpy)), server_world_wf. Qed.

Lemma calm_world_wf : wf calm_world.
Proof.
  unfold calm_world. generalize 5%nat. intros n.
  induction n as [|n IH]; [exact server_world_wf|].
  cbn [Nat.iter]. now apply (wf_apply_intervention (np := sample_numpy)).
Qed.

Lemma storm_world_wf : wf storm_world.
Proof. apply wf_transform, server_world_wf. Qed.

End Witnesses.


(** X2 after ADD_ASPHALT at the centre of the server's simulator. *)
Lemma X2_hotspot_is_first_maximum_witness :
  exists (i j : Z) (ht : float),
    temperature heated_world i j = Ok ht /\
    snap_hotspot (snapshot_of heated_world)
    = (fst (grid_to_latlon (np := sample_numpy) (self heated_world) i j),
       snd (grid_to_latlon (np := sample_numpy) (self heated_world) i j), ht).
Proof.
  destruct (wf_shape _ heated_world_wf _ (current_temp_loc (self heated_world)))
    as (ct & Hct & Hshape).
  destruct (X2_hotspot_is_first_maximum (np := sample_numpy) heated_world ct
              (snapshot_of heated_world) Hct Hshape)
    as (i & j & ht & _ & _ & Ht & Hhot & _).
  - vm_compute in Hct. injection Hct as <-. vm_compute. reflexivity.
  - vm_compute. reflexivity.
  - exists i, j, ht. split; assumption.
Defined.

(** X3 on the server's fresh simulator. *)
Lemma X3_get_state_returns_witness :
  snd (get_state (np := sample_numpy) server_world) = server_world.
Proof.
  exact (proj1 (X3_get_state_returns (np := sample_numpy) server_world
                  server_world_wf (proj1 server_grid) (proj2 server_grid))).
Defined.

(** X4 for ADD_PARK at the centre of the server's simulator. *)
Lemma X4_returned_snapshot_is_current_witness :
  get_state (np := sample_numpy)
    (snd (apply_intervention (np := sample_numpy) "ADD_PARK" 52.48 13.43 server_world))
  = (Ok (snapshot_of
           (snd (apply_intervention (np := sample_numpy) "ADD_PARK" 52.48 13.43
                   server_world))),
     snd (apply_intervention (np := sample_numpy) "ADD_PARK" 52.48 13.43 server_world)).
Proof.
  refine (proj1 (X4_returned_snapshot_is_current (np := sample_numpy) server_world
                   "ADD_PARK" 52.48 13.43 _ _)).
  vm_compute. reflexivity.
Defined.

(** X5 at the centre of the server's simulator: the cell behind the
    building keeps half of its wind, the cell beside it gets 1.3 times
    its wind. *)
Lemma X5_add_building_wind_witness :
  wind_u (snd (apply_intervention (np := sample_numpy) "ADD_BUILDING" 52.48 13.43
                 server_world)) 24 25 = Ok 1%float /\
  wind_u (snd (apply_intervention (np := sample_numpy) "ADD_BUILDING" 52.48 13.43
                 server_world)) 25 26 = Ok 2.6%float.
Proof.
  pose proof (X5_add_building_wind (np := sample_numpy) server_world 52.48 13.43 25 25
                2 1 [(-1, 0); (-2, -1); (-3, -1)] [(0, 1); (0, -1); (-1, 2); (1, -2)]
                server_world_wf (proj1 server_grid) (proj2 server_grid) server_centre)
    as Hwind.
  split.
  - refine (proj1 (Hwind _ _ _ _ 24 25 2%float 1%float _ _ _ _));
      solve [vm_compute; reflexivity | vm_compute; split; congruence].
  - refine (proj1 (Hwind _ _ _ _ 25 26 2%float 1%float _ _ _ _));
      solve [vm_compute; reflexivity | vm_compute; split; congruence].
Defined.

(** X6 behind five buildings on the server's simulator. *)
Lemma X6_add_building_calm_witness :
  wind_u (snd (apply_intervention (np := sample_numpy) "ADD_BUILDING" 52.48 13.429
                 calm_world)) 23 25
  = wind_u calm_world 23 25.
Proof.
  refine (proj1 (X6_add_building_calm (np := sample_numpy) calm_world 52.48 13.429 24 25
                   0.0625 0.03125 calm_world_wf _ _ _ _ _ _ 23 25));
    solve [vm_compute; reflexivity | vm_compute; discriminate].
Defined.

(** X7 on the server's simulator with an infinite wind at the centre. *)
Lemma X7_add_building_failure_keeps_writes_witness :
  fst (apply_intervention (np := sample_numpy) "ADD_BUILDING" 52.48 13.43 storm_world)
  = Raise ValueError /\
  temperature (snd (apply_intervention (np := sample_numpy) "ADD_BUILDING" 52.48 13.43
                      storm_world)) 25 25 = Ok 31.5%float.
Proof.
  destruct (X7_add_building_failure_keeps_writes (np := sample_numpy) storm_world
              52.48 13.43 25 25 infinity 1 30 ValueError storm_world_wf
              (proj1 server_grid) (proj2 server_grid))
    as (Hret & _ & Htemp & _).
  - vm_compute. reflexivity.
  - vm_compute. reflexivity.
  - vm_compute. reflexivity.
  - vm_compute. reflexivity.
  - vm_compute. reflexivity.
  - split; [exact Hret|exact Htemp].
Defined.

(** X8: the offsets for the base wind (2.0, 1.0). *)
Lemma X8_wind_cells_shape_witness :
  exists a b c d : Z,
    [(0, 1); (0, -1); (-1, 2); (1, -2)] = [(a, b); (- a, - b); (c, d); (- c, - d)].
Proof.
  destruct (proj2 (X8_wind_cells_shape 2 1) [(0, 1); (0, -1); (-1, 2); (1, -2)])
    as [Hnil|Hpairs].
  - vm_compute. reflexivity.
  - discriminate Hnil.
  - exact Hpairs.
Defined.

(** X9 for ADD_PARK on the server's simulator. *)
Lemma X9_other_types_leave_wind_witness :
  current_locs
    (self (snd (apply_intervention (np := sample_numpy) "ADD_PARK" 52.48 13.43
                  server_world)))
  = current_locs (self server_world).
Proof.
  refine (proj1 (proj2 (X9_other_types_leave_wind (np := sample_numpy) server_world
                          "ADD_PARK" 52.48 13.43 _ _))); discriminate.
Defined.

(** X10 at the centre of the server's simulator. *)
Lemma X10_remove_building_twice_witness :
  wind_u (snd (apply_intervention (np := sample_numpy) "REMOVE_BUILDING" 52.48 13.43
                 (snd (apply_intervention (np := sample_numpy) "REMOVE_BUILDING"
                         52.48 13.43 server_world)))) 24 25
  = wind_u (snd (apply_intervention (np := sample_numpy) "REMOVE_BUILDING" 52.48 13.43
                   server_world)) 24 25.
Proof.
  refine (proj1 (X10_remove_building_twice (np := sample_numpy) server_world 52.48 13.43
                   25 25 server_world_wf (proj1 server_grid) (proj2 server_grid)
                   server_centre 24 25 _ _));
    vm_compute; split; congruence.
Defined.

(** X11 for a NaN longitude on the server's simulator. *)
Lemma X11_nan_coordinate_rejected_witness :
  apply_intervention (np := sample_numpy) "ADD_PARK" 52.48 nan server_world
  = (Raise ValueError, server_world).
Proof.
  refine (proj1 (X11_nan_coordinate_rejected (np := sample_numpy) server_world
                   "ADD_PARK" 52.48 nan) _).
  vm_compute. reflexivity.
Defined.

(** X12 after one call on the server's simulator. *)
Lemma X12_geometry_is_fixed_witness :
  latlon_to_grid (np := sample_numpy)
    (self (snd (apply_intervention (np := sample_numpy) "ADD_WATER" 52.48 13.43
                  server_world))) 52.48 13.43
  = Ok (25, 25).
Proof.
  rewrite <- server_centre.
  refine (proj1 (X12_geometry_is_fixed (np := sample_numpy) server_world _
                   server_world_wf (rtc_once _ _ (step_apply_intervention _ _ _ _)))
            52.48%float 13.43%float).
Defined.

(** X13 at the south-west corner of the 3x3 sample provider, whose raw
    elevation of -5 m is floored to 25 m. *)
Lemma X13_elevation_within_bounds_witness :
  exists b, Relief.get_bounds sample_relief = Ok b /\
    (Relief.min_elevation b <=? 25)%float = true /\
    (25 <=? Relief.max_elevation b)%float = true.
Proof.
  refine (proj2 (X13_elevation_within_bounds 52.48 13.43 (3, 3)
                   [[-5; 30; 30]; [30; 30; 30]; [30; 30.5; 31]]%float
                   52.45 13.38 25 _ _)); vm_compute; reflexivity.
Defined.

(** X14 on the 3x3 sample provider. *)
Lemma X14_get_bounds_box_witness :
  exists b, Relief.get_bounds sample_relief = Ok b /\
    (25 <=? Relief.min_elevation b)%float = true /\
    (Relief.min_elevation b <=? Relief.max_elevation b)%float = true.
Proof.
  refine (proj2 (proj2 (X14_get_bounds_box 52.48 13.43 (3, 3)
                          [[-5; 30; 30]; [30; 30; 30]; [30; 30.5; 31]]%float)) _ _).
  - discriminate.
  - vm_compute. reflexivity.
Defined.

(** X15 for a NaN latitude on the 3x3 sample provider. *)
Lemma X15_nan_elevation_query_witness :
  Relief.get_elevation_at sample_relief nan 13.43 = Raise ValueError.
Proof.
  refine (proj1 (X15_nan_elevation_query 52.48 13.43 (3, 3)
                   [[-5; 30; 30]; [30; 30; 30]; [30; 30.5; 31]]%float nan 13.43) _).
  vm_compute. reflexivity.
Defined.

(** X16 on the 3x3 sample provider, every second cell: four entries. *)
Lemma X16_elevation_data_samples_witness :
  exists data, Relief.get_elevation_data sample_relief 2 = Ok data /\
               length data = 4%nat.
Proof.
  destruct (proj2 (proj2 (X16_elevation_data_samples 52.48 13.43 3 3
                            [[-5; 30; 30]; [30; 30; 30]; [30; 30.5; 31]]%float 2)))
    as (data & Hdata & Hlen & _).
  - lia.
  - split; [reflexivity|]. repeat constructor.
  - exists data. split; [exact Hdata|exact Hlen].
Defined.

(** X17 on the 3x3 sample provider: the first point of the first
    group. *)
Lemma X17_contour_points_near_level_witness :
  match Relief.get_contour_lines sample_relief None with
  | Ok (g :: _) =>
      exists pts, Relief.contour_points sample_relief (Relief.elevation g) = Ok pts /\
                  Relief.points g ⊆+ pts
  | _ => False
  end.
Proof.
  destruct (Relief.get_contour_lines sample_relief None) as [[|g groups]|e] eqn:Hret.
  - vm_compute in Hret. discriminate.
  - destruct (X17_contour_points_near_level sample_relief None (g :: groups) g Hret)
      as (pts & Hpts & Hsub & _); [left|].
    exists pts. split; assumption.
  - vm_compute in Hret. discriminate.
Defined.

(** X18 on the 3x3 sample provider with the single level 30. *)
Lemma X18_contour_levels_in_order_witness :
  match Relief.get_contour_lines sample_relief (Some [30%float]) with
  | Ok groups => sublist (map Relief.elevation groups) [30%float]
  | Raise _ => False
  end.
Proof.
  destruct (Relief.get_contour_lines sample_relief (Some [30%float]))
    as [groups|e] eqn:Hret.
  - exact (proj1 (X18_contour_levels_in_order sample_relief [30%float] groups Hret)).
  - vm_compute in Hret. discriminate.
Defined.

(** X19 at cell (1, 1), which maps back to (0, 0). *)
Lemma X19_relief_round_trip_within_one_witness :
  exists (lat lon : float) (x' y' : Z),
    Relief.grid_to_latlon (relief_provider []) 1 1 = Ok (lat, lon) /\
    Relief.latlon_to_grid (relief_provider []) lat lon = Ok (x', y') /\
    0 <= x' <= 1 /\ 0 <= y' <= 1.
Proof.
  destruct (X19_relief_round_trip_within_one [] 1 1)
    as (lat & lon & x' & y' & Hg & _ & _ & _ & _ & Hl & Hx & Hy); [lia..|].
  exists lat, lon, x', y'. repeat split; try assumption; lia.
Defined.

(** X20 for ADD_ASPHALT at the centre of the server's simulator: the
    hotspot is the centre cell at 32.5. *)
Lemma X20_heating_moves_hotspot_witness :
  snap_hotspot (snapshot_of heated_world)
  = (fst (grid_to_latlon (np := sample_numpy) (self server_world) 25 25),
     snd (grid_to_latlon (np := sample_numpy) (self server_world) 25 25),
     (30 + 2.5)%float).
Proof.
  refine (X20_heating_moves_hotspot (np := sample_numpy) (50, 50) 52.48 13.43 ∅
            server_world "ADD_ASPHALT" 2.5 52.48 13.43 25 25
            (snapshot_of heated_world) server_world_init _ _ _ _ server_centre _).
  - cbn [fst]. lia.
  - cbn [snd]. lia.
  - vm_compute. reflexivity.
  - vm_compute. reflexivity.
  - vm_compute. reflexivity.
Defined.

(** X21 for the server's 50x50 grid. *)
Lemma X21_constructor_witness :
  exists w, ClimateSimulator_init (50, 50) 52.48 13.43 ∅ = Ok w /\
            wf w.
Proof.
  destruct (proj2 (X21_constructor (50, 50) 52.48 13.43 ∅))
    as (w & Hinit & Hwf & _).
  - cbn [fst]. lia.
  - cbn [snd]. lia.
  - exists w. split; [exact Hinit|exact Hwf].
Defined.

(** X22 on the server's simulator. *)
Lemma X22_base_coordinate_is_centre_witness :
  latlon_to_grid (np := sample_numpy) (self server_world)
    (base_lat (self server_world)) (base_lon (self server_world))
  = Ok (grid_width (self server_world) / 2, grid_height (self server_world) / 2).
Proof.
  refine (X22_base_coordinate_is_centre (np := sample_numpy) (self server_world)
            _ _ _ _ _).
  - vm_compute. split; [discriminate|reflexivity].
  - vm_compute. split; [discriminate|reflexivity].
  - vm_compute. reflexivity.
  - vm_compute. reflexivity.
  - vm_compute. reflexivity.
Defined.

(** X23 on the server's 100x100 relief grid. *)
Lemma X23_relief_corners_witness :
  Relief.latlon_to_grid (relief_provider []) 52.51 13.48 = Ok (100 - 1, 100 - 1).
Proof.
  refine (proj2 (X23_relief_corners 52.48 13.43 100 100 [] _ _)).
  - vm_compute. split; [discriminate|reflexivity].
  - vm_compute. split; [discriminate|reflexivity].
Defined.

(** X24 for ADD_PARK at the centre of the server's simulator. *)
Lemma X24_other_types_return_witness :
  exists snap,
    fst (apply_intervention (np := sample_numpy) "ADD_PARK" 52.48 13.43 server_world)
    = Ok snap.
Proof.
  refine (X24_other_types_return (np := sample_numpy) server_world "ADD_PARK"
            52.48 13.43 25 25 server_world_wf (proj1 server_grid) (proj2 server_grid)
            _ _ server_centre _).
  - discriminate.
  - discriminate.
  - vm_compute. reflexivity.
Defined.
